(** * agent-copilot-cli: session parsing, caching and watching

    A shallow embedding of the Copilot CLI agent plugin
    ([src/utils.ts], [src/types.ts], [src/parser.ts], [src/paths.ts],
    [src/watcher.ts]) and the properties of its parsing, caching and
    tailing logic.

    Conventions.
    - A JavaScript string is a [string]; each character stands for one
      UTF-16 code unit, so [String.length] is [.length].
    - A JavaScript number that holds a count, a byte offset or an epoch
      time is a [Z]. An optional property is an [option].
    - The process-wide module state, the file system and the clock live in
      one [World]; every function of the plugin that touches them is a
      computation in the monad [M], which threads the world and carries
      the exceptions that the source catches with [try]/[catch].
    - The file system is a snapshot of what each operation would answer;
      between two calls of the plugin the environment replaces it
      ([set_fs]). Every call to it is logged in [w_calls], so that
      "without a call to the file system" is a statement about the log.
    - An [async] function is run to its end: the promise of
      [getSessionDirs().then(...)] in the two start functions is run when
      the synchronous body is over, before the caller goes on. Where the
      caller going on first makes a difference, the body and the
      continuation of [startSessionWatcher] are run apart
      ([startSessionWatcherNow], [watchListedSessionDirs]).
    - [cache.ts] is not among the sources. Its three stores are fields of
      the world, typed by their uses in [parser.ts]; [CACHE_TTL_MS] and
      the effect of [evictSessionAggregateCache] on the aggregate cache
      are variables of the section [Plugin].
    - [JSON.parse] and [Date.parse] are variables too: a parse is a
      function from the text to the event the type guards read, [None]
      when it throws or does not give a finite time. The logger of the
      fetch context has no effect on the state and is left out. *)

From Stdlib Require Import ZArith Ascii String List Lia Sorted Permutation.
From stdpp Require Import base option list gmap strings.

Local Open Scope Z_scope.

(* ===================================================================== *)
(** * JavaScript strings *)
(* ===================================================================== *)

Module Js.

Definition LF : ascii := "010"%char.
Definition CR : ascii := "013"%char.

(** White space removed by [String.prototype.trim], among the code units
    below 256: TAB, LF, VT, FF, CR, SPACE and NBSP. *)
Definition isWhiteSpace (c : ascii) : bool :=
  let n := nat_of_ascii c in
  ((9 <=? n)%nat && (n <=? 13)%nat) || (n =? 32)%nat || (n =? 160)%nat.

(** Line terminators, the characters that [.] of a regular expression
    does not match. *)
Definition isLineTerminator (c : ascii) : bool :=
  Ascii.eqb c LF || Ascii.eqb c CR.

Definition isEmpty (s : string) : bool :=
  match s with EmptyString => true | String _ _ => false end.

Fixpoint trimStart (s : string) : string :=
  match s with
  | EmptyString => EmptyString
  | String c r => if isWhiteSpace c then trimStart r else s
  end.

Fixpoint trimEnd (s : string) : string :=
  match s with
  | EmptyString => EmptyString
  | String c r =>
      let r' := trimEnd r in
      if isWhiteSpace c && isEmpty r' then EmptyString else String c r'
  end.

Definition trim (s : string) : string := trimEnd (trimStart s).

(** Put a character in front of the first line of a split. *)
Definition consLine (c : ascii) (ls : list string) : list string :=
  match ls with
  | l :: ls' => String c l :: ls'
  | [] => [String c EmptyString]
  end.

(** [s.split(/\r?\n/)] *)
Fixpoint splitLines (s : string) : list string :=
  match s with
  | EmptyString => [EmptyString]
  | String c r =>
      if Ascii.eqb c LF then EmptyString :: splitLines r
      else
        match r with
        | String c' r' =>
            if Ascii.eqb c CR && Ascii.eqb c' LF
            then EmptyString :: splitLines r'
            else consLine c (splitLines r)
        | EmptyString => consLine c (splitLines r)
        end
  end.

(** [s.startsWith(p)] *)
Definition startsWith (p s : string) : bool := String.prefix p s.

(** [s.endsWith(p)] *)
Definition endsWith (p s : string) : bool :=
  let n := String.length s in
  let k := String.length p in
  (k <=? n)%nat && String.eqb (String.substring (n - k) k s) p.

(** [s.indexOf(c)] for a one-character needle; [None] is [-1]. *)
Fixpoint indexOfChar (c : ascii) (s : string) : option nat :=
  match s with
  | EmptyString => None
  | String d r =>
      if Ascii.eqb c d then Some 0%nat
      else option_map S (indexOfChar c r)
  end.

(** [s.slice(i)] for [0 <= i]. *)
Fixpoint sliceFrom (i : nat) (s : string) : string :=
  match i, s with
  | O, _ => s
  | S j, EmptyString => EmptyString
  | S j, String _ r => sliceFrom j r
  end.

(** [s.slice(0, i)] *)
Definition sliceTo (i : nat) (s : string) : string := String.substring 0 i s.

Definition length (s : string) : Z := Z.of_nat (String.length s).

(** [Math.ceil(a / b)] for integers [a] and [0 < b]. *)
Definition ceilDiv (a b : Z) : Z := - ((- a) / b).

(** Truthiness of an optional number: [undefined], [0] are falsy. *)
Definition truthyNum (o : option Z) : bool :=
  match o with Some n => negb (n =? 0) | None => false end.

(** Truthiness of an optional string: [undefined], [""] are falsy. *)
Definition truthyStr (o : option string) : bool :=
  match o with Some s => negb (isEmpty s) | None => false end.

(** [a ?? b] *)
Definition nullish {A} (o : option A) (d : A) : A :=
  match o with Some a => a | None => d end.

(** [a || undefined] on an optional string: the empty string is dropped. *)
Definition orUndefined (o : option string) : option string :=
  if truthyStr o then o else None.

End Js.

(* ===================================================================== *)
(** * Paths ([path.join], [path.basename]) *)
(* ===================================================================== *)

Module Path.

Definition sep : ascii := "/"%char.

(** [path.join(dir, name)] for a directory path and a plain name. *)
Definition join (dir name : string) : string :=
  dir +:+ String sep name.

(** Last segment of a path that does not end in a separator. *)
Fixpoint basename (p : string) : string :=
  match p with
  | EmptyString => EmptyString
  | String c r =>
      match Js.indexOfChar sep r with
      | Some _ => basename r
      | None => if Ascii.eqb c sep then r else p
      end
  end.

End Path.

(* ===================================================================== *)
(** * Data model ([src/types.ts]) *)
(* ===================================================================== *)

(** The [usage] block of an assistant message; every count is optional. *)
Record Usage := mkUsage {
  prompt_tokens : option Z;
  completion_tokens : option Z;
  cache_creation_input_tokens : option Z;
  cache_read_input_tokens : option Z;
  cached_tokens : option Z;
  total_tokens : option Z
}.

(** The [data] payload of an event, seen through [Partial<...>] as the
    type guards do: every property may be missing. *)
Record EventData := mkEventData {
  d_messageId : option string;
  d_content : option string;
  d_usage : option Usage;
  d_model : option string;
  d_newModel : option string;
  d_previousModel : option string;
  d_sessionId : option string
}.

(** [CopilotCliEventBase]: one line of [events.jsonl]. [e_data] is [None]
    when [data] is missing or is not an object. *)
Record CopilotCliEventBase := mkEvent {
  e_type : option string;
  e_data : option EventData;
  e_id : option string;
  e_timestamp : option string;
  e_parentId : option string
}.

(** What [JSON.parse] yields for a line: an object, or a value that is not
    an object ([null], a number, a string, a boolean). *)
Inductive JsValue :=
| JsObject (e : CopilotCliEventBase)
| JsNotObject.

(** [CopilotCliWorkspaceInfo] ([summary_count] is not read by the plugin and
    is left out). *)
Record CopilotCliWorkspaceInfo := mkWorkspace {
  ws_id : string;
  ws_cwd : string;
  ws_git_root : option string;
  ws_repository : option string;
  ws_branch : option string;
  ws_summary : option string;
  ws_created_at : string;
  ws_updated_at : string
}.

(** [SessionUsageData] of the plugin SDK, as the parser fills it. *)
Record TokenCounts := mkTokens {
  t_input : Z;
  t_output : Z;
  t_cacheRead : option Z;
  t_cacheWrite : option Z
}.

Record SessionUsageData := mkRow {
  r_sessionId : string;
  r_providerId : string;
  r_modelId : string;
  r_tokens : TokenCounts;
  r_timestamp : Z;
  r_sessionUpdatedAt : Z;
  r_isEstimated : bool;
  r_sessionName : option string;
  r_projectPath : option string
}.

(** [ActivityUpdate] of the plugin SDK, as the tailing watcher fills it. *)
Record ActivityUpdate := mkUpdate {
  u_sessionId : string;
  u_messageId : string;
  u_tokens : TokenCounts;
  u_timestamp : Z
}.

Record SessionAggregateCacheEntry := mkEntry {
  updatedAt : Z;
  usageRows : list SessionUsageData;
  lastAccessed : Z
}.

(** An entry of [sessionMetadataIndex]. *)
Record SessionMetadata := mkMeta {
  m_mtimeMs : Z;
  m_sessionId : string
}.

(** [sessionCache], the single-slot result cache. *)
Record SessionCache := mkSessionCache {
  lastCheck : Z;
  lastResult : list SessionUsageData;
  lastLimit : option Z;
  lastSince : option Z
}.

(** [SessionParseOptions] *)
Record SessionParseOptions := mkOptions {
  o_limit : option Z;
  o_since : option Z;
  o_sessionId : option string
}.

(** [ParsedSessionDir] *)
Record ParsedSessionDir := mkDir {
  p_sessionId : string;
  p_dirPath : string;
  p_mtimeMs : Z
}.

#[global] Instance Usage_eq_dec : EqDecision Usage.
Proof. solve_decision. Defined.
#[global] Instance TokenCounts_eq_dec : EqDecision TokenCounts.
Proof. solve_decision. Defined.
#[global] Instance SessionUsageData_eq_dec : EqDecision SessionUsageData.
Proof. solve_decision. Defined.

(* ===================================================================== *)
(** * The world: file system, clock and module state *)
(* ===================================================================== *)

Record Stats := mkStats {
  st_mtimeMs : Z;
  st_size : Z
}.

Record Dirent := mkDirent {
  de_name : string;
  de_isFile : bool;
  de_isDirectory : bool
}.

(** The file system at the time of a call. [None] and [false] are the
    operations that reject or throw. *)
Record FileSystem := mkFs {
  fs_access : string -> bool;
  fs_readdir : string -> option (list Dirent);
  fs_stat : string -> option Stats;
  fs_readFile : string -> option string;
  (** open the file, read [length] bytes at [position], close, decode *)
  fs_read : string -> Z -> Z -> option string;
  fs_existsSync : string -> bool;
  (** [fsSync.watch] on the path succeeds *)
  fs_watchable : string -> bool
}.

(** The calls made to the file system, in order. *)
Inductive FsCall :=
| CallAccess (p : string)
| CallReaddir (p : string)
| CallStat (p : string)
| CallReadFile (p : string)
| CallRead (p : string) (position length : Z)
| CallExistsSync (p : string)
| CallWatch (p : string).

(** What a watch is for: its listener. *)
Inductive Listener :=
| DirtyDirListener (sessionDirPath : string)
| DirtyRootListener
| ActivityDirListener (sessionDirPath : string)
| ActivityRootListener.

(** An [FSWatcher] handle. *)
Record FSWatcher := mkWatcher {
  fw_id : nat;
  fw_listener : Listener
}.

#[projections(primitive)]
Record SessionWatcherState := mkSessionWatcher {
  sw_sessionDirWatchers : gmap string FSWatcher;
  sw_rootWatcher : option FSWatcher;
  sw_dirtyPaths : gset string;
  sw_reconciliationTimer : option nat;
  sw_started : bool
}.

#[projections(primitive)]
Record ActivityWatcherState := mkActivityWatcher {
  aw_sessionDirWatchers : gmap string FSWatcher;
  aw_rootWatcher : option FSWatcher;
  (** the registered callback, by name *)
  aw_callback : option nat;
  aw_fileOffsets : gmap string Z;
  aw_started : bool
}.

#[projections(primitive)]
Record World := mkWorld {
  w_fs : FileSystem;
  w_calls : list FsCall;
  (** [Date.now()]: the readings still to come *)
  w_clock : nat -> Z;
  w_ticks : nat;
  (** [cache.ts] *)
  w_sessionCache : SessionCache;
  w_sessionMetadataIndex : gmap string SessionMetadata;
  w_sessionAggregateCache : gmap string SessionAggregateCacheEntry;
  (** [parser.ts] *)
  w_cachedModel : option string;
  w_modelCacheTime : Z;
  (** [watcher.ts] *)
  w_sessionWatcher : SessionWatcherState;
  w_activityWatcher : ActivityWatcherState;
  w_forceFullReconciliation : bool;
  (** the runtime: live watch handles, live interval timers, fresh names,
      and the invocations of activity callbacks so far *)
  w_openWatchers : gset nat;
  w_activeTimers : gset nat;
  w_nextHandle : nat;
  w_delivered : list (nat * ActivityUpdate)
}.

(** Field updates of the world. [set_fs] is what the environment does to
    the files between two calls of the plugin. *)
Definition set_fs (x : FileSystem) (w : World) : World :=
  mkWorld x (w_calls w) (w_clock w) (w_ticks w) (w_sessionCache w) (w_sessionMetadataIndex w) (w_sessionAggregateCache w) (w_cachedModel w) (w_modelCacheTime w) (w_sessionWatcher w) (w_activityWatcher w) (w_forceFullReconciliation w) (w_openWatchers w) (w_activeTimers w) (w_nextHandle w) (w_delivered w).
Definition set_calls (x : list FsCall) (w : World) : World :=
  mkWorld (w_fs w) x (w_clock w) (w_ticks w) (w_sessionCache w) (w_sessionMetadataIndex w) (w_sessionAggregateCache w) (w_cachedModel w) (w_modelCacheTime w) (w_sessionWatcher w) (w_activityWatcher w) (w_forceFullReconciliation w) (w_openWatchers w) (w_activeTimers w) (w_nextHandle w) (w_delivered w).
Definition set_ticks (x : nat) (w : World) : World :=
  mkWorld (w_fs w) (w_calls w) (w_clock w) x (w_sessionCache w) (w_sessionMetadataIndex w) (w_sessionAggregateCache w) (w_cachedModel w) (w_modelCacheTime w) (w_sessionWatcher w) (w_activityWatcher w) (w_forceFullReconciliation w) (w_openWatchers w) (w_activeTimers w) (w_nextHandle w) (w_delivered w).
Definition set_sessionCache (x : SessionCache) (w : World) : World :=
  mkWorld (w_fs w) (w_calls w) (w_clock w) (w_ticks w) x (w_sessionMetadataIndex w) (w_sessionAggregateCache w) (w_cachedModel w) (w_modelCacheTime w) (w_sessionWatcher w) (w_activityWatcher w) (w_forceFullReconciliation w) (w_openWatchers w) (w_activeTimers w) (w_nextHandle w) (w_delivered w).
Definition set_sessionMetadataIndex (x : gmap string SessionMetadata) (w : World) : World :=
  mkWorld (w_fs w) (w_calls w) (w_clock w) (w_ticks w) (w_sessionCache w) x (w_sessionAggregateCache w) (w_cachedModel w) (w_modelCacheTime w) (w_sessionWatcher w) (w_activityWatcher w) (w_forceFullReconciliation w) (w_openWatchers w) (w_activeTimers w) (w_nextHandle w) (w_delivered w).
Definition set_sessionAggregateCache (x : gmap string SessionAggregateCacheEntry) (w : World) : World :=
  mkWorld (w_fs w) (w_calls w) (w_clock w) (w_ticks w) (w_sessionCache w) (w_sessionMetadataIndex w) x (w_cachedModel w) (w_modelCacheTime w) (w_sessionWatcher w) (w_activityWatcher w) (w_forceFullReconciliation w) (w_openWatchers w) (w_activeTimers w) (w_nextHandle w) (w_delivered w).
Definition set_cachedModel (x : option string) (w : World) : World :=
  mkWorld (w_fs w) (w_calls w) (w_clock w) (w_ticks w) (w_sessionCache w) (w_sessionMetadataIndex w) (w_sessionAggregateCache w) x (w_modelCacheTime w) (w_sessionWatcher w) (w_activityWatcher w) (w_forceFullReconciliation w) (w_openWatchers w) (w_activeTimers w) (w_nextHandle w) (w_delivered w).
Definition set_modelCacheTime (x : Z) (w : World) : World :=
  mkWorld (w_fs w) (w_calls w) (w_clock w) (w_ticks w) (w_sessionCache w) (w_sessionMetadataIndex w) (w_sessionAggregateCache w) (w_cachedModel w) x (w_sessionWatcher w) (w_activityWatcher w) (w_forceFullReconciliation w) (w_openWatchers w) (w_activeTimers w) (w_nextHandle w) (w_delivered w).
Definition set_sessionWatcher (x : SessionWatcherState) (w : World) : World :=
  mkWorld (w_fs w) (w_calls w) (w_clock w) (w_ticks w) (w_sessionCache w) (w_sessionMetadataIndex w) (w_sessionAggregateCache w) (w_cachedModel w) (w_modelCacheTime w) x (w_activityWatcher w) (w_forceFullReconciliation w) (w_openWatchers w) (w_activeTimers w) (w_nextHandle w) (w_delivered w).
Definition set_activityWatcher (x : ActivityWatcherState) (w : World) : World :=
  mkWorld (w_fs w) (w_calls w) (w_clock w) (w_ticks w) (w_sessionCache w) (w_sessionMetadataIndex w) (w_sessionAggregateCache w) (w_cachedModel w) (w_modelCacheTime w) (w_sessionWatcher w) x (w_forceFullReconciliation w) (w_openWatchers w) (w_activeTimers w) (w_nextHandle w) (w_delivered w).
Definition set_forceFullReconciliation (x : bool) (w : World) : World :=
  mkWorld (w_fs w) (w_calls w) (w_clock w) (w_ticks w) (w_sessionCache w) (w_sessionMetadataIndex w) (w_sessionAggregateCache w) (w_cachedModel w) (w_modelCacheTime w) (w_sessionWatcher w) (w_activityWatcher w) x (w_openWatchers w) (w_activeTimers w) (w_nextHandle w) (w_delivered w).
Definition set_openWatchers (x : gset nat) (w : World) : World :=
  mkWorld (w_fs w) (w_calls w) (w_clock w) (w_ticks w) (w_sessionCache w) (w_sessionMetadataIndex w) (w_sessionAggregateCache w) (w_cachedModel w) (w_modelCacheTime w) (w_sessionWatcher w) (w_activityWatcher w) (w_forceFullReconciliation w) x (w_activeTimers w) (w_nextHandle w) (w_delivered w).
Definition set_activeTimers (x : gset nat) (w : World) : World :=
  mkWorld (w_fs w) (w_calls w) (w_clock w) (w_ticks w) (w_sessionCache w) (w_sessionMetadataIndex w) (w_sessionAggregateCache w) (w_cachedModel w) (w_modelCacheTime w) (w_sessionWatcher w) (w_activityWatcher w) (w_forceFullReconciliation w) (w_openWatchers w) x (w_nextHandle w) (w_delivered w).
Definition set_nextHandle (x : nat) (w : World) : World :=
  mkWorld (w_fs w) (w_calls w) (w_clock w) (w_ticks w) (w_sessionCache w) (w_sessionMetadataIndex w) (w_sessionAggregateCache w) (w_cachedModel w) (w_modelCacheTime w) (w_sessionWatcher w) (w_activityWatcher w) (w_forceFullReconciliation w) (w_openWatchers w) (w_activeTimers w) x (w_delivered w).
Definition set_delivered (x : list (nat * ActivityUpdate)) (w : World) : World :=
  mkWorld (w_fs w) (w_calls w) (w_clock w) (w_ticks w) (w_sessionCache w) (w_sessionMetadataIndex w) (w_sessionAggregateCache w) (w_cachedModel w) (w_modelCacheTime w) (w_sessionWatcher w) (w_activityWatcher w) (w_forceFullReconciliation w) (w_openWatchers w) (w_activeTimers w) (w_nextHandle w) x.

(** Field updates of the two watcher states. *)
Definition sw_set_sessionDirWatchers (x : gmap string FSWatcher) (s : SessionWatcherState) :=
  mkSessionWatcher x (sw_rootWatcher s) (sw_dirtyPaths s) (sw_reconciliationTimer s) (sw_started s).
Definition sw_set_rootWatcher (x : option FSWatcher) (s : SessionWatcherState) :=
  mkSessionWatcher (sw_sessionDirWatchers s) x (sw_dirtyPaths s) (sw_reconciliationTimer s) (sw_started s).
Definition sw_set_dirtyPaths (x : gset string) (s : SessionWatcherState) :=
  mkSessionWatcher (sw_sessionDirWatchers s) (sw_rootWatcher s) x (sw_reconciliationTimer s) (sw_started s).
Definition sw_set_reconciliationTimer (x : option nat) (s : SessionWatcherState) :=
  mkSessionWatcher (sw_sessionDirWatchers s) (sw_rootWatcher s) (sw_dirtyPaths s) x (sw_started s).
Definition sw_set_started (x : bool) (s : SessionWatcherState) :=
  mkSessionWatcher (sw_sessionDirWatchers s) (sw_rootWatcher s) (sw_dirtyPaths s) (sw_reconciliationTimer s) x.

Definition aw_set_sessionDirWatchers (x : gmap string FSWatcher) (s : ActivityWatcherState) :=
  mkActivityWatcher x (aw_rootWatcher s) (aw_callback s) (aw_fileOffsets s) (aw_started s).
Definition aw_set_rootWatcher (x : option FSWatcher) (s : ActivityWatcherState) :=
  mkActivityWatcher (aw_sessionDirWatchers s) x (aw_callback s) (aw_fileOffsets s) (aw_started s).
Definition aw_set_callback (x : option nat) (s : ActivityWatcherState) :=
  mkActivityWatcher (aw_sessionDirWatchers s) (aw_rootWatcher s) x (aw_fileOffsets s) (aw_started s).
Definition aw_set_fileOffsets (x : gmap string Z) (s : ActivityWatcherState) :=
  mkActivityWatcher (aw_sessionDirWatchers s) (aw_rootWatcher s) (aw_callback s) x (aw_started s).
Definition aw_set_started (x : bool) (s : ActivityWatcherState) :=
  mkActivityWatcher (aw_sessionDirWatchers s) (aw_rootWatcher s) (aw_callback s) (aw_fileOffsets s) x.

(* ===================================================================== *)
(** * The monad of the plugin's effectful functions *)
(* ===================================================================== *)

(** A call either returns or throws. *)
Inductive Outcome (A : Type) :=
| Returned (a : A)
| Raised.
Arguments Returned {A} a.
Arguments Raised {A}.

Definition M (A : Type) : Type := World -> Outcome A * World.

Definition ret {A} (a : A) : M A := fun w => (Returned a, w).

Definition bind {A B} (m : M A) (k : A -> M B) : M B :=
  fun w =>
    match m w with
    | (Returned a, w') => k a w'
    | (Raised, w') => (Raised, w')
    end.

(** [throw] *)
Definition raise {A} : M A := fun w => (Raised, w).

(** [try { body } catch { handler }] *)
Definition tryCatch {A} (body handler : M A) : M A :=
  fun w =>
    match body w with
    | (Returned a, w') => (Returned a, w')
    | (Raised, w') => handler w'
    end.

Definition gets {A} (f : World -> A) : M A := fun w => (Returned (f w), w).
Definition modify (f : World -> World) : M unit := fun w => (Returned tt, f w).

Declare Scope plugin_scope.
Delimit Scope plugin_scope with plugin.
Notation "x <- m ;; k" := (bind m (fun x => k))
  (at level 100, m at next level, right associativity) : plugin_scope.
Notation "m ;;; k" := (bind m (fun _ => k))
  (at level 100, right associativity) : plugin_scope.
Local Open Scope plugin_scope.

(** [for (const x of xs) body(x)] *)
Fixpoint forEach {A} (xs : list A) (body : A -> M unit) : M unit :=
  match xs with
  | [] => ret tt
  | x :: xs' => body x ;;; forEach xs' body
  end.

(** The value and the world a computation ends with. *)
Definition result {A} (m : M A) (w : World) : Outcome A := fst (m w).
Definition after {A} (m : M A) (w : World) : World := snd (m w).

(** ** Primitives of the runtime *)

Definition logCall (c : FsCall) : M unit :=
  modify (fun w => set_calls (w_calls w ++ [c]) w).

Definition liftOption {A} (o : option A) : M A :=
  match o with Some a => ret a | None => raise end.

Module Fs.

(** [await fs.access(p)] *)
Definition access (p : string) : M unit :=
  logCall (CallAccess p) ;;;
  ok <- gets (fun w => fs_access (w_fs w) p) ;;
  if ok : bool then ret tt else raise.

(** [await fs.readdir(p, { withFileTypes: true })] *)
Definition readdir (p : string) : M (list Dirent) :=
  logCall (CallReaddir p) ;;;
  o <- gets (fun w => fs_readdir (w_fs w) p) ;;
  liftOption o.

(** [await fs.stat(p)] *)
Definition stat (p : string) : M Stats :=
  logCall (CallStat p) ;;;
  o <- gets (fun w => fs_stat (w_fs w) p) ;;
  liftOption o.

(** [await fs.readFile(p, 'utf-8')] *)
Definition readFile (p : string) : M string :=
  logCall (CallReadFile p) ;;;
  o <- gets (fun w => fs_readFile (w_fs w) p) ;;
  liftOption o.

(** [fs.open(p, 'r')], [handle.read(buffer, 0, length, position)],
    [handle.close()], [buffer.toString('utf-8')] *)
Definition readAt (p : string) (position length : Z) : M string :=
  logCall (CallRead p position length) ;;;
  o <- gets (fun w => fs_read (w_fs w) p position length) ;;
  liftOption o.

(** [fsSync.existsSync(p)] *)
Definition existsSync (p : string) : M bool :=
  logCall (CallExistsSync p) ;;;
  gets (fun w => fs_existsSync (w_fs w) p).

(** [fsSync.watch(p, listener)] *)
Definition watch (p : string) (l : Listener) : M FSWatcher :=
  logCall (CallWatch p) ;;;
  ok <- gets (fun w => fs_watchable (w_fs w) p) ;;
  if ok : bool then
    n <- gets w_nextHandle ;;
    modify (fun w => set_nextHandle (S n)
                       (set_openWatchers ({[ n ]} ∪ w_openWatchers w) w)) ;;;
    ret (mkWatcher n l)
  else raise.

(** [watcher.close()] *)
Definition close (h : FSWatcher) : M unit :=
  modify (fun w => set_openWatchers (w_openWatchers w ∖ {[ fw_id h ]}) w).

End Fs.

(** [Date.now()] *)
Definition Date_now : M Z :=
  n <- gets w_ticks ;;
  t <- gets (fun w => w_clock w n) ;;
  modify (set_ticks (S n)) ;;;
  ret t.

(** [setInterval(() => { forceFullReconciliation = true }, ms)] *)
Definition setInterval : M nat :=
  n <- gets w_nextHandle ;;
  modify (fun w => set_nextHandle (S n)
                     (set_activeTimers ({[ n ]} ∪ w_activeTimers w) w)) ;;;
  ret n.

(** [clearInterval(t)] *)
Definition clearInterval (t : nat) : M unit :=
  modify (fun w => set_activeTimers (w_activeTimers w ∖ {[ t ]}) w).

(* ===================================================================== *)
(** * Arrays and insertion-ordered maps of the JavaScript runtime *)
(* ===================================================================== *)

Section Arrays.
Context {A : Type}.

(** [Array.prototype.sort(cmp)]: a stable sort; [cmp a b <= 0] keeps [a]
    before [b]. *)
Fixpoint sortInsert (cmp : A -> A -> Z) (x : A) (l : list A) : list A :=
  match l with
  | [] => [x]
  | y :: l' => if cmp x y <=? 0 then x :: l else y :: sortInsert cmp x l'
  end.

Definition sortBy (cmp : A -> A -> Z) (l : list A) : list A :=
  foldr (sortInsert cmp) [] l.

(** [Map.prototype.set(k, v)] on a [Map] kept in insertion order: an
    existing key keeps its place and takes the new value, a new key goes
    to the end. *)
Fixpoint mapSet (k : string) (v : A) (m : list (string * A)) : list (string * A) :=
  match m with
  | [] => [(k, v)]
  | (k', v') :: m' =>
      if String.eqb k k' then (k, v) :: m' else (k', v') :: mapSet k v m'
  end.

(** [Map.prototype.get(k)] *)
Fixpoint mapGet (k : string) (m : list (string * A)) : option A :=
  match m with
  | [] => None
  | (k', v') :: m' => if String.eqb k k' then Some v' else mapGet k m'
  end.

(** [Array.from(map.values())] *)
Definition mapValues (m : list (string * A)) : list A := map snd m.

Definition mapKeys (m : list (string * A)) : list string := map fst m.

(** A run of [set] calls. *)
Definition setAll (kvs m : list (string * A)) : list (string * A) :=
  fold_left (fun m kv => mapSet kv.1 kv.2 m) kvs m.

End Arrays.

(** A loop that threads an accumulator through effectful steps. *)
Fixpoint foldM {A S : Type} (f : S -> A -> M S) (xs : list A) (s : S) : M S :=
  match xs with
  | [] => ret s
  | x :: xs' => bind (f s x) (fun s' => foldM f xs' s')
  end.

(* ===================================================================== *)
(** * The plugin *)
(* ===================================================================== *)

(** An assistant message after the type guard has narrowed it. *)
Record CopilotCliAssistantMessageEvent := mkAssistant {
  am_timestamp : option string;
  am_messageId : string;
  am_content : string;
  am_usage : option Usage;
  am_model : option string
}.

(** A model change after the type guard has narrowed it. *)
Record CopilotCliSessionModelChangeEvent := mkModelChangeEvent {
  mce_timestamp : option string;
  mce_newModel : string
}.

(** An entry of the model timeline, [{ timestamp, model }]. *)
Record ModelChange := mkChange {
  mc_timestamp : Z;
  mc_model : string
}.

(* ===================================================================== *)
(** * Fixtures: concrete logs, file systems and worlds *)
(* ===================================================================== *)

Module Fixture.

(** A text from its lines, each ended by a line feed. *)
Definition unlines (ls : list string) : string :=
  fold_right (fun l acc => l +:+ String Js.LF acc) EmptyString ls.

Definition assistant (messageId content : string) (timestamp : option string)
           (usage : option Usage) (model : option string) : JsValue :=
  JsObject
    (mkEvent (Some "assistant.message")
             (Some (mkEventData (Some messageId) (Some content) usage model
                                None None None))
             (Some "evt") timestamp None).

Definition modelChange (newModel : string) (timestamp : option string) : JsValue :=
  JsObject
    (mkEvent (Some "session.model_change")
             (Some (mkEventData None None None None (Some newModel) None None))
             (Some "evt") timestamp None).

Definition sessionStart : JsValue :=
  JsObject
    (mkEvent (Some "session.start")
             (Some (mkEventData None None None None None None (Some "s1")))
             (Some "evt") (Some "t0") None).

Definition vendorUsage : Usage :=
  {| prompt_tokens := Some 1500;
     completion_tokens := Some 250;
     cache_creation_input_tokens := Some 0;
     cache_read_input_tokens := Some 1200;
     cached_tokens := None;
     total_tokens := None |}.

(** A usage block with a cache count and no [prompt_tokens]. *)
Definition cacheOnlyUsage : Usage :=
  {| prompt_tokens := None;
     completion_tokens := None;
     cache_creation_input_tokens := None;
     cache_read_input_tokens := Some 7;
     cached_tokens := None;
     total_tokens := None |}.

(** The lines that the fixture [JSON.parse] accepts; any other line is
    rejected. *)
Definition jsonTable : list (string * JsValue) :=
  [ ("START", sessionStart);
    ("M0", modelChange "X" (Some "t0"));
    ("M4", modelChange "Y" (Some "t4"));
    ("A1-partial", assistant "msg_1" "partial" (Some "t1") None None);
    ("A1", assistant "msg_1" "Hello world, this is a test response."
                     (Some "t1") None None);
    ("A2", assistant "msg_2" "abcd" (Some "t5") (Some vendorUsage) None);
    ("A3", assistant "msg_3" "abcde" (Some "t5") None (Some "gpt-5.1"));
    ("NULL", JsNotObject) ].

Definition JSON_parse (s : string) : option JsValue := mapGet s jsonTable.

Definition Date_parse (s : string) : option Z :=
  mapGet s [ ("t0", 0); ("t1", 1); ("t4", 4); ("t5", 5) ].

Definition homedir : string := "/home/u".
Definition CACHE_TTL_MS : Z := 2000.
Definition evict (m : gmap string SessionAggregateCacheEntry)
  : gmap string SessionAggregateCacheEntry := m.

Definition root : string := "/home/u/.copilot/session-state".
Definition logs : string := "/home/u/.copilot/logs".
Definition s1 : string := "/home/u/.copilot/session-state/s1".
Definition s1Events : string := "/home/u/.copilot/session-state/s1/events.jsonl".
Definition s2 : string := "/home/u/.copilot/session-state/s2".
Definition s2Events : string := "/home/u/.copilot/session-state/s2/events.jsonl".

(** A file system from tables. *)
Definition fileSystem (accessible : list string)
           (dirs : list (string * list Dirent))
           (stats : list (string * Stats))
           (files : list (string * string)) : FileSystem :=
  {| fs_access := fun p => bool_decide (p ∈ accessible);
     fs_readdir := fun p => mapGet p dirs;
     fs_stat := fun p => mapGet p stats;
     fs_readFile := fun p => mapGet p files;
     fs_read := fun p position length =>
                  option_map (String.substring (Z.to_nat position) (Z.to_nat length))
                             (mapGet p files);
     fs_existsSync := fun p => bool_decide (p ∈ accessible);
     fs_watchable := fun _ => true |}.

Definition s1Log : string :=
  unlines [ "START"; "M0"; "A1-partial"; "{ not json"; "A2"; "M4"; "A1"; "NULL" ].

Definition s2Log : string := unlines [ "A3" ].

(** Two sessions under the root and two process logs. *)
Definition twoSessions : FileSystem :=
  fileSystem
    [ root; s1Events; s2Events ]
    [ (root, [ mkDirent "s1" false true; mkDirent "s2" false true;
               mkDirent "notes.txt" true false ]);
      (logs, [ mkDirent "process-1.log" true false;
               mkDirent "process-2.log" true false;
               mkDirent "other.txt" true false ]) ]
    [ (s1Events, mkStats 700 (Z.of_nat (String.length s1Log)));
      (s2Events, mkStats 800 (Z.of_nat (String.length s2Log)));
      ("/home/u/.copilot/logs/process-1.log", mkStats 5 10);
      ("/home/u/.copilot/logs/process-2.log", mkStats 9 10) ]
    [ (s1Events, s1Log);
      (s2Events, s2Log);
      ("/home/u/.copilot/logs/process-1.log",
       unlines [ "[INFO] Using default model: old-model" ]);
      ("/home/u/.copilot/logs/process-2.log",
       unlines [ "[INFO] Using default model: claude-sonnet-4.6";
                 "[INFO] noise";
                 "[INFO] Using default model: gpt-5  ";
                 "[WARN] Using default model: zzz" ]) ].

(** The same process log directory, with a log whose only model line
    lacks the [[INFO]] tag. *)
Definition untaggedLog : FileSystem :=
  fileSystem
    []
    [ (logs, [ mkDirent "process-1.log" true false ]) ]
    [ ("/home/u/.copilot/logs/process-1.log", mkStats 5 10) ]
    [ ("/home/u/.copilot/logs/process-1.log",
       unlines [ "Using default model: gpt-5" ]) ].

(** No session-state root at all. *)
Definition noRoot : FileSystem := fileSystem [] [] [] [].

Definition idleSessionWatcher : SessionWatcherState :=
  mkSessionWatcher ∅ None ∅ None false.

Definition idleActivityWatcher : ActivityWatcherState :=
  mkActivityWatcher ∅ None None ∅ false.

(** A process that has just loaded the plugin; the clock reads 1000,
    1001, ... *)
Definition freshWorld (fs : FileSystem) : World :=
  {| w_fs := fs;
     w_calls := [];
     w_clock := fun n => 1000 + Z.of_nat n;
     w_ticks := 0;
     w_sessionCache := mkSessionCache 0 [] None None;
     w_sessionMetadataIndex := ∅;
     w_sessionAggregateCache := ∅;
     w_cachedModel := None;
     w_modelCacheTime := 0;
     w_sessionWatcher := idleSessionWatcher;
     w_activityWatcher := idleActivityWatcher;
     w_forceFullReconciliation := false;
     w_openWatchers := ∅;
     w_activeTimers := ∅;
     w_nextHandle := 0;
     w_delivered := [] |}.

Definition someRow : SessionUsageData :=
  {| r_sessionId := "s1";
     r_providerId := "github-copilot";
     r_modelId := "X";
     r_tokens := mkTokens 5 10 None None;
     r_timestamp := 1;
     r_sessionUpdatedAt := 700;
     r_isEstimated := true;
     r_sessionName := None;
     r_projectPath := None |}.

(** A world whose result cache was filled at time 900 by a query with
    the default limit and no [since]. *)
Definition cachedWorld (fs : FileSystem) (started : bool) : World :=
  set_sessionWatcher (mkSessionWatcher ∅ None ∅ None started)
    (set_sessionCache (mkSessionCache 900 [someRow] (Some 100) None)
       (freshWorld fs)).

Definition anyQuery : SessionParseOptions := mkOptions None None None.

(** A world whose aggregate cache holds the rows of [s1] parsed at
    mtime 700. *)
Definition aggregatedWorld : World :=
  set_sessionAggregateCache {[ "s1" := mkEntry 700 [someRow] 900 ]}
                            (freshWorld twoSessions).

(** A file system that holds only the log of [s1], with the given text. *)
Definition logOnly (mtimeMs : Z) (content : string) : FileSystem :=
  fileSystem [ root; s1Events ] []
             [ (s1Events, mkStats mtimeMs (Z.of_nat (String.length content))) ]
             [ (s1Events, content) ].

(** The log of [s1] at 10 bytes, after a first append of 3 bytes and after
    a second append of 6 bytes. *)
Definition primed : FileSystem := logOnly 900 "0123456789".
Definition appendedOnce : FileSystem :=
  logOnly 901 ("0123456789" +:+ unlines [ "A1" ]).
Definition appendedTwice : FileSystem :=
  logOnly 902 ("0123456789" +:+ unlines [ "A1" ] +:+ unlines [ "A2"; "A3" ]).

(** The log emptied, and then written again: two messages in its first 10
    bytes and a third after them. *)
Definition truncated : FileSystem := logOnly 903 EmptyString.
Definition regrown : FileSystem :=
  logOnly 904 (unlines [ "A2"; "A3"; "NULL"; "A1" ]).

(** A world in which the tailing watcher has a callback and has recorded
    an offset for the log of [s1]. *)
Definition tailingWorld (fs : FileSystem) (offset : Z) : World :=
  set_activityWatcher
    (mkActivityWatcher ∅ None (Some 0%nat) {[ s1Events := offset ]} true)
    (freshWorld fs).

(** A world in which both watchers are running: each holds a root watch
    and a watch on [s1], the session watcher has a dirty path and its
    reconciliation timer, and a watch of somebody else is open too. *)
Definition watchingWorld : World :=
  {| w_fs := twoSessions;
     w_calls := [];
     w_clock := fun n => 1000 + Z.of_nat n;
     w_ticks := 0;
     w_sessionCache := mkSessionCache 900 [someRow] (Some 100) None;
     w_sessionMetadataIndex := ∅;
     w_sessionAggregateCache := {[ "s1" := mkEntry 700 [someRow] 900 ]};
     w_cachedModel := Some "gpt-5";
     w_modelCacheTime := 900;
     w_sessionWatcher :=
       mkSessionWatcher {[ s1 := mkWatcher 1 (DirtyDirListener s1) ]}
                        (Some (mkWatcher 0 DirtyRootListener))
                        {[ s1Events ]} (Some 5%nat) true;
     w_activityWatcher :=
       mkActivityWatcher {[ s1 := mkWatcher 3 (ActivityDirListener s1) ]}
                         (Some (mkWatcher 2 ActivityRootListener))
                         (Some 0%nat) {[ s1Events := 10 ]} true;
     w_forceFullReconciliation := false;
     w_openWatchers := {[ 0%nat; 1%nat; 2%nat; 3%nat; 9%nat ]};
     w_activeTimers := {[ 5%nat ]};
     w_nextHandle := 10;
     w_delivered := [] |}.

(** Messages after the type guard. *)
Definition vendorMessage : CopilotCliAssistantMessageEvent :=
  mkAssistant (Some "t5") "msg_2" "abcd" (Some vendorUsage) None.

Definition plainMessage : CopilotCliAssistantMessageEvent :=
  mkAssistant (Some "t1") "msg_1" "Hello world, this is a test response." None None.

Definition cacheOnlyMessage : CopilotCliAssistantMessageEvent :=
  mkAssistant (Some "t5") "msg_9" "abcd" (Some cacheOnlyUsage) None.

(** A [workspace.yaml] with a comment, padded values and a line without
    a colon. *)
Definition s1Workspace : string := "/home/u/.copilot/session-state/s1/workspace.yaml".

Definition workspaceYaml : string :=
  unlines [ "# written by the CLI";
            "id: custom-session-id";
            "cwd:   /home/u/project  ";
            "summary: fix login bug";
            "no colon here" ].

(** The session [s1] with its [workspace.yaml]. *)
Definition namedSession : FileSystem :=
  fileSystem
    [ root; s1Events ]
    [ (root, [ mkDirent "s1" false true ]) ]
    [ (s1Events, mkStats 700 (Z.of_nat (String.length s1Log))) ]
    [ (s1Events, s1Log); (s1Workspace, workspaceYaml) ].

(** The session [s1] alone, its log modified at time 950. *)
Definition touched : FileSystem :=
  fileSystem
    [ root; s1Events ]
    [ (root, [ mkDirent "s1" false true ]) ]
    [ (s1Events, mkStats 950 (Z.of_nat (String.length s1Log))) ]
    [ (s1Events, s1Log) ].

(** A process whose watcher is running and has marked nothing, and whose
    metadata index and aggregate cache hold [s1] as it was at time 700. *)
Definition staleIndexWorld : World :=
  set_sessionWatcher (mkSessionWatcher ∅ None ∅ None true)
    (set_sessionMetadataIndex {[ s1Events := mkMeta 700 "s1" ]}
       (set_sessionAggregateCache {[ "s1" := mkEntry 700 [someRow] 900 ]}
          (freshWorld touched))).

(** A process whose session watcher is stopped while a watch of somebody
    else is open. *)
Definition sharedWorld : World :=
  {| w_fs := twoSessions;
     w_calls := [];
     w_clock := fun n => 1000 + Z.of_nat n;
     w_ticks := 0;
     w_sessionCache := mkSessionCache 0 [] None None;
     w_sessionMetadataIndex := ∅;
     w_sessionAggregateCache := ∅;
     w_cachedModel := None;
     w_modelCacheTime := 0;
     w_sessionWatcher := idleSessionWatcher;
     w_activityWatcher := idleActivityWatcher;
     w_forceFullReconciliation := false;
     w_openWatchers := {[ 9%nat ]};
     w_activeTimers := ∅;
     w_nextHandle := 10;
     w_delivered := [] |}.

End Fixture.

Section Plugin.

#[local] Set Default Proof Using "Type*".

(** [JSON.parse]; [None] when it throws. *)
Variable JSON_parse : string -> option JsValue.
(** [Date.parse]; [None] when the result is not finite. *)
Variable Date_parse : string -> option Z.
(** [os.homedir()] *)
Variable homedir : string.
(** [CACHE_TTL_MS] of [cache.ts]. *)
Variable CACHE_TTL_MS : Z.
(** [evictSessionAggregateCache] of [cache.ts], as its effect on
    [sessionAggregateCache]. *)
Variable evictSessionAggregateCache :
  gmap string SessionAggregateCacheEntry -> gmap string SessionAggregateCacheEntry.

(** ** [src/paths.ts] *)

Definition COPILOT_CLI_HOME : string := Path.join homedir ".copilot".
Definition COPILOT_CLI_SESSION_STATE_PATH : string :=
  Path.join COPILOT_CLI_HOME "session-state".
Definition COPILOT_CLI_LOGS_PATH : string := Path.join COPILOT_CLI_HOME "logs".

Definition getSessionDirs : M (list string) :=
  tryCatch
    (entries <- Fs.readdir COPILOT_CLI_SESSION_STATE_PATH ;;
     foldM (fun dirs entry =>
              if negb (de_isDirectory entry) then ret dirs
              else
                let eventsPath :=
                  Path.join (Path.join COPILOT_CLI_SESSION_STATE_PATH (de_name entry))
                            "events.jsonl" in
                tryCatch
                  (Fs.access eventsPath ;;;
                   ret (dirs ++ [Path.join COPILOT_CLI_SESSION_STATE_PATH (de_name entry)]))
                  (ret dirs))
           entries [])
    (ret []).

(** ** [src/utils.ts] *)

(** The loop of [readJsonlFile] over the lines of the file. *)
Definition pushParsedLine (rows : list JsValue) (line : string) : list JsValue :=
  let trimmed := Js.trim line in
  if Js.isEmpty trimmed then rows
  else
    match JSON_parse trimmed with
    | Some v => rows ++ [v]
    | None => rows
    end.

Definition parseLines (lines : list string) : list JsValue :=
  fold_left pushParsedLine lines [].

Definition readJsonlFile (filePath : string) : M (list JsValue) :=
  tryCatch
    (content <- Fs.readFile filePath ;;
     ret (parseLines (Js.splitLines content)))
    (ret []).

(** The loop of [readWorkspaceYaml] over the lines of the file. *)
Definition yamlLine (result : gmap string string) (line : string) : gmap string string :=
  let trimmed := Js.trim line in
  if Js.isEmpty trimmed || Js.startsWith "#" trimmed then result
  else
    match Js.indexOfChar ":"%char trimmed with
    | None => result
    | Some colonIndex =>
        let key := Js.trim (Js.sliceTo colonIndex trimmed) in
        let value := Js.trim (Js.sliceFrom (S colonIndex) trimmed) in
        if negb (Js.isEmpty key) then <[ key := value ]> result else result
    end.

Definition workspaceOfYaml (content : string) : option CopilotCliWorkspaceInfo :=
  let result := fold_left yamlLine (Js.splitLines content) ∅ in
  if negb (Js.truthyStr (result !! "id")) then None
  else
    Some {| ws_id := Js.nullish (result !! "id") "";
            ws_cwd := Js.nullish (result !! "cwd") "";
            ws_git_root := result !! "git_root";
            ws_repository := result !! "repository";
            ws_branch := result !! "branch";
            ws_summary := result !! "summary";
            ws_created_at := Js.nullish (result !! "created_at") "";
            ws_updated_at := Js.nullish (result !! "updated_at") "" |}.

Definition readWorkspaceYaml (filePath : string) : M (option CopilotCliWorkspaceInfo) :=
  tryCatch
    (content <- Fs.readFile filePath ;;
     ret (workspaceOfYaml content))
    (ret None).

Definition estimateTokens (text : string) : Z :=
  if Js.isEmpty text then 0 else Js.ceilDiv (Js.length text) 4.

Definition toTimestamp (value : option string) (fallback : Z) : Z :=
  if negb (Js.truthyStr value) then fallback
  else
    match Date_parse (Js.nullish value "") with
    | Some parsed => parsed
    | None => fallback
    end.

(** The literal text of [/\[INFO\] Using default model: (.+)/g]. *)
Definition MODEL_MARKER : string := "[INFO] Using default model: ".

(** The longest prefix without a line terminator: what [(.+)] can take. *)
Fixpoint takeLine (s : string) : string :=
  match s with
  | EmptyString => EmptyString
  | String c r => if Js.isLineTerminator c then EmptyString else String c (takeLine r)
  end.

(** [content.matchAll(...)] and the loop over its matches, scanning the
    text from left to right: [skip] counts the characters that the match
    in progress has consumed, and a match needs a capture of at least
    one character. *)
Fixpoint scanModels (skip : nat) (s : string) (lastModel : option string)
  : option string :=
  match s with
  | EmptyString => lastModel
  | String _ r =>
      match skip with
      | S k => scanModels k r lastModel
      | O =>
          if Js.startsWith MODEL_MARKER s then
            let capture := takeLine (Js.sliceFrom (String.length MODEL_MARKER) s) in
            if Js.isEmpty capture then scanModels 0 r lastModel
            else
              let model := Js.trim capture in
              scanModels (String.length MODEL_MARKER + String.length capture - 1) r
                         (if negb (Js.isEmpty model) then Some model else lastModel)
          else scanModels 0 r lastModel
      end
  end.

Definition extractModelFromProcessLog (logPath : string) : M (option string) :=
  tryCatch
    (content <- Fs.readFile logPath ;;
     ret (scanModels 0 content None))
    (ret None).

(** ** [src/parser.ts]: type guards *)

Definition isAssistantMessage (event : JsValue) : bool :=
  match event with
  | JsNotObject => false
  | JsObject candidate =>
      match e_type candidate with
      | Some t =>
          if negb (String.eqb t "assistant.message") then false
          else
            match e_data candidate with
            | None => false
            | Some data =>
                match d_messageId data with
                | None => false
                | Some messageId =>
                    if (String.length messageId =? 0)%nat then false
                    else
                      match d_content data with
                      | None => false
                      | Some _ => true
                      end
                end
            end
      | None => false
      end
  end.

Definition isSessionStart (event : JsValue) : bool :=
  match event with
  | JsNotObject => false
  | JsObject candidate =>
      match e_type candidate with
      | Some t =>
          if negb (String.eqb t "session.start") then false
          else
            match e_data candidate with
            | None => false
            | Some data =>
                match d_sessionId data with
                | None => false
                | Some _ => true
                end
            end
      | None => false
      end
  end.

Definition isModelChange (event : JsValue) : bool :=
  match event with
  | JsNotObject => false
  | JsObject candidate =>
      match e_type candidate with
      | Some t =>
          if negb (String.eqb t "session.model_change") then false
          else
            match e_data candidate with
            | None => false
            | Some data =>
                match d_newModel data with
                | None => false
                | Some newModel => negb (String.length newModel =? 0)%nat
                end
            end
      | None => false
      end
  end.

(** The event as the guard types it. *)
Definition asAssistantMessage (event : JsValue)
  : option CopilotCliAssistantMessageEvent :=
  if isAssistantMessage event then
    match event with
    | JsObject e =>
        match e_data e with
        | Some d =>
            Some {| am_timestamp := e_timestamp e;
                    am_messageId := Js.nullish (d_messageId d) "";
                    am_content := Js.nullish (d_content d) "";
                    am_usage := d_usage d;
                    am_model := d_model d |}
        | None => None
        end
    | JsNotObject => None
    end
  else None.

Definition asModelChange (event : JsValue)
  : option CopilotCliSessionModelChangeEvent :=
  if isModelChange event then
    match event with
    | JsObject e =>
        match e_data e with
        | Some d =>
            Some {| mce_timestamp := e_timestamp e;
                    mce_newModel := Js.nullish (d_newModel d) "" |}
        | None => None
        end
    | JsNotObject => None
    end
  else None.

(** ** [src/parser.ts]: one session *)

(** The loop of [resolveModelAtTime], from index [n - 1] down to [0]. *)
Fixpoint resolveLoop (timestamp : Z) (defaultModel : string)
         (modelChanges : list ModelChange) (n : nat) : string :=
  match n with
  | O => defaultModel
  | S i =>
      match modelChanges !! i with
      | Some c =>
          if mc_timestamp c <=? timestamp then mc_model c
          else resolveLoop timestamp defaultModel modelChanges i
      | None => resolveLoop timestamp defaultModel modelChanges i
      end
  end.

Definition resolveModelAtTime (timestamp : Z) (defaultModel : string)
           (modelChanges : list ModelChange) : string :=
  if (List.length modelChanges =? 0)%nat then defaultModel
  else resolveLoop timestamp defaultModel modelChanges (List.length modelChanges).

(** The local variables that the token branch of the message loop sets. *)
Record TokenFigures := mkFigures {
  inputTokens : Z;
  outputTokens : Z;
  cacheRead : option Z;
  cacheWrite : option Z;
  isEstimated : bool
}.

(** [x && x > 0 ? x : undefined] *)
Definition positiveOrUndefined (x : option Z) : option Z :=
  match x with
  | Some n => if negb (n =? 0) && (n >? 0) then Some n else None
  | None => None
  end.

(** [typeof x === 'number' && x > 0] *)
Definition isPositiveNumber (x : option Z) : bool :=
  match x with Some n => n >? 0 | None => false end.

Definition estimatedFigures (content : string) : TokenFigures :=
  let outputTokens := estimateTokens content in
  {| inputTokens := Js.ceilDiv outputTokens 2;
     outputTokens := outputTokens;
     cacheRead := None;
     cacheWrite := None;
     isEstimated := true |}.

(** Lines 179-202 of [parser.ts]. *)
Definition tokenFigures (data : CopilotCliAssistantMessageEvent) : TokenFigures :=
  match am_usage data with
  | Some usage =>
      if isPositiveNumber (prompt_tokens usage) then
        {| inputTokens := Js.nullish (prompt_tokens usage) 0;
           outputTokens := Js.nullish (completion_tokens usage) 0;
           cacheRead := positiveOrUndefined (cache_read_input_tokens usage);
           cacheWrite := positiveOrUndefined (cache_creation_input_tokens usage);
           isEstimated := false |}
      else estimatedFigures (am_content data)
  | None => estimatedFigures (am_content data)
  end.

(** What the parser knows about the session while it walks the events. *)
Record SessionContext := mkContext {
  c_sessionId : string;
  c_sessionName : option string;
  c_projectPath : option string;
  c_mtimeMs : Z;
  c_defaultModel : string;
  c_modelChanges : list ModelChange
}.

(** Lines 204-230 of [parser.ts]: the row of one assistant message. *)
Definition usageRow (ctx : SessionContext) (event : CopilotCliAssistantMessageEvent)
  : SessionUsageData :=
  let figures := tokenFigures event in
  let modelId :=
    match am_model event with
    | Some model => model
    | None =>
        resolveModelAtTime (toTimestamp (am_timestamp event) (c_mtimeMs ctx))
                           (c_defaultModel ctx) (c_modelChanges ctx)
    end in
  {| r_sessionId := c_sessionId ctx;
     r_providerId := "github-copilot";
     r_modelId := modelId;
     r_tokens :=
       {| t_input := inputTokens figures;
          t_output := outputTokens figures;
          t_cacheRead :=
            if Js.truthyNum (cacheRead figures) then cacheRead figures else None;
          t_cacheWrite :=
            if Js.truthyNum (cacheWrite figures) then cacheWrite figures else None |};
     r_timestamp := toTimestamp (am_timestamp event) (c_mtimeMs ctx);
     r_sessionUpdatedAt := c_mtimeMs ctx;
     r_isEstimated := isEstimated figures;
     r_sessionName :=
       if Js.truthyStr (c_sessionName ctx) then c_sessionName ctx else None;
     r_projectPath :=
       if Js.truthyStr (c_projectPath ctx) then c_projectPath ctx else None |}.

(** Lines 161-169: the model timeline in file order. *)
Definition pushModelChange (modelChanges : list ModelChange) (event : JsValue)
  : list ModelChange :=
  match asModelChange event with
  | Some e =>
      modelChanges ++ [ {| mc_timestamp := toTimestamp (mce_timestamp e) 0;
                           mc_model := mce_newModel e |} ]
  | None => modelChanges
  end.

Definition collectModelChanges (events : list JsValue) : list ModelChange :=
  fold_left pushModelChange events [].

(** Line 171: [modelChanges.sort((a, b) => a.timestamp - b.timestamp)]. *)
Definition sortedModelChanges (events : list JsValue) : list ModelChange :=
  sortBy (fun a b => mc_timestamp a - mc_timestamp b) (collectModelChanges events).

(** Lines 174-233: one turn of the message loop on the [deduped] map. *)
Definition setMessageRow (ctx : SessionContext)
           (deduped : list (string * SessionUsageData)) (event : JsValue)
  : list (string * SessionUsageData) :=
  match asAssistantMessage event with
  | None => deduped
  | Some e => mapSet (am_messageId e) (usageRow ctx e) deduped
  end.

Definition dedupedRows (ctx : SessionContext) (events : list JsValue)
  : list (string * SessionUsageData) :=
  fold_left (setMessageRow ctx) events [].

Definition sessionContext (workspace : option CopilotCliWorkspaceInfo)
           (dirPath : string) (mtimeMs : Z) (defaultModel : string)
           (events : list JsValue) : SessionContext :=
  {| c_sessionId :=
       match workspace with
       | Some ws => ws_id ws
       | None => Path.basename dirPath
       end;
     c_projectPath := Js.orUndefined (option_map ws_cwd workspace);
     c_sessionName :=
       Js.orUndefined
         (match workspace with
          | Some ws => option_map Js.trim (ws_summary ws)
          | None => None
          end);
     c_mtimeMs := mtimeMs;
     c_defaultModel := defaultModel;
     c_modelChanges := sortedModelChanges events |}.

Definition parseSessionDirRows (dirPath : string) (mtimeMs : Z) (defaultModel : string)
  : M (list SessionUsageData) :=
  let eventsPath := Path.join dirPath "events.jsonl" in
  let workspacePath := Path.join dirPath "workspace.yaml" in
  events <- readJsonlFile eventsPath ;;
  if (List.length events =? 0)%nat then ret []
  else
    workspace <- readWorkspaceYaml workspacePath ;;
    let ctx := sessionContext workspace dirPath mtimeMs defaultModel events in
    ret (mapValues (dedupedRows ctx events)).

(** ** [src/watcher.ts] *)

Definition RECONCILIATION_INTERVAL_MS : Z := 10 * 60 * 1000.

Definition modifySessionWatcher (f : SessionWatcherState -> SessionWatcherState) : M unit :=
  modify (fun w => set_sessionWatcher (f (w_sessionWatcher w)) w).

Definition modifyActivityWatcher (f : ActivityWatcherState -> ActivityWatcherState) : M unit :=
  modify (fun w => set_activityWatcher (f (w_activityWatcher w)) w).

Definition tryWatchNewSessionDir (dirName : string) (watchFn : string -> M unit) : M unit :=
  let eventsPath :=
    Path.join (Path.join COPILOT_CLI_SESSION_STATE_PATH dirName) "events.jsonl" in
  tryCatch
    (found <- Fs.existsSync eventsPath ;;
     if found : bool
     then watchFn (Path.join COPILOT_CLI_SESSION_STATE_PATH dirName)
     else ret tt)
    (ret tt).

Definition watchSessionDirForActivity (sessionDirPath : string) : M unit :=
  watchers <- gets (fun w => aw_sessionDirWatchers (w_activityWatcher w)) ;;
  match watchers !! sessionDirPath with
  | Some _ => ret tt
  | None =>
      tryCatch
        (watcher <- Fs.watch sessionDirPath (ActivityDirListener sessionDirPath) ;;
         modifyActivityWatcher
           (fun s => aw_set_sessionDirWatchers
                       (<[ sessionDirPath := watcher ]> (aw_sessionDirWatchers s)) s))
        (ret tt)
  end.

Definition primeSessionOffset (sessionDirPath : string) : M unit :=
  let eventsPath := Path.join sessionDirPath "events.jsonl" in
  tryCatch
    (stat <- Fs.stat eventsPath ;;
     modifyActivityWatcher
       (fun s => aw_set_fileOffsets (<[ eventsPath := st_size stat ]> (aw_fileOffsets s)) s))
    (ret tt).

(** Lines 145-166 of [watcher.ts]: the [tokens] of one delta. *)
Definition deltaTokens (data : CopilotCliAssistantMessageEvent) : TokenCounts :=
  let '(inputTokens, outputTokens) :=
    match am_usage data with
    | Some usage =>
        if isPositiveNumber (prompt_tokens usage)
        then (Js.nullish (prompt_tokens usage) 0, Js.nullish (completion_tokens usage) 0)
        else (Js.ceilDiv (estimateTokens (am_content data)) 2,
              estimateTokens (am_content data))
    | None =>
        (Js.ceilDiv (estimateTokens (am_content data)) 2,
         estimateTokens (am_content data))
    end in
  {| t_input := inputTokens;
     t_output := outputTokens;
     t_cacheRead :=
       match am_usage data with
       | Some usage => positiveOrUndefined (cache_read_input_tokens usage)
       | None => None
       end;
     t_cacheWrite :=
       match am_usage data with
       | Some usage => positiveOrUndefined (cache_creation_input_tokens usage)
       | None => None
       end |}.

(** [callback(update)] *)
Definition deliver (callback : nat) (update : ActivityUpdate) : M unit :=
  modify (fun w => set_delivered (w_delivered w ++ [(callback, update)]) w).

(** Lines 130-174: the loop of [processEventsDelta] over one line. *)
Definition processDeltaLine (callback : nat) (sessionId : string) (line : string) : M unit :=
  let trimmed := Js.trim line in
  if Js.isEmpty trimmed then ret tt
  else
    match JSON_parse trimmed with
    | None => ret tt
    | Some event =>
        match asAssistantMessage event with
        | None => ret tt
        | Some e =>
            now <- Date_now ;;
            deliver callback
              {| u_sessionId := sessionId;
                 u_messageId := am_messageId e;
                 u_tokens := deltaTokens e;
                 u_timestamp := toTimestamp (am_timestamp e) now |}
        end
    end.

Definition processEventsDelta (filePath sessionDirPath : string) : M unit :=
  callback <- gets (fun w => aw_callback (w_activityWatcher w)) ;;
  match callback with
  | None => ret tt
  | Some callback =>
      statResult <-
        tryCatch
          (stat <- Fs.stat filePath ;; ret (Some stat))
          (modifyActivityWatcher
             (fun s => aw_set_fileOffsets (delete filePath (aw_fileOffsets s)) s) ;;;
           ret None) ;;
      match statResult with
      | None => ret tt
      | Some stat =>
          offsets <- gets (fun w => aw_fileOffsets (w_activityWatcher w)) ;;
          let knownOffset := Js.nullish (offsets !! filePath) 0 in
          let startOffset := if st_size stat <? knownOffset then 0 else knownOffset in
          if st_size stat =? startOffset then ret tt
          else
            chunkResult <-
              tryCatch
                (chunk <- Fs.readAt filePath startOffset (st_size stat - startOffset) ;;
                 ret (Some chunk))
                (ret None) ;;
            match chunkResult with
            | None => ret tt
            | Some chunk =>
                modifyActivityWatcher
                  (fun s => aw_set_fileOffsets
                              (<[ filePath := st_size stat ]> (aw_fileOffsets s)) s) ;;;
                workspace <- readWorkspaceYaml (Path.join sessionDirPath "workspace.yaml") ;;
                let sessionId :=
                  match workspace with
                  | Some ws => ws_id ws
                  | None => Path.basename sessionDirPath
                  end in
                forEach (Js.splitLines chunk) (processDeltaLine callback sessionId)
            end
      end
  end.

Definition watchSessionDir (sessionDirPath : string) : M unit :=
  watchers <- gets (fun w => sw_sessionDirWatchers (w_sessionWatcher w)) ;;
  match watchers !! sessionDirPath with
  | Some _ => ret tt
  | None =>
      tryCatch
        (watcher <- Fs.watch sessionDirPath (DirtyDirListener sessionDirPath) ;;
         modifySessionWatcher
           (fun s => sw_set_sessionDirWatchers
                       (<[ sessionDirPath := watcher ]> (sw_sessionDirWatchers s)) s))
        (ret tt)
  end.

(** [startSessionWatcher]. The continuation of [getSessionDirs().then]
    is run when the synchronous body is over. *)
Definition startSessionWatcher : M unit :=
  started <- gets (fun w => sw_started (w_sessionWatcher w)) ;;
  if started : bool then ret tt
  else
    modifySessionWatcher (sw_set_started true) ;;;
    tryCatch
      (watcher <- Fs.watch COPILOT_CLI_SESSION_STATE_PATH DirtyRootListener ;;
       modifySessionWatcher (sw_set_rootWatcher (Some watcher)))
      (ret tt) ;;;
    timer <- setInterval ;;
    modifySessionWatcher (sw_set_reconciliationTimer (Some timer)) ;;;
    dirs <- getSessionDirs ;;
    forEach dirs watchSessionDir.

(** The two parts of [startSessionWatcher] apart, for a caller that goes
    on before the promise is settled: the synchronous body, which says
    whether it has left a listing behind, and the continuation
    [getSessionDirs().then(...)], which the runtime runs later. *)
Definition startSessionWatcherNow : M bool :=
  started <- gets (fun w => sw_started (w_sessionWatcher w)) ;;
  if started : bool then ret false
  else
    modifySessionWatcher (sw_set_started true) ;;;
    tryCatch
      (watcher <- Fs.watch COPILOT_CLI_SESSION_STATE_PATH DirtyRootListener ;;
       modifySessionWatcher (sw_set_rootWatcher (Some watcher)))
      (ret tt) ;;;
    timer <- setInterval ;;
    modifySessionWatcher (sw_set_reconciliationTimer (Some timer)) ;;;
    ret true.

Definition watchListedSessionDirs : M unit :=
  dirs <- getSessionDirs ;;
  forEach dirs watchSessionDir.

Definition stopSessionWatcher : M unit :=
  timer <- gets (fun w => sw_reconciliationTimer (w_sessionWatcher w)) ;;
  match timer with
  | Some t =>
      clearInterval t ;;;
      modifySessionWatcher (sw_set_reconciliationTimer None)
  | None => ret tt
  end ;;;
  watchers <- gets (fun w => sw_sessionDirWatchers (w_sessionWatcher w)) ;;
  forEach (map snd (map_to_list watchers)) Fs.close ;;;
  modifySessionWatcher (sw_set_sessionDirWatchers ∅) ;;;
  rootWatcher <- gets (fun w => sw_rootWatcher (w_sessionWatcher w)) ;;
  match rootWatcher with
  | Some h =>
      Fs.close h ;;;
      modifySessionWatcher (sw_set_rootWatcher None)
  | None => ret tt
  end ;;;
  modifySessionWatcher (sw_set_dirtyPaths ∅) ;;;
  modifySessionWatcher (sw_set_started false).

Definition consumeForceFullReconciliation : M bool :=
  value <- gets w_forceFullReconciliation ;;
  (if value : bool then modify (set_forceFullReconciliation false) else ret tt) ;;;
  ret value.

(** [startActivityWatch]; the continuation of [getSessionDirs().then] is
    run when the synchronous body is over. *)
Definition startActivityWatch (callback : nat) : M unit :=
  modifyActivityWatcher (aw_set_callback (Some callback)) ;;;
  started <- gets (fun w => aw_started (w_activityWatcher w)) ;;
  if started : bool then ret tt
  else
    modifyActivityWatcher (aw_set_started true) ;;;
    tryCatch
      (watcher <- Fs.watch COPILOT_CLI_SESSION_STATE_PATH ActivityRootListener ;;
       modifyActivityWatcher (aw_set_rootWatcher (Some watcher)))
      (ret tt) ;;;
    dirs <- getSessionDirs ;;
    forEach dirs (fun dirPath =>
                    watchSessionDirForActivity dirPath ;;;
                    primeSessionOffset dirPath).

Definition stopActivityWatch : M unit :=
  watchers <- gets (fun w => aw_sessionDirWatchers (w_activityWatcher w)) ;;
  forEach (map snd (map_to_list watchers)) Fs.close ;;;
  modifyActivityWatcher (aw_set_sessionDirWatchers ∅) ;;;
  rootWatcher <- gets (fun w => aw_rootWatcher (w_activityWatcher w)) ;;
  match rootWatcher with
  | Some h =>
      Fs.close h ;;;
      modifyActivityWatcher (aw_set_rootWatcher None)
  | None => ret tt
  end ;;;
  modifyActivityWatcher (aw_set_fileOffsets ∅) ;;;
  modifyActivityWatcher (aw_set_callback None) ;;;
  modifyActivityWatcher (aw_set_started false) ;;;
  stopSessionWatcher.

(** The listeners handed to [fsSync.watch], run by the runtime when the
    file system reports a change. *)
Definition runListener (l : Listener) (eventType : string) (filename : option string)
  : M unit :=
  match l with
  | DirtyDirListener sessionDirPath =>
      if decide (filename = Some "events.jsonl") then
        modifySessionWatcher
          (fun s => sw_set_dirtyPaths
                      ({[ Path.join sessionDirPath "events.jsonl" ]} ∪ sw_dirtyPaths s) s)
      else ret tt
  | DirtyRootListener =>
      if negb (String.eqb eventType "rename") || negb (Js.truthyStr filename) then ret tt
      else tryWatchNewSessionDir (Js.nullish filename "") watchSessionDir
  | ActivityDirListener sessionDirPath =>
      if decide (filename = Some "events.jsonl") then
        processEventsDelta (Path.join sessionDirPath "events.jsonl") sessionDirPath
      else ret tt
  | ActivityRootListener =>
      if negb (String.eqb eventType "rename") || negb (Js.truthyStr filename) then ret tt
      else
        let sessionDirPath :=
          Path.join COPILOT_CLI_SESSION_STATE_PATH (Js.nullish filename "") in
        watchSessionDirForActivity sessionDirPath ;;;
        primeSessionOffset sessionDirPath
  end.

(** ** [src/parser.ts]: the default model *)

Definition MODEL_CACHE_TTL_MS : Z := 60000.

(** A process log found in the logs directory, [{ name, mtimeMs }]. *)
Record LogFile := mkLogFile {
  lf_name : string;
  lf_mtimeMs : Z
}.

Definition isProcessLog (entry : Dirent) : bool :=
  de_isFile entry
  && Js.startsWith "process-" (de_name entry)
  && Js.endsWith ".log" (de_name entry).

(** Lines 39-47: the loop over the directory entries. *)
Definition pushLogFile (logFiles : list LogFile) (entry : Dirent) : M (list LogFile) :=
  if negb (isProcessLog entry) then ret logFiles
  else
    tryCatch
      (stat <- Fs.stat (Path.join COPILOT_CLI_LOGS_PATH (de_name entry)) ;;
       ret (logFiles ++ [ {| lf_name := de_name entry; lf_mtimeMs := st_mtimeMs stat |} ]))
      (ret logFiles).

(** Lines 35-61: the [try] block; [Some model] is its [return model]. *)
Definition scanProcessLogs (now : Z) : M (option string) :=
  tryCatch
    (entries <- Fs.readdir COPILOT_CLI_LOGS_PATH ;;
     logFiles <- foldM pushLogFile entries [] ;;
     match sortBy (fun a b => lf_mtimeMs b - lf_mtimeMs a) logFiles with
     | latest :: _ =>
         let latestLog := Path.join COPILOT_CLI_LOGS_PATH (lf_name latest) in
         model <- extractModelFromProcessLog latestLog ;;
         if Js.truthyStr model then
           modify (fun w => set_modelCacheTime now (set_cachedModel model w)) ;;;
           ret model
         else ret None
     | [] => ret None
     end)
    (ret None).

Definition getDefaultModel : M string :=
  now <- Date_now ;;
  cachedModel <- gets w_cachedModel ;;
  modelCacheTime <- gets w_modelCacheTime ;;
  if Js.truthyStr cachedModel && (now - modelCacheTime <? MODEL_CACHE_TTL_MS)
  then ret (Js.nullish cachedModel "")
  else
    returned <- scanProcessLogs now ;;
    match returned with
    | Some model => ret model
    | None =>
        cachedModel <- gets w_cachedModel ;;
        ret (Js.nullish cachedModel "unknown")
    end.

(** ** [src/paths.ts]: the latest process log *)

(** [getLatestProcessLog]. Its loop over the directory entries is, line
    for line, the loop of [getDefaultModel]. [logFiles[0]!.name] throws
    on an empty array. *)
Definition getLatestProcessLog : M (option string) :=
  tryCatch
    (entries <- Fs.readdir COPILOT_CLI_LOGS_PATH ;;
     logFiles <- foldM pushLogFile entries [] ;;
     if (List.length logFiles =? 0)%nat then ret None
     else
       match sortBy (fun a b => lf_mtimeMs b - lf_mtimeMs a) logFiles with
       | latest :: _ => ret (Some (Path.join COPILOT_CLI_LOGS_PATH (lf_name latest)))
       | [] => raise
       end)
    (ret None).


(** ** [src/parser.ts]: all sessions *)

(** [!since || mtimeMs >= since] *)
Definition sinceAllows (since : option Z) (mtimeMs : Z) : bool :=
  negb (Js.truthyNum since) || (mtimeMs >=? Js.nullish since 0).

(** [options.sessionId && sessionId !== options.sessionId] *)
Definition otherSession (requested : option string) (sessionId : string) : bool :=
  Js.truthyStr requested && negb (String.eqb sessionId (Js.nullish requested "")).

(** Lines 258-264: the test of the fast path. *)
Definition resultCacheApplies (options : SessionParseOptions) (limit : Z) (now : Z)
           (sessionCache : SessionCache) : bool :=
  negb (Js.truthyStr (o_sessionId options))
  && bool_decide (Some limit = lastLimit sessionCache)
  && (now - lastCheck sessionCache <? CACHE_TTL_MS)
  && (0 <? List.length (lastResult sessionCache))%nat
  && bool_decide (lastSince sessionCache = o_since options).

(** The local variables of the discovery loop. *)
Record Discovery := mkDiscovery {
  sessionDirs : list ParsedSessionDir;
  seenDirPaths : gset string;
  statCount : Z;
  statSkipCount : Z;
  dirtyHitCount : Z
}.

Definition pushSessionDir (d : ParsedSessionDir) (s : Discovery) : Discovery :=
  mkDiscovery (sessionDirs s ++ [d]) (seenDirPaths s)
              (statCount s) (statSkipCount s) (dirtyHitCount s).

(** Lines 287-345: one turn of the discovery loop. *)
Definition discoverSessionDir (options : SessionParseOptions)
           (dirtyPaths : gset string) (needsFullStat : bool)
           (s : Discovery) (sessionDirPath : string) : M Discovery :=
  let since := o_since options in
  watchSessionDir sessionDirPath ;;;
  let eventsPath := Path.join sessionDirPath "events.jsonl" in
  let isDirty := bool_decide (eventsPath ∈ dirtyPaths) in
  let s := mkDiscovery (sessionDirs s) ({[ eventsPath ]} ∪ seenDirPaths s)
                       (statCount s) (statSkipCount s)
                       (if isDirty then dirtyHitCount s + 1 else dirtyHitCount s) in
  index <- gets w_sessionMetadataIndex ;;
  let metadata := index !! eventsPath in
  match metadata with
  | Some md =>
      if otherSession (o_sessionId options) (m_sessionId md) then ret s
      else if negb isDirty && negb needsFullStat then
        let s := mkDiscovery (sessionDirs s) (seenDirPaths s)
                             (statCount s) (statSkipCount s + 1) (dirtyHitCount s) in
        if sinceAllows since (m_mtimeMs md)
        then ret (pushSessionDir (mkDir (m_sessionId md) sessionDirPath (m_mtimeMs md)) s)
        else ret s
      else
        let s := mkDiscovery (sessionDirs s) (seenDirPaths s)
                             (statCount s + 1) (statSkipCount s) (dirtyHitCount s) in
        statResult <-
          tryCatch
            (stat <- Fs.stat eventsPath ;; ret (Some (st_mtimeMs stat)))
            (modify (fun w => set_sessionMetadataIndex
                                (delete eventsPath (w_sessionMetadataIndex w)) w) ;;;
             ret None) ;;
        match statResult with
        | None => ret s
        | Some mtimeMs =>
            if m_mtimeMs md =? mtimeMs then
              if otherSession (o_sessionId options) (m_sessionId md) then ret s
              else if sinceAllows since (m_mtimeMs md)
              then ret (pushSessionDir
                          (mkDir (m_sessionId md) sessionDirPath (m_mtimeMs md)) s)
              else ret s
            else
              let sessionId := Path.basename sessionDirPath in
              modify (fun w => set_sessionMetadataIndex
                                 (<[ eventsPath := mkMeta mtimeMs sessionId ]>
                                    (w_sessionMetadataIndex w)) w) ;;;
              if otherSession (o_sessionId options) sessionId then ret s
              else if sinceAllows since mtimeMs
              then ret (pushSessionDir (mkDir sessionId sessionDirPath mtimeMs) s)
              else ret s
        end
  | None =>
      let s := mkDiscovery (sessionDirs s) (seenDirPaths s)
                           (statCount s + 1) (statSkipCount s) (dirtyHitCount s) in
      statResult <-
        tryCatch
          (stat <- Fs.stat eventsPath ;; ret (Some (st_mtimeMs stat)))
          (modify (fun w => set_sessionMetadataIndex
                              (delete eventsPath (w_sessionMetadataIndex w)) w) ;;;
           ret None) ;;
      match statResult with
      | None => ret s
      | Some mtimeMs =>
          let sessionId := Path.basename sessionDirPath in
          modify (fun w => set_sessionMetadataIndex
                             (<[ eventsPath := mkMeta mtimeMs sessionId ]>
                                (w_sessionMetadataIndex w)) w) ;;;
          if otherSession (o_sessionId options) sessionId then ret s
          else if sinceAllows since mtimeMs
          then ret (pushSessionDir (mkDir sessionId sessionDirPath mtimeMs) s)
          else ret s
      end
  end.

(** The local variables of the aggregation loop. *)
Record Aggregation := mkAggregation {
  sessions : list SessionUsageData;
  aggregateCacheHits : Z;
  aggregateCacheMisses : Z
}.

(** Lines 360-380: one turn of the aggregation loop. *)
Definition aggregateSessionDir (now : Z) (defaultModel : string)
           (a : Aggregation) (dir : ParsedSessionDir) : M Aggregation :=
  cache <- gets w_sessionAggregateCache ;;
  let miss :=
    usageRows <- parseSessionDirRows (p_dirPath dir) (p_mtimeMs dir) defaultModel ;;
    modify (fun w => set_sessionAggregateCache
                       (<[ p_sessionId dir :=
                             {| updatedAt := p_mtimeMs dir;
                                usageRows := usageRows;
                                lastAccessed := now |} ]>
                          (w_sessionAggregateCache w)) w) ;;;
    ret (mkAggregation (sessions a ++ usageRows)
                       (aggregateCacheHits a) (aggregateCacheMisses a + 1)) in
  match cache !! p_sessionId dir with
  | Some cached =>
      if updatedAt cached =? p_mtimeMs dir then
        modify (fun w => set_sessionAggregateCache
                           (<[ p_sessionId dir :=
                                 {| updatedAt := updatedAt cached;
                                    usageRows := usageRows cached;
                                    lastAccessed := now |} ]>
                              (w_sessionAggregateCache w)) w) ;;;
        ret (mkAggregation (sessions a ++ usageRows cached)
                           (aggregateCacheHits a + 1) (aggregateCacheMisses a))
      else miss
  | None => miss
  end.

(** Lines 269-382: the slow path up to the assembled rows. *)
Definition reconcile (options : SessionParseOptions) (now : Z) : M (list SessionUsageData) :=
  dirtyPaths <- gets (fun w => sw_dirtyPaths (w_sessionWatcher w)) ;;
  modifySessionWatcher (sw_set_dirtyPaths ∅) ;;;
  needsFullStat <- consumeForceFullReconciliation ;;
  discoveredDirs <- getSessionDirs ;;
  defaultModel <- getDefaultModel ;;
  found <- foldM (discoverSessionDir options dirtyPaths needsFullStat)
                 discoveredDirs (mkDiscovery [] ∅ 0 0 0) ;;
  modify (fun w => set_sessionMetadataIndex
                     (filter (fun kv => kv.1 ∈ seenDirPaths found)
                             (w_sessionMetadataIndex w)) w) ;;;
  let sorted := sortBy (fun a b => p_mtimeMs b - p_mtimeMs a) (sessionDirs found) in
  aggregated <- foldM (aggregateSessionDir now defaultModel) sorted
                      (mkAggregation [] 0 0) ;;
  modify (fun w => set_sessionAggregateCache
                     (evictSessionAggregateCache (w_sessionAggregateCache w)) w) ;;;
  ret (sessions aggregated).

(** Lines 384-389: the result cache takes the assembled rows. *)
Definition storeResult (options : SessionParseOptions) (limit : Z)
           (sessions : list SessionUsageData) : M unit :=
  if negb (Js.truthyStr (o_sessionId options)) then
    stored <- Date_now ;;
    modify (set_sessionCache
              {| lastCheck := stored;
                 lastResult := sessions;
                 lastLimit := Some limit;
                 lastSince := o_since options |})
  else ret tt.

(** Lines 269-404: the slow path. *)
Definition slowPath (options : SessionParseOptions) (limit : Z) (now : Z)
  : M (list SessionUsageData) :=
  sessions <- reconcile options now ;;
  storeResult options limit sessions ;;;
  ret sessions.

Definition parseSessionsFromDirs (options : SessionParseOptions)
  : M (list SessionUsageData) :=
  let limit := Js.nullish (o_limit options) 100 in
  accessible <-
    tryCatch (Fs.access COPILOT_CLI_SESSION_STATE_PATH ;;; ret true) (ret false) ;;
  if negb accessible then ret []
  else
    startSessionWatcher ;;;
    now <- Date_now ;;
    sessionCache <- gets w_sessionCache ;;
    if resultCacheApplies options limit now sessionCache
    then ret (lastResult sessionCache)
    else slowPath options limit now.

(** ** What the readers compute from the file system *)

Definition addCalls (calls : list FsCall) (w : World) : World :=
  set_calls (w_calls w ++ calls) w.

Definition eventsOf (fs : FileSystem) (filePath : string) : list JsValue :=
  match fs_readFile fs filePath with
  | Some content => parseLines (Js.splitLines content)
  | None => []
  end.

Definition workspaceOf (fs : FileSystem) (filePath : string)
  : option CopilotCliWorkspaceInfo :=
  match fs_readFile fs filePath with
  | Some content => workspaceOfYaml content
  | None => None
  end.

(** The context and the [deduped] map of [parseSessionDirRows]. *)
Definition contextOf (fs : FileSystem) (dirPath : string) (mtimeMs : Z)
           (defaultModel : string) : SessionContext :=
  sessionContext (workspaceOf fs (Path.join dirPath "workspace.yaml"))
                 dirPath mtimeMs defaultModel
                 (eventsOf fs (Path.join dirPath "events.jsonl")).

Definition dedupedOf (fs : FileSystem) (dirPath : string) (mtimeMs : Z)
           (defaultModel : string) : list (string * SessionUsageData) :=
  dedupedRows (contextOf fs dirPath mtimeMs defaultModel)
              (eventsOf fs (Path.join dirPath "events.jsonl")).

(** The assistant messages of a log, in file order. *)
Definition assistantMessages (events : list JsValue)
  : list CopilotCliAssistantMessageEvent :=
  omap asAssistantMessage events.

(** The key and the value that the message loop hands to [deduped.set]. *)
Definition keyedRow (ctx : SessionContext) (e : CopilotCliAssistantMessageEvent)
  : string * SessionUsageData :=
  (am_messageId e, usageRow ctx e).

(** ** Vocabulary of the properties *)

(** The distinct elements of a list in the order of their first
    occurrence. *)
Fixpoint firstOccurrences (l : list string) : list string :=
  match l with
  | [] => []
  | x :: l' => x :: filter (fun y => y <> x) (firstOccurrences l')
  end.

(** [e] is the last message of the log with the identifier [k]. *)
Definition lastOccurrence (msgs : list CopilotCliAssistantMessageEvent)
           (k : string) (e : CopilotCliAssistantMessageEvent) : Prop :=
  exists before later,
    msgs = before ++ e :: later
    /\ am_messageId e = k
    /\ Forall (fun e' => am_messageId e' <> k) later.

(** [n = Math.ceil(a / b)], said without division. *)
Definition isCeilingOf (n a b : Z) : Prop := b * (n - 1) < a <= b * n.

(** The message carries vendor usage: [prompt_tokens] is a number
    strictly greater than 0. *)
Definition vendorPrompt (e : CopilotCliAssistantMessageEvent) (p : Z) : Prop :=
  exists u, am_usage e = Some u /\ prompt_tokens u = Some p /\ 0 < p.

(** The value of a vendor count of the usage block, when the block and
    the count are present. *)
Definition vendorCount (field : Usage -> option Z)
           (e : CopilotCliAssistantMessageEvent) : option Z :=
  match am_usage e with
  | Some u => field u
  | None => None
  end.

(** A cache count is attached exactly when the vendor value is present
    and strictly positive, and then it is that value. *)
Definition attachedIffPositive (attached vendor : option Z) : Prop :=
  forall n, attached = Some n <-> (vendor = Some n /\ 0 < n).

(** The token counts that the specification gives for a message. *)
Definition tokensAsSpecified (e : CopilotCliAssistantMessageEvent)
           (t : TokenCounts) : Prop :=
  (forall p, vendorPrompt e p ->
     t_input t = p
     /\ t_output t = Js.nullish (vendorCount completion_tokens e) 0
     /\ attachedIffPositive (t_cacheRead t) (vendorCount cache_read_input_tokens e)
     /\ attachedIffPositive (t_cacheWrite t)
                            (vendorCount cache_creation_input_tokens e))
  /\ ((forall p, ~ vendorPrompt e p) ->
        isCeilingOf (t_output t) (Js.length (am_content e)) 4
        /\ isCeilingOf (t_input t) (t_output t) 2
        /\ t_cacheRead t = None
        /\ t_cacheWrite t = None).

(** The model that the timeline gives at time [t]: the model of its
    latest entry at or before [t], or the default model when there is no
    such entry. *)
Definition latestChangeAt (timeline : list ModelChange) (t : Z)
           (defaultModel model : string) : Prop :=
  (exists before c later,
      timeline = before ++ c :: later
      /\ mc_timestamp c <= t
      /\ Forall (fun c' => mc_timestamp c' <= mc_timestamp c) before
      /\ Forall (fun c' => t < mc_timestamp c') later
      /\ model = mc_model c)
  \/ (Forall (fun c' => t < mc_timestamp c') timeline /\ model = defaultModel).

Definition ascending (timeline : list ModelChange) : Prop :=
  StronglySorted (fun a b => mc_timestamp a <= mc_timestamp b) timeline.

(** The text of a line as the line loops see it: [None] for a line that
    is blank after trimming or that [JSON.parse] rejects. *)
Definition parsedLine (line : string) : option JsValue :=
  let trimmed := Js.trim line in
  if Js.isEmpty trimmed then None else JSON_parse trimmed.

(** A computation never throws. *)
Definition NeverRaises {A} (m : M A) : Prop :=
  forall w, exists a, result m w = Returned a.

(** Every run of a computation relates the world before and after. *)
Definition Keeps (R : World -> World -> Prop) {A} (m : M A) : Prop :=
  forall w, R w (after m w).

(** The calls to the file system only grow. *)
Definition callsGrow (w w' : World) : Prop :=
  exists calls, w_calls w' = w_calls w ++ calls.

(** A part of the world is left as it was. *)
Definition unchanged {B} (part : World -> B) (w w' : World) : Prop :=
  part w' = part w.

(** The clock and the result cache, on which the fast path depends. *)
Definition fastPathInputs (w : World) : (nat -> Z) * nat * SessionCache :=
  (w_clock w, w_ticks w, w_sessionCache w).

(** The watch handles and the timer that a watcher state holds. *)
Definition handleIds (watchers : gmap string FSWatcher) (root : option FSWatcher)
  : gset nat :=
  list_to_set (map fw_id (map snd (map_to_list watchers)))
  ∪ match root with Some h => {[ fw_id h ]} | None => ∅ end.

Definition sessionWatcherHandles (s : SessionWatcherState) : gset nat :=
  handleIds (sw_sessionDirWatchers s) (sw_rootWatcher s).

Definition activityWatcherHandles (s : ActivityWatcherState) : gset nat :=
  handleIds (aw_sessionDirWatchers s) (aw_rootWatcher s).

Definition timerIds (timer : option nat) : gset nat :=
  match timer with Some t => {[ t ]} | None => ∅ end.

(** The watcher states as [stopSessionWatcher] and [stopActivityWatch]
    leave them. *)
Definition stoppedSessionWatcher : SessionWatcherState :=
  mkSessionWatcher ∅ None ∅ None false.

Definition stoppedActivityWatcher : ActivityWatcherState :=
  mkActivityWatcher ∅ None None ∅ false.

(** The aggregate-cache entry of a selected session is valid: it exists
    and its [updatedAt] is the mtime of the session. *)
Definition validEntry (cache : gmap string SessionAggregateCacheEntry)
           (dir : ParsedSessionDir) : Prop :=
  exists cached,
    cache !! p_sessionId dir = Some cached /\ updatedAt cached = p_mtimeMs dir.

(** The rows that a pass emits for a selected session, given the cache
    it starts from. *)
Definition rowsOfSession (fs : FileSystem)
           (cache : gmap string SessionAggregateCacheEntry)
           (defaultModel : string) (dir : ParsedSessionDir) : list SessionUsageData :=
  match cache !! p_sessionId dir with
  | Some cached =>
      if updatedAt cached =? p_mtimeMs dir then usageRows cached
      else mapValues (dedupedOf fs (p_dirPath dir) (p_mtimeMs dir) defaultModel)
  | None => mapValues (dedupedOf fs (p_dirPath dir) (p_mtimeMs dir) defaultModel)
  end.

(** The test of the aggregation loop: the entry of the session exists and
    its [updatedAt] is the mtime of the selected session. *)
Definition entryIsValid (cache : gmap string SessionAggregateCacheEntry)
           (dir : ParsedSessionDir) : bool :=
  match cache !! p_sessionId dir with
  | Some cached => updatedAt cached =? p_mtimeMs dir
  | None => false
  end.

(** The calls of [parseSessionDirRows] to the file system. *)
Definition parseCalls (fs : FileSystem) (dirPath : string) : list FsCall :=
  CallReadFile (Path.join dirPath "events.jsonl")
    :: (if (List.length (eventsOf fs (Path.join dirPath "events.jsonl")) =? 0)%nat
        then []
        else [CallReadFile (Path.join dirPath "workspace.yaml")]).

(** The calls of the aggregation loop over the selected sessions: those
    of the sessions that are parsed again. *)
Definition passCalls (fs : FileSystem) (cache : gmap string SessionAggregateCacheEntry)
           (dirs : list ParsedSessionDir) : list FsCall :=
  flat_map (fun dir => if entryIsValid cache dir then []
                       else parseCalls fs (p_dirPath dir))
           dirs.

(** A computation returns without a call to the file system. *)
Definition Quiet {A} (m : M A) : Prop :=
  forall w, exists a w', m w = (Returned a, w') /\ w_calls w' = w_calls w.

(** The first call of a computation to the file system is [c]. *)
Definition FirstCall (c : FsCall) {A} (m : M A) : Prop :=
  forall w, exists calls, w_calls (after m w) = w_calls w ++ c :: calls.

(** The conditions of the fast path, in the words of the specification:
    no session is asked for, [limit] and [since] are those of the last
    query, the last result is not empty, and the result cache is
    younger than the TTL. *)
Definition resultIsFresh (options : SessionParseOptions) (now : Z)
           (cache : SessionCache) : Prop :=
  (o_sessionId options = None \/ o_sessionId options = Some EmptyString)
  /\ lastLimit cache = Some (Js.nullish (o_limit options) 100)
  /\ lastSince cache = o_since options
  /\ lastResult cache <> []
  /\ now - lastCheck cache < CACHE_TTL_MS.

(** The world once [parseSessionsFromDirs] has checked the root and
    started the session watcher. *)
Definition afterStartup (w : World) : World :=
  after startSessionWatcher (addCalls [CallAccess COPILOT_CLI_SESSION_STATE_PATH] w).

(** *** The default model, in the words of the specification *)

(** The text that follows the first occurrence of [marker] in a line. *)
Fixpoint textAfter (marker line : string) : option string :=
  if Js.startsWith marker line
  then Some (Js.sliceFrom (String.length marker) line)
  else
    match line with
    | EmptyString => None
    | String _ r => textAfter marker r
    end.

(** The lines of a text: its maximal runs without a line terminator. *)
Fixpoint linesOf (s : string) : list string :=
  match s with
  | EmptyString => [EmptyString]
  | String c r =>
      if Js.isLineTerminator c then EmptyString :: linesOf r
      else Js.consLine c (linesOf r)
  end.

(** The model that a line names after the marker, when it names one. *)
Definition modelOfLine (marker line : string) : option string :=
  match textAfter marker line with
  | Some text =>
      let model := Js.trim text in
      if Js.isEmpty model then None else Some model
  | None => None
  end.

(** The model of the last line that names one. *)
Definition lastModelAfter (marker content : string) : option string :=
  last (omap (modelOfLine marker) (linesOf content)).

(** The same, starting from a model already found. *)
Definition keepLast (marker : string) (acc : option string) (lines : list string)
  : option string :=
  fold_left (fun acc line =>
               match modelOfLine marker line with
               | Some model => Some model
               | None => acc
               end) lines acc.

(** What follows the first line of a text: empty, or led by a line
    terminator. *)
Fixpoint dropLine (s : string) : string :=
  match s with
  | EmptyString => EmptyString
  | String c r => if Js.isLineTerminator c then s else dropLine r
  end.

Fixpoint noTerminator (s : string) : bool :=
  match s with
  | EmptyString => true
  | String c r => negb (Js.isLineTerminator c) && noTerminator r
  end.

(** The lines of a text after its first line. *)
Definition laterLines (s : string) : list string :=
  match dropLine s with
  | EmptyString => []
  | String _ r => linesOf r
  end.

(** One turn of [keepLast]. *)
Definition keepModel (marker : string) (acc : option string) (line : string)
  : option string :=
  match modelOfLine marker line with
  | Some model => Some model
  | None => acc
  end.

(** The marker as the specification quotes it. *)
Definition QUOTED_MARKER : string := "Using default model: ".

(** The process logs that [getDefaultModel] collects, in the order of
    the directory listing. *)
Definition logFileOf (fs : FileSystem) (entry : Dirent) : option LogFile :=
  if isProcessLog entry then
    match fs_stat fs (Path.join COPILOT_CLI_LOGS_PATH (de_name entry)) with
    | Some stat => Some {| lf_name := de_name entry; lf_mtimeMs := st_mtimeMs stat |}
    | None => None
    end
  else None.

Definition processLogsOf (fs : FileSystem) : list LogFile :=
  match fs_readdir fs COPILOT_CLI_LOGS_PATH with
  | Some entries => omap (logFileOf fs) entries
  | None => []
  end.

(** The most recently modified process log. *)
Definition latestLogOf (fs : FileSystem) : option LogFile :=
  head (sortBy (fun a b => lf_mtimeMs b - lf_mtimeMs a) (processLogsOf fs)).

(** The model that a scan of the process logs finds with [marker]. *)
Definition scannedModelOf (marker : string) (fs : FileSystem) : option string :=
  match latestLogOf fs with
  | Some latest =>
      match fs_readFile fs (Path.join COPILOT_CLI_LOGS_PATH (lf_name latest)) with
      | Some content => lastModelAfter marker content
      | None => None
      end
  | None => None
  end.

(** The cached model still stands at time [now]. *)
Definition modelIsCached (w : World) (now : Z) (model : string) : Prop :=
  w_cachedModel w = Some model
  /\ model <> EmptyString
  /\ now - w_modelCacheTime w < MODEL_CACHE_TTL_MS.

(** Where [processEventsDelta] starts to read: the recorded offset, or 0
    when there is none or the file is now shorter. *)
Definition startOffsetOf (offsets : gmap string Z) (filePath : string) (size : Z) : Z :=
  let knownOffset := Js.nullish (offsets !! filePath) 0 in
  if size <? knownOffset then 0 else knownOffset.

(** The parts of the world that the line loop of [processEventsDelta]
    leaves alone. *)
Definition tailState (w : World) : FileSystem * list FsCall * ActivityWatcherState :=
  (w_fs w, w_calls w, w_activityWatcher w).

(** *** The deltas of a chunk *)

(** The session id that [processEventsDelta] gives to its deltas. *)
Definition sessionIdOf (fs : FileSystem) (sessionDirPath : string) : string :=
  match workspaceOf fs (Path.join sessionDirPath "workspace.yaml") with
  | Some ws => ws_id ws
  | None => Path.basename sessionDirPath
  end.

(** The delta of one line, when the line holds an assistant message;
    [now] is what [Date.now()] reads when the line is reached. *)
Definition deltaOfLine (sessionId : string) (now : Z) (line : string)
  : option ActivityUpdate :=
  match parsedLine line with
  | Some event =>
      match asAssistantMessage event with
      | Some e =>
          Some {| u_sessionId := sessionId;
                  u_messageId := am_messageId e;
                  u_tokens := deltaTokens e;
                  u_timestamp := toTimestamp (am_timestamp e) now |}
      | None => None
      end
  | None => None
  end.

(** The deltas of the lines of a chunk, in order; the clock is read once
    for each delta. *)
Fixpoint deltasOfLines (sessionId : string) (clock : nat -> Z) (ticks : nat)
         (lines : list string) : list ActivityUpdate :=
  match lines with
  | [] => []
  | line :: lines' =>
      match deltaOfLine sessionId (clock ticks) line with
      | Some u => u :: deltasOfLines sessionId clock (S ticks) lines'
      | None => deltasOfLines sessionId clock ticks lines'
      end
  end.

(** The world once the callback has been handed the deltas [ds]. *)
Definition deliverAll (callback : nat) (ds : list ActivityUpdate) (w : World) : World :=
  set_delivered (w_delivered w ++ map (pair callback) ds)
                (set_ticks (w_ticks w + List.length ds) w).

(** The world once [processEventsDelta] has read [chunk] from [start] in
    a file of [size] bytes: three calls to the file system, the recorded
    offset at [size], and the deltas of the chunk delivered. *)
Definition afterChunk (filePath sessionDirPath : string) (callback : nat)
           (start size : Z) (chunk : string) (w : World) : World :=
  let read :=
    set_activityWatcher
      (aw_set_fileOffsets (<[ filePath := size ]> (aw_fileOffsets (w_activityWatcher w)))
                          (w_activityWatcher w))
      (addCalls [CallStat filePath;
                 CallRead filePath start (size - start);
                 CallReadFile (Path.join sessionDirPath "workspace.yaml")] w) in
  deliverAll callback
    (deltasOfLines (sessionIdOf (w_fs w) sessionDirPath) (w_clock w) (w_ticks w)
                   (Js.splitLines chunk))
    read.

(** *** Keys of [workspace.yaml] *)

(** A key as the writers of [workspace.yaml] use them: not empty, free of
    white space and colons, and not a comment. *)
Fixpoint keyChars (k : string) : bool :=
  match k with
  | EmptyString => true
  | String c r =>
      negb (Js.isWhiteSpace c) && negb (Ascii.eqb c ":"%char) && keyChars r
  end.

Definition isPlainKey (k : string) : bool :=
  negb (Js.isEmpty k) && negb (Js.startsWith "#" k) && keyChars k.


(** *** The session directories *)

(** A directory entry of the session-state root that holds a session: a
    directory whose [events.jsonl] is accessible. *)
Definition holdsSession (fs : FileSystem) (entry : Dirent) : bool :=
  de_isDirectory entry
  && fs_access fs (Path.join (Path.join COPILOT_CLI_SESSION_STATE_PATH (de_name entry))
                             "events.jsonl").

(** The session directories of a file system, in the order of the
    listing of the root. *)
Definition sessionDirsOf (fs : FileSystem) : list string :=
  match fs_readdir fs COPILOT_CLI_SESSION_STATE_PATH with
  | Some entries =>
      map (fun entry => Path.join COPILOT_CLI_SESSION_STATE_PATH (de_name entry))
          (List.filter (holdsSession fs) entries)
  | None => []
  end.

(** The calls of [getSessionDirs]: the listing of the root and one
    [access] for each directory in it. *)
Definition sessionDirCalls (fs : FileSystem) : list FsCall :=
  CallReaddir COPILOT_CLI_SESSION_STATE_PATH
    :: match fs_readdir fs COPILOT_CLI_SESSION_STATE_PATH with
       | Some entries =>
           map (fun entry =>
                  CallAccess
                    (Path.join (Path.join COPILOT_CLI_SESSION_STATE_PATH (de_name entry))
                               "events.jsonl"))
               (List.filter de_isDirectory entries)
       | None => []
       end.


(** *** The session watcher, step by step *)

(** The world once [watchSessionDir] has run on a directory: as it was
    for a directory with a watch, one more call in the log for a
    directory that cannot be watched, and otherwise a new watch, open and
    recorded for the directory. *)
Definition afterWatchDir (sessionDirPath : string) (w : World) : World :=
  match sw_sessionDirWatchers (w_sessionWatcher w) !! sessionDirPath with
  | Some _ => w
  | None =>
      if fs_watchable (w_fs w) sessionDirPath then
        set_sessionWatcher
          (sw_set_sessionDirWatchers
             (<[ sessionDirPath :=
                   mkWatcher (w_nextHandle w) (DirtyDirListener sessionDirPath) ]>
                (sw_sessionDirWatchers (w_sessionWatcher w)))
             (w_sessionWatcher w))
          (set_nextHandle (S (w_nextHandle w))
             (set_openWatchers ({[ w_nextHandle w ]} ∪ w_openWatchers w)
                (addCalls [CallWatch sessionDirPath] w)))
      else addCalls [CallWatch sessionDirPath] w
  end.

Definition watchAll (dirs : list string) (w : World) : World :=
  fold_left (fun w' dir => afterWatchDir dir w') dirs w.

(** The world once [startSessionWatcher] has watched the root. *)
Definition afterWatchRoot (w : World) : World :=
  if fs_watchable (w_fs w) COPILOT_CLI_SESSION_STATE_PATH then
    set_sessionWatcher
      (sw_set_rootWatcher (Some (mkWatcher (w_nextHandle w) DirtyRootListener))
                          (w_sessionWatcher w))
      (set_nextHandle (S (w_nextHandle w))
         (set_openWatchers ({[ w_nextHandle w ]} ∪ w_openWatchers w)
            (addCalls [CallWatch COPILOT_CLI_SESSION_STATE_PATH] w)))
  else addCalls [CallWatch COPILOT_CLI_SESSION_STATE_PATH] w.

(** The world once [startSessionWatcher] has set its timer. *)
Definition afterSetTimer (w : World) : World :=
  set_sessionWatcher
    (sw_set_reconciliationTimer (Some (w_nextHandle w)) (w_sessionWatcher w))
    (set_nextHandle (S (w_nextHandle w))
       (set_activeTimers ({[ w_nextHandle w ]} ∪ w_activeTimers w) w)).

(** The world once [startSessionWatcher] has run from a watcher that was
    not started. *)
Definition afterStart (w : World) : World :=
  let marked :=
    set_sessionWatcher (sw_set_started true (w_sessionWatcher w)) w in
  let timed := afterSetTimer (afterWatchRoot marked) in
  watchAll (sessionDirsOf (w_fs w)) (addCalls (sessionDirCalls (w_fs w)) timed).

(** The handles of the session watcher are those that the world counts
    as live, next to the handles [open] and [timers] of others, and they
    are younger than [bound]. *)
Definition holdsItsHandles (open timers : gset nat) (bound : nat) (w : World) : Prop :=
  w_openWatchers w = open ∪ sessionWatcherHandles (w_sessionWatcher w)
  /\ w_activeTimers w
     = timers ∪ timerIds (sw_reconciliationTimer (w_sessionWatcher w))
  /\ (bound <= w_nextHandle w)%nat
  /\ forall n,
       n ∈ sessionWatcherHandles (w_sessionWatcher w)
           ∪ timerIds (sw_reconciliationTimer (w_sessionWatcher w)) ->
       (bound <= n < w_nextHandle w)%nat.


(** The world once [primeSessionOffset] has run: the size of the
    [events.jsonl] of the directory recorded as its offset when the file
    can be examined, and nothing recorded when it cannot. *)
Definition afterPrime (sessionDirPath : string) (w : World) : World :=
  let eventsPath := Path.join sessionDirPath "events.jsonl" in
  match fs_stat (w_fs w) eventsPath with
  | Some stat =>
      set_activityWatcher
        (aw_set_fileOffsets
           (<[ eventsPath := st_size stat ]> (aw_fileOffsets (w_activityWatcher w)))
           (w_activityWatcher w))
        (addCalls [CallStat eventsPath] w)
  | None => addCalls [CallStat eventsPath] w
  end.


(** *** One turn of the discovery loop *)

(** Whether a turn of the discovery loop examines the [events.jsonl] of
    its directory: the index has no entry for it, or the entry is of the
    session asked for and the file is marked as changed or a full sweep
    is due. *)
Definition turnStats (options : SessionParseOptions) (dirtyPaths : gset string)
           (needsFullStat : bool) (index : gmap string SessionMetadata)
           (eventsPath : string) : bool :=
  match index !! eventsPath with
  | None => true
  | Some md =>
      negb (otherSession (o_sessionId options) (m_sessionId md))
      && (bool_decide (eventsPath ∈ dirtyPaths) || needsFullStat)
  end.

(** The directory that an index entry selects for the aggregation, when
    it selects one: the entry is of the session asked for and not older
    than [since]. *)
Definition selectedBy (options : SessionParseOptions) (sessionDirPath : string)
           (entry : option SessionMetadata) : list ParsedSessionDir :=
  match entry with
  | Some md =>
      if negb (otherSession (o_sessionId options) (m_sessionId md))
         && sinceAllows (o_since options) (m_mtimeMs md)
      then [mkDir (m_sessionId md) sessionDirPath (m_mtimeMs md)]
      else []
  | None => []
  end.


(** What the reconciliation never changes: the file system, the clock,
    what the activity callback was handed, and the result cache. *)
Definition reconcileFrame (w : World)
  : FileSystem * (nat -> Z) * list (nat * ActivityUpdate) * SessionCache :=
  (w_fs w, w_clock w, w_delivered w, w_sessionCache w).


(** What the reconciliation consumes: the marks for changed files and
    the request for a full sweep; beside them the file system. *)
Definition sweepMarks (w : World) : gset string * bool * FileSystem :=
  (sw_dirtyPaths (w_sessionWatcher w), w_forceFullReconciliation w, w_fs w).

Definition indexAndMarks (w : World)
  : gmap string SessionMetadata * (gset string * bool * FileSystem) :=
  (w_sessionMetadataIndex w, sweepMarks w).

(** The [events.jsonl] of the session directories of a file system. *)
Definition eventsPathsOf (dirs : list string) : gset string :=
  list_to_set (map (fun dir => Path.join dir "events.jsonl") dirs).


(** *** Starting the activity watcher *)

(** The world once [watchSessionDirForActivity] has run. *)
Definition afterWatchActivityDir (sessionDirPath : string) (w : World) : World :=
  match aw_sessionDirWatchers (w_activityWatcher w) !! sessionDirPath with
  | Some _ => w
  | None =>
      if fs_watchable (w_fs w) sessionDirPath then
        set_activityWatcher
          (aw_set_sessionDirWatchers
             (<[ sessionDirPath :=
                   mkWatcher (w_nextHandle w) (ActivityDirListener sessionDirPath) ]>
                (aw_sessionDirWatchers (w_activityWatcher w)))
             (w_activityWatcher w))
          (set_nextHandle (S (w_nextHandle w))
             (set_openWatchers ({[ w_nextHandle w ]} ∪ w_openWatchers w)
                (addCalls [CallWatch sessionDirPath] w)))
      else addCalls [CallWatch sessionDirPath] w
  end.

(** The world once a session directory is watched for activity and the
    offset of its [events.jsonl] is primed. *)
Definition afterTailStart (w : World) (sessionDirPath : string) : World :=
  afterPrime sessionDirPath (afterWatchActivityDir sessionDirPath w).

(** What starting to watch a directory for activity leaves alone. *)
Definition tailFrame (w : World)
  : FileSystem * list (nat * ActivityUpdate) * option nat * bool :=
  (w_fs w, w_delivered w, aw_callback (w_activityWatcher w),
   aw_started (w_activityWatcher w)).


(** The mtime that the [events.jsonl] of a session directory has on
    disc now: what the claim C4 calls the current mtime of the session. *)
Definition currentMtime (fs : FileSystem) (dirPath : string) : option Z :=
  option_map st_mtimeMs (fs_stat fs (Path.join dirPath "events.jsonl")).

(** The world once the synchronous body of [startSessionWatcher] has run
    from a watcher that was not started, and the world once the listing
    it leaves behind has run. *)
Definition afterStartNow (w : World) : World :=
  afterSetTimer
    (afterWatchRoot (set_sessionWatcher (sw_set_started true (w_sessionWatcher w)) w)).

Definition afterListing (w : World) : World :=
  watchAll (sessionDirsOf (w_fs w)) (addCalls (sessionDirCalls (w_fs w)) w).

(** The watcher is stopped and the watches and timers of [w] are the
    ones that are open. *)
Definition restoredTo (w x : World) : Prop :=
  w_sessionWatcher x = stoppedSessionWatcher
  /\ w_openWatchers x = w_openWatchers w
  /\ w_activeTimers x = w_activeTimers w.

(** The functions below are reasoned about through their lemmas, not
    by unfolding. *)
Arguments Path.join : simpl never.
Arguments Path.basename : simpl never.
Arguments Js.trim : simpl never.
Arguments Js.splitLines : simpl never.
Arguments parseLines : simpl never.
Arguments workspaceOfYaml : simpl never.
Arguments eventsOf : simpl never.
Arguments workspaceOf : simpl never.
Arguments contextOf : simpl never.
Arguments dedupedOf : simpl never.
Arguments dedupedRows : simpl never.
Arguments sortedModelChanges : simpl never.
Arguments scanModels : simpl never.
Arguments readJsonlFile : simpl never.
Arguments readWorkspaceYaml : simpl never.
Arguments parseSessionDirRows : simpl never.
Arguments getSessionDirs : simpl never.
Arguments getDefaultModel : simpl never.
Arguments extractModelFromProcessLog : simpl never.
Arguments startSessionWatcher : simpl never.
Arguments stopSessionWatcher : simpl never.
Arguments watchSessionDir : simpl never.
Arguments reconcile : simpl never.
Arguments COPILOT_CLI_SESSION_STATE_PATH : simpl never.
Arguments COPILOT_CLI_LOGS_PATH : simpl never.
Arguments MODEL_MARKER : simpl never.
Arguments Js.startsWith : simpl never.

(* =================================================================== *)
(** * Properties *)
(* =================================================================== *)

(** Some tactics take the whole context into the proof; [tidy] keeps
    the parameters of the plugin that a goal does not mention out of
    it. *)
Ltac tidy :=
  try clear JSON_parse; try clear Date_parse; try clear homedir;
  try clear CACHE_TTL_MS; try clear evictSessionAggregateCache.

Ltac set_solve := tidy; set_solver.

(** Reduce the projections of worlds and watcher states, and nothing
    else. *)
Ltac world_simpl :=
  cbv beta iota delta
      [w_fs w_calls w_clock w_ticks w_sessionCache w_sessionMetadataIndex
       w_sessionAggregateCache w_cachedModel w_modelCacheTime w_sessionWatcher
       w_activityWatcher w_forceFullReconciliation w_openWatchers w_activeTimers
       w_nextHandle w_delivered
       set_fs set_calls set_ticks set_sessionCache set_sessionMetadataIndex
       set_sessionAggregateCache set_cachedModel set_modelCacheTime
       set_sessionWatcher set_activityWatcher set_forceFullReconciliation
       set_openWatchers set_activeTimers set_nextHandle set_delivered
       sw_sessionDirWatchers sw_rootWatcher sw_dirtyPaths sw_reconciliationTimer
       sw_started aw_sessionDirWatchers aw_rootWatcher aw_callback aw_fileOffsets
       aw_started
       sw_set_sessionDirWatchers sw_set_rootWatcher sw_set_dirtyPaths
       sw_set_reconciliationTimer sw_set_started
       aw_set_sessionDirWatchers aw_set_rootWatcher aw_set_callback
       aw_set_fileOffsets aw_set_started
       addCalls fst snd] in *.

(** The same, with the field updates written out as records. *)
Ltac world_unfold :=
  unfold set_fs, set_calls, set_ticks, set_sessionCache, set_sessionMetadataIndex,
         set_sessionAggregateCache, set_cachedModel, set_modelCacheTime,
         set_sessionWatcher, set_activityWatcher, set_forceFullReconciliation,
         set_openWatchers, set_activeTimers, set_nextHandle, set_delivered,
         sw_set_sessionDirWatchers, sw_set_rootWatcher, sw_set_dirtyPaths,
         sw_set_reconciliationTimer, sw_set_started,
         aw_set_sessionDirWatchers, aw_set_rootWatcher, aw_set_callback,
         aw_set_fileOffsets, aw_set_started, addCalls in *;
  world_simpl.

(** Name every part of a world. *)
Ltac open_world w :=
  let sw := fresh "sw" in
  let aw := fresh "aw" in
  destruct w as [?fs ?calls ?clock ?ticks ?sessionCache ?index ?aggregate
                 ?cachedModel ?modelCacheTime sw aw ?force ?openWatchers
                 ?activeTimers ?nextHandle ?delivered];
  destruct sw as [?swDirs ?swRoot ?dirtyPaths ?timer ?swStarted];
  destruct aw as [?awDirs ?awRoot ?callback ?offsets ?awStarted];
  world_simpl.

(** Run the binds, reads and writes at the head of a computation. *)
Ltac run :=
  cbv beta iota zeta
      delta [bind ret gets modify raise tryCatch logCall liftOption
             modifySessionWatcher modifyActivityWatcher result after];
  world_simpl.

(** ** Arithmetic of the estimates *)

Lemma ceilDiv_isCeiling (a b : Z) : 0 < b -> isCeilingOf (Js.ceilDiv a b) a b.
Proof.
  intros Hb. unfold isCeilingOf, Js.ceilDiv.
  pose proof (Z.div_mod (- a) b ltac:(lia)) as Hdiv.
  pose proof (Z.mod_pos_bound (- a) b Hb) as Hmod.
  nia.
Qed.

Lemma isCeilingOf_unique (n m a b : Z) :
  0 < b -> isCeilingOf n a b -> isCeilingOf m a b -> n = m.
Proof. unfold isCeilingOf. intros. nia. Qed.

Lemma estimateTokens_isCeiling (text : string) :
  isCeilingOf (estimateTokens text) (Js.length text) 4.
Proof.
  unfold estimateTokens. destruct text as [|c r]; simpl.
  - unfold isCeilingOf, Js.length. simpl. lia.
  - apply ceilDiv_isCeiling. lia.
Qed.

Lemma estimateTokens_nonneg (text : string) : 0 <= estimateTokens text.
Proof.
  pose proof (estimateTokens_isCeiling text) as H.
  unfold isCeilingOf, Js.length in H. lia.
Qed.

(** ** The token branch *)

Lemma isPositiveNumber_true (x : option Z) :
  isPositiveNumber x = true <-> exists p, x = Some p /\ 0 < p.
Proof.
  unfold isPositiveNumber. destruct x as [n|]; split.
  - intros H. exists n. split; [done | lia].
  - intros (p & [= ->] & Hp). lia.
  - done.
  - intros (p & Hp & _). done.
Qed.

Lemma positiveOrUndefined_spec (x : option Z) :
  attachedIffPositive (positiveOrUndefined x) x.
Proof.
  intros n. unfold positiveOrUndefined. destruct x as [m|].
  - destruct (negb (m =? 0) && (m >? 0)) eqn:E.
    + apply andb_true_iff in E as [_ E]. split.
      * intros [= <-]. split; [done | lia].
      * intros [[= <-] _]. done.
    + split; [done |]. intros [[= <-] Hn].
      apply andb_false_iff in E as [E | E].
      * apply negb_false_iff in E. lia.
      * lia.
  - split; [done | intros [? _]; done].
Qed.

(** What is attached to the row: [if (cacheRead) ...] drops nothing that
    [positiveOrUndefined] kept. *)
Lemma truthy_positiveOrUndefined (x : option Z) :
  (if Js.truthyNum (positiveOrUndefined x) then positiveOrUndefined x else None)
  = positiveOrUndefined x.
Proof.
  unfold positiveOrUndefined. destruct x as [m|]; [|done].
  destruct (negb (m =? 0)) eqn:E; simpl; [|done].
  destruct (m >? 0); simpl; [|done]. by rewrite E.
Qed.

Lemma vendorPrompt_usage (e : CopilotCliAssistantMessageEvent) (u : Usage) :
  am_usage e = Some u ->
  isPositiveNumber (prompt_tokens u) = true <-> exists p, vendorPrompt e p.
Proof.
  intros Hu. rewrite isPositiveNumber_true. unfold vendorPrompt. split.
  - intros (p & Hp & Hpos). exists p, u. done.
  - intros (p & u' & Hu' & Hp & Hpos). exists p. split; [congruence | done].
Qed.

Lemma estimatedFigures_spec (content : string) :
  isCeilingOf (outputTokens (estimatedFigures content)) (Js.length content) 4
  /\ isCeilingOf (inputTokens (estimatedFigures content))
                 (outputTokens (estimatedFigures content)) 2.
Proof.
  simpl. split.
  - apply estimateTokens_isCeiling.
  - apply ceilDiv_isCeiling. lia.
Qed.

(** The row of the parser carries the specified token counts. *)
Lemma usageRow_tokens (ctx : SessionContext) (e : CopilotCliAssistantMessageEvent) :
  tokensAsSpecified e (r_tokens (usageRow ctx e)).
Proof.
  assert (Hest : forall c : string,
             isCeilingOf (estimateTokens c) (Js.length c) 4
             /\ isCeilingOf (Js.ceilDiv (estimateTokens c) 2) (estimateTokens c) 2
             /\ (None : option Z) = None /\ (None : option Z) = None).
  { intros c. split; [apply estimateTokens_isCeiling |].
    split; [apply ceilDiv_isCeiling; lia | done]. }
  unfold tokensAsSpecified, usageRow, tokenFigures, vendorCount. simpl.
  destruct (am_usage e) as [u|] eqn:Hu.
  - destruct (isPositiveNumber (prompt_tokens u)) eqn:Hp; simpl.
    + split.
      * intros p (u' & Hu' & Hpt & Hpos). rewrite Hu in Hu'.
        injection Hu' as <-. rewrite Hpt. simpl.
        rewrite !truthy_positiveOrUndefined.
        split; [done |]. split; [done |].
        split; apply positiveOrUndefined_spec.
      * intros Hno. apply (vendorPrompt_usage e u Hu) in Hp as [p Hp].
        destruct (Hno p Hp).
    + split.
      * intros p Hv.
        assert (isPositiveNumber (prompt_tokens u) = true) as Hp'
          by (apply (vendorPrompt_usage e u Hu); eauto).
        congruence.
      * intros _. apply Hest.
  - split.
    + intros p (u' & Hu' & _). congruence.
    + intros _. apply Hest.
Qed.

Lemma usageRow_isEstimated (ctx : SessionContext) (e : CopilotCliAssistantMessageEvent) :
  (forall p, vendorPrompt e p -> r_isEstimated (usageRow ctx e) = false)
  /\ ((forall p, ~ vendorPrompt e p) -> r_isEstimated (usageRow ctx e) = true).
Proof.
  unfold usageRow, tokenFigures. simpl.
  destruct (am_usage e) as [u|] eqn:Hu.
  - destruct (isPositiveNumber (prompt_tokens u)) eqn:Hp; simpl.
    + split; [done |]. intros Hno.
      apply (vendorPrompt_usage e u Hu) in Hp as [p Hp]. destruct (Hno p Hp).
    + split; [| done]. intros p Hv.
      assert (isPositiveNumber (prompt_tokens u) = true) as Hp'
        by (apply (vendorPrompt_usage e u Hu); eauto).
      congruence.
  - split; [| done]. intros p (u' & Hu' & _). congruence.
Qed.

(** The delta of the tailing watcher: the same input and output counts,
    but the cache counts do not depend on [prompt_tokens]. *)
Lemma deltaTokens_spec (e : CopilotCliAssistantMessageEvent) :
  (forall p, vendorPrompt e p ->
     t_input (deltaTokens e) = p
     /\ t_output (deltaTokens e) = Js.nullish (vendorCount completion_tokens e) 0)
  /\ ((forall p, ~ vendorPrompt e p) ->
        isCeilingOf (t_output (deltaTokens e)) (Js.length (am_content e)) 4
        /\ isCeilingOf (t_input (deltaTokens e)) (t_output (deltaTokens e)) 2)
  /\ attachedIffPositive (t_cacheRead (deltaTokens e))
                         (vendorCount cache_read_input_tokens e)
  /\ attachedIffPositive (t_cacheWrite (deltaTokens e))
                         (vendorCount cache_creation_input_tokens e).
Proof.
  assert (Hest : forall c : string,
             isCeilingOf (estimateTokens c) (Js.length c) 4
             /\ isCeilingOf (Js.ceilDiv (estimateTokens c) 2) (estimateTokens c) 2).
  { intros c. split; [apply estimateTokens_isCeiling |].
    apply ceilDiv_isCeiling; lia. }
  assert (Hnone : attachedIffPositive None None).
  { intros n. split; [done | intros [? _]; done]. }
  unfold deltaTokens, vendorCount.
  destruct (am_usage e) as [u|] eqn:Hu.
  - destruct (isPositiveNumber (prompt_tokens u)) eqn:Hp; simpl.
    + split; [| split; [| split; apply positiveOrUndefined_spec]].
      * intros p (u' & Hu' & Hpt & Hpos). rewrite Hu in Hu'.
        injection Hu' as <-. by rewrite Hpt.
      * intros Hno. apply (vendorPrompt_usage e u Hu) in Hp as [p Hp].
        destruct (Hno p Hp).
    + split; [| split; [| split; apply positiveOrUndefined_spec]].
      * intros p Hv.
        assert (isPositiveNumber (prompt_tokens u) = true) as Hp'
          by (apply (vendorPrompt_usage e u Hu); eauto).
        congruence.
      * intros _. apply Hest.
  - simpl. split; [| split; [| split; apply Hnone]].
    + intros p (u' & Hu' & _). congruence.
    + intros _. apply Hest.
Qed.

(** ** Sorting *)

Section Sorting.
Context {A : Type} (key : A -> Z) (cmp : A -> A -> Z).
(** The comparator orders by [key]. *)
Hypothesis cmp_key : forall a b, (cmp a b <=? 0) = (key a <=? key b).

Lemma sortInsert_Permutation (x : A) (l : list A) :
  Permutation (sortInsert cmp x l) (x :: l).
Proof.
  induction l as [|y l IH]; simpl; [done |].
  destruct (cmp x y <=? 0); [done |].
  rewrite IH. apply perm_swap.
Qed.

Lemma sortBy_Permutation (l : list A) : Permutation (sortBy cmp l) l.
Proof.
  induction l as [|x l IH]; simpl; [done |].
  rewrite sortInsert_Permutation. by constructor.
Qed.

Lemma sortInsert_sorted (x : A) (l : list A) :
  StronglySorted (fun a b => key a <= key b) l ->
  StronglySorted (fun a b => key a <= key b) (sortInsert cmp x l).
Proof.
  induction 1 as [|y l Hs IH Hy]; simpl.
  - repeat constructor.
  - destruct (cmp x y <=? 0) eqn:E; rewrite cmp_key in E.
    + constructor; [by constructor |].
      constructor; [lia |].
      eapply Forall_impl; [exact Hy |]. simpl. intros. lia.
    + constructor; [done |].
      eapply Permutation_Forall; [symmetry; apply sortInsert_Permutation |].
      constructor; [lia | done].
Qed.

Lemma sortBy_sorted (l : list A) :
  StronglySorted (fun a b => key a <= key b) (sortBy cmp l).
Proof.
  induction l as [|x l IH]; simpl; [constructor |].
  by apply sortInsert_sorted.
Qed.

(** A stable sort: elements with the same key keep their order. *)
Lemma sortInsert_filter (k : Z) (x : A) (l : list A) :
  StronglySorted (fun a b => key a <= key b) l ->
  List.filter (fun a => key a =? k) (sortInsert cmp x l)
  = List.filter (fun a => key a =? k) (x :: l).
Proof.
  induction 1 as [|y l Hs IH Hy]; [done |].
  cbn [sortInsert]. destruct (cmp x y <=? 0) eqn:E; [done |].
  rewrite cmp_key in E. cbn [List.filter] in *. rewrite IH.
  destruct (key x =? k) eqn:Ex, (key y =? k) eqn:Ey; try done.
  lia.
Qed.

Lemma sortBy_stable (k : Z) (l : list A) :
  List.filter (fun a => key a =? k) (sortBy cmp l)
  = List.filter (fun a => key a =? k) l.
Proof.
  induction l as [|x l IH]; [done |].
  cbn [sortBy foldr]. rewrite sortInsert_filter by apply sortBy_sorted.
  cbn [List.filter]. fold (sortBy cmp l). by rewrite IH.
Qed.

(** The head of the sorted list has the least key. *)
Lemma sortBy_head (l : list A) (x : A) :
  head (sortBy cmp l) = Some x ->
  x ∈ l /\ forall y, y ∈ l -> key x <= key y.
Proof.
  intros Hhead. pose proof (sortBy_sorted l) as Hs.
  pose proof (sortBy_Permutation l) as Hp.
  destruct (sortBy cmp l) as [|x' rest]; [done |]. injection Hhead as ->.
  apply StronglySorted_inv in Hs as [_ Hx]. split.
  - rewrite <- Hp. by left.
  - intros y Hy. rewrite <- Hp in Hy. apply elem_of_cons in Hy as [-> | Hy]; [lia |].
    rewrite Forall_forall in Hx. by apply Hx.
Qed.

End Sorting.

Lemma leb_sub (x y : Z) : (x - y <=? 0) = (x <=? y).
Proof. apply eq_true_iff_eq. rewrite !Z.leb_le. lia. Qed.

Lemma sortedModelChanges_ascending (events : list JsValue) :
  ascending (sortedModelChanges events).
Proof. apply (sortBy_sorted mc_timestamp). intros a b. apply leb_sub. Qed.

Lemma sortedModelChanges_Permutation (events : list JsValue) :
  Permutation (sortedModelChanges events) (collectModelChanges events).
Proof. apply (sortBy_Permutation mc_timestamp). intros a b. apply leb_sub. Qed.

(** Changes with the same timestamp stay in file order. *)
Lemma sortedModelChanges_stable (events : list JsValue) (t : Z) :
  List.filter (fun c => mc_timestamp c =? t) (sortedModelChanges events)
  = List.filter (fun c => mc_timestamp c =? t) (collectModelChanges events).
Proof. apply (sortBy_stable mc_timestamp). intros a b. apply leb_sub. Qed.

(** ** The model at a time *)

Lemma resolveLoop_spec (t : Z) (d : string) (l : list ModelChange) (n : nat) :
  (n <= List.length l)%nat ->
  (exists before c later,
      take n l = before ++ c :: later
      /\ mc_timestamp c <= t
      /\ Forall (fun c' => t < mc_timestamp c') later
      /\ resolveLoop t d l n = mc_model c)
  \/ (Forall (fun c' => t < mc_timestamp c') (take n l)
      /\ resolveLoop t d l n = d).
Proof.
  induction n as [|i IH]; intros Hn.
  - right. split; [constructor | done].
  - destruct (lookup_lt_is_Some_2 l i ltac:(lia)) as [c Hc].
    cbn [resolveLoop]. rewrite Hc. rewrite (take_S_r l i c Hc).
    destruct (mc_timestamp c <=? t) eqn:E.
    + left. exists (take i l), c, []. split; [done |].
      split; [lia |]. split; [constructor | done].
    + destruct (IH ltac:(lia)) as [(before & c0 & later & Htake & Hle & Hlater & Hres)
                                  | [Hall Hres]].
      * left. exists before, c0, (later ++ [c]). rewrite Htake, <- app_assoc.
        split; [done |]. split; [done |]. split; [| done].
        apply Forall_app. split; [done |]. constructor; [lia | constructor].
      * right. split; [| done].
        apply Forall_app. split; [done |]. constructor; [lia | constructor].
Qed.

Lemma ascending_before (before later : list ModelChange) (c : ModelChange) :
  ascending (before ++ c :: later) ->
  Forall (fun c' => mc_timestamp c' <= mc_timestamp c) before.
Proof.
  induction before as [|b before IH]; intros Hs; [constructor |].
  simpl in Hs. apply StronglySorted_inv in Hs as [Hs Hb].
  constructor; [| by apply IH].
  rewrite Forall_forall in Hb. apply Hb. set_solve.
Qed.

Lemma resolveModelAtTime_latest (t : Z) (d : string) (timeline : list ModelChange) :
  ascending timeline ->
  latestChangeAt timeline t d (resolveModelAtTime t d timeline).
Proof.
  intros Hs. unfold resolveModelAtTime, latestChangeAt.
  destruct (List.length timeline =? 0)%nat eqn:E.
  - right. destruct timeline as [|c0 timeline]; [| simpl in E; discriminate].
    split; [constructor | done].
  - destruct (resolveLoop_spec t d timeline (List.length timeline) ltac:(lia))
      as [(before & c & later & Htake & Hle & Hlater & Hres) | [Hall Hres]];
      rewrite firstn_all in *.
    + left. exists before, c, later. subst timeline.
      split; [done |]. split; [done |]. split; [by eapply ascending_before |].
      split; [done | exact Hres].
    + right. split; [done | exact Hres].
Qed.


(** ** Running the readers *)

Lemma addCalls_addCalls (l1 l2 : list FsCall) (w : World) :
  addCalls l2 (addCalls l1 w) = addCalls (l1 ++ l2) w.
Proof. unfold addCalls, set_calls. simpl. by rewrite app_assoc. Qed.

Lemma addCalls_nil (w : World) : addCalls [] w = w.
Proof. destruct w. unfold addCalls, set_calls. simpl. by rewrite app_nil_r. Qed.

Lemma readFile_run (p : string) (w : World) :
  Fs.readFile p w
  = (match fs_readFile (w_fs w) p with
     | Some content => Returned content
     | None => Raised
     end, addCalls [CallReadFile p] w).
Proof.
  unfold Fs.readFile, logCall, bind, gets, modify, liftOption. simpl.
  by destruct (fs_readFile (w_fs w) p).
Qed.

Lemma readJsonlFile_run (filePath : string) (w : World) :
  readJsonlFile filePath w
  = (Returned (eventsOf (w_fs w) filePath), addCalls [CallReadFile filePath] w).
Proof.
  unfold readJsonlFile, tryCatch, bind, eventsOf. rewrite readFile_run.
  by destruct (fs_readFile (w_fs w) filePath).
Qed.

Lemma readWorkspaceYaml_run (filePath : string) (w : World) :
  readWorkspaceYaml filePath w
  = (Returned (workspaceOf (w_fs w) filePath), addCalls [CallReadFile filePath] w).
Proof.
  unfold readWorkspaceYaml, tryCatch, bind, workspaceOf. rewrite readFile_run.
  by destruct (fs_readFile (w_fs w) filePath).
Qed.

Lemma parseSessionDirRows_run (dirPath : string) (mtimeMs : Z) (defaultModel : string)
      (w : World) :
  parseSessionDirRows dirPath mtimeMs defaultModel w
  = (Returned (mapValues (dedupedOf (w_fs w) dirPath mtimeMs defaultModel)),
     addCalls
       (CallReadFile (Path.join dirPath "events.jsonl")
          :: (if (List.length (eventsOf (w_fs w) (Path.join dirPath "events.jsonl"))
                  =? 0)%nat
              then []
              else [CallReadFile (Path.join dirPath "workspace.yaml")]))
       w).
Proof.
  unfold parseSessionDirRows, bind. rewrite readJsonlFile_run.
  unfold dedupedOf, contextOf.
  destruct (List.length _ =? 0)%nat eqn:E.
  - apply Nat.eqb_eq, nil_length_inv in E. rewrite E. done.
  - rewrite readWorkspaceYaml_run. unfold ret. by rewrite addCalls_addCalls.
Qed.

(** ** The insertion-ordered map *)

Section MapSet.
Context {V : Type}.
Implicit Types (m : list (string * V)) (kvs : list (string * V)).

Lemma mapKeys_mapSet k v m :
  mapKeys (mapSet k v m)
  = if decide (k ∈ mapKeys m) then mapKeys m else mapKeys m ++ [k].
Proof. tidy.
  induction m as [|[k' v'] m IH].
  - rewrite decide_False; [done |]. cbn. apply not_elem_of_nil.
  - cbn [mapSet]. destruct (String.eqb k k') eqn:E.
    + apply String.eqb_eq in E as ->.
      rewrite decide_True; [done |]. cbn. apply elem_of_cons. by left.
    + apply String.eqb_neq in E.
      change (mapKeys ((k', v') :: mapSet k v m)) with (k' :: mapKeys (mapSet k v m)).
      change (mapKeys ((k', v') :: m)) with (k' :: mapKeys m).
      rewrite IH. destruct (decide (k ∈ mapKeys m)) as [Hin | Hin].
      * rewrite decide_True; [done |]. apply elem_of_cons. by right.
      * rewrite decide_False; [done |]. rewrite elem_of_cons. tauto.
Qed.

Lemma mapGet_mapSet k k' v m :
  mapGet k' (mapSet k v m) = if decide (k' = k) then Some v else mapGet k' m.
Proof.
  induction m as [|[k0 v0] m IH]; simpl.
  - case_decide as Hk.
    + subst. by rewrite String.eqb_refl.
    + apply String.eqb_neq in Hk. by rewrite Hk.
  - destruct (String.eqb k k0) eqn:E.
    + apply String.eqb_eq in E as ->. simpl.
      destruct (String.eqb k' k0) eqn:E'.
      * apply String.eqb_eq in E'. by rewrite decide_True.
      * apply String.eqb_neq in E'. by rewrite decide_False.
    + simpl. destruct (String.eqb k' k0) eqn:E'.
      * apply String.eqb_eq in E' as ->. apply String.eqb_neq in E.
        by rewrite decide_False.
      * done.
Qed.

Lemma setAll_snoc kvs kv m :
  setAll (kvs ++ [kv]) m = mapSet kv.1 kv.2 (setAll kvs m).
Proof. unfold setAll. by rewrite fold_left_app. Qed.

Lemma filter_firstOccurrences (P : string -> Prop) `{!forall x, Decision (P x)}
      (l : list string) :
  filter P (firstOccurrences l) = firstOccurrences (filter P l).
Proof. tidy.
  induction l as [|x l IH]; [done |].
  cbn [firstOccurrences]. rewrite !filter_cons. case_decide.
  - cbn [firstOccurrences]. f_equal. rewrite <- IH.
    rewrite !list_filter_filter. apply list_filter_iff. tauto.
  - rewrite <- IH. rewrite list_filter_filter. apply list_filter_iff.
    intros y. split; [tauto |]. intros Hy. split; [done |]. congruence.
Qed.

Lemma mapKeys_setAll kvs m :
  mapKeys (setAll kvs m)
  = mapKeys m ++ filter (fun k => k ∉ mapKeys m) (firstOccurrences (map fst kvs)).
Proof. tidy.
  revert m. induction kvs as [|[k v] kvs IH]; intros m.
  - simpl. by rewrite app_nil_r.
  - change (setAll ((k, v) :: kvs) m) with (setAll kvs (mapSet k v m)).
    rewrite IH, mapKeys_mapSet. cbn [map fst firstOccurrences].
    rewrite filter_cons. case_decide as Hin.
    + rewrite decide_False by tauto. f_equal.
      rewrite list_filter_filter. apply list_filter_iff.
      intros y. split; [| tauto]. intros Hy. split; [done | congruence].
    + rewrite decide_True by done. rewrite <- app_assoc. simpl. do 2 f_equal.
      rewrite list_filter_filter. apply list_filter_iff.
      intros y. rewrite elem_of_app, list_elem_of_singleton. tauto.
Qed.

Lemma mapKeys_setAll_nil kvs :
  mapKeys (setAll kvs []) = firstOccurrences (map fst kvs).
Proof.
  rewrite mapKeys_setAll. cbn [mapKeys map app].
  induction (firstOccurrences (map fst kvs)) as [|x l IH]; [done |].
  rewrite filter_cons, decide_True by apply not_elem_of_nil. by f_equal.
Qed.

Lemma firstOccurrences_elem_of (l : list string) (x : string) :
  x ∈ firstOccurrences l <-> x ∈ l.
Proof. tidy.
  induction l as [|y l IH]; [done |].
  cbn [firstOccurrences]. rewrite !elem_of_cons, list_elem_of_filter, IH.
  destruct (decide (x = y)); tauto.
Qed.

Lemma firstOccurrences_NoDup (l : list string) : NoDup (firstOccurrences l).
Proof. tidy.
  induction l as [|y l IH]; [constructor |].
  cbn [firstOccurrences]. constructor.
  - rewrite list_elem_of_filter. tauto.
  - by apply NoDup_filter.
Qed.

Lemma mapGet_setAll_last k v kvs :
  mapGet k (setAll kvs []) = Some v
  <-> exists before later,
        kvs = before ++ (k, v) :: later /\ Forall (fun kv => kv.1 <> k) later.
Proof.
  induction kvs as [|[k0 v0] kvs IH] using rev_ind.
  - split; [done |]. intros (before & later & H & _).
    by destruct before.
  - rewrite setAll_snoc, mapGet_mapSet. simpl. case_decide as Hk.
    + subst k0. split.
      * intros [= ->]. exists kvs, []. split; [done | constructor].
      * intros (before & later & Heq & Hlater).
        destruct later as [|x later _] using rev_ind.
        -- apply app_inj_tail in Heq as [_ [= ->]]. done.
        -- rewrite app_comm_cons, app_assoc in Heq.
           apply app_inj_tail in Heq as [_ <-].
           apply Forall_app in Hlater as [_ Hx].
           inversion Hx; subst. done.
    + rewrite IH. split.
      * intros (before & later & -> & Hlater).
        exists before, (later ++ [(k0, v0)]). rewrite <- app_assoc.
        split; [done |]. apply Forall_app. split; [done |].
        constructor; [simpl; congruence | constructor].
      * intros (before & later & Heq & Hlater).
        destruct later as [|x later _] using rev_ind.
        -- apply app_inj_tail in Heq as [_ [= <-]]. done.
        -- rewrite app_comm_cons, app_assoc in Heq.
           apply app_inj_tail in Heq as [-> _].
           apply Forall_app in Hlater as [Hlater _]. eauto.
Qed.

Lemma mapGet_elem_of k v m :
  NoDup (mapKeys m) -> (k, v) ∈ m <-> mapGet k m = Some v.
Proof.
  induction m as [|[k0 v0] m IH]; simpl; intros Hnd.
  - split; [intros H; inversion H | done].
  - apply NoDup_cons in Hnd as [Hk0 Hnd]. rewrite elem_of_cons, (IH Hnd).
    destruct (String.eqb k k0) eqn:E.
    + apply String.eqb_eq in E as ->. split.
      * intros [[= ->] | Hget]; [done |]. exfalso. apply Hk0.
        apply (IH Hnd) in Hget. unfold mapKeys.
        apply list_elem_of_In. apply list_elem_of_In in Hget.
        by apply (in_map fst) in Hget.
      * intros [= ->]. by left.
    + apply String.eqb_neq in E. split.
      * intros [[= -> ->] | Hget]; done.
      * by right.
Qed.

End MapSet.


(** ** The message loop *)

Lemma dedupedRows_setAll (ctx : SessionContext) (events : list JsValue) :
  dedupedRows ctx events = setAll (map (keyedRow ctx) (assistantMessages events)) [].
Proof.
  unfold dedupedRows, setAll, assistantMessages. generalize (@nil (string * SessionUsageData)).
  induction events as [|ev events IH]; intros m; [done |].
  cbn [fold_left]. rewrite IH. unfold setMessageRow. simpl.
  destruct (asAssistantMessage ev); done.
Qed.

Lemma dedupedRows_keys (ctx : SessionContext) (events : list JsValue) :
  mapKeys (dedupedRows ctx events)
  = firstOccurrences (map am_messageId (assistantMessages events)).
Proof.
  rewrite dedupedRows_setAll, mapKeys_setAll_nil, map_map. done.
Qed.

Lemma dedupedRows_last (ctx : SessionContext) (events : list JsValue)
      (k : string) (row : SessionUsageData) :
  (k, row) ∈ dedupedRows ctx events
  <-> exists e, lastOccurrence (assistantMessages events) k e /\ row = usageRow ctx e.
Proof.
  rewrite mapGet_elem_of
    by (rewrite dedupedRows_keys; apply firstOccurrences_NoDup).
  rewrite dedupedRows_setAll, mapGet_setAll_last. unfold lastOccurrence. split.
  - intros (before & later & Heq & Hlater).
    apply map_eq_app in Heq as (before' & rest & Hmsgs & <- & Hrest).
    apply map_eq_cons in Hrest as (e & later' & -> & [= <- <-] & <-).
    exists e. split; [| done]. exists before', later'.
    split; [done |]. split; [done |].
    rewrite Forall_forall in Hlater. apply Forall_forall. intros e' He'.
    apply (Hlater (keyedRow ctx e')).
    apply list_elem_of_In, in_map, list_elem_of_In, He'.
  - intros (e & (before & later & -> & <- & Hlater) & ->).
    exists (map (keyedRow ctx) before), (map (keyedRow ctx) later).
    split; [by rewrite map_app |].
    apply Forall_forall. intros kv Hkv.
    apply list_elem_of_In, in_map_iff in Hkv as (e' & <- & He').
    rewrite Forall_forall in Hlater. apply Hlater. by apply list_elem_of_In.
Qed.


(** ** Reasoning about the monad *)

Section Invariants.
Variable R : World -> World -> Prop.
Hypothesis R_refl : forall w, R w w.
Hypothesis R_trans : forall w1 w2 w3, R w1 w2 -> R w2 w3 -> R w1 w3.

Lemma Keeps_ret {A} (a : A) : Keeps R (ret a).
Proof. intros w. apply R_refl. Qed.

Lemma Keeps_raise {A} : Keeps R (@raise A).
Proof. intros w. apply R_refl. Qed.

Lemma Keeps_gets {A} (f : World -> A) : Keeps R (gets f).
Proof. intros w. apply R_refl. Qed.

Lemma Keeps_modify (f : World -> World) :
  (forall w, R w (f w)) -> Keeps R (modify f).
Proof. intros Hf w. apply Hf. Qed.

Lemma Keeps_bind {A B} (m : M A) (k : A -> M B) :
  Keeps R m -> (forall a, Keeps R (k a)) -> Keeps R (bind m k).
Proof.
  intros Hm Hk w. unfold after, bind. specialize (Hm w). unfold after in Hm.
  destruct (m w) as [[a|] w']; simpl in *; [| done].
  eapply R_trans; [exact Hm | apply Hk].
Qed.

Lemma Keeps_tryCatch {A} (body handler : M A) :
  Keeps R body -> Keeps R handler -> Keeps R (tryCatch body handler).
Proof.
  intros Hb Hh w. unfold after, tryCatch. specialize (Hb w). unfold after in Hb.
  destruct (body w) as [[a|] w']; simpl in *; [done |].
  eapply R_trans; [exact Hb | apply Hh].
Qed.

Lemma Keeps_liftOption {A} (o : option A) : Keeps R (liftOption o).
Proof. destruct o; [apply Keeps_ret | apply Keeps_raise]. Qed.

Lemma Keeps_forEach {A} (xs : list A) (body : A -> M unit) :
  (forall x, Keeps R (body x)) -> Keeps R (forEach xs body).
Proof.
  intros Hb. induction xs as [|x xs IH]; simpl.
  - apply Keeps_ret.
  - apply Keeps_bind; [apply Hb | intros _; exact IH].
Qed.

Lemma Keeps_foldM {A S} (f : S -> A -> M S) (xs : list A) (s : S) :
  (forall s x, Keeps R (f s x)) -> Keeps R (foldM f xs s).
Proof.
  intros Hf. revert s. induction xs as [|x xs IH]; intros s; simpl.
  - apply Keeps_ret.
  - apply Keeps_bind; [apply Hf | intros s'; apply IH].
Qed.

End Invariants.

Lemma callsGrow_refl (w : World) : callsGrow w w.
Proof. exists []. by rewrite app_nil_r. Qed.

Lemma callsGrow_trans (w1 w2 w3 : World) :
  callsGrow w1 w2 -> callsGrow w2 w3 -> callsGrow w1 w3.
Proof.
  intros [l1 H1] [l2 H2]. exists (l1 ++ l2). by rewrite H2, H1, app_assoc.
Qed.

Lemma unchanged_refl {B} (part : World -> B) (w : World) : unchanged part w w.
Proof. done. Qed.

Lemma unchanged_trans {B} (part : World -> B) (w1 w2 w3 : World) :
  unchanged part w1 w2 -> unchanged part w2 w3 -> unchanged part w1 w3.
Proof. unfold unchanged. congruence. Qed.

Lemma NeverRaises_ret {A} (a : A) : NeverRaises (ret a).
Proof. intros w. by exists a. Qed.

Lemma NeverRaises_gets {A} (f : World -> A) : NeverRaises (gets f).
Proof. intros w. by exists (f w). Qed.

Lemma NeverRaises_modify (f : World -> World) : NeverRaises (modify f).
Proof. intros w. by exists tt. Qed.

Lemma NeverRaises_bind {A B} (m : M A) (k : A -> M B) :
  NeverRaises m -> (forall a, NeverRaises (k a)) -> NeverRaises (bind m k).
Proof.
  intros Hm Hk w. unfold result, bind. destruct (Hm w) as [a Ha]. unfold result in Ha.
  destruct (m w) as [[a'|] w']; simpl in *; [| done]. apply Hk.
Qed.

Lemma NeverRaises_tryCatch {A} (body handler : M A) :
  NeverRaises handler -> NeverRaises (tryCatch body handler).
Proof.
  intros Hh w. unfold result, tryCatch.
  destruct (body w) as [[a|] w']; simpl; [by exists a | apply Hh].
Qed.

Lemma NeverRaises_forEach {A} (xs : list A) (body : A -> M unit) :
  (forall x, NeverRaises (body x)) -> NeverRaises (forEach xs body).
Proof.
  intros Hb. induction xs as [|x xs IH]; simpl.
  - apply NeverRaises_ret.
  - apply NeverRaises_bind; [apply Hb | intros _; exact IH].
Qed.

Lemma NeverRaises_foldM {A S} (f : S -> A -> M S) (xs : list A) (s : S) :
  (forall s x, NeverRaises (f s x)) -> NeverRaises (foldM f xs s).
Proof.
  intros Hf. revert s. induction xs as [|x xs IH]; intros s; simpl.
  - apply NeverRaises_ret.
  - apply NeverRaises_bind; [apply Hf | intros s'; apply IH].
Qed.

Create HintDb keeps_db.
Create HintDb total_db.

(** Take a computation apart along its binds, handlers, loops and
    branches. *)
Ltac keeps_side :=
  solve [ intros;
          first [ apply callsGrow_refl
                | eapply callsGrow_trans; eassumption
                | apply unchanged_refl
                | eapply unchanged_trans; eassumption ] ].

Ltac keeps_modify :=
  solve [ intros; unfold callsGrow, unchanged; world_simpl;
          first [ reflexivity
                | exists []; by rewrite app_nil_r
                | by eexists ] ].

Ltac step_keeps :=
  lazymatch goal with
  | |- Keeps _ (match ?x with _ => _ end) => destruct x
  | |- Keeps _ (if ?x then _ else _) => destruct x
  | |- Keeps _ (let _ := _ in _) => cbv zeta
  | |- Keeps _ (bind _ _) => apply Keeps_bind; try keeps_side
  | |- Keeps _ (tryCatch _ _) => apply Keeps_tryCatch; try keeps_side
  | |- Keeps _ (ret _) => apply Keeps_ret; try keeps_side
  | |- Keeps _ raise => apply Keeps_raise; try keeps_side
  | |- Keeps _ (gets _) => apply Keeps_gets; try keeps_side
  | |- Keeps _ (liftOption _) => apply Keeps_liftOption; try keeps_side
  | |- Keeps _ (forEach _ _) => apply Keeps_forEach; try keeps_side
  | |- Keeps _ (foldM _ _ _) => apply Keeps_foldM; try keeps_side
  | |- Keeps _ (modify _) => apply Keeps_modify; try keeps_side; try keeps_modify
  | |- Keeps _ _ => solve [auto 2 with keeps_db]
  | |- _ => progress intros
  end.

Ltac keeps := repeat step_keeps.

Ltac step_total :=
  lazymatch goal with
  | |- NeverRaises (match ?x with _ => _ end) => destruct x
  | |- NeverRaises (if ?x then _ else _) => destruct x
  | |- NeverRaises (let _ := _ in _) => cbv zeta
  | |- NeverRaises (bind _ _) => apply NeverRaises_bind
  | |- NeverRaises (tryCatch _ _) => apply NeverRaises_tryCatch
  | |- NeverRaises (ret _) => apply NeverRaises_ret
  | |- NeverRaises (gets _) => apply NeverRaises_gets
  | |- NeverRaises (modify _) => apply NeverRaises_modify
  | |- NeverRaises (forEach _ _) => apply NeverRaises_forEach
  | |- NeverRaises (foldM _ _ _) => apply NeverRaises_foldM
  | |- NeverRaises _ => solve [auto 2 with total_db]
  | |- _ => progress intros
  end.

Ltac total := repeat step_total.

(** ** The primitives keep the frame *)

Section Frames.
Variable R : World -> World -> Prop.
Hypothesis R_refl : forall w, R w w.
Hypothesis R_trans : forall w1 w2 w3, R w1 w2 -> R w2 w3 -> R w1 w3.
(** [R] allows a further call in the log and does not look at the
    watcher states, the live handles and the live timers. *)
Hypothesis R_log : forall w c, R w (set_calls (w_calls w ++ [c]) w).
Hypothesis R_sessionWatcher : forall w x, R w (set_sessionWatcher x w).
Hypothesis R_activityWatcher : forall w x, R w (set_activityWatcher x w).
Hypothesis R_openWatchers : forall w x, R w (set_openWatchers x w).
Hypothesis R_activeTimers : forall w x, R w (set_activeTimers x w).
Hypothesis R_nextHandle : forall w x, R w (set_nextHandle x w).

Local Ltac frame_modify :=
  cbv beta;
  lazymatch goal with
  | |- R ?w ?w => apply R_refl
  | |- R ?w (?setter ?x ?w') =>
      apply (R_trans w w' _);
      [ frame_modify
      | first [ apply R_log | apply R_sessionWatcher | apply R_activityWatcher
              | apply R_openWatchers | apply R_activeTimers | apply R_nextHandle ] ]
  end.

Local Ltac frame :=
  repeat lazymatch goal with
    | |- Keeps _ (match ?x with _ => _ end) => destruct x
    | |- Keeps _ (if ?x then _ else _) => destruct x
    | |- Keeps _ (let _ := _ in _) => cbv zeta
    | |- Keeps _ (bind _ _) => apply Keeps_bind; [assumption .. | |]
    | |- Keeps _ (tryCatch _ _) => apply Keeps_tryCatch; [assumption .. | |]
    | |- Keeps _ (ret _) => apply Keeps_ret; assumption
    | |- Keeps _ raise => apply Keeps_raise; assumption
    | |- Keeps _ (gets _) => apply Keeps_gets; assumption
    | |- Keeps _ (liftOption _) => apply Keeps_liftOption; assumption
    | |- Keeps _ (forEach _ _) => apply Keeps_forEach; [assumption .. |]
    | |- Keeps _ (foldM _ _ _) => apply Keeps_foldM; [assumption .. |]
    | |- Keeps _ (modify _) =>
        apply Keeps_modify; [assumption .. |]; intros; frame_modify
    | |- Keeps _ _ => solve [auto 2]
    | |- _ => progress intros
    end.

Lemma frame_logCall (c : FsCall) : Keeps R (logCall c).
Proof. unfold logCall. frame. Qed.

Lemma frame_access (p : string) : Keeps R (Fs.access p).
Proof. unfold Fs.access. pose proof frame_logCall. frame. Qed.

Lemma frame_readdir (p : string) : Keeps R (Fs.readdir p).
Proof. unfold Fs.readdir. pose proof frame_logCall. frame. Qed.

Lemma frame_stat (p : string) : Keeps R (Fs.stat p).
Proof. unfold Fs.stat. pose proof frame_logCall. frame. Qed.

Lemma frame_readFile (p : string) : Keeps R (Fs.readFile p).
Proof. unfold Fs.readFile. pose proof frame_logCall. frame. Qed.

Lemma frame_readAt (p : string) (position length : Z) :
  Keeps R (Fs.readAt p position length).
Proof. unfold Fs.readAt. pose proof frame_logCall. frame. Qed.

Lemma frame_existsSync (p : string) : Keeps R (Fs.existsSync p).
Proof. unfold Fs.existsSync. pose proof frame_logCall. frame. Qed.

Lemma frame_watch (p : string) (l : Listener) : Keeps R (Fs.watch p l).
Proof.
  unfold Fs.watch. pose proof frame_logCall. frame.
Qed.

Lemma frame_close (h : FSWatcher) : Keeps R (Fs.close h).
Proof. unfold Fs.close. frame. Qed.

Lemma frame_setInterval : Keeps R setInterval.
Proof.
  unfold setInterval. frame.
Qed.

Lemma frame_clearInterval (t : nat) : Keeps R (clearInterval t).
Proof. unfold clearInterval. frame. Qed.

Lemma frame_getSessionDirs : Keeps R getSessionDirs.
Proof.
  unfold getSessionDirs. pose proof frame_readdir. pose proof frame_access. frame.
Qed.

Lemma frame_watchSessionDir (p : string) : Keeps R (watchSessionDir p).
Proof.
  unfold watchSessionDir, modifySessionWatcher. pose proof frame_watch. frame.
Qed.

Lemma frame_startSessionWatcher : Keeps R startSessionWatcher.
Proof.
  unfold startSessionWatcher, modifySessionWatcher.
  pose proof frame_watch. pose proof frame_setInterval.
  pose proof frame_getSessionDirs. pose proof frame_watchSessionDir. frame.
Qed.

Lemma frame_stopSessionWatcher : Keeps R stopSessionWatcher.
Proof.
  unfold stopSessionWatcher, modifySessionWatcher.
  pose proof frame_close. pose proof frame_clearInterval. frame.
Qed.

Lemma frame_stopActivityWatch : Keeps R stopActivityWatch.
Proof.
  unfold stopActivityWatch, modifyActivityWatcher.
  pose proof frame_close. pose proof frame_stopSessionWatcher. frame.
Qed.

Lemma frame_readJsonlFile (p : string) : Keeps R (readJsonlFile p).
Proof. unfold readJsonlFile. pose proof frame_readFile. frame. Qed.

Lemma frame_readWorkspaceYaml (p : string) : Keeps R (readWorkspaceYaml p).
Proof. unfold readWorkspaceYaml. pose proof frame_readFile. frame. Qed.

Lemma frame_parseSessionDirRows (dirPath : string) (mtimeMs : Z) (defaultModel : string) :
  Keeps R (parseSessionDirRows dirPath mtimeMs defaultModel).
Proof.
  unfold parseSessionDirRows.
  pose proof frame_readJsonlFile. pose proof frame_readWorkspaceYaml. frame.
Qed.

End Frames.


(** ** Stopping the watchers *)

Lemma forEach_close_run (hs : list FSWatcher) (w : World) :
  forEach hs Fs.close w
  = (Returned tt,
     set_openWatchers (w_openWatchers w ∖ list_to_set (map fw_id hs)) w).
Proof.
  revert w. induction hs as [|h hs IH]; intros w.
  - cbn [forEach map list_to_set]. unfold ret. f_equal. destruct w.
    unfold set_openWatchers. world_simpl. f_equal. set_solve.
  - cbn [forEach map list_to_set]. unfold bind at 1. unfold Fs.close at 1, modify.
    rewrite IH. f_equal. unfold set_openWatchers. world_simpl. f_equal. set_solve.
Qed.

Lemma stopSessionWatcher_run (w : World) :
  stopSessionWatcher w
  = (Returned tt,
     set_sessionWatcher stoppedSessionWatcher
       (set_openWatchers
          (w_openWatchers w ∖ sessionWatcherHandles (w_sessionWatcher w))
          (set_activeTimers
             (w_activeTimers w
                ∖ timerIds (sw_reconciliationTimer (w_sessionWatcher w))) w))).
Proof.
  unfold stopSessionWatcher, sessionWatcherHandles, handleIds, timerIds,
         stoppedSessionWatcher.
  destruct w as [fs calls clock ticks sc idx agg cm mct sw aw force open timers next del].
  destruct sw as [dirs root dirty timer started].
  destruct timer as [t|], root as [h|];
    unfold clearInterval, Fs.close; run;
    rewrite forEach_close_run; run; world_unfold;
    f_equal; f_equal; set_solve.
Qed.

Lemma stopActivityWatch_run (w : World) :
  stopActivityWatch w
  = (Returned tt,
     set_sessionWatcher stoppedSessionWatcher
       (set_openWatchers
          (w_openWatchers w
             ∖ (activityWatcherHandles (w_activityWatcher w)
                ∪ sessionWatcherHandles (w_sessionWatcher w)))
          (set_activeTimers
             (w_activeTimers w
                ∖ timerIds (sw_reconciliationTimer (w_sessionWatcher w)))
             (set_activityWatcher stoppedActivityWatcher w)))).
Proof.
  unfold stopActivityWatch, activityWatcherHandles, handleIds,
         stoppedActivityWatcher.
  destruct w as [fs calls clock ticks sc idx agg cm mct sw aw force open timers next del].
  destruct aw as [dirs root callback offsets started].
  destruct root as [h|];
    unfold Fs.close; run;
    rewrite forEach_close_run; run;
    rewrite stopSessionWatcher_run; run; world_unfold;
    f_equal; f_equal; set_solve.
Qed.

(** ** The aggregation loop *)

Lemma validEntry_dec (cache : gmap string SessionAggregateCacheEntry)
      (dir : ParsedSessionDir) :
  validEntry cache dir \/ ~ validEntry cache dir.
Proof.
  unfold validEntry. destruct (cache !! p_sessionId dir) as [cached|] eqn:E.
  - destruct (decide (updatedAt cached = p_mtimeMs dir)) as [Hu | Hu].
    + left. eauto.
    + right. intros (c & [= <-] & Hc). done.
  - right. intros (c & Hc & _). done.
Qed.

Lemma aggregateSessionDir_hit (now : Z) (defaultModel : string) (a : Aggregation)
      (dir : ParsedSessionDir) (w : World) (cached : SessionAggregateCacheEntry) :
  w_sessionAggregateCache w !! p_sessionId dir = Some cached ->
  updatedAt cached = p_mtimeMs dir ->
  aggregateSessionDir now defaultModel a dir w
  = (Returned (mkAggregation (sessions a ++ usageRows cached)
                             (aggregateCacheHits a + 1) (aggregateCacheMisses a)),
     set_sessionAggregateCache
       (<[ p_sessionId dir := mkEntry (p_mtimeMs dir) (usageRows cached) now ]>
          (w_sessionAggregateCache w)) w).
Proof.
  intros Hc Hu. unfold aggregateSessionDir.
  unfold bind at 1, gets at 1. cbv beta iota zeta. world_simpl.
  rewrite Hc, Hu, Z.eqb_refl. reflexivity.
Qed.

Lemma aggregateSessionDir_miss (now : Z) (defaultModel : string) (a : Aggregation)
      (dir : ParsedSessionDir) (w : World) :
  ~ validEntry (w_sessionAggregateCache w) dir ->
  let rows := mapValues (dedupedOf (w_fs w) (p_dirPath dir) (p_mtimeMs dir) defaultModel) in
  exists calls,
    aggregateSessionDir now defaultModel a dir w
    = (Returned (mkAggregation (sessions a ++ rows)
                               (aggregateCacheHits a) (aggregateCacheMisses a + 1)),
       set_sessionAggregateCache
         (<[ p_sessionId dir := mkEntry (p_mtimeMs dir) rows now ]>
            (w_sessionAggregateCache w))
         (addCalls (CallReadFile (Path.join (p_dirPath dir) "events.jsonl") :: calls) w)).
Proof.
  intros Hinvalid rows. eexists.
  assert (Hmiss :
    match w_sessionAggregateCache w !! p_sessionId dir with
    | Some cached => (updatedAt cached =? p_mtimeMs dir) = false
    | None => True
    end).
  { destruct (w_sessionAggregateCache w !! p_sessionId dir) as [cached|] eqn:Hc;
      [| done].
    destruct (updatedAt cached =? p_mtimeMs dir) eqn:Hu; [| done].
    exfalso. apply Hinvalid. exists cached. split; [done | lia]. }
  unfold aggregateSessionDir.
  unfold bind at 1, gets at 1. cbv beta iota zeta. world_simpl.
  destruct (w_sessionAggregateCache w !! p_sessionId dir) as [cached|];
    [rewrite Hmiss |];
    unfold bind at 1; rewrite parseSessionDirRows_run; reflexivity.
Qed.

Lemma entryIsValid_spec (cache : gmap string SessionAggregateCacheEntry)
      (dir : ParsedSessionDir) :
  entryIsValid cache dir = true <-> validEntry cache dir.
Proof.
  unfold entryIsValid, validEntry.
  destruct (cache !! p_sessionId dir) as [cached|].
  - rewrite Z.eqb_eq. split; [by eauto |]. by intros (c & [= <-] & Hc).
  - split; [done |]. by intros (c & Hc & _).
Qed.

(** One turn of the aggregation loop, hit or miss. *)
Lemma aggregateSessionDir_run (now : Z) (defaultModel : string) (a : Aggregation)
      (dir : ParsedSessionDir) (w : World) :
  let cache := w_sessionAggregateCache w in
  let valid := entryIsValid cache dir in
  let rows := rowsOfSession (w_fs w) cache defaultModel dir in
  aggregateSessionDir now defaultModel a dir w
  = (Returned (mkAggregation
                 (sessions a ++ rows)
                 (if valid then aggregateCacheHits a + 1 else aggregateCacheHits a)
                 (if valid then aggregateCacheMisses a else aggregateCacheMisses a + 1)),
     set_sessionAggregateCache
       (<[ p_sessionId dir := mkEntry (p_mtimeMs dir) rows now ]> cache)
       (addCalls (if valid then [] else parseCalls (w_fs w) (p_dirPath dir)) w)).
Proof.
  intros cache valid rows. subst cache valid rows.
  unfold aggregateSessionDir, entryIsValid, rowsOfSession.
  unfold bind at 1, gets at 1. cbv beta iota zeta. world_simpl.
  destruct (w_sessionAggregateCache w !! p_sessionId dir) as [cached|].
  - destruct (updatedAt cached =? p_mtimeMs dir) eqn:E.
    + apply Z.eqb_eq in E. rewrite E, app_nil_r. reflexivity.
    + unfold bind at 1. rewrite parseSessionDirRows_run. reflexivity.
  - unfold bind at 1. rewrite parseSessionDirRows_run. reflexivity.
Qed.

(** The aggregation loop over selected sessions with distinct ids: each
    session is judged against the cache that the pass started from. *)
Lemma aggregation_pass (now : Z) (defaultModel : string)
      (dirs : list ParsedSessionDir) (a : Aggregation) (w : World) :
  NoDup (map p_sessionId dirs) ->
  let fs := w_fs w in
  let cache := w_sessionAggregateCache w in
  exists a' cache',
    foldM (aggregateSessionDir now defaultModel) dirs a w
    = (Returned a',
       set_sessionAggregateCache cache' (addCalls (passCalls fs cache dirs) w))
    /\ sessions a' = sessions a ++ flat_map (rowsOfSession fs cache defaultModel) dirs
    /\ (forall dir,
          dir ∈ dirs ->
          cache' !! p_sessionId dir
          = Some (mkEntry (p_mtimeMs dir) (rowsOfSession fs cache defaultModel dir) now))
    /\ (forall sessionId,
          sessionId ∉ map p_sessionId dirs -> cache' !! sessionId = cache !! sessionId).
Proof.
  revert a w. induction dirs as [| dir dirs IH]; intros a w Hdistinct fs cache.
  - exists a, cache. subst fs cache. cbn [foldM passCalls flat_map]. unfold ret.
    rewrite addCalls_nil, app_nil_r.
    split; [by open_world w |]. split; [done |]. split; [| done].
    intros dir Hdir. by apply elem_of_nil in Hdir.
  - cbn [map] in Hdistinct. apply NoDup_cons in Hdistinct as [Hfresh Hdistinct].
    cbn [foldM]. unfold bind at 1. rewrite aggregateSessionDir_run. fold fs cache.
    set (rows := rowsOfSession fs cache defaultModel dir).
    set (cache1 := <[ p_sessionId dir := mkEntry (p_mtimeMs dir) rows now ]> cache).
    assert (Hother : forall d, d ∈ dirs -> cache1 !! p_sessionId d = cache !! p_sessionId d).
    { intros d Hd. subst cache1. apply lookup_insert_ne. intros Heq. apply Hfresh.
      rewrite Heq. apply list_elem_of_fmap. by exists d. }
    assert (Hrows : flat_map (rowsOfSession fs cache1 defaultModel) dirs
                    = flat_map (rowsOfSession fs cache defaultModel) dirs).
    { clear IH Hdistinct Hfresh. induction dirs as [| d ds IHds]; [done |].
      cbn [flat_map]. rewrite IHds by (intros d' Hd'; apply Hother; set_solve).
      unfold rowsOfSession at 1 3. rewrite Hother by set_solve. reflexivity. }
    assert (Hcalls : passCalls fs cache1 dirs = passCalls fs cache dirs).
    { clear IH Hdistinct Hfresh Hrows. unfold passCalls.
      induction dirs as [| d ds IHds]; [done |].
      cbn [flat_map]. rewrite IHds by (intros d' Hd'; apply Hother; set_solve).
      unfold entryIsValid at 1 3. rewrite Hother by set_solve. reflexivity. }
    match goal with
    | |- context [foldM _ dirs ?a1' ?w1'] => set (a1 := a1'); set (w1 := w1')
    end.
    pose proof (IH a1 w1 Hdistinct) as Hpass. cbv zeta in Hpass.
    change (w_fs w1) with fs in Hpass.
    change (w_sessionAggregateCache w1) with cache1 in Hpass.
    destruct Hpass as (a' & cache' & Hrun & Hsessions & Hin & Hout).
    exists a', cache'. rewrite Hrun. split; [| split; [| split]].
    + f_equal. rewrite Hcalls. cbn [passCalls flat_map]. fold (passCalls fs cache dirs).
      subst w1 fs. clear. open_world w. unfold addCalls. world_simpl.
      by rewrite <- app_assoc.
    + rewrite Hsessions, Hrows. subst a1. cbn [sessions flat_map].
      by rewrite <- app_assoc.
    + intros d Hd. apply elem_of_cons in Hd as [-> | Hd].
      * rewrite Hout by done. subst cache1. by rewrite lookup_insert_eq.
      * rewrite (Hin d Hd). unfold rowsOfSession. by rewrite (Hother d Hd).
    + intros sessionId Hid. cbn [map] in Hid. apply not_elem_of_cons in Hid as [Hne Hid].
      rewrite (Hout sessionId Hid). subst cache1. by apply lookup_insert_ne.
Qed.



(** ** The log of calls grows, and start-up leaves the fast path alone *)

Ltac frame_side :=
  intros;
  first
    [ apply callsGrow_refl
    | eapply callsGrow_trans; eassumption
    | unfold callsGrow; exists []; world_simpl; by rewrite app_nil_r
    | unfold callsGrow; eexists; world_simpl; reflexivity
    | unfold unchanged, fastPathInputs in *; congruence
    | unfold unchanged, fastPathInputs; world_simpl; reflexivity ].

Lemma callsGrow_logCall (c : FsCall) : Keeps callsGrow (logCall c).
Proof. apply frame_logCall; frame_side. Qed.

Lemma callsGrow_access (p : string) : Keeps callsGrow (Fs.access p).
Proof. apply frame_access; frame_side. Qed.

Lemma callsGrow_readdir (p : string) : Keeps callsGrow (Fs.readdir p).
Proof. apply frame_readdir; frame_side. Qed.

Lemma callsGrow_stat (p : string) : Keeps callsGrow (Fs.stat p).
Proof. apply frame_stat; frame_side. Qed.

Lemma callsGrow_readFile (p : string) : Keeps callsGrow (Fs.readFile p).
Proof. apply frame_readFile; frame_side. Qed.

Lemma callsGrow_readAt (p : string) (position length : Z) : Keeps callsGrow (Fs.readAt p position length).
Proof. apply frame_readAt; frame_side. Qed.

Lemma callsGrow_existsSync (p : string) : Keeps callsGrow (Fs.existsSync p).
Proof. apply frame_existsSync; frame_side. Qed.

Lemma callsGrow_watch (p : string) (l : Listener) : Keeps callsGrow (Fs.watch p l).
Proof. apply frame_watch; frame_side. Qed.

Lemma callsGrow_close (h : FSWatcher) : Keeps callsGrow (Fs.close h).
Proof. apply frame_close; frame_side. Qed.

Lemma callsGrow_setInterval : Keeps callsGrow (setInterval).
Proof. apply frame_setInterval; frame_side. Qed.

Lemma callsGrow_clearInterval (t : nat) : Keeps callsGrow (clearInterval t).
Proof. apply frame_clearInterval; frame_side. Qed.

Lemma callsGrow_getSessionDirs : Keeps callsGrow (getSessionDirs).
Proof. apply frame_getSessionDirs; frame_side. Qed.

Lemma callsGrow_watchSessionDir (p : string) : Keeps callsGrow (watchSessionDir p).
Proof. apply frame_watchSessionDir; frame_side. Qed.

Lemma callsGrow_startSessionWatcher : Keeps callsGrow (startSessionWatcher).
Proof. apply frame_startSessionWatcher; frame_side. Qed.

Lemma callsGrow_readJsonlFile (p : string) : Keeps callsGrow (readJsonlFile p).
Proof. apply frame_readJsonlFile; frame_side. Qed.

Lemma callsGrow_readWorkspaceYaml (p : string) : Keeps callsGrow (readWorkspaceYaml p).
Proof. apply frame_readWorkspaceYaml; frame_side. Qed.

Lemma callsGrow_parseSessionDirRows (dirPath : string) (mtimeMs : Z) (defaultModel : string) : Keeps callsGrow (parseSessionDirRows dirPath mtimeMs defaultModel).
Proof. apply frame_parseSessionDirRows; frame_side. Qed.

Lemma startSessionWatcher_fastPathInputs :
  Keeps (unchanged fastPathInputs) startSessionWatcher.
Proof. apply frame_startSessionWatcher; frame_side. Qed.

#[local] Hint Resolve callsGrow_logCall callsGrow_access callsGrow_readdir
  callsGrow_stat callsGrow_readFile callsGrow_readAt callsGrow_existsSync
  callsGrow_watch callsGrow_close callsGrow_setInterval callsGrow_clearInterval
  callsGrow_getSessionDirs callsGrow_watchSessionDir callsGrow_startSessionWatcher
  callsGrow_readJsonlFile callsGrow_readWorkspaceYaml callsGrow_parseSessionDirRows
  : keeps_db.

Lemma Date_now_run (w : World) :
  Date_now w = (Returned (w_clock w (w_ticks w)), set_ticks (S (w_ticks w)) w).
Proof. reflexivity. Qed.

Lemma callsGrow_Date_now : Keeps callsGrow Date_now.
Proof. unfold Date_now. keeps. Qed.

Lemma callsGrow_consumeForceFullReconciliation :
  Keeps callsGrow consumeForceFullReconciliation.
Proof. unfold consumeForceFullReconciliation. keeps. Qed.

Lemma callsGrow_extractModelFromProcessLog (logPath : string) :
  Keeps callsGrow (extractModelFromProcessLog logPath).
Proof. unfold extractModelFromProcessLog. keeps. Qed.

#[local] Hint Resolve callsGrow_Date_now callsGrow_consumeForceFullReconciliation
  callsGrow_extractModelFromProcessLog : keeps_db.

Lemma callsGrow_getDefaultModel : Keeps callsGrow getDefaultModel.
Proof. unfold getDefaultModel, scanProcessLogs, pushLogFile. keeps. Qed.

Lemma callsGrow_discoverSessionDir (options : SessionParseOptions)
      (dirtyPaths : gset string) (needsFullStat : bool) (s : Discovery)
      (sessionDirPath : string) :
  Keeps callsGrow (discoverSessionDir options dirtyPaths needsFullStat s sessionDirPath).
Proof. unfold discoverSessionDir. keeps. Qed.

Lemma callsGrow_aggregateSessionDir (now : Z) (defaultModel : string)
      (a : Aggregation) (dir : ParsedSessionDir) :
  Keeps callsGrow (aggregateSessionDir now defaultModel a dir).
Proof. unfold aggregateSessionDir. keeps. Qed.

Lemma callsGrow_storeResult (options : SessionParseOptions) (limit : Z)
      (sessions : list SessionUsageData) :
  Keeps callsGrow (storeResult options limit sessions).
Proof. unfold storeResult. keeps. Qed.

#[local] Hint Resolve callsGrow_getDefaultModel callsGrow_discoverSessionDir
  callsGrow_aggregateSessionDir callsGrow_storeResult : keeps_db.

(** ** The first call of the slow path *)

Lemma Quiet_gets {A} (f : World -> A) : Quiet (gets f).
Proof. intros w. by exists (f w), w. Qed.

Lemma Quiet_modify (f : World -> World) :
  (forall w, w_calls (f w) = w_calls w) -> Quiet (modify f).
Proof. intros Hf w. by exists tt, (f w). Qed.

Lemma Quiet_bind {A B} (m : M A) (k : A -> M B) :
  Quiet m -> (forall a, Quiet (k a)) -> Quiet (bind m k).
Proof.
  intros Hm Hk w. destruct (Hm w) as (a & w1 & Hrun & Hcalls).
  destruct (Hk a w1) as (b & w2 & Hrun2 & Hcalls2).
  exists b, w2. unfold bind. rewrite Hrun, Hrun2. split; [done | congruence].
Qed.

Lemma FirstCall_bind_Quiet {A B} (c : FsCall) (m : M A) (k : A -> M B) :
  Quiet m -> (forall a, FirstCall c (k a)) -> FirstCall c (bind m k).
Proof.
  intros Hm Hk w. destruct (Hm w) as (a & w1 & Hrun & Hcalls).
  destruct (Hk a w1) as [calls Hk1]. exists calls.
  unfold after, bind in *. rewrite Hrun. by rewrite Hk1, Hcalls.
Qed.

Lemma FirstCall_bind {A B} (c : FsCall) (m : M A) (k : A -> M B) :
  FirstCall c m -> (forall a, Keeps callsGrow (k a)) -> FirstCall c (bind m k).
Proof.
  intros Hm Hk w. destruct (Hm w) as [calls Hcalls].
  unfold after, bind in *. destruct (m w) as [[a|] w1]; simpl in *.
  - destruct (Hk a w1) as [calls' Hcalls']. unfold after in Hcalls'.
    exists (calls ++ calls'). rewrite Hcalls', Hcalls, <- app_assoc. done.
  - by exists calls.
Qed.

Lemma FirstCall_tryCatch {A} (c : FsCall) (body handler : M A) :
  FirstCall c body -> Keeps callsGrow handler -> FirstCall c (tryCatch body handler).
Proof.
  intros Hb Hh w. destruct (Hb w) as [calls Hcalls].
  unfold after, tryCatch in *. destruct (body w) as [[a|] w1]; simpl in *.
  - by exists calls.
  - destruct (Hh w1) as [calls' Hcalls']. unfold after in Hcalls'.
    exists (calls ++ calls'). rewrite Hcalls', Hcalls, <- app_assoc. done.
Qed.

Lemma FirstCall_readdir (p : string) : FirstCall (CallReaddir p) (Fs.readdir p).
Proof.
  intros w. exists []. unfold Fs.readdir. run.
  destruct (fs_readdir _ _); reflexivity.
Qed.

Lemma FirstCall_getSessionDirs :
  FirstCall (CallReaddir COPILOT_CLI_SESSION_STATE_PATH) getSessionDirs.
Proof.
  unfold getSessionDirs. apply FirstCall_tryCatch; [| keeps].
  apply FirstCall_bind; [apply FirstCall_readdir | keeps].
Qed.

Lemma Quiet_consumeForceFullReconciliation : Quiet consumeForceFullReconciliation.
Proof.
  intros w. unfold consumeForceFullReconciliation. run.
  destruct w as [fs calls clock ticks sc idx agg cm mct sw aw [|] open timers next del];
    world_simpl; eexists _, _; split; reflexivity.
Qed.

Lemma FirstCall_reconcile (options : SessionParseOptions) (now : Z) :
  FirstCall (CallReaddir COPILOT_CLI_SESSION_STATE_PATH) (reconcile options now).
Proof.
  unfold reconcile.
  apply FirstCall_bind_Quiet; [apply Quiet_gets | intros dirtyPaths].
  apply FirstCall_bind_Quiet; [by apply Quiet_modify | intros _].
  apply FirstCall_bind_Quiet;
    [apply Quiet_consumeForceFullReconciliation | intros needsFullStat].
  apply FirstCall_bind; [apply FirstCall_getSessionDirs | keeps].
Qed.

Lemma FirstCall_slowPath (options : SessionParseOptions) (limit now : Z) :
  FirstCall (CallReaddir COPILOT_CLI_SESSION_STATE_PATH) (slowPath options limit now).
Proof.
  unfold slowPath. apply FirstCall_bind; [apply FirstCall_reconcile | keeps].
Qed.


(** ** The fast path *)

Lemma truthyStr_false (o : option string) :
  Js.truthyStr o = false <-> o = None \/ o = Some EmptyString.
Proof.
  destruct o as [[|c s]|]; simpl; split; try done; try (intros [|]; done); auto.
Qed.

Lemma resultCacheApplies_fresh (options : SessionParseOptions) (now : Z)
      (cache : SessionCache) :
  resultCacheApplies options (Js.nullish (o_limit options) 100) now cache = true
  <-> resultIsFresh options now cache.
Proof. tidy.
  unfold resultCacheApplies, resultIsFresh.
  rewrite !andb_true_iff, negb_true_iff, truthyStr_false, !bool_decide_eq_true.
  rewrite Z.ltb_lt, Nat.ltb_lt.
  assert (Hlen : (0 < List.length (lastResult cache))%nat <-> lastResult cache <> []).
  { destruct (lastResult cache); simpl; split; try done; lia. }
  rewrite Hlen. intuition congruence.
Qed.

Lemma access_check_run (p : string) (w : World) :
  tryCatch (Fs.access p ;;; ret true) (ret false) w
  = (Returned (fs_access (w_fs w) p), addCalls [CallAccess p] w).
Proof.
  unfold Fs.access. run. destruct (fs_access _ _); reflexivity.
Qed.

Lemma NeverRaises_getSessionDirs : NeverRaises getSessionDirs.
Proof. unfold getSessionDirs. total. Qed.

Lemma NeverRaises_watchSessionDir (p : string) : NeverRaises (watchSessionDir p).
Proof. unfold watchSessionDir, modifySessionWatcher. total. Qed.

Lemma NeverRaises_setInterval : NeverRaises setInterval.
Proof. unfold setInterval. total. Qed.

#[local] Hint Resolve NeverRaises_getSessionDirs NeverRaises_watchSessionDir
  NeverRaises_setInterval : total_db.

Lemma NeverRaises_startSessionWatcher : NeverRaises startSessionWatcher.
Proof. unfold startSessionWatcher, modifySessionWatcher. total. Qed.

Lemma startSessionWatcher_started (w : World) :
  sw_started (w_sessionWatcher w) = true -> startSessionWatcher w = (Returned tt, w).
Proof.
  intros H. unfold startSessionWatcher. unfold bind at 1, gets at 1.
  world_simpl. by rewrite H.
Qed.

Lemma startup_run (w : World) :
  startSessionWatcher (addCalls [CallAccess COPILOT_CLI_SESSION_STATE_PATH] w)
  = (Returned tt, afterStartup w)
  /\ fastPathInputs (afterStartup w) = fastPathInputs w.
Proof.
  unfold afterStartup.
  pose proof (NeverRaises_startSessionWatcher
                (addCalls [CallAccess COPILOT_CLI_SESSION_STATE_PATH] w)) as [[] Hres].
  pose proof (startSessionWatcher_fastPathInputs
                (addCalls [CallAccess COPILOT_CLI_SESSION_STATE_PATH] w)) as Hin.
  unfold result, after, unchanged in *.
  destruct (startSessionWatcher _) as [o w1]; simpl in *. subst o.
  split; [done |]. rewrite Hin. reflexivity.
Qed.

Lemma parseSessionsFromDirs_no_root (options : SessionParseOptions) (w : World) :
  fs_access (w_fs w) COPILOT_CLI_SESSION_STATE_PATH = false ->
  parseSessionsFromDirs options w
  = (Returned [], addCalls [CallAccess COPILOT_CLI_SESSION_STATE_PATH] w).
Proof.
  intros H. unfold parseSessionsFromDirs. cbv zeta. unfold bind at 1.
  rewrite access_check_run, H. reflexivity.
Qed.

Lemma parseSessionsFromDirs_run (options : SessionParseOptions) (w : World) :
  fs_access (w_fs w) COPILOT_CLI_SESSION_STATE_PATH = true ->
  let limit := Js.nullish (o_limit options) 100 in
  let now := w_clock w (w_ticks w) in
  let w1 := set_ticks (S (w_ticks w)) (afterStartup w) in
  parseSessionsFromDirs options w
  = if resultCacheApplies options limit now (w_sessionCache w)
    then (Returned (lastResult (w_sessionCache w)), w1)
    else slowPath options limit now w1.
Proof.
  intros H limit now w1. unfold parseSessionsFromDirs. cbv zeta. unfold bind at 1.
  rewrite access_check_run, H. cbn [negb]. cbv iota. unfold bind at 1.
  destruct (startup_run w) as [-> Hin].
  unfold bind at 1. rewrite Date_now_run. unfold bind at 1, gets at 1.
  unfold fastPathInputs in Hin. injection Hin as Hclock Hticks Hcache.
  subst limit now w1. world_simpl. rewrite Hclock, Hticks, Hcache.
  destruct (resultCacheApplies _ _ _ _); reflexivity.
Qed.


(** ** The line loop of [readJsonlFile] *)






(** ** Scanning a process log *)

Section Scan.

Lemma append_cons (c : ascii) (m t : string) :
  String c m +:+ t = String c (m +:+ t).
Proof. reflexivity. Qed.

Lemma append_nil (t : string) : EmptyString +:+ t = t.
Proof. reflexivity. Qed.

Lemma prefix_app (m t : string) : String.prefix m (m +:+ t) = true.
Proof.
  induction m as [|c m IH]; [by destruct t |].
  rewrite append_cons. simpl.
  destruct (ascii_dec c c); [exact IH | done].
Qed.

Lemma prefix_split (m s : string) :
  String.prefix m s = true -> s = m +:+ Js.sliceFrom (String.length m) s.
Proof.
  revert s. induction m as [|c m IH]; intros s H; [done |].
  destruct s as [|d s]; [done |]. simpl in *.
  destruct (ascii_dec c d) as [-> |]; [| done].
  change (String d s = String d (m +:+ Js.sliceFrom (String.length m) s)).
  f_equal. by apply IH.
Qed.

Lemma sliceFrom_app (m t : string) : Js.sliceFrom (String.length m) (m +:+ t) = t.
Proof.
  induction m as [|c m IH]; [by destruct t |]. rewrite append_cons. exact IH.
Qed.

Lemma sliceFrom_add (i j : nat) (s : string) :
  Js.sliceFrom (i + j) s = Js.sliceFrom j (Js.sliceFrom i s).
Proof.
  revert s. induction i as [|i IH]; intros s; [done |].
  destruct s as [|c s]; simpl; [by destruct j | apply IH].
Qed.

Lemma prefix_short (m s : string) :
  (String.length s < String.length m)%nat -> String.prefix m s = false.
Proof.
  revert s. induction m as [|c m IH]; intros s H; simpl in *; [lia |].
  destruct s as [|d s]; [done |]. simpl in *.
  destruct (ascii_dec c d); [apply IH; lia | done].
Qed.

Lemma textAfter_eq (m s : string) :
  textAfter m s
  = if String.prefix m s
    then Some (Js.sliceFrom (String.length m) s)
    else
      match s with
      | EmptyString => None
      | String _ r => textAfter m r
      end.
Proof. destruct s; reflexivity. Qed.

Lemma textAfter_short (m s : string) :
  (String.length s < String.length m)%nat -> textAfter m s = None.
Proof.
  induction s as [|c s IH]; intros H; rewrite textAfter_eq, prefix_short by done.
  - done.
  - apply IH. simpl in H. lia.
Qed.

Lemma takeLine_dropLine (s : string) : s = takeLine s +:+ dropLine s.
Proof.
  induction s as [|c s IH]; [done |]. simpl.
  destruct (Js.isLineTerminator c); [done |].
  rewrite append_cons. by f_equal.
Qed.

Lemma takeLine_noTerminator (s : string) : noTerminator (takeLine s) = true.
Proof.
  induction s as [|c s IH]; [done |]. simpl.
  destruct (Js.isLineTerminator c) eqn:E; simpl; [done |]. by rewrite E.
Qed.

Lemma takeLine_dropLine_empty (s : string) : takeLine (dropLine s) = EmptyString.
Proof.
  induction s as [|c s IH]; [done |]. simpl.
  destruct (Js.isLineTerminator c) eqn:E; simpl; [by rewrite E | done].
Qed.

Lemma takeLine_app (x t : string) :
  noTerminator x = true -> takeLine (x +:+ t) = x +:+ takeLine t.
Proof.
  induction x as [|c x IH]; [done |]. simpl. intros H.
  apply andb_true_iff in H as [Hc Hx]. apply negb_true_iff in Hc.
  rewrite ?append_cons. simpl. rewrite Hc. rewrite ?append_cons. f_equal. by apply IH.
Qed.

Lemma dropLine_app (x t : string) :
  noTerminator x = true -> dropLine (x +:+ t) = dropLine t.
Proof.
  induction x as [|c x IH]; [done |]. simpl. intros H.
  apply andb_true_iff in H as [Hc Hx]. apply negb_true_iff in Hc.
  rewrite ?append_cons. simpl. rewrite Hc. by apply IH.
Qed.

(** The lines of a text: its first line, then the lines of what
    follows the terminator. *)
Lemma linesOf_unfold (s : string) : linesOf s = takeLine s :: laterLines s.
Proof.
  unfold laterLines. induction s as [|c s IH]; [done |]. simpl.
  destruct (Js.isLineTerminator c); [done |]. by rewrite IH.
Qed.

Lemma prefix_takeLine (m x : string) :
  noTerminator m = true -> String.prefix m (takeLine x) = String.prefix m x.
Proof.
  revert x. induction m as [|c m IH]; intros x H.
  - destruct (takeLine x), x; reflexivity.
  - simpl in H. apply andb_true_iff in H as [Hc Hm]. apply negb_true_iff in Hc.
    destruct x as [|d x]; [done |]. simpl.
    destruct (Js.isLineTerminator d) eqn:E; simpl.
    + destruct (ascii_dec c d) as [-> |]; [congruence | done].
    + destruct (ascii_dec c d); [by apply IH | done].
Qed.

Lemma scanModels_skip (k : nat) (s : string) (acc : option string) :
  scanModels k s acc = scanModels 0 (Js.sliceFrom k s) acc.
Proof.
  revert s. induction k as [|k IH]; intros s; [done |].
  destruct s as [|c s]; [done |]. apply IH.
Qed.

Lemma length_append (a b : string) :
  String.length (a +:+ b) = (String.length a + String.length b)%nat.
Proof.
  induction a as [|c a IH]; [done |]. rewrite append_cons. simpl. by rewrite IH.
Qed.

Lemma dropLine_length (s : string) :
  (String.length (dropLine s) <= String.length s)%nat.
Proof.
  induction s as [|c s IH]; [done |]. simpl.
  destruct (Js.isLineTerminator c); simpl; lia.
Qed.

Lemma laterLines_dropLine (s : string) : laterLines (dropLine s) = laterLines s.
Proof.
  unfold laterLines. induction s as [|c s IH]; [done |]. simpl.
  destruct (Js.isLineTerminator c) eqn:E; [simpl; by rewrite E | exact IH].
Qed.

Lemma laterLines_app (x t : string) :
  noTerminator x = true -> laterLines (x +:+ t) = laterLines t.
Proof. intros H. unfold laterLines. by rewrite dropLine_app. Qed.

Lemma marker_noTerminator : noTerminator MODEL_MARKER = true.
Proof. reflexivity. Qed.

Lemma marker_length : (0 < String.length MODEL_MARKER)%nat.
Proof. unfold MODEL_MARKER. simpl. lia. Qed.

Lemma modelOfLine_marked (m cap : string) :
  modelOfLine m (m +:+ cap)
  = if Js.isEmpty (Js.trim cap) then None else Some (Js.trim cap).
Proof.
  unfold modelOfLine. by rewrite textAfter_eq, prefix_app, sliceFrom_app.
Qed.

Lemma modelOfLine_short (m line : string) :
  (String.length line < String.length m)%nat -> modelOfLine m line = None.
Proof. intros H. unfold modelOfLine. by rewrite textAfter_short. Qed.

Lemma keepLast_cons (m : string) (acc : option string) (line : string)
      (lines : list string) :
  keepLast m acc (line :: lines) = keepLast m (keepModel m acc line) lines.
Proof. reflexivity. Qed.

Lemma scanModels_eq (c : ascii) (r : string) (acc : option string) :
  scanModels 0 (String c r) acc
  = if String.prefix MODEL_MARKER (String c r) then
      let capture :=
        takeLine (Js.sliceFrom (String.length MODEL_MARKER) (String c r)) in
      if Js.isEmpty capture then scanModels 0 r acc
      else
        scanModels (String.length MODEL_MARKER + String.length capture - 1) r
                   (if negb (Js.isEmpty (Js.trim capture))
                    then Some (Js.trim capture) else acc)
    else scanModels 0 r acc.
Proof. reflexivity. Qed.

Lemma keepModel_marked (m : string) (acc : option string) (cap : string) :
  keepModel m acc (m +:+ cap)
  = if negb (Js.isEmpty (Js.trim cap)) then Some (Js.trim cap) else acc.
Proof.
  unfold keepModel. rewrite modelOfLine_marked.
  by destruct (Js.isEmpty (Js.trim cap)).
Qed.

Lemma keepModel_short (m : string) (acc : option string) (line : string) :
  (String.length line < String.length m)%nat -> keepModel m acc line = acc.
Proof. intros H. unfold keepModel. by rewrite modelOfLine_short. Qed.

Lemma isEmpty_true (s : string) : Js.isEmpty s = true -> s = EmptyString.
Proof. by destruct s. Qed.

Lemma cons_app_inv (c : ascii) (r m t : string) :
  (0 < String.length m)%nat -> String c r = m +:+ t ->
  exists m', m = String c m' /\ r = m' +:+ t.
Proof.
  destruct m as [|c' m']; simpl; [lia |]. rewrite append_cons.
  intros _ [= -> ->]. eauto.
Qed.

Lemma scanModels_keepLast (n : nat) (s : string) (acc : option string) :
  (String.length s <= n)%nat ->
  scanModels 0 s acc = keepLast MODEL_MARKER acc (linesOf s).
Proof.
  pose proof marker_noTerminator as Hnt. pose proof marker_length as Hlen.
  assert (Hempty : forall acc, keepModel MODEL_MARKER acc EmptyString = acc).
  { intros acc0. by apply keepModel_short. }
  revert s acc. induction n as [|n IH]; intros s acc Hn.
  - destruct s; [| simpl in Hn; lia].
    change (acc = keepModel MODEL_MARKER acc EmptyString). by rewrite Hempty.
  - destruct s as [|c r].
    { change (acc = keepModel MODEL_MARKER acc EmptyString). by rewrite Hempty. }
    rewrite scanModels_eq.
    destruct (String.prefix MODEL_MARKER (String c r)) eqn:P.
    + (* the marker starts here *)
      pose proof (prefix_split _ _ P) as Hs.
      set (t := Js.sliceFrom (String.length MODEL_MARKER) (String c r)) in *.
      cbv zeta.
      rewrite (linesOf_unfold (String c r)), Hs, takeLine_app, laterLines_app by done.
      rewrite keepLast_cons, keepModel_marked.
      destruct (Js.isEmpty (takeLine t)) eqn:Ecap.
      * (* nothing to capture: the scan moves on by one character *)
        apply isEmpty_true in Ecap. rewrite Ecap.
        change (Js.isEmpty (Js.trim EmptyString)) with true. cbn [negb]. cbv iota.
        rewrite IH by (simpl in Hn; lia).
        destruct (cons_app_inv _ _ _ _ Hlen Hs) as (m' & Hm & Hr).
        assert (noTerminator m' = true) as Hnt'.
        { rewrite Hm in Hnt. simpl in Hnt. by apply andb_true_iff in Hnt as [_ ?]. }
        rewrite (linesOf_unfold r), Hr, takeLine_app, laterLines_app by done.
        rewrite keepLast_cons, keepModel_short; [done |].
        rewrite Ecap, length_append, Hm. simpl. lia.
      * (* a capture up to the end of the line *)
        destruct (cons_app_inv _ _ _ _ Hlen Hs) as (m' & Hm & Hr).
        rewrite scanModels_skip.
        assert (Js.sliceFrom
                  (String.length MODEL_MARKER + String.length (takeLine t) - 1) r
                = dropLine t) as ->.
        { rewrite Hm. cbn [String.length].
          replace (S (String.length m') + String.length (takeLine t) - 1)%nat
            with (String.length m' + String.length (takeLine t))%nat by lia.
          rewrite sliceFrom_add, Hr, sliceFrom_app.
          rewrite (takeLine_dropLine t) at 2. apply sliceFrom_app. }
        rewrite IH.
        -- rewrite linesOf_unfold, takeLine_dropLine_empty, laterLines_dropLine.
           by rewrite keepLast_cons, Hempty.
        -- pose proof (dropLine_length t) as Hd.
           assert (String.length r = (String.length m' + String.length t)%nat)
             by (rewrite Hr at 1; apply length_append).
           simpl in Hn. lia.
    + (* no marker here *)
      rewrite IH by (simpl in Hn; lia). cbn [linesOf].
      destruct (Js.isLineTerminator c) eqn:Ec.
      * by rewrite keepLast_cons, Hempty.
      * rewrite (linesOf_unfold r). cbn [Js.consLine]. rewrite !keepLast_cons.
        f_equal. unfold keepModel, modelOfLine. rewrite (textAfter_eq _ (String c _)).
        assert (String.prefix MODEL_MARKER (String c (takeLine r)) = false) as ->; [| done].
        rewrite <- P. rewrite <- (prefix_takeLine _ (String c r)) by done.
        simpl. by rewrite Ec.
Qed.

Lemma keepLast_last (m : string) (acc : option string) (lines : list string) :
  keepLast m acc lines
  = match last (omap (modelOfLine m) lines) with
    | Some model => Some model
    | None => acc
    end.
Proof.
  revert acc. induction lines as [|line lines IH]; intros acc; [done |].
  rewrite keepLast_cons, IH. unfold keepModel. cbn [omap list_omap].
  destruct (modelOfLine m line) as [model|]; [| done].
  rewrite last_cons. by destruct (last _).
Qed.

(** The scan of the regular expression finds the model of the last
    line that names one after the marker. *)
Lemma scanModels_lastModelAfter (content : string) :
  scanModels 0 content None = lastModelAfter MODEL_MARKER content.
Proof.
  rewrite (scanModels_keepLast (String.length content)) by done.
  rewrite keepLast_last. unfold lastModelAfter. by destruct (last _).
Qed.

Lemma lastModelAfter_nonempty (marker content model : string) :
  lastModelAfter marker content = Some model -> Js.isEmpty model = false.
Proof.
  unfold lastModelAfter. intros H. apply last_Some_elem_of in H.
  apply list_elem_of_omap in H as (line & _ & Hline).
  unfold modelOfLine in Hline. destruct (textAfter marker line); [| done].
  destruct (Js.isEmpty (Js.trim s)) eqn:E; congruence.
Qed.


End Scan.


(** ** The default model *)

Lemma stat_run (p : string) (w : World) :
  Fs.stat p w
  = (match fs_stat (w_fs w) p with
     | Some stat => Returned stat
     | None => Raised
     end, addCalls [CallStat p] w).
Proof. unfold Fs.stat. run. by destruct (fs_stat _ _). Qed.

Lemma readdir_run (p : string) (w : World) :
  Fs.readdir p w
  = (match fs_readdir (w_fs w) p with
     | Some entries => Returned entries
     | None => Raised
     end, addCalls [CallReaddir p] w).
Proof. unfold Fs.readdir. run. by destruct (fs_readdir _ _). Qed.

Lemma pushLogFile_run (logFiles : list LogFile) (entry : Dirent) (w : World) :
  exists calls,
    pushLogFile logFiles entry w
    = (Returned (logFiles ++ match logFileOf (w_fs w) entry with
                             | Some f => [f]
                             | None => []
                             end),
       addCalls calls w).
Proof.
  unfold pushLogFile, logFileOf. destruct (isProcessLog entry); cbn [negb]; cbv iota.
  - eexists. unfold tryCatch, bind. rewrite stat_run.
    destruct (fs_stat _ _); [reflexivity |]. unfold ret. by rewrite app_nil_r.
  - exists []. unfold ret. by rewrite addCalls_nil, app_nil_r.
Qed.

Lemma foldM_pushLogFile_run (entries : list Dirent) (logFiles : list LogFile)
      (w : World) :
  exists calls,
    foldM pushLogFile entries logFiles w
    = (Returned (logFiles ++ omap (logFileOf (w_fs w)) entries), addCalls calls w).
Proof.
  revert logFiles w. induction entries as [|entry entries IH]; intros logFiles w.
  - exists []. cbn [foldM omap list_omap]. unfold ret.
    by rewrite addCalls_nil, app_nil_r.
  - cbn [foldM]. destruct (pushLogFile_run logFiles entry w) as [calls1 H1].
    unfold bind. rewrite H1.
    destruct (IH (logFiles ++ match logFileOf (w_fs w) entry with
                              | Some f => [f]
                              | None => []
                              end) (addCalls calls1 w)) as [calls2 H2].
    rewrite H2. exists (calls1 ++ calls2). rewrite addCalls_addCalls.
    f_equal. f_equal. rewrite <- app_assoc. f_equal. cbn [omap list_omap].
    unfold addCalls. world_simpl. by destruct (logFileOf _ entry).
Qed.

Lemma extractModelFromProcessLog_run (logPath : string) (w : World) :
  extractModelFromProcessLog logPath w
  = (Returned match fs_readFile (w_fs w) logPath with
              | Some content => lastModelAfter MODEL_MARKER content
              | None => None
              end,
     addCalls [CallReadFile logPath] w).
Proof.
  unfold extractModelFromProcessLog, tryCatch, bind. rewrite readFile_run.
  destruct (fs_readFile _ _); [| done]. unfold ret.
  by rewrite scanModels_lastModelAfter.
Qed.

Lemma truthyStr_lastModelAfter (marker content : string) :
  Js.truthyStr (lastModelAfter marker content)
  = bool_decide (is_Some (lastModelAfter marker content)).
Proof.
  destruct (lastModelAfter marker content) as [model|] eqn:E; simpl.
  - by rewrite (lastModelAfter_nonempty _ _ _ E).
  - done.
Qed.

Lemma scanProcessLogs_run (now : Z) (w : World) :
  exists calls,
    scanProcessLogs now w
    = match scannedModelOf MODEL_MARKER (w_fs w) with
      | Some model =>
          (Returned (Some model),
           set_modelCacheTime now (set_cachedModel (Some model) (addCalls calls w)))
      | None => (Returned None, addCalls calls w)
      end.
Proof.
  unfold scanProcessLogs, scannedModelOf, latestLogOf, processLogsOf.
  unfold tryCatch, bind at 1. rewrite readdir_run.
  destruct (fs_readdir (w_fs w) COPILOT_CLI_LOGS_PATH) as [entries|] eqn:Hdir;
    [| by eexists].
  unfold bind at 1.
  destruct (foldM_pushLogFile_run entries [] (addCalls [CallReaddir COPILOT_CLI_LOGS_PATH] w))
    as [calls1 ->].
  rewrite app_nil_l, addCalls_addCalls.
  change (w_fs (addCalls [CallReaddir COPILOT_CLI_LOGS_PATH] w)) with (w_fs w).
  destruct (sortBy _ _) as [|latest rest]; [by eexists |].
  cbn [head]. unfold bind at 1. rewrite extractModelFromProcessLog_run.
  rewrite addCalls_addCalls.
  change (w_fs (addCalls ?c w)) with (w_fs w).
  destruct (fs_readFile (w_fs w) _) as [content|]; [| by eexists].
  rewrite truthyStr_lastModelAfter.
  destruct (lastModelAfter MODEL_MARKER content) as [model|]; by eexists.
Qed.


Lemma latestLogOf_most_recent (fs : FileSystem) (latest : LogFile) :
  latestLogOf fs = Some latest ->
  latest ∈ processLogsOf fs
  /\ forall f, f ∈ processLogsOf fs -> lf_mtimeMs f <= lf_mtimeMs latest.
Proof.
  intros H.
  apply (sortBy_head (fun f => - lf_mtimeMs f)) in H as [Hin Hmax].
  - split; [done |]. intros f Hf. specialize (Hmax f Hf). lia.
  - intros a b. apply eq_true_iff_eq. rewrite !Z.leb_le. lia.
Qed.

Lemma getDefaultModel_cached (w : World) (model : string) :
  modelIsCached w (w_clock w (w_ticks w)) model ->
  getDefaultModel w = (Returned model, set_ticks (S (w_ticks w)) w).
Proof.
  intros (Hc & Hne & Hage). unfold getDefaultModel.
  unfold bind at 1. rewrite Date_now_run. run. world_simpl.
  rewrite Hc. simpl. destruct model; [done |]. simpl.
  apply Z.ltb_lt in Hage. world_simpl. by rewrite Hage.
Qed.

Lemma getDefaultModel_scan (w : World) :
  (forall model, ~ modelIsCached w (w_clock w (w_ticks w)) model) ->
  exists calls,
    getDefaultModel w
    = match scannedModelOf MODEL_MARKER (w_fs w) with
      | Some model =>
          (Returned model,
           set_modelCacheTime (w_clock w (w_ticks w))
             (set_cachedModel (Some model)
                (addCalls calls (set_ticks (S (w_ticks w)) w))))
      | None =>
          (Returned (Js.nullish (w_cachedModel w) "unknown"),
           addCalls calls (set_ticks (S (w_ticks w)) w))
      end.
Proof.
  intros Hstale. unfold getDefaultModel.
  unfold bind at 1. rewrite Date_now_run.
  unfold bind at 1, gets at 1. unfold bind at 1, gets at 1. world_simpl.
  assert (Js.truthyStr (w_cachedModel w)
          && (w_clock w (w_ticks w) - w_modelCacheTime w <? MODEL_CACHE_TTL_MS)
          = false) as Hcond.
  { destruct (Js.truthyStr _ && _) eqn:E; [| done]. exfalso.
    apply andb_true_iff in E as [Ht Ha]. apply Z.ltb_lt in Ha.
    destruct (w_cachedModel w) as [m|] eqn:Hm; [| done].
    apply (Hstale m). split; [done |]. split; [| done].
    intros ->. done. }
  world_simpl. rewrite Hcond. unfold bind at 1.
  match goal with
  | |- context [scanProcessLogs ?n ?w'] =>
      destruct (scanProcessLogs_run n w') as [calls Hscan]
  end.
  exists calls. rewrite Hscan. world_simpl.
  destruct (scannedModelOf _ _); world_unfold; reflexivity.
Qed.


(** ** The tailing watcher *)

Lemma processDeltaLine_tailState (callback : nat) (sessionId line : string) :
  Keeps (unchanged tailState) (processDeltaLine callback sessionId line).
Proof.
  unfold processDeltaLine, Date_now, deliver. cbv zeta.
  destruct (Js.isEmpty _); [keeps |].
  destruct (JSON_parse _) as [event|]; [| keeps].
  destruct (asAssistantMessage event); keeps.
Qed.

Lemma forEach_processDeltaLine_tailState (callback : nat) (sessionId : string)
      (lines : list string) :
  Keeps (unchanged tailState) (forEach lines (processDeltaLine callback sessionId)).
Proof.
  apply Keeps_forEach; [done | apply unchanged_trans |].
  intros line. apply processDeltaLine_tailState.
Qed.

Lemma NeverRaises_processDeltaLine (callback : nat) (sessionId line : string) :
  NeverRaises (processDeltaLine callback sessionId line).
Proof.
  unfold processDeltaLine, Date_now, deliver. cbv zeta.
  destruct (Js.isEmpty _); [total |].
  destruct (JSON_parse _) as [event|]; [| total].
  destruct (asAssistantMessage event); total.
Qed.

Lemma processEventsDelta_no_callback (filePath sessionDirPath : string) (w : World) :
  aw_callback (w_activityWatcher w) = None ->
  processEventsDelta filePath sessionDirPath w = (Returned tt, w).
Proof.
  intros H. open_world w. subst. unfold processEventsDelta. run. reflexivity.
Qed.


(** After a successful [stat], with nothing between the start offset and
    the size, nothing is read and the recorded offset is not touched. *)
Lemma processEventsDelta_nothing_new (filePath sessionDirPath : string) (w : World)
      (callback : nat) (stat : Stats) :
  aw_callback (w_activityWatcher w) = Some callback ->
  fs_stat (w_fs w) filePath = Some stat ->
  st_size stat
  = startOffsetOf (aw_fileOffsets (w_activityWatcher w)) filePath (st_size stat) ->
  processEventsDelta filePath sessionDirPath w
  = (Returned tt, addCalls [CallStat filePath] w).
Proof.
  intros Hcb Hstat Hsame. unfold startOffsetOf in Hsame. cbv zeta in Hsame.
  apply Z.eqb_eq in Hsame. open_world w. subst.
  unfold processEventsDelta, Fs.stat. run. rewrite Hstat. run. by rewrite Hsame.
Qed.


(** After a successful [stat] and a successful read, the bytes from the
    start offset to the size have been read, once, and the recorded
    offset is the size, whatever the lines of the chunk hold. *)
Lemma processEventsDelta_reads (filePath sessionDirPath : string) (w : World)
      (callback : nat) (stat : Stats) (chunk : string) :
  let start := startOffsetOf (aw_fileOffsets (w_activityWatcher w)) filePath
                             (st_size stat) in
  aw_callback (w_activityWatcher w) = Some callback ->
  fs_stat (w_fs w) filePath = Some stat ->
  st_size stat <> start ->
  fs_read (w_fs w) filePath start (st_size stat - start) = Some chunk ->
  exists w',
    processEventsDelta filePath sessionDirPath w = (Returned tt, w')
    /\ tailState w'
       = (w_fs w,
          w_calls w ++ [CallStat filePath;
                        CallRead filePath start (st_size stat - start);
                        CallReadFile (Path.join sessionDirPath "workspace.yaml")],
          aw_set_fileOffsets
            (<[ filePath := st_size stat ]> (aw_fileOffsets (w_activityWatcher w)))
            (w_activityWatcher w)).
Proof.
  intros start Hcb Hstat Hnew Hread. subst start.
  unfold startOffsetOf in *. cbv zeta in *. apply Z.eqb_neq in Hnew.
  open_world w. subst.
  unfold processEventsDelta, Fs.stat, Fs.readAt, readWorkspaceYaml, Fs.readFile. run.
  rewrite Hstat. run. rewrite Hnew. run. rewrite Hread. run.
  destruct (fs_readFile _ _); run.
  all: match goal with
  | |- context [forEach ?lines (processDeltaLine ?cb ?sid) ?w1] =>
      pose proof (forEach_processDeltaLine_tailState cb sid lines w1) as Hkeep;
      pose proof (NeverRaises_forEach lines (processDeltaLine cb sid)
                    (NeverRaises_processDeltaLine cb sid) w1) as [[] Hres];
      unfold unchanged, after, result in Hkeep, Hres;
      destruct (forEach lines (processDeltaLine cb sid) w1) as [o w'] eqn:Hrun
  end.
  all: cbn [fst snd] in Hkeep, Hres; subst o; exists w'; split; [done |].
  all: rewrite Hkeep; unfold tailState; world_unfold; by rewrite <- !app_assoc.
Qed.


(** The line loop delivers the deltas of the lines, in order, and reads
    the clock once for each. *)
Lemma processDeltaLine_run (callback : nat) (sessionId line : string) (w : World) :
  processDeltaLine callback sessionId line w
  = (Returned tt,
     match deltaOfLine sessionId (w_clock w (w_ticks w)) line with
     | Some u => set_delivered (w_delivered w ++ [(callback, u)])
                               (set_ticks (S (w_ticks w)) w)
     | None => w
     end).
Proof.
  unfold processDeltaLine, deltaOfLine, parsedLine. cbv zeta.
  destruct (Js.isEmpty _); [reflexivity |].
  destruct (JSON_parse _) as [event|]; [| reflexivity].
  destruct (asAssistantMessage event); [| reflexivity].
  unfold Date_now, deliver. run. reflexivity.
Qed.

Lemma forEach_processDeltaLine_run (callback : nat) (sessionId : string)
      (lines : list string) (w : World) :
  forEach lines (processDeltaLine callback sessionId) w
  = (Returned tt,
     deliverAll callback (deltasOfLines sessionId (w_clock w) (w_ticks w) lines) w).
Proof.
  revert w. induction lines as [| line lines IH]; intros w.
  - unfold deliverAll. cbn [forEach deltasOfLines map List.length]. unfold ret.
    rewrite app_nil_r, Nat.add_0_r. reflexivity.
  - cbn [forEach deltasOfLines]. unfold bind at 1. rewrite processDeltaLine_run.
    destruct (deltaOfLine _ _ line) as [u|]; [| apply IH].
    rewrite IH. unfold deliverAll. world_simpl. cbn [map List.length].
    rewrite <- app_assoc, Nat.add_succ_r. reflexivity.
Qed.

(** After a successful [stat] and a successful read of the bytes from the
    start offset to the size, the world is [afterChunk]. *)
Lemma processEventsDelta_run (filePath sessionDirPath : string) (w : World)
      (callback : nat) (stat : Stats) (chunk : string) :
  let start := startOffsetOf (aw_fileOffsets (w_activityWatcher w)) filePath
                             (st_size stat) in
  aw_callback (w_activityWatcher w) = Some callback ->
  fs_stat (w_fs w) filePath = Some stat ->
  st_size stat <> start ->
  fs_read (w_fs w) filePath start (st_size stat - start) = Some chunk ->
  processEventsDelta filePath sessionDirPath w
  = (Returned tt,
     afterChunk filePath sessionDirPath callback start (st_size stat) chunk w).
Proof.
  intros start Hcb Hstat Hnew Hread. subst start.
  unfold afterChunk, sessionIdOf, workspaceOf.
  unfold startOffsetOf in *. cbv zeta in *. apply Z.eqb_neq in Hnew.
  open_world w. subst.
  unfold processEventsDelta, Fs.stat, Fs.readAt, readWorkspaceYaml, Fs.readFile. run.
  rewrite Hstat. run. rewrite Hnew. run. rewrite Hread. run.
  destruct (fs_readFile _ _); run; rewrite forEach_processDeltaLine_run;
    unfold deliverAll; world_unfold; by rewrite <- !app_assoc.
Qed.


(* =================================================================== *)
(** * The claims of the specification *)
(* =================================================================== *)

(** C1 (amended). The row that [parseSessionDirRows] builds for an
    assistant message has the specified token counts: with a
    [prompt_tokens] that is a number above 0, [input] is [prompt_tokens],
    [output] is [completion_tokens] or 0, the row is not estimated, and
    a cache count is attached exactly when the vendor value is present
    and positive; otherwise [output] is [ceil(length(content) / 4)],
    [input] is [ceil(output / 2)], the row is estimated and carries no
    cache count. The delta of the tailing watcher, which has no
    estimation flag, has the same [input] and [output], and with a
    [prompt_tokens] above 0 it attaches a cache count exactly when the
    vendor value is present and positive. *)
Theorem C1_token_figures (ctx : SessionContext)
        (e : CopilotCliAssistantMessageEvent) :
  (tokensAsSpecified e (r_tokens (usageRow ctx e))
   /\ (forall p, vendorPrompt e p -> r_isEstimated (usageRow ctx e) = false)
   /\ ((forall p, ~ vendorPrompt e p) -> r_isEstimated (usageRow ctx e) = true))
  /\ ((forall p, vendorPrompt e p ->
         t_input (deltaTokens e) = p
         /\ t_output (deltaTokens e) = Js.nullish (vendorCount completion_tokens e) 0
         /\ attachedIffPositive (t_cacheRead (deltaTokens e))
                                (vendorCount cache_read_input_tokens e)
         /\ attachedIffPositive (t_cacheWrite (deltaTokens e))
                                (vendorCount cache_creation_input_tokens e))
      /\ ((forall p, ~ vendorPrompt e p) ->
            isCeilingOf (t_output (deltaTokens e)) (Js.length (am_content e)) 4
            /\ isCeilingOf (t_input (deltaTokens e)) (t_output (deltaTokens e)) 2)).
Proof.
  split.
  - split; [apply usageRow_tokens | apply usageRow_isEstimated].
  - destruct (deltaTokens_spec e) as (Hvendor & Hestimated & Hread & Hwrite).
    split; [| exact Hestimated].
    intros p Hp. destruct (Hvendor p Hp) as [Hinput Houtput].
    split; [exact Hinput |]. split; [exact Houtput |]. split; [exact Hread | exact Hwrite].
Qed.

(** C2. The [modelId] of the row of an assistant message is the explicit
    [data.model] when there is one; otherwise, over the model changes of
    the session sorted by ascending timestamp, it is the model of the
    latest change at or before the timestamp of the message, and the
    default model when no change qualifies or there is no change. *)
Theorem C2_model_resolution (fs : FileSystem) (dirPath : string) (mtimeMs : Z)
        (defaultModel : string) (e : CopilotCliAssistantMessageEvent) :
  let events := eventsOf fs (Path.join dirPath "events.jsonl") in
  let ctx := contextOf fs dirPath mtimeMs defaultModel in
  let timeline := sortedModelChanges events in
  ascending timeline
  /\ Permutation timeline (collectModelChanges events)
  /\ match am_model e with
     | Some model => r_modelId (usageRow ctx e) = model
     | None =>
         latestChangeAt timeline (toTimestamp (am_timestamp e) mtimeMs)
                        defaultModel (r_modelId (usageRow ctx e))
     end.
Proof.
  intros events ctx timeline.
  split; [apply sortedModelChanges_ascending |].
  split; [apply sortedModelChanges_Permutation |].
  unfold usageRow. cbn [r_modelId]. destruct (am_model e) as [model|]; [done |].
  apply resolveModelAtTime_latest. apply sortedModelChanges_ascending.
Qed.

(** C3. [parseSessionDirRows] returns one row for each distinct
    [messageId] of the log, in the order in which the identifiers first
    occur, and the row of an identifier is the row of its last
    occurrence in file order. *)
Theorem C3_one_row_per_message (dirPath : string) (mtimeMs : Z)
        (defaultModel : string) (w : World) :
  let msgs := assistantMessages (eventsOf (w_fs w) (Path.join dirPath "events.jsonl")) in
  let ctx := contextOf (w_fs w) dirPath mtimeMs defaultModel in
  let deduped := dedupedOf (w_fs w) dirPath mtimeMs defaultModel in
  result (parseSessionDirRows dirPath mtimeMs defaultModel) w
  = Returned (mapValues deduped)
  /\ mapKeys deduped = firstOccurrences (map am_messageId msgs)
  /\ NoDup (mapKeys deduped)
  /\ List.length (mapValues deduped)
     = List.length (firstOccurrences (map am_messageId msgs))
  /\ forall k row,
       (k, row) ∈ deduped
       <-> exists e, lastOccurrence msgs k e /\ row = usageRow ctx e.
Proof.
  intros msgs ctx deduped.
  assert (Hkeys : mapKeys deduped = firstOccurrences (map am_messageId msgs))
    by apply dedupedRows_keys.
  split; [unfold result; by rewrite parseSessionDirRows_run |].
  split; [done |].
  split; [rewrite Hkeys; apply firstOccurrences_NoDup |].
  split.
  - rewrite <- Hkeys. unfold mapValues, mapKeys. by rewrite !length_map.
  - intros k row. apply dedupedRows_last.
Qed.

Lemma watchSessionDir_run (sessionDirPath : string) (w : World) :
  watchSessionDir sessionDirPath w = (Returned tt, afterWatchDir sessionDirPath w).
Proof.
  unfold watchSessionDir, afterWatchDir. open_world w. subst.
  unfold Fs.watch. run.
  destruct (swDirs !! sessionDirPath); [reflexivity |]. run.
  destruct (fs_watchable fs sessionDirPath); run; world_unfold; reflexivity.
Qed.

Lemma afterWatchDir_fs (sessionDirPath : string) (w : World) :
  w_fs (afterWatchDir sessionDirPath w) = w_fs w.
Proof.
  unfold afterWatchDir. destruct (_ !! sessionDirPath); [done |].
  by destruct (fs_watchable _ _).
Qed.

Lemma afterWatchDir_index (sessionDirPath : string) (w : World) :
  w_sessionMetadataIndex (afterWatchDir sessionDirPath w) = w_sessionMetadataIndex w
  /\ w_sessionAggregateCache (afterWatchDir sessionDirPath w) = w_sessionAggregateCache w
  /\ w_sessionCache (afterWatchDir sessionDirPath w) = w_sessionCache w.
Proof.
  unfold afterWatchDir. destruct (_ !! sessionDirPath); [done |].
  by destruct (fs_watchable _ _).
Qed.

(** Where the mtime of a selected session comes from. A directory that
    a turn of the discovery loop selects has, when the turn examined its
    [events.jsonl], the modification time that [stat] has just read; when
    the turn examined nothing, it has the time and the id that the
    metadata index holds, and the file system was not asked. *)
Lemma discoverSessionDir_selects (options : SessionParseOptions)
      (dirtyPaths : gset string) (needsFullStat : bool) (s : Discovery)
      (sessionDirPath : string) (w : World) :
  let eventsPath := Path.join sessionDirPath "events.jsonl" in
  let turn := discoverSessionDir options dirtyPaths needsFullStat s sessionDirPath in
  let index := w_sessionMetadataIndex w in
  exists s',
    result turn w = Returned s'
    /\ forall d,
         d ∈ sessionDirs s' ->
         d ∈ sessionDirs s
         \/ (p_dirPath d = sessionDirPath
             /\ if turnStats options dirtyPaths needsFullStat index eventsPath
                then exists stat,
                       fs_stat (w_fs w) eventsPath = Some stat
                       /\ p_mtimeMs d = st_mtimeMs stat
                else index !! eventsPath = Some (mkMeta (p_mtimeMs d) (p_sessionId d))
                     /\ w_calls (after turn w)
                        = w_calls (after (watchSessionDir sessionDirPath) w)).
Proof. tidy.
  cbv zeta. unfold result, after, turnStats. rewrite watchSessionDir_run. cbn [snd].
  destruct (discoverSessionDir options dirtyPaths needsFullStat s sessionDirPath w)
    as [outcome w'] eqn:Hturn.
  cbn [fst snd]. revert Hturn. unfold discoverSessionDir.
  unfold bind at 1. rewrite watchSessionDir_run. cbv beta iota.
  destruct (afterWatchDir_index sessionDirPath w) as (Hindex & _).
  pose proof (afterWatchDir_fs sessionDirPath w) as Hfs.
  rewrite <- Hindex, <- Hfs. clear Hindex Hfs.
  generalize (afterWatchDir sessionDirPath w). clear w. intros w.
  set (eventsPath := Path.join sessionDirPath "events.jsonl").
  open_world w. unfold Fs.stat. run.
  destruct (index !! eventsPath) as [[recorded recordedId] |] eqn:Hentry;
    cbn [m_sessionId m_mtimeMs].
  - destruct (otherSession (o_sessionId options) recordedId) eqn:Hother.
    { run. intros [= <- <-]. eexists. split; [reflexivity |]. by left. }
    cbn [negb andb].
    destruct (bool_decide (eventsPath ∈ dirtyPaths)) eqn:Hdirty;
      destruct needsFullStat; cbn [negb andb orb]; run.
    4: { destruct (sinceAllows (o_since options) recorded); run;
         intros [= <- <-]; (eexists; split; [reflexivity |]); world_simpl;
         cbn [sessionDirs pushSessionDir]; intros d Hd; [| by left].
         apply elem_of_app in Hd as [Hd | Hd]; [by left |].
         apply list_elem_of_singleton in Hd as ->. right. done. }
    all: destruct (fs_stat fs eventsPath) as [stat |] eqn:Hstat; run.
    all: try (intros [= <- <-]; eexists; (split; [reflexivity |]); by left).
    all: destruct (recorded =? st_mtimeMs stat) eqn:Hsame; run.
    all: try rewrite Hother; run.
    all: try (apply Z.eqb_eq in Hsame;
              destruct (sinceAllows (o_since options) recorded); run;
              intros [= <- <-]; (eexists; split; [reflexivity |]); world_simpl;
              cbn [sessionDirs pushSessionDir]; intros d Hd; [| by left];
              apply elem_of_app in Hd as [Hd | Hd]; [by left |];
              apply list_elem_of_singleton in Hd as ->; right;
              split; [reflexivity |]; by exists stat).
    all: destruct (otherSession (o_sessionId options) (Path.basename sessionDirPath));
           run.
    all: try (destruct (sinceAllows (o_since options) (st_mtimeMs stat)); run).
    all: intros [= <- <-]; eexists; (split; [reflexivity |]); world_simpl;
         cbn [sessionDirs pushSessionDir]; intros d Hd; try (by left).
    all: apply elem_of_app in Hd as [Hd | Hd]; [by left |];
         apply list_elem_of_singleton in Hd as ->; right;
         split; [reflexivity |]; by exists stat.
  - destruct (fs_stat fs eventsPath) as [stat |] eqn:Hstat; run.
    2: { intros [= <- <-]. eexists. split; [reflexivity |]. by left. }
    destruct (otherSession (o_sessionId options) (Path.basename sessionDirPath)); run.
    2: destruct (sinceAllows (o_since options) (st_mtimeMs stat)); run.
    all: intros [= <- <-]; eexists; (split; [reflexivity |]); world_simpl;
         cbn [sessionDirs pushSessionDir]; intros d Hd; try (by left).
    apply elem_of_app in Hd as [Hd | Hd]; [by left |].
    apply list_elem_of_singleton in Hd as ->. right.
    split; [reflexivity |]. by exists stat.
Qed.

(** C4 (amended). In the aggregation loop of a reconciliation pass, the
    entry of the aggregate cache for a selected session is used (its rows
    are emitted, [lastAccessed] becomes [now], and the session is not
    read) exactly when its [updatedAt] is the mtime with which the
    discovery loop selected the session; when there is no entry, or its
    [updatedAt] differs, the session is parsed again and an entry with
    that mtime as [updatedAt], the parsed rows and [now] as
    [lastAccessed] takes its place. Over the whole loop, for selected
    sessions with distinct ids, each session is judged against the cache
    that the pass started from: the rows of the pass are the rows of the
    sessions in order, every selected session ends with an entry of its
    mtime, its rows and [now], and the entries of other sessions are not
    touched. The mtime of a selected session is that of its
    [events.jsonl] as [stat] has just read it when the turn of the
    discovery loop examined the file (no index entry, a mark of the
    watcher, or a full sweep); in every other turn it is the time that the
    metadata index recorded at an earlier [stat], taken without a call to
    the file system, whatever the time of the file is by now. *)
Theorem C4_aggregate_cache_validity (now : Z) (defaultModel : string)
        (a : Aggregation) (dir : ParsedSessionDir) (w : World) :
  let cache := w_sessionAggregateCache w in
  let run := aggregateSessionDir now defaultModel a dir w in
  (validEntry cache dir ->
     exists cached,
       cache !! p_sessionId dir = Some cached
       /\ run = (Returned (mkAggregation (sessions a ++ usageRows cached)
                                         (aggregateCacheHits a + 1)
                                         (aggregateCacheMisses a)),
                 set_sessionAggregateCache
                   (<[ p_sessionId dir :=
                         mkEntry (p_mtimeMs dir) (usageRows cached) now ]> cache) w))
  /\ (~ validEntry cache dir ->
        exists rows calls,
          result (parseSessionDirRows (p_dirPath dir) (p_mtimeMs dir) defaultModel) w
          = Returned rows
          /\ run = (Returned (mkAggregation (sessions a ++ rows)
                                            (aggregateCacheHits a)
                                            (aggregateCacheMisses a + 1)),
                    set_sessionAggregateCache
                      (<[ p_sessionId dir := mkEntry (p_mtimeMs dir) rows now ]> cache)
                      (addCalls
                         (CallReadFile (Path.join (p_dirPath dir) "events.jsonl")
                            :: calls) w)))
  /\ (w_calls (snd run) = w_calls w <-> validEntry cache dir)
  /\ (forall dirs,
        NoDup (map p_sessionId dirs) ->
        exists a' cache',
          foldM (aggregateSessionDir now defaultModel) dirs a w
          = (Returned a',
             set_sessionAggregateCache cache'
               (addCalls (passCalls (w_fs w) cache dirs) w))
          /\ sessions a'
             = sessions a ++ flat_map (rowsOfSession (w_fs w) cache defaultModel) dirs
          /\ (forall d,
                d ∈ dirs ->
                cache' !! p_sessionId d
                = Some (mkEntry (p_mtimeMs d)
                                (rowsOfSession (w_fs w) cache defaultModel d) now))
          /\ (forall sessionId,
                sessionId ∉ map p_sessionId dirs ->
                cache' !! sessionId = cache !! sessionId))
  /\ (forall (options : SessionParseOptions) (dirtyPaths : gset string)
             (needsFullStat : bool) (s : Discovery) (sessionDirPath : string)
             (w0 : World),
        let eventsPath := Path.join sessionDirPath "events.jsonl" in
        let turn := discoverSessionDir options dirtyPaths needsFullStat s sessionDirPath in
        let index := w_sessionMetadataIndex w0 in
        exists s',
          result turn w0 = Returned s'
          /\ forall d,
               d ∈ sessionDirs s' ->
               d ∈ sessionDirs s
               \/ (p_dirPath d = sessionDirPath
                   /\ if turnStats options dirtyPaths needsFullStat index eventsPath
                      then exists stat,
                             fs_stat (w_fs w0) eventsPath = Some stat
                             /\ p_mtimeMs d = st_mtimeMs stat
                      else index !! eventsPath
                           = Some (mkMeta (p_mtimeMs d) (p_sessionId d))
                           /\ w_calls (after turn w0)
                              = w_calls (after (watchSessionDir sessionDirPath) w0))).
Proof.
  intros cache run.
  assert (Hhit : validEntry cache dir ->
            exists cached,
              cache !! p_sessionId dir = Some cached
              /\ run = (Returned (mkAggregation (sessions a ++ usageRows cached)
                                                (aggregateCacheHits a + 1)
                                                (aggregateCacheMisses a)),
                        set_sessionAggregateCache
                          (<[ p_sessionId dir :=
                                mkEntry (p_mtimeMs dir) (usageRows cached) now ]> cache) w)).
  { intros (cached & Hc & Hu). exists cached. split; [done |].
    by apply aggregateSessionDir_hit. }
  assert (Hmiss : ~ validEntry cache dir ->
            exists rows calls,
              result (parseSessionDirRows (p_dirPath dir) (p_mtimeMs dir) defaultModel) w
              = Returned rows
              /\ run = (Returned (mkAggregation (sessions a ++ rows)
                                                (aggregateCacheHits a)
                                                (aggregateCacheMisses a + 1)),
                        set_sessionAggregateCache
                          (<[ p_sessionId dir := mkEntry (p_mtimeMs dir) rows now ]> cache)
                          (addCalls
                             (CallReadFile (Path.join (p_dirPath dir) "events.jsonl")
                                :: calls) w))).
  { intros Hinvalid.
    destruct (aggregateSessionDir_miss now defaultModel a dir w Hinvalid) as [calls Hrun].
    eexists _, calls. split; [| exact Hrun].
    unfold result. by rewrite parseSessionDirRows_run. }
  split; [exact Hhit |]. split; [exact Hmiss |]. split.
  - destruct (validEntry_dec cache dir) as [Hv | Hv].
    + split; [done |]. intros _. destruct (Hhit Hv) as (cached & _ & ->). reflexivity.
    + split; [| done]. destruct (Hmiss Hv) as (rows & calls & _ & ->).
      cbn [snd]. unfold addCalls. world_simpl. intros Heq.
      apply (f_equal (@List.length _)) in Heq. rewrite length_app in Heq.
      simpl in Heq. lia.
  - split.
    + intros dirs Hdistinct.
      apply (aggregation_pass now defaultModel dirs a w Hdistinct).
    + intros options dirtyPaths needsFullStat s sessionDirPath w0.
      apply discoverSessionDir_selects.
Qed.


Lemma resultIsFresh_dec (options : SessionParseOptions) (now : Z)
      (cache : SessionCache) :
  resultIsFresh options now cache \/ ~ resultIsFresh options now cache.
Proof.
  rewrite <- resultCacheApplies_fresh.
  destruct (resultCacheApplies _ _ _ _); [by left | by right].
Qed.

Lemma startup_calls_started (w : World) :
  sw_started (w_sessionWatcher w) = true ->
  w_calls (afterStartup w)
  = w_calls w ++ [CallAccess COPILOT_CLI_SESSION_STATE_PATH].
Proof.
  intros H. unfold afterStartup, after.
  rewrite startSessionWatcher_started; [reflexivity | exact H].
Qed.

(** C5 (amended). [parseSessionsFromDirs] first checks that the
    session-state root is accessible, one call to the file system; when
    it is not, it returns the empty list whatever the result cache
    holds. When it is, and once the session watcher is started, it
    returns the rows of the result cache with no further call to the
    file system exactly when no session is asked for (the [sessionId] is
    absent or empty), [limit] (100 when absent) and [since] are those of
    the cache, the cached result is not empty and the cache is younger
    than the TTL; in every other case it runs the reconciliation, whose
    first call lists the session-state root. With the watcher already
    started, the check of the root is the only call before that. *)
Theorem C5_fast_path (options : SessionParseOptions) (w : World) :
  let root := COPILOT_CLI_SESSION_STATE_PATH in
  let now := w_clock w (w_ticks w) in
  let limit := Js.nullish (o_limit options) 100 in
  let fresh := resultIsFresh options now (w_sessionCache w) in
  let started := set_ticks (S (w_ticks w)) (afterStartup w) in
  let run := parseSessionsFromDirs options w in
  (fs_access (w_fs w) root = false ->
     run = (Returned [], addCalls [CallAccess root] w))
  /\ (fs_access (w_fs w) root = true ->
        (fresh -> run = (Returned (lastResult (w_sessionCache w)), started))
        /\ (~ fresh ->
              run = slowPath options limit now started
              /\ exists calls,
                   w_calls (snd run)
                   = w_calls (afterStartup w) ++ CallReaddir root :: calls)
        /\ (w_calls (snd run) = w_calls (afterStartup w) <-> fresh))
  /\ (sw_started (w_sessionWatcher w) = true ->
        w_calls (afterStartup w) = w_calls w ++ [CallAccess root]).
Proof.
  intros root now limit fresh started run.
  split; [apply parseSessionsFromDirs_no_root |].
  split; [| apply startup_calls_started].
  intros Haccess.
  pose proof (parseSessionsFromDirs_run options w Haccess) as Hrun.
  cbv zeta in Hrun. fold run now limit started in Hrun.
  assert (Hfast : fresh -> run = (Returned (lastResult (w_sessionCache w)), started)).
  { intros Hfresh. apply resultCacheApplies_fresh in Hfresh.
    fold limit now in Hfresh. by rewrite Hrun, Hfresh. }
  assert (Hslow : ~ fresh ->
            run = slowPath options limit now started
            /\ exists calls,
                 w_calls (snd run)
                 = w_calls (afterStartup w) ++ CallReaddir root :: calls).
  { intros Hstale.
    assert (resultCacheApplies options limit now (w_sessionCache w) = false) as Hb.
    { destruct (resultCacheApplies _ _ _ _) eqn:E; [| done].
      exfalso. apply Hstale. by apply resultCacheApplies_fresh. }
    rewrite Hrun, Hb. split; [done |].
    destruct (FirstCall_slowPath options limit now started) as [calls Hcalls].
    exists calls. exact Hcalls. }
  split; [exact Hfast |]. split; [exact Hslow |].
  destruct (resultIsFresh_dec options now (w_sessionCache w)) as [Hf | Hf].
  - split; [done |]. intros _. by rewrite (Hfast Hf).
  - split; [| done]. destruct (Hslow Hf) as [_ [calls Hcalls]].
    rewrite Hcalls. intros Heq.
    apply (f_equal (@List.length _)) in Heq. rewrite length_app in Heq.
    simpl in Heq. lia.
Qed.


Lemma slowPath_result (options : SessionParseOptions) (limit now : Z) (w : World) :
  result (slowPath options limit now) w = result (reconcile options now) w.
Proof.
  unfold slowPath, result, bind.
  destruct (reconcile options now w) as [[rows|] w1]; [| done].
  unfold storeResult. destruct (negb _); reflexivity.
Qed.

(** C9. The [limit] option does not truncate the rows of a bulk query:
    it is read only to match and to fill the result cache. The rows of
    the slow path do not depend on it, two queries that differ only in
    [limit] return the same rows whenever both or neither take the fast
    path, and an absent [limit] is the limit 100. *)
Theorem C9_limit_does_not_truncate (limit1 limit2 since : option Z)
        (sessionId : option string) (w : World) :
  let q1 := mkOptions limit1 since sessionId in
  let q2 := mkOptions limit2 since sessionId in
  let now := w_clock w (w_ticks w) in
  (forall now' w',
      result (slowPath q1 (Js.nullish limit1 100) now') w'
      = result (slowPath q2 (Js.nullish limit2 100) now') w')
  /\ ((resultIsFresh q1 now (w_sessionCache w)
       <-> resultIsFresh q2 now (w_sessionCache w)) ->
      result (parseSessionsFromDirs q1) w = result (parseSessionsFromDirs q2) w)
  /\ parseSessionsFromDirs (mkOptions None since sessionId) w
     = parseSessionsFromDirs (mkOptions (Some 100) since sessionId) w.
Proof.
  intros q1 q2 now.
  assert (Hslow : forall now' w',
             result (slowPath q1 (Js.nullish limit1 100) now') w'
             = result (slowPath q2 (Js.nullish limit2 100) now') w').
  { intros now' w'. rewrite !slowPath_result. reflexivity. }
  split; [exact Hslow |]. split; [| reflexivity].
  intros Hsame.
  destruct (fs_access (w_fs w) COPILOT_CLI_SESSION_STATE_PATH) eqn:Haccess.
  - unfold result. rewrite !parseSessionsFromDirs_run by done. cbv zeta.
    fold now. cbn [o_limit q1 q2].
    rewrite <- !resultCacheApplies_fresh in Hsame. cbn [o_limit q1 q2] in Hsame.
    destruct (resultCacheApplies q1 _ _ _) eqn:E1,
             (resultCacheApplies q2 _ _ _) eqn:E2; try done.
    + destruct Hsame as [H _]. discriminate (H eq_refl).
    + destruct Hsame as [_ H]. discriminate (H eq_refl).
    + apply Hslow.
  - unfold result. by rewrite !parseSessionsFromDirs_no_root.
Qed.


Lemma handleIds_dir (watchers : gmap string FSWatcher) (root : option FSWatcher)
      (path : string) (h : FSWatcher) :
  watchers !! path = Some h -> fw_id h ∈ handleIds watchers root.
Proof.
  intros H. unfold handleIds. apply elem_of_union. left.
  apply elem_of_list_to_set, list_elem_of_In, in_map, in_map_iff.
  exists (path, h). split; [done |].
  by apply list_elem_of_In, elem_of_map_to_list.
Qed.

Lemma handleIds_root (watchers : gmap string FSWatcher) (h : FSWatcher) :
  fw_id h ∈ handleIds watchers (Some h).
Proof. unfold handleIds. set_solve. Qed.

(** C10. [stopActivityWatch] stops the tailing watcher and, through
    [stopSessionWatcher], the dirty-tracking watcher as well: every
    per-directory watch and root watch of both is closed, the
    reconciliation timer is cleared, the set of dirty paths is emptied
    and the session watcher is marked as not started. The pending dirty
    paths are lost to the next reconciliation; the three caches and the
    flag of the full reconciliation are left as they were. *)
Theorem C10_stopActivityWatch_stops_both (w : World) :
  let w' := after stopActivityWatch w in
  result stopActivityWatch w = Returned tt
  /\ w_activityWatcher w' = stoppedActivityWatcher
  /\ (sw_sessionDirWatchers (w_sessionWatcher w') = ∅
      /\ sw_rootWatcher (w_sessionWatcher w') = None
      /\ sw_dirtyPaths (w_sessionWatcher w') = ∅
      /\ sw_reconciliationTimer (w_sessionWatcher w') = None
      /\ sw_started (w_sessionWatcher w') = false)
  /\ w_openWatchers w'
     = w_openWatchers w ∖ (activityWatcherHandles (w_activityWatcher w)
                           ∪ sessionWatcherHandles (w_sessionWatcher w))
  /\ (forall path h,
        sw_sessionDirWatchers (w_sessionWatcher w) !! path = Some h ->
        fw_id h ∉ w_openWatchers w')
  /\ (forall h,
        sw_rootWatcher (w_sessionWatcher w) = Some h -> fw_id h ∉ w_openWatchers w')
  /\ (forall path h,
        aw_sessionDirWatchers (w_activityWatcher w) !! path = Some h ->
        fw_id h ∉ w_openWatchers w')
  /\ (forall h,
        aw_rootWatcher (w_activityWatcher w) = Some h -> fw_id h ∉ w_openWatchers w')
  /\ (forall t,
        sw_reconciliationTimer (w_sessionWatcher w) = Some t ->
        t ∉ w_activeTimers w')
  /\ (w_sessionCache w' = w_sessionCache w
      /\ w_sessionMetadataIndex w' = w_sessionMetadataIndex w
      /\ w_sessionAggregateCache w' = w_sessionAggregateCache w
      /\ w_forceFullReconciliation w' = w_forceFullReconciliation w).
Proof.
  intros w'. subst w'. unfold after, result. rewrite stopActivityWatch_run.
  cbn [fst snd].
  split; [done |]. split; [done |]. split; [done |]. split; [done |].
  split.
  { intros path h H. apply (handleIds_dir _ (sw_rootWatcher (w_sessionWatcher w))) in H.
    unfold sessionWatcherHandles. world_simpl. set_solve. }
  split.
  { intros h H. pose proof (handleIds_root (sw_sessionDirWatchers (w_sessionWatcher w)) h).
    unfold sessionWatcherHandles. world_simpl. rewrite H. set_solve. }
  split.
  { intros path h H. apply (handleIds_dir _ (aw_rootWatcher (w_activityWatcher w))) in H.
    unfold activityWatcherHandles. world_simpl. set_solve. }
  split.
  { intros h H. pose proof (handleIds_root (aw_sessionDirWatchers (w_activityWatcher w)) h).
    unfold activityWatcherHandles. world_simpl. rewrite H. set_solve. }
  split.
  { intros t H. world_simpl. rewrite H. unfold timerIds. set_solve. }
  done.
Qed.

(** C7, with the input at which the code departs from it. With a callback
    registered and the file read without error, a notification reads the
    bytes from the start offset (the recorded offset, or 0 when the file
    is now shorter) to the size, once, delivers the deltas of their lines
    and records the size as the offset, whatever the lines hold; two
    appends, each followed by its notification, are read one after the
    other with no byte read twice and none left out. When nothing lies
    between the start offset and the size the notification stops at the
    test [stat.size === startOffset] with the recorded offset untouched:
    for a file emptied while the recorded offset is above 0, the offset is
    not brought down to the size, and once the file has grown again beyond
    it the next notification reads from the old offset, so the bytes
    before it are never read. *)
Theorem C7_tail_reads_from_recorded_offset
        (filePath sessionDirPath : string) (w : World) (callback : nat) :
  aw_callback (w_activityWatcher w) = Some callback ->
  let delta := processEventsDelta filePath sessionDirPath in
  let known := Js.nullish (aw_fileOffsets (w_activityWatcher w) !! filePath) 0 in
  let workspacePath := Path.join sessionDirPath "workspace.yaml" in
  let offsetAfter w' := aw_fileOffsets (w_activityWatcher w') !! filePath in
  (forall stat,
      fs_stat (w_fs w) filePath = Some stat ->
      let size := st_size stat in
      let start := if size <? known then 0 else known in
      (size <> start ->
       forall chunk,
         fs_read (w_fs w) filePath start (size - start) = Some chunk ->
         w_calls (after delta w)
         = w_calls w ++ [CallStat filePath;
                         CallRead filePath start (size - start);
                         CallReadFile workspacePath]
         /\ offsetAfter (after delta w) = Some size
         /\ w_delivered (after delta w)
            = w_delivered w
              ++ map (pair callback)
                     (deltasOfLines (sessionIdOf (w_fs w) sessionDirPath)
                                    (w_clock w) (w_ticks w) (Js.splitLines chunk)))
      /\ (size = start ->
          delta w = (Returned tt, addCalls [CallStat filePath] w)))
  /\ (forall fs1 fs2 stat1 stat2 chunk1 chunk2,
         fs_stat fs1 filePath = Some stat1 ->
         known < st_size stat1 ->
         fs_read fs1 filePath known (st_size stat1 - known) = Some chunk1 ->
         fs_stat fs2 filePath = Some stat2 ->
         st_size stat1 < st_size stat2 ->
         fs_read fs2 filePath (st_size stat1) (st_size stat2 - st_size stat1)
         = Some chunk2 ->
         let w1 := after delta (set_fs fs1 w) in
         let w2 := after delta (set_fs fs2 w1) in
         let deltas1 :=
           deltasOfLines (sessionIdOf fs1 sessionDirPath) (w_clock w) (w_ticks w)
                         (Js.splitLines chunk1) in
         let deltas2 :=
           deltasOfLines (sessionIdOf fs2 sessionDirPath) (w_clock w)
                         (w_ticks w + List.length deltas1) (Js.splitLines chunk2) in
         w_calls w2
         = w_calls w ++ [CallStat filePath;
                         CallRead filePath known (st_size stat1 - known);
                         CallReadFile workspacePath;
                         CallStat filePath;
                         CallRead filePath (st_size stat1)
                                  (st_size stat2 - st_size stat1);
                         CallReadFile workspacePath]
         /\ w_delivered w2 = w_delivered w ++ map (pair callback) (deltas1 ++ deltas2)
         /\ offsetAfter w2 = Some (st_size stat2))
  /\ (forall stat,
         fs_stat (w_fs w) filePath = Some stat ->
         st_size stat = 0 ->
         0 < known ->
         let w1 := after delta w in
         (offsetAfter w1 = Some known
          /\ w_calls w1 = w_calls w ++ [CallStat filePath])
         /\ forall fs2 stat2 chunk,
              fs_stat fs2 filePath = Some stat2 ->
              known < st_size stat2 ->
              fs_read fs2 filePath known (st_size stat2 - known) = Some chunk ->
              let w2 := after delta (set_fs fs2 w1) in
              w_calls w2
              = w_calls w ++ [CallStat filePath;
                              CallStat filePath;
                              CallRead filePath known (st_size stat2 - known);
                              CallReadFile workspacePath]
              /\ offsetAfter w2 = Some (st_size stat2)
              /\ w_delivered w2
                 = w_delivered w
                   ++ map (pair callback)
                          (deltasOfLines (sessionIdOf fs2 sessionDirPath)
                                         (w_clock w) (w_ticks w)
                                         (Js.splitLines chunk))).
Proof.
  intros Hcb delta known workspacePath offsetAfter.
  assert (Hgrown : forall fs' (w' : World) stat' chunk' offset,
             aw_callback (w_activityWatcher w') = Some callback ->
             Js.nullish (aw_fileOffsets (w_activityWatcher w') !! filePath) 0 = offset ->
             fs_stat fs' filePath = Some stat' ->
             offset < st_size stat' ->
             fs_read fs' filePath offset (st_size stat' - offset) = Some chunk' ->
             delta (set_fs fs' w')
             = (Returned tt,
                afterChunk filePath sessionDirPath callback offset (st_size stat')
                           chunk' (set_fs fs' w'))).
  { intros fs' w' stat' chunk' offset Hcb' Hoffset Hstat' Hlt Hread'.
    pose proof (processEventsDelta_run filePath sessionDirPath (set_fs fs' w')
                  callback stat' chunk') as Hrun.
    cbv zeta in Hrun. unfold startOffsetOf in Hrun. cbv zeta in Hrun.
    unfold set_fs in Hrun at 1 2 3 4 5 6. world_simpl. rewrite Hoffset in Hrun.
    destruct (st_size stat' <? offset) eqn:E in Hrun; [lia |].
    apply Hrun; [done | done | lia | done]. }
  split; [| split].
  - intros stat Hstat size start. split.
    + intros Hnew chunk Hread.
      pose proof (processEventsDelta_run filePath sessionDirPath w callback stat chunk
                    Hcb Hstat Hnew Hread) as Hrun.
      unfold after. fold delta in Hrun. rewrite Hrun. cbn [snd].
      unfold afterChunk, deliverAll, offsetAfter. world_unfold.
      split; [reflexivity |]. split; [apply lookup_insert_eq | reflexivity].
    + intros Hsame. apply (processEventsDelta_nothing_new _ _ _ callback stat); done.
  - intros fs1 fs2 stat1 stat2 chunk1 chunk2 Hstat1 Hlt1 Hread1 Hstat2 Hlt2 Hread2.
    intros w1 w2 deltas1 deltas2. subst w1 w2. unfold after.
    rewrite (Hgrown fs1 w stat1 chunk1 known Hcb eq_refl Hstat1 Hlt1 Hread1).
    cbn [snd].
    assert (HknownA :
              Js.nullish
                (aw_fileOffsets
                   (w_activityWatcher
                      (afterChunk filePath sessionDirPath callback known (st_size stat1)
                                  chunk1 (set_fs fs1 w))) !! filePath) 0
              = st_size stat1).
    { unfold afterChunk, deliverAll. world_unfold. rewrite lookup_insert_eq.
      reflexivity. }
    assert (HcbA :
              aw_callback
                (w_activityWatcher
                   (afterChunk filePath sessionDirPath callback known (st_size stat1)
                               chunk1 (set_fs fs1 w)))
              = Some callback).
    { unfold afterChunk, deliverAll. world_unfold. exact Hcb. }
    rewrite (Hgrown fs2 _ stat2 chunk2 (st_size stat1) HcbA HknownA Hstat2 Hlt2 Hread2).
    clear Hgrown HcbA HknownA. cbn [snd]. subst deltas1 deltas2.
    cbv beta iota zeta delta [afterChunk deliverAll offsetAfter]. world_simpl.
    split; [by rewrite <- !app_assoc |].
    split; [by rewrite map_app, <- !app_assoc | apply lookup_insert_eq].
  - intros stat Hstat Hsize Hpos w1. subst w1 delta. unfold after.
    rewrite (processEventsDelta_nothing_new filePath sessionDirPath w callback stat
               Hcb Hstat).
    2:{ unfold startOffsetOf. cbv zeta. fold known. rewrite Hsize.
        destruct (0 <? known) eqn:E; [reflexivity | lia]. }
    cbn [snd]. split.
    { split; [| reflexivity]. unfold offsetAfter, addCalls. world_simpl.
      subst known. destruct (aw_fileOffsets _ !! filePath) as [k|] eqn:E;
        [reflexivity |].
      cbn [Js.nullish] in Hpos. lia. }
    intros fs2 stat2 chunk Hstat2 Hlt2 Hread2. unfold after.
    rewrite (Hgrown fs2 (addCalls [CallStat filePath] w) stat2 chunk known
                    Hcb eq_refl Hstat2 Hlt2 Hread2).
    clear Hgrown. cbn [snd].
    cbv beta iota zeta delta [afterChunk deliverAll offsetAfter]. world_simpl.
    split; [by rewrite <- !app_assoc |]. split; [apply lookup_insert_eq | reflexivity].
Qed.

(** C8 (amended). [getDefaultModel] never throws. While a model is
    cached and younger than 60 seconds it returns that model without a
    call to the file system. Otherwise it scans the most recently
    modified [process-*.log] file for the marker
    ["[INFO] Using default model: "]: when a line names a model after
    it, the model of the last such line is returned and cached with the
    time of the call; when the directory or the file cannot be read,
    there is no such file, or no line names a model, the previously
    cached model, or ["unknown"] when there is none, is returned and
    the cache is left as it was. *)
Theorem C8_default_model (w : World) :
  let now := w_clock w (w_ticks w) in
  let run := getDefaultModel w in
  (exists model, fst run = Returned model)
  /\ (forall model,
        modelIsCached w now model ->
        run = (Returned model, set_ticks (S (w_ticks w)) w))
  /\ ((forall model, ~ modelIsCached w now model) ->
        match scannedModelOf MODEL_MARKER (w_fs w) with
        | Some model =>
            fst run = Returned model
            /\ model <> EmptyString
            /\ w_cachedModel (snd run) = Some model
            /\ w_modelCacheTime (snd run) = now
        | None =>
            fst run = Returned (Js.nullish (w_cachedModel w) "unknown")
            /\ w_cachedModel (snd run) = w_cachedModel w
            /\ w_modelCacheTime (snd run) = w_modelCacheTime w
        end)
  /\ (forall latest,
        latestLogOf (w_fs w) = Some latest ->
        latest ∈ processLogsOf (w_fs w)
        /\ forall f, f ∈ processLogsOf (w_fs w) -> lf_mtimeMs f <= lf_mtimeMs latest)
  /\ MODEL_MARKER = "[INFO] Using default model: ".
Proof.
  intros now run.
  assert (Hcached : forall model,
             modelIsCached w now model ->
             run = (Returned model, set_ticks (S (w_ticks w)) w))
    by (intros model; apply getDefaultModel_cached).
  assert (Hscan : (forall model, ~ modelIsCached w now model) ->
            match scannedModelOf MODEL_MARKER (w_fs w) with
            | Some model =>
                fst run = Returned model
                /\ model <> EmptyString
                /\ w_cachedModel (snd run) = Some model
                /\ w_modelCacheTime (snd run) = now
            | None =>
                fst run = Returned (Js.nullish (w_cachedModel w) "unknown")
                /\ w_cachedModel (snd run) = w_cachedModel w
                /\ w_modelCacheTime (snd run) = w_modelCacheTime w
            end).
  { intros Hstale. destruct (getDefaultModel_scan w Hstale) as [calls Hrun].
    fold run in Hrun. rewrite Hrun.
    destruct (scannedModelOf MODEL_MARKER (w_fs w)) as [model|] eqn:E; [| done].
    split; [done |]. split; [| done].
    unfold scannedModelOf in E. destruct (latestLogOf _); [| done].
    destruct (fs_readFile _ _); [| done].
    apply lastModelAfter_nonempty in E. by intros ->. }
  split.
  { assert ((exists model, modelIsCached w now model)
            \/ forall model, ~ modelIsCached w now model) as [[model Hm] | Hstale].
    { unfold modelIsCached. destruct (w_cachedModel w) as [m|].
      - destruct (decide (m = EmptyString)) as [-> | Hne].
        + right. intros model ([= <-] & Hne & _). done.
        + destruct (decide (now - w_modelCacheTime w < MODEL_CACHE_TTL_MS)).
          * left. by exists m.
          * right. intros model (_ & _ & Hage). done.
      - right. intros model (Hc & _). done. }
    - exists model. by rewrite (Hcached model Hm).
    - specialize (Hscan Hstale).
      destruct (scannedModelOf MODEL_MARKER (w_fs w)); destruct Hscan as [-> _];
        by eexists. }
  split; [exact Hcached |]. split; [exact Hscan |].
  split; [apply latestLogOf_most_recent | reflexivity].
Qed.


(* =================================================================== *)
(** * Further properties of the code *)
(* =================================================================== *)

(** ** [estimateTokens] *)

(** X1. [estimateTokens] ([utils.ts]) is 0 for the empty text and for no
    other; for a text of length [L] it is the least [n] with [4 n >= L], so
    it never exceeds [L], and a text that is not shorter never gets a lower
    estimate. *)
Theorem estimateTokens_bounds (a b : string) :
  (estimateTokens a = 0 <-> a = EmptyString)
  /\ isCeilingOf (estimateTokens a) (Js.length a) 4
  /\ 0 <= estimateTokens a <= Js.length a
  /\ (Js.length a <= Js.length b -> estimateTokens a <= estimateTokens b).
Proof.
  pose proof (estimateTokens_isCeiling a) as Ha.
  pose proof (estimateTokens_isCeiling b) as Hb.
  unfold isCeilingOf in Ha, Hb.
  assert (Hlen : 0 <= Js.length a) by (unfold Js.length; lia).
  split; [| split; [exact Ha | split; [lia | lia]]].
  split.
  - intros Hzero. destruct a as [| c r]; [done |].
    unfold Js.length in Ha. cbn [String.length] in Ha. lia.
  - by intros ->.
Qed.


(** ** The type guards *)

(** X2. The three type guards of [parser.ts] accept no value that is not
    an object, and no event is accepted by two of them. An event that
    [isAssistantMessage] accepts has the type ["assistant.message"], a
    [messageId] that is not empty and a [content], which may be empty; an
    event that [isModelChange] accepts names a model that is not empty. *)
Theorem type_guards_exclusive (event : JsValue) :
  (isAssistantMessage JsNotObject = false
   /\ isSessionStart JsNotObject = false
   /\ isModelChange JsNotObject = false)
  /\ (isAssistantMessage event = true ->
      isSessionStart event = false /\ isModelChange event = false)
  /\ (isSessionStart event = true -> isModelChange event = false)
  /\ (forall e,
        asAssistantMessage event = Some e ->
        am_messageId e <> EmptyString
        /\ exists base data,
             event = JsObject base
             /\ e_type base = Some "assistant.message"
             /\ e_data base = Some data
             /\ d_messageId data = Some (am_messageId e)
             /\ d_content data = Some (am_content e)
             /\ am_timestamp e = e_timestamp base
             /\ am_usage e = d_usage data
             /\ am_model e = d_model data)
  /\ (forall c,
        asModelChange event = Some c ->
        mce_newModel c <> EmptyString
        /\ mce_timestamp c
           = match event with JsObject base => e_timestamp base | JsNotObject => None end).
Proof.
  split; [done |].
  split; [| split; [| split]].
  - unfold isAssistantMessage, isSessionStart, isModelChange.
    destruct event as [base |]; [| done].
    destruct (e_type base) as [t |]; [| done].
    destruct (String.eqb t "assistant.message") eqn:Ht; [| done].
    apply String.eqb_eq in Ht as ->. done.
  - unfold isSessionStart, isModelChange.
    destruct event as [base |]; [| done].
    destruct (e_type base) as [t |]; [| done].
    destruct (String.eqb t "session.start") eqn:Ht; [| done].
    apply String.eqb_eq in Ht as ->. done.
  - intros e. unfold asAssistantMessage, isAssistantMessage.
    destruct event as [base |]; [| done].
    destruct (e_type base) as [t |] eqn:Htype; [| done].
    destruct (String.eqb t "assistant.message") eqn:Ht; [| done].
    apply String.eqb_eq in Ht as ->. cbn [negb].
    destruct (e_data base) as [data |] eqn:Hdata; [| done].
    destruct (d_messageId data) as [messageId |] eqn:Hid; [| done].
    destruct (String.length messageId =? 0)%nat eqn:Hlen; [done |].
    destruct (d_content data) as [content |] eqn:Hcontent; [| done].
    intros [= <-]. cbn [am_messageId am_content am_timestamp am_usage am_model Js.nullish].
    split.
    + intros ->. done.
    + exists base, data. by rewrite Hid, Hcontent.
  - intros c. unfold asModelChange, isModelChange.
    destruct event as [base |]; [| done].
    destruct (e_type base) as [t |]; [| done].
    destruct (negb (String.eqb t "session.model_change")); [done |].
    destruct (e_data base) as [data |]; [| done].
    destruct (d_newModel data) as [newModel |]; [| done].
    destruct (String.length newModel =? 0)%nat eqn:Hlen; [done |].
    intros [= <-]. cbn [mce_newModel mce_timestamp Js.nullish].
    split; [| done]. intros ->. done.
Qed.


(** ** The rows of one session *)

Lemma firstOccurrences_length (l : list string) :
  (List.length (firstOccurrences l) <= List.length l)%nat.
Proof. tidy.
  induction l as [| x l IH]; [done |].
  cbn [firstOccurrences List.length].
  pose proof (length_filter (fun y => y <> x) (firstOccurrences l)). lia.
Qed.

Lemma filter_absent (x : string) (l : list string) :
  x ∉ l -> filter (fun y => y <> x) l = l.
Proof. tidy.
  induction l as [| y l IH]; [done |]. intros Hx.
  apply not_elem_of_cons in Hx as [Hne Hx].
  rewrite filter_cons_True by done. by rewrite IH.
Qed.

Lemma firstOccurrences_NoDup_id (l : list string) :
  NoDup l -> firstOccurrences l = l.
Proof. tidy.
  induction l as [| x l IH]; [done |]. intros Hnd.
  apply NoDup_cons in Hnd as [Hx Hnd]. cbn [firstOccurrences].
  rewrite (IH Hnd). f_equal. by apply filter_absent.
Qed.

(** A row of [parseSessionDirRows] is the row of an assistant message of
    the log. *)
Lemma row_of_message (fs : FileSystem) (dirPath : string) (mtimeMs : Z)
      (defaultModel : string) (row : SessionUsageData) :
  row ∈ mapValues (dedupedOf fs dirPath mtimeMs defaultModel) ->
  exists e,
    e ∈ assistantMessages (eventsOf fs (Path.join dirPath "events.jsonl"))
    /\ row = usageRow (contextOf fs dirPath mtimeMs defaultModel) e.
Proof. tidy.
  unfold mapValues. intros Hrow. apply list_elem_of_fmap in Hrow as ([k row'] & -> & Hin).
  apply dedupedRows_last in Hin as (e & (before & later & Hmsgs & _) & ->).
  exists e. split; [| done]. rewrite Hmsgs. set_solver.
Qed.

(** X3. The rows that [parseSessionDirRows] returns for a session agree on
    everything that belongs to the session: [sessionId] is the [id] of
    [workspace.yaml] or else the name of the directory, [providerId] is
    ["github-copilot"], [sessionUpdatedAt] is the mtime handed in,
    [projectPath] is the [cwd] of the workspace and [sessionName] its
    trimmed [summary], each left out when it is empty. The [timestamp] of
    a row is the time of one of the assistant messages of the log, with
    the mtime standing in for a timestamp that is missing or does not
    parse. *)
Theorem parseSessionDirRows_session_fields (dirPath : string) (mtimeMs : Z)
        (defaultModel : string) (w : World) (rows : list SessionUsageData) :
  result (parseSessionDirRows dirPath mtimeMs defaultModel) w = Returned rows ->
  let workspace := workspaceOf (w_fs w) (Path.join dirPath "workspace.yaml") in
  let events := eventsOf (w_fs w) (Path.join dirPath "events.jsonl") in
  Forall
    (fun row =>
       r_sessionId row
       = match workspace with
         | Some ws => ws_id ws
         | None => Path.basename dirPath
         end
       /\ r_providerId row = "github-copilot"
       /\ r_sessionUpdatedAt row = mtimeMs
       /\ r_projectPath row = Js.orUndefined (option_map ws_cwd workspace)
       /\ r_sessionName row
          = Js.orUndefined
              (match workspace with
               | Some ws => option_map Js.trim (ws_summary ws)
               | None => None
               end)
       /\ r_projectPath row <> Some EmptyString
       /\ r_sessionName row <> Some EmptyString
       /\ exists e,
            e ∈ assistantMessages events
            /\ r_timestamp row
               = match am_timestamp e with
                 | Some text =>
                     if Js.isEmpty text then mtimeMs
                     else Js.nullish (Date_parse text) mtimeMs
                 | None => mtimeMs
                 end)
    rows.
Proof.
  intros Hres workspace events. unfold result in Hres.
  rewrite parseSessionDirRows_run in Hres. cbn [fst] in Hres. injection Hres as <-.
  apply Forall_forall. intros row Hrow.
  apply row_of_message in Hrow as (e & He & ->).
  assert (Hdrop : forall o, Js.orUndefined o <> Some EmptyString).
  { intros [[| c s] |]; done. }
  assert (Hkeep : forall o,
             (if Js.truthyStr (Js.orUndefined o) then Js.orUndefined o else None)
             = Js.orUndefined o).
  { intros [[| c s] |]; done. }
  unfold usageRow, contextOf, sessionContext.
  cbn [r_sessionId r_providerId r_sessionUpdatedAt r_projectPath r_sessionName
       r_timestamp c_sessionId c_sessionName c_projectPath c_mtimeMs].
  fold workspace events. rewrite !Hkeep.
  split; [done |]. split; [done |]. split; [done |]. split; [done |].
  split; [done |]. split; [apply Hdrop |]. split; [apply Hdrop |].
  exists e. split; [exact He |].
  unfold toTimestamp. by destruct (am_timestamp e) as [[| c text] |].
Qed.

(** X4. [parseSessionDirRows] returns the empty list exactly when no line
    of the log is an assistant message; it never returns more rows than
    the log has assistant messages, and it returns as many when no
    [messageId] occurs twice. *)
Theorem parseSessionDirRows_row_count (dirPath : string) (mtimeMs : Z)
        (defaultModel : string) (w : World) (rows : list SessionUsageData) :
  result (parseSessionDirRows dirPath mtimeMs defaultModel) w = Returned rows ->
  let msgs := assistantMessages (eventsOf (w_fs w) (Path.join dirPath "events.jsonl")) in
  (rows = [] <-> msgs = [])
  /\ (List.length rows <= List.length msgs)%nat
  /\ (NoDup (map am_messageId msgs) -> List.length rows = List.length msgs).
Proof.
  intros Hres msgs. unfold result in Hres.
  rewrite parseSessionDirRows_run in Hres. cbn [fst] in Hres. injection Hres as <-.
  assert (Hlen : List.length (mapValues (dedupedOf (w_fs w) dirPath mtimeMs defaultModel))
                 = List.length (firstOccurrences (map am_messageId msgs))).
  { subst msgs. unfold dedupedOf.
    rewrite <- (dedupedRows_keys (contextOf (w_fs w) dirPath mtimeMs defaultModel)).
    unfold mapValues, mapKeys. by rewrite !length_map. }
  split; [| split].
  - split.
    + intros Hnil. rewrite Hnil in Hlen. destruct msgs as [| e msgs']; [done |].
      cbn [map firstOccurrences List.length] in Hlen. done.
    + intros Hnil. rewrite Hnil in Hlen. cbn [map firstOccurrences List.length] in Hlen.
      by apply nil_length_inv.
  - rewrite Hlen. pose proof (firstOccurrences_length (map am_messageId msgs)) as Hle.
    by rewrite length_map in Hle.
  - intros Hnd. rewrite Hlen, (firstOccurrences_NoDup_id _ Hnd). by rewrite length_map.
Qed.

(** X5. Bounds on the token counts of a row of [parseSessionDirRows]. Its
    [input] is never negative, and a cache count it carries is above 0.
    An estimated row carries no cache count, and its counts satisfy
    [0 <= input <= output <= length(content)]; the [input] of a row that
    is not estimated is above 0. *)
Theorem usageRow_token_bounds (ctx : SessionContext)
        (e : CopilotCliAssistantMessageEvent) :
  let row := usageRow ctx e in
  let tokens := r_tokens row in
  0 <= t_input tokens
  /\ (forall n, t_cacheRead tokens = Some n -> 0 < n)
  /\ (forall n, t_cacheWrite tokens = Some n -> 0 < n)
  /\ (r_isEstimated row = true ->
      t_cacheRead tokens = None
      /\ t_cacheWrite tokens = None
      /\ 0 <= t_input tokens <= t_output tokens
      /\ t_output tokens <= Js.length (am_content e))
  /\ (r_isEstimated row = false -> 0 < t_input tokens).
Proof.
  intros row tokens. subst row tokens.
  assert (Hest : 0 <= Js.ceilDiv (estimateTokens (am_content e)) 2
                   <= estimateTokens (am_content e)
                 /\ estimateTokens (am_content e) <= Js.length (am_content e)).
  { pose proof (estimateTokens_isCeiling (am_content e)) as Hout.
    pose proof (ceilDiv_isCeiling (estimateTokens (am_content e)) 2 ltac:(lia)) as Hin.
    unfold isCeilingOf in Hout, Hin.
    assert (0 <= Js.length (am_content e)) by (unfold Js.length; lia). lia. }
  assert (Hpos : forall x n, positiveOrUndefined x = Some n -> 0 < n).
  { intros x n Hn. by apply positiveOrUndefined_spec in Hn as [_ Hn]. }
  unfold usageRow, tokenFigures.
  cbn [r_tokens r_isEstimated t_input t_output t_cacheRead t_cacheWrite].
  destruct (am_usage e) as [usage |].
  - destruct (isPositiveNumber (prompt_tokens usage)) eqn:Hprompt.
    + apply isPositiveNumber_true in Hprompt as (p & Hp & Hppos).
      cbn [inputTokens outputTokens cacheRead cacheWrite isEstimated].
      rewrite !truthy_positiveOrUndefined, Hp. cbn [Js.nullish].
      split; [lia |]. split; [apply Hpos |]. split; [apply Hpos |].
      split; [done | intros _; lia].
    + unfold estimatedFigures.
      cbn [inputTokens outputTokens cacheRead cacheWrite isEstimated Js.truthyNum].
      split; [lia |]. split; [done |]. split; [done |]. split; [| done].
      intros _. split; [done |]. split; [done |]. lia.
  - unfold estimatedFigures.
    cbn [inputTokens outputTokens cacheRead cacheWrite isEstimated Js.truthyNum].
    split; [lia |]. split; [done |]. split; [done |]. split; [| done].
    intros _. split; [done |]. split; [done |]. lia.
Qed.


(** ** [String.prototype.trim] *)

Lemma trimEnd_cons (c : ascii) (r : string) :
  Js.isWhiteSpace c = false -> Js.trimEnd (String c r) = String c (Js.trimEnd r).
Proof. intros Hc. cbn [Js.trimEnd]. by rewrite Hc. Qed.

Lemma trimEnd_idem (s : string) : Js.trimEnd (Js.trimEnd s) = Js.trimEnd s.
Proof.
  induction s as [| c r IH]; [done |]. cbn [Js.trimEnd].
  destruct (Js.isWhiteSpace c && Js.isEmpty (Js.trimEnd r)) eqn:E; [done |].
  cbn [Js.trimEnd]. by rewrite IH, E.
Qed.

Lemma trimEnd_empty_trimStart (s : string) :
  Js.trimEnd s = EmptyString -> Js.trimStart s = EmptyString.
Proof.
  induction s as [| c r IH]; [done |]. cbn [Js.trimEnd Js.trimStart].
  destruct (Js.isWhiteSpace c); [| done].
  destruct (Js.trimEnd r); [by intros _; apply IH | done].
Qed.

Lemma trimStart_trimEnd (s : string) :
  Js.trimStart (Js.trimEnd s) = Js.trimEnd (Js.trimStart s).
Proof.
  induction s as [| c r IH]; [done |]. cbn [Js.trimEnd Js.trimStart].
  destruct (Js.isWhiteSpace c) eqn:Hc.
  - destruct (Js.trimEnd r) as [| d t] eqn:Hr.
    + cbn [andb Js.isEmpty Js.trimStart].
      by rewrite (trimEnd_empty_trimStart r Hr).
    + cbn [andb Js.isEmpty Js.trimStart]. by rewrite Hc.
  - cbn [andb Js.trimStart]. rewrite Hc. cbn [Js.trimEnd]. by rewrite Hc.
Qed.

Lemma trim_trimEnd (s : string) : Js.trim (Js.trimEnd s) = Js.trim s.
Proof. unfold Js.trim. by rewrite trimStart_trimEnd, trimEnd_idem. Qed.

Lemma trimStart_idem (s : string) : Js.trimStart (Js.trimStart s) = Js.trimStart s.
Proof.
  induction s as [| c r IH]; [done |]. cbn [Js.trimStart].
  destruct (Js.isWhiteSpace c) eqn:Hc; [done |]. cbn [Js.trimStart]. by rewrite Hc.
Qed.

Lemma trim_idem (s : string) : Js.trim (Js.trim s) = Js.trim s.
Proof.
  unfold Js.trim. by rewrite trimStart_trimEnd, trimStart_idem, trimEnd_idem.
Qed.


(** ** [readWorkspaceYaml] *)

Lemma keyChars_trimEnd_app (k rest : string) :
  keyChars k = true -> Js.trimEnd (k +:+ rest) = k +:+ Js.trimEnd rest.
Proof.
  induction k as [| c r IH]; [done |]. cbn [keyChars]. intros Hk.
  apply andb_true_iff in Hk as [Hc Hr]. apply andb_true_iff in Hc as [Hc _].
  apply negb_true_iff in Hc. rewrite !append_cons, (trimEnd_cons _ _ Hc).
  by rewrite (IH Hr).
Qed.

Lemma keyChars_trim (k : string) : keyChars k = true -> Js.trim k = k.
Proof.
  intros Hk. unfold Js.trim.
  assert (Hstart : Js.trimStart k = k).
  { destruct k as [| c r]; [done |]. cbn [keyChars] in Hk.
    apply andb_true_iff in Hk as [Hc _]. apply andb_true_iff in Hc as [Hc _].
    apply negb_true_iff in Hc. cbn [Js.trimStart]. by rewrite Hc. }
  rewrite Hstart.
  assert (Hend : k +:+ EmptyString = k).
  { clear. induction k as [| c r IH]; [done |]. rewrite append_cons. by f_equal. }
  transitivity (Js.trimEnd (k +:+ EmptyString)); [by rewrite Hend |].
  rewrite (keyChars_trimEnd_app k EmptyString Hk). exact Hend.
Qed.

Lemma keyChars_indexOf (k rest : string) :
  keyChars k = true ->
  Js.indexOfChar ":"%char (k +:+ String ":"%char rest) = Some (String.length k).
Proof.
  induction k as [| c r IH]; [done |]. cbn [keyChars]. intros Hk.
  apply andb_true_iff in Hk as [Hc Hr]. apply andb_true_iff in Hc as [_ Hc].
  apply negb_true_iff in Hc. rewrite append_cons. cbn [Js.indexOfChar String.length].
  rewrite Ascii.eqb_sym, Hc. by rewrite (IH Hr).
Qed.

Lemma sliceTo_app (k rest : string) : Js.sliceTo (String.length k) (k +:+ rest) = k.
Proof.
  unfold Js.sliceTo. induction k as [| c r IH].
  - rewrite append_nil. by destruct rest.
  - rewrite append_cons. cbn [String.length String.substring]. by rewrite IH.
Qed.

(** X6. A line [key:value] of [workspace.yaml] sets the key to the trimmed
    text after the first colon, colons in the value included, and
    replaces what an earlier line gave the key; a blank line, a line that
    starts with [#] and a line without a colon set nothing. *)
Theorem yamlLine_key_value (result : gmap string string) (k v line : string) :
  (isPlainKey k = true ->
   yamlLine result (k +:+ String ":"%char v) = <[ k := Js.trim v ]> result)
  /\ (Js.isEmpty (Js.trim line) = true
      \/ Js.startsWith "#" (Js.trim line) = true
      \/ Js.indexOfChar ":"%char (Js.trim line) = None ->
      yamlLine result line = result).
Proof.
  split.
  - unfold isPlainKey. intros Hplain.
    apply andb_true_iff in Hplain as [Hplain Hchars].
    apply andb_true_iff in Hplain as [Hfull Hhash].
    apply negb_true_iff in Hfull, Hhash.
    assert (Htrim : Js.trim (k +:+ String ":"%char v)
                    = k +:+ String ":"%char (Js.trimEnd v)).
    { unfold Js.trim.
      assert (Js.trimStart (k +:+ String ":"%char v) = k +:+ String ":"%char v) as ->.
      { destruct k as [| c r]; [done |]. cbn [keyChars] in Hchars.
        apply andb_true_iff in Hchars as [Hc _]. apply andb_true_iff in Hc as [Hc _].
        apply negb_true_iff in Hc. rewrite append_cons. cbn [Js.trimStart].
        by rewrite Hc. }
      rewrite (keyChars_trimEnd_app _ _ Hchars). by rewrite trimEnd_cons. }
    unfold yamlLine. cbv zeta. rewrite Htrim.
    assert (Js.isEmpty (k +:+ String ":"%char (Js.trimEnd v)) = false) as ->.
    { destruct k; [done |]. by rewrite append_cons. }
    assert (Js.startsWith "#" (k +:+ String ":"%char (Js.trimEnd v)) = false) as ->.
    { destruct k as [| c r]; [done |]. rewrite append_cons.
      unfold Js.startsWith in *. cbn [String.prefix] in *.
      destruct (ascii_dec "#"%char c); [| done]. by destruct r. }
    cbn [orb]. rewrite (keyChars_indexOf _ _ Hchars), sliceTo_app.
    rewrite (keyChars_trim _ Hchars), Hfull. cbn [negb].
    assert (Js.sliceFrom (S (String.length k)) (k +:+ String ":"%char (Js.trimEnd v))
            = Js.trimEnd v) as ->.
    { clear. induction k as [| c r IH]; [done |]. rewrite append_cons. exact IH. }
    by rewrite trim_trimEnd.
  - unfold yamlLine. cbv zeta. intros [-> | [Hhash | Hcolon]]; [done | |].
    + rewrite Hhash. by rewrite orb_true_r.
    + rewrite Hcolon. by destruct (_ || _).
Qed.

Lemma yamlLine_trimmed (lines : list string) (result : gmap string string) :
  map_Forall (fun _ value => Js.trim value = value) result ->
  map_Forall (fun _ value => Js.trim value = value) (fold_left yamlLine lines result).
Proof.
  revert result. induction lines as [| line lines IH]; [done |].
  intros result Hresult. cbn [fold_left]. apply IH. unfold yamlLine. cbv zeta.
  destruct (_ || _); [done |].
  destruct (Js.indexOfChar _ _) as [colonIndex |]; [| done].
  destruct (negb _); [| done].
  apply map_Forall_insert_2; [apply trim_idem | done].
Qed.

(** X7. [readWorkspaceYaml] never throws and reads the file once; a file
    that cannot be read, or that gives no [id] or an empty one, yields
    [null]. The [id] of a workspace it returns is not empty, and its
    [id], [cwd] and [summary] carry no white space at either end. *)
Theorem readWorkspaceYaml_id (filePath : string) (w : World) :
  readWorkspaceYaml filePath w
  = (Returned (workspaceOf (w_fs w) filePath), addCalls [CallReadFile filePath] w)
  /\ (fs_readFile (w_fs w) filePath = None -> workspaceOf (w_fs w) filePath = None)
  /\ forall ws,
       workspaceOf (w_fs w) filePath = Some ws ->
       ws_id ws <> EmptyString
       /\ Js.trim (ws_id ws) = ws_id ws
       /\ Js.trim (ws_cwd ws) = ws_cwd ws
       /\ forall summary, ws_summary ws = Some summary -> Js.trim summary = summary.
Proof.
  split; [apply readWorkspaceYaml_run |].
  unfold workspaceOf. split; [by intros -> |].
  intros ws. destruct (fs_readFile (w_fs w) filePath) as [content |]; [| done].
  unfold workspaceOfYaml. cbv zeta.
  pose proof (yamlLine_trimmed (Js.splitLines content) ∅ (map_Forall_empty _)) as Htrimmed.
  set (result := fold_left yamlLine (Js.splitLines content) ∅) in *.
  assert (Hfield : forall key, Js.trim (Js.nullish (result !! key) "")
                               = Js.nullish (result !! key) "").
  { intros key. destruct (result !! key) as [value |] eqn:Hkey; [| done].
    exact (Htrimmed key value Hkey). }
  destruct (result !! "id") as [[| c id] |] eqn:Hid; try done.
  cbn [Js.truthyStr Js.isEmpty negb]. intros [= <-].
  cbn [ws_id ws_cwd ws_summary Js.nullish].
  split; [done |]. split; [exact (Htrimmed "id" _ Hid) |]. split; [apply Hfield |].
  intros summary Hsummary. exact (Htrimmed "summary" summary Hsummary).
Qed.


(** ** [getSessionDirs] and [getLatestProcessLog] *)

Lemma getSessionDirs_loop (entries : list Dirent) (dirs : list string) (w : World) :
  foldM (fun dirs entry =>
           if negb (de_isDirectory entry) then ret dirs
           else
             let eventsPath :=
               Path.join (Path.join COPILOT_CLI_SESSION_STATE_PATH (de_name entry))
                         "events.jsonl" in
             tryCatch
               (Fs.access eventsPath ;;;
                ret (dirs ++ [Path.join COPILOT_CLI_SESSION_STATE_PATH (de_name entry)]))
               (ret dirs))
        entries dirs w
  = (Returned
       (dirs ++ map (fun entry => Path.join COPILOT_CLI_SESSION_STATE_PATH (de_name entry))
                    (List.filter (holdsSession (w_fs w)) entries)),
     addCalls
       (map (fun entry =>
               CallAccess
                 (Path.join (Path.join COPILOT_CLI_SESSION_STATE_PATH (de_name entry))
                            "events.jsonl"))
            (List.filter de_isDirectory entries))
       w).
Proof.
  revert dirs w. induction entries as [| entry entries IH]; intros dirs w.
  - cbn [foldM List.filter map]. unfold ret. by rewrite addCalls_nil, app_nil_r.
  - cbn [foldM List.filter]. unfold holdsSession at 1.
    destruct (de_isDirectory entry) eqn:Hdir; cbn [negb andb]; cbv zeta.
    + unfold bind at 1, tryCatch, Fs.access. run.
      destruct (fs_access (w_fs w) _) eqn:Haccess; run.
      * rewrite IH. cbn [map]. unfold addCalls. world_simpl.
        by rewrite <- !app_assoc.
      * rewrite IH. cbn [map]. unfold addCalls. world_simpl.
        by rewrite <- !app_assoc.
    + unfold bind at 1, ret at 1. by rewrite IH.
Qed.

Lemma getSessionDirs_run (w : World) :
  getSessionDirs w
  = (Returned (sessionDirsOf (w_fs w)), addCalls (sessionDirCalls (w_fs w)) w).
Proof.
  unfold getSessionDirs, sessionDirsOf, sessionDirCalls.
  unfold tryCatch, bind at 1. rewrite readdir_run.
  destruct (fs_readdir (w_fs w) COPILOT_CLI_SESSION_STATE_PATH) as [entries |];
    [| reflexivity].
  rewrite getSessionDirs_loop, addCalls_addCalls. reflexivity.
Qed.

(** X8. [getSessionDirs] never throws. It lists the session-state root
    once and asks for the [events.jsonl] of each directory in it; what it
    returns are the paths of the directories whose [events.jsonl] is
    accessible, in the order of the listing, and the empty list when the
    root cannot be listed. *)
Theorem getSessionDirs_selects (w : World) :
  getSessionDirs w
  = (Returned (sessionDirsOf (w_fs w)), addCalls (sessionDirCalls (w_fs w)) w)
  /\ (fs_readdir (w_fs w) COPILOT_CLI_SESSION_STATE_PATH = None ->
      sessionDirsOf (w_fs w) = [])
  /\ forall dir,
       dir ∈ sessionDirsOf (w_fs w)
       <-> exists entries entry,
             fs_readdir (w_fs w) COPILOT_CLI_SESSION_STATE_PATH = Some entries
             /\ entry ∈ entries
             /\ de_isDirectory entry = true
             /\ fs_access (w_fs w)
                  (Path.join (Path.join COPILOT_CLI_SESSION_STATE_PATH (de_name entry))
                             "events.jsonl") = true
             /\ dir = Path.join COPILOT_CLI_SESSION_STATE_PATH (de_name entry).
Proof.
  split; [| split].
  - apply getSessionDirs_run.
  - unfold sessionDirsOf. by intros ->.
  - intros dir. unfold sessionDirsOf.
    destruct (fs_readdir (w_fs w) COPILOT_CLI_SESSION_STATE_PATH) as [entries |].
    + rewrite list_elem_of_fmap. split.
      * intros (entry & -> & Hentry). apply list_elem_of_In, filter_In in Hentry.
        destruct Hentry as [Hentry Hholds]. unfold holdsSession in Hholds.
        apply andb_true_iff in Hholds as [Hdir Haccess].
        exists entries, entry. by rewrite list_elem_of_In.
      * intros (entries' & entry & [= <-] & Hentry & Hdir & Haccess & ->).
        exists entry. split; [done |]. apply list_elem_of_In, filter_In.
        split; [by apply list_elem_of_In |]. unfold holdsSession.
        by rewrite Hdir, Haccess.
    + split; [intros H; by apply elem_of_nil in H |].
      by intros (entries & entry & Hnone & _).
Qed.

(** X9. [getLatestProcessLog] never throws. It returns [null] when the
    logs directory cannot be listed or holds no [process-*.log] file that
    can be examined, and otherwise the path of the file that
    [getDefaultModel] scans: a process log whose mtime no other process
    log exceeds. *)
Theorem getLatestProcessLog_latest (w : World) :
  (exists calls,
      getLatestProcessLog w
      = (Returned (option_map (fun f => Path.join COPILOT_CLI_LOGS_PATH (lf_name f))
                              (latestLogOf (w_fs w))),
         addCalls (CallReaddir COPILOT_CLI_LOGS_PATH :: calls) w))
  /\ (latestLogOf (w_fs w) = None <-> processLogsOf (w_fs w) = [])
  /\ (fs_readdir (w_fs w) COPILOT_CLI_LOGS_PATH = None -> latestLogOf (w_fs w) = None)
  /\ forall latest,
       latestLogOf (w_fs w) = Some latest ->
       latest ∈ processLogsOf (w_fs w)
       /\ (forall f, f ∈ processLogsOf (w_fs w) -> lf_mtimeMs f <= lf_mtimeMs latest)
       /\ scannedModelOf MODEL_MARKER (w_fs w)
          = match fs_readFile (w_fs w) (Path.join COPILOT_CLI_LOGS_PATH (lf_name latest)) with
            | Some content => lastModelAfter MODEL_MARKER content
            | None => None
            end.
Proof.
  assert (Hempty : latestLogOf (w_fs w) = None <-> processLogsOf (w_fs w) = []).
  { unfold latestLogOf. split.
    - intros Hhead. destruct (processLogsOf (w_fs w)) as [| f fs'] eqn:Hlogs; [done |].
      assert (Hperm : Permutation
                        (sortBy (fun a b => lf_mtimeMs b - lf_mtimeMs a) (f :: fs'))
                        (f :: fs')).
      { apply (sortBy_Permutation (fun f => - lf_mtimeMs f)).
        intros a b. apply eq_true_iff_eq. rewrite !Z.leb_le. lia. }
      destruct (sortBy _ (f :: fs')); [| done].
      by apply Permutation_nil_cons in Hperm.
    - by intros ->. }
  split; [| split; [exact Hempty | split]].
  - unfold getLatestProcessLog, latestLogOf, processLogsOf in *.
    unfold tryCatch, bind at 1. rewrite readdir_run.
    destruct (fs_readdir (w_fs w) COPILOT_CLI_LOGS_PATH) as [entries |];
      [| by exists []].
    unfold bind at 1.
    destruct (foldM_pushLogFile_run entries []
                (addCalls [CallReaddir COPILOT_CLI_LOGS_PATH] w)) as [calls ->].
    rewrite app_nil_l, addCalls_addCalls.
    change (w_fs (addCalls [CallReaddir COPILOT_CLI_LOGS_PATH] w)) with (w_fs w).
    exists calls. cbn [app].
    destruct (omap (logFileOf (w_fs w)) entries) as [| f fs'] eqn:Hlogs; [done |].
    cbn [List.length Nat.eqb].
    destruct (sortBy _ (f :: fs')) as [| latest rest] eqn:Hsorted; [| done].
    exfalso. destruct Hempty as [Hempty _]. specialize (Hempty eq_refl). done.
  - unfold latestLogOf, processLogsOf. by intros ->.
  - intros latest Hlatest.
    destruct (latestLogOf_most_recent (w_fs w) latest Hlatest) as [Hin Hmax].
    split; [exact Hin |]. split; [exact Hmax |].
    unfold scannedModelOf. by rewrite Hlatest.
Qed.


(** ** Starting and stopping the session watcher *)

Lemma forEach_watchSessionDir_run (dirs : list string) (w : World) :
  forEach dirs watchSessionDir w = (Returned tt, watchAll dirs w).
Proof.
  revert w. induction dirs as [| dir dirs IH]; intros w; [reflexivity |].
  cbn [forEach]. unfold bind at 1. rewrite watchSessionDir_run. apply IH.
Qed.

Lemma startSessionWatcher_run (w : World) :
  sw_started (w_sessionWatcher w) = false ->
  startSessionWatcher w = (Returned tt, afterStart w).
Proof.
  intros Hstopped. unfold startSessionWatcher, afterStart. cbv zeta.
  unfold bind at 1, gets at 1. rewrite Hstopped. cbv iota.
  unfold bind at 1, modifySessionWatcher at 1, modify at 1.
  set (marked := set_sessionWatcher (sw_set_started true (w_sessionWatcher w)) w).
  assert (Hroot :
            tryCatch
              (watcher <- Fs.watch COPILOT_CLI_SESSION_STATE_PATH DirtyRootListener ;;
               modifySessionWatcher (sw_set_rootWatcher (Some watcher)))
              (ret tt) marked
            = (Returned tt, afterWatchRoot marked)).
  { unfold afterWatchRoot. clearbody marked. open_world marked. subst.
    unfold Fs.watch. run.
    destruct (fs_watchable fs COPILOT_CLI_SESSION_STATE_PATH); run; world_unfold;
      reflexivity. }
  unfold bind at 1. rewrite Hroot.
  assert (Htimer : forall w1,
             (timer <- setInterval ;;
              modifySessionWatcher (sw_set_reconciliationTimer (Some timer))) w1
             = (Returned tt, afterSetTimer w1)).
  { intros w1. unfold afterSetTimer, setInterval. open_world w1. subst. run.
    world_unfold. reflexivity. }
  change (fs_watchable (w_fs marked)) with (fs_watchable (w_fs w)).
  match goal with
  | |- bind ?m1 (fun timer => bind (modifySessionWatcher _) ?k) ?w1 = _ =>
      change (bind (bind m1 (fun timer =>
                      modifySessionWatcher (sw_set_reconciliationTimer (Some timer))))
                   k w1 = (Returned tt,
                           watchAll (sessionDirsOf (w_fs w))
                             (addCalls (sessionDirCalls (w_fs w))
                                (afterSetTimer (afterWatchRoot marked)))))
  end.
  unfold bind at 1. rewrite Htimer.
  unfold bind at 1.
  rewrite getSessionDirs_run.
  assert (Hfs : w_fs (afterSetTimer (afterWatchRoot marked)) = w_fs w).
  { unfold afterSetTimer, afterWatchRoot. subst marked.
    destruct (fs_watchable _ _); reflexivity. }
  rewrite Hfs. apply forEach_watchSessionDir_run.
Qed.


Lemma handleIds_insert (watchers : gmap string FSWatcher) (root : option FSWatcher)
      (path : string) (h : FSWatcher) :
  watchers !! path = None ->
  handleIds (<[ path := h ]> watchers) root = {[ fw_id h ]} ∪ handleIds watchers root.
Proof. tidy.
  intros Hnew. unfold handleIds.
  rewrite (list_to_set_perm_L _ _
             (fmap_Permutation fw_id _ _
                (fmap_Permutation snd _ _ (map_to_list_insert watchers path h Hnew)))).
  cbn [fmap list_fmap snd list_to_set]. set_solver.
Qed.

Lemma holdsItsHandles_addCalls (open timers : gset nat) (bound : nat)
      (calls : list FsCall) (w : World) :
  holdsItsHandles open timers bound w ->
  holdsItsHandles open timers bound (addCalls calls w).
Proof. done. Qed.

Lemma holdsItsHandles_watchDir (open timers : gset nat) (bound : nat)
      (sessionDirPath : string) (w : World) :
  holdsItsHandles open timers bound w ->
  holdsItsHandles open timers bound (afterWatchDir sessionDirPath w).
Proof.
  intros (Hopen & Htimers & Hbound & Hyoung). unfold afterWatchDir.
  destruct (sw_sessionDirWatchers (w_sessionWatcher w) !! sessionDirPath) eqn:Hdir;
    [done |].
  destruct (fs_watchable (w_fs w) sessionDirPath); [| done].
  unfold holdsItsHandles, sessionWatcherHandles in *. world_unfold.
  rewrite (handleIds_insert _ _ _ _ Hdir). cbn [fw_id].
  split; [rewrite Hopen; clear; set_solve |]. split; [done |]. split; [lia |].
  intros n Hn. rewrite <- union_assoc_L in Hn. apply elem_of_union in Hn as [Hn | Hn].
  - apply elem_of_singleton in Hn as ->. lia.
  - specialize (Hyoung n Hn). lia.
Qed.

Lemma holdsItsHandles_watchAll (open timers : gset nat) (bound : nat)
      (dirs : list string) (w : World) :
  holdsItsHandles open timers bound w ->
  holdsItsHandles open timers bound (watchAll dirs w).
Proof.
  revert w. induction dirs as [| dir dirs IH]; intros w Hw; [done |].
  unfold watchAll. cbn [fold_left]. apply IH. by apply holdsItsHandles_watchDir.
Qed.

Lemma holdsItsHandles_watchRoot (open timers : gset nat) (bound : nat) (w : World) :
  sw_rootWatcher (w_sessionWatcher w) = None ->
  holdsItsHandles open timers bound w ->
  holdsItsHandles open timers bound (afterWatchRoot w).
Proof.
  intros Hroot (Hopen & Htimers & Hbound & Hyoung). unfold afterWatchRoot.
  destruct (fs_watchable (w_fs w) COPILOT_CLI_SESSION_STATE_PATH); [| done].
  unfold holdsItsHandles, sessionWatcherHandles, handleIds in *. world_unfold.
  rewrite Hroot in *. cbn [fw_id].
  split; [rewrite Hopen; clear; set_solve |]. split; [done |].
  split; [apply Nat.le_le_succ_r, Hbound |].
  intros n Hn. rewrite <- union_assoc_L, (union_comm_L {[ w_nextHandle w ]}),
    union_assoc_L in Hn.
  apply elem_of_union in Hn as [Hn | Hn].
  - specialize (Hyoung n ltac:(clear -Hn; set_solve)).
    split; [apply Hyoung | apply Nat.lt_lt_succ_r, Hyoung].
  - apply elem_of_singleton in Hn as ->. split; [exact Hbound | apply Nat.lt_succ_diag_r].
Qed.

Lemma holdsItsHandles_setTimer (open timers : gset nat) (bound : nat) (w : World) :
  sw_reconciliationTimer (w_sessionWatcher w) = None ->
  holdsItsHandles open timers bound w ->
  holdsItsHandles open timers bound (afterSetTimer w).
Proof.
  intros Htimer (Hopen & Htimers & Hbound & Hyoung). unfold afterSetTimer.
  unfold holdsItsHandles, sessionWatcherHandles, timerIds in *. world_unfold.
  rewrite Htimer in *.
  split; [done |]. split; [rewrite Htimers; clear; set_solve |].
  split; [apply Nat.le_le_succ_r, Hbound |].
  intros n Hn. apply elem_of_union in Hn as [Hn | Hn].
  - specialize (Hyoung n ltac:(clear -Hn; set_solve)).
    split; [apply Hyoung | apply Nat.lt_lt_succ_r, Hyoung].
  - apply elem_of_singleton in Hn as ->. split; [exact Hbound | apply Nat.lt_succ_diag_r].
Qed.

Lemma watchAll_started (dirs : list string) (w : World) :
  sw_started (w_sessionWatcher (watchAll dirs w)) = sw_started (w_sessionWatcher w)
  /\ sw_reconciliationTimer (w_sessionWatcher (watchAll dirs w))
     = sw_reconciliationTimer (w_sessionWatcher w)
  /\ sw_dirtyPaths (w_sessionWatcher (watchAll dirs w))
     = sw_dirtyPaths (w_sessionWatcher w).
Proof.
  revert w. induction dirs as [| dir dirs IH]; intros w; [done |].
  unfold watchAll. cbn [fold_left]. fold (watchAll dirs (afterWatchDir dir w)).
  destruct (IH (afterWatchDir dir w)) as (-> & -> & ->). unfold afterWatchDir.
  destruct (_ !! dir); [done |]. by destruct (fs_watchable _ _).
Qed.

Lemma afterStart_holdsItsHandles (w : World) :
  sw_rootWatcher (w_sessionWatcher w) = None ->
  sw_reconciliationTimer (w_sessionWatcher w) = None ->
  holdsItsHandles (w_openWatchers w ∖ sessionWatcherHandles (w_sessionWatcher w))
                  (w_activeTimers w) (w_nextHandle w) w ->
  holdsItsHandles (w_openWatchers w ∖ sessionWatcherHandles (w_sessionWatcher w))
                  (w_activeTimers w) (w_nextHandle w) (afterStart w).
Proof.
  intros Hroot Htimer Hw. unfold afterStart. cbv zeta.
  apply holdsItsHandles_watchAll, holdsItsHandles_addCalls.
  apply holdsItsHandles_setTimer.
  { unfold afterWatchRoot. by destruct (fs_watchable _ _). }
  apply holdsItsHandles_watchRoot; done.
Qed.


Lemma watchAll_fs (dirs : list string) (w : World) :
  w_fs (watchAll dirs w) = w_fs w.
Proof.
  revert w. induction dirs as [| dir dirs IH]; intros w; [done |].
  unfold watchAll. cbn [fold_left]. fold (watchAll dirs (afterWatchDir dir w)).
  by rewrite IH, afterWatchDir_fs.
Qed.

(** Which directories [watchSessionDir] leaves watched, and with which
    listener. *)
Lemma afterWatchDir_lookup (sessionDirPath other : string) (w : World) :
  let before := sw_sessionDirWatchers (w_sessionWatcher w) in
  let now := sw_sessionDirWatchers (w_sessionWatcher (afterWatchDir sessionDirPath w)) in
  (is_Some (now !! other)
   <-> is_Some (before !! other)
       \/ (other = sessionDirPath /\ fs_watchable (w_fs w) sessionDirPath = true))
  /\ (forall h, before !! other = Some h -> now !! other = Some h)
  /\ (forall h, before !! other = None -> now !! other = Some h ->
                fw_listener h = DirtyDirListener other).
Proof. tidy.
  cbv zeta. unfold afterWatchDir.
  destruct (sw_sessionDirWatchers (w_sessionWatcher w) !! sessionDirPath) eqn:Hdir.
  { split; [| split]; [| done | congruence].
    split; [by left | intros [H | [-> _]]; [done | by rewrite Hdir]]. }
  destruct (fs_watchable (w_fs w) sessionDirPath) eqn:Hwatch.
  - world_unfold. destruct (decide (other = sessionDirPath)) as [-> | Hother].
    + rewrite lookup_insert_eq. split; [| split].
      * split; [by right | by eexists].
      * congruence.
      * by intros h _ [= <-].
    + rewrite lookup_insert_ne by done. split; [| split]; [| done | congruence].
      split; [by left | intros [H | [-> _]]; done].
  - world_unfold. split; [| split]; [| done | congruence].
    split; [by left | intros [H | [_ H]]; done].
Qed.

Lemma watchAll_lookup (dirs : list string) (other : string) (w : World) :
  let before := sw_sessionDirWatchers (w_sessionWatcher w) in
  let now := sw_sessionDirWatchers (w_sessionWatcher (watchAll dirs w)) in
  (is_Some (now !! other)
   <-> is_Some (before !! other)
       \/ (other ∈ dirs /\ fs_watchable (w_fs w) other = true))
  /\ (forall h, before !! other = Some h -> now !! other = Some h)
  /\ (forall h, before !! other = None -> now !! other = Some h ->
                fw_listener h = DirtyDirListener other).
Proof. tidy.
  cbv zeta. revert w. induction dirs as [| dir dirs IH]; intros w.
  { unfold watchAll. cbn [fold_left]. split; [| split]; [| done | congruence].
    split; [by left | intros [H | [H _]]; [done | by apply elem_of_nil in H]]. }
  unfold watchAll. cbn [fold_left]. fold (watchAll dirs (afterWatchDir dir w)).
  destruct (IH (afterWatchDir dir w)) as (Hsome & Hkeep & Hnew).
  destruct (afterWatchDir_lookup dir other w) as (Hsome1 & Hkeep1 & Hnew1).
  rewrite afterWatchDir_fs in Hsome. split; [| split].
  - rewrite Hsome, Hsome1, elem_of_cons. clear. naive_solver.
  - intros h Hh. by apply Hkeep, Hkeep1.
  - intros h Hnone Hh.
    destruct (sw_sessionDirWatchers (w_sessionWatcher (afterWatchDir dir w)) !! other)
      as [h1 |] eqn:Hmid.
    + rewrite (Hkeep h1 eq_refl) in Hh. injection Hh as <-. by apply Hnew1.
    + by apply Hnew.
Qed.


(** What [startSessionWatcher] leaves of a watcher that was not
    started, before the session directories are watched. *)
Lemma afterStart_timed (w : World) :
  let timed :=
    addCalls (sessionDirCalls (w_fs w))
      (afterSetTimer
         (afterWatchRoot
            (set_sessionWatcher (sw_set_started true (w_sessionWatcher w)) w))) in
  afterStart w = watchAll (sessionDirsOf (w_fs w)) timed
  /\ w_fs timed = w_fs w
  /\ sw_started (w_sessionWatcher timed) = true
  /\ sw_reconciliationTimer (w_sessionWatcher timed) <> None
  /\ sw_sessionDirWatchers (w_sessionWatcher timed)
     = sw_sessionDirWatchers (w_sessionWatcher w)
  /\ sw_dirtyPaths (w_sessionWatcher timed) = sw_dirtyPaths (w_sessionWatcher w).
Proof.
  cbv zeta. split; [reflexivity |]. unfold afterSetTimer, afterWatchRoot.
  open_world w. destruct (fs_watchable _ _); world_unfold; done.
Qed.

(** X10. [startSessionWatcher] never throws and leaves the watcher
    started, so that a second call does nothing. From a watcher that was
    not started it sets the reconciliation timer, keeps the watches there
    were, and watches each session directory of the root that can be
    watched and no other, each new watch marking the [events.jsonl] of
    its own directory; the marks for changed files are kept. *)
Theorem startSessionWatcher_watches_sessions (w : World) :
  let w' := after startSessionWatcher w in
  result startSessionWatcher w = Returned tt
  /\ sw_started (w_sessionWatcher w') = true
  /\ startSessionWatcher w' = (Returned tt, w')
  /\ (sw_started (w_sessionWatcher w) = false ->
      sw_reconciliationTimer (w_sessionWatcher w') <> None
      /\ sw_dirtyPaths (w_sessionWatcher w') = sw_dirtyPaths (w_sessionWatcher w)
      /\ forall dir,
           let before := sw_sessionDirWatchers (w_sessionWatcher w) in
           let now := sw_sessionDirWatchers (w_sessionWatcher w') in
           (is_Some (now !! dir)
            <-> is_Some (before !! dir)
                \/ (dir ∈ sessionDirsOf (w_fs w)
                    /\ fs_watchable (w_fs w) dir = true))
           /\ (forall h, before !! dir = Some h -> now !! dir = Some h)
           /\ (forall h, before !! dir = None -> now !! dir = Some h ->
                         fw_listener h = DirtyDirListener dir)).
Proof.
  cbv zeta. unfold result, after.
  destruct (sw_started (w_sessionWatcher w)) eqn:Hstarted.
  { rewrite (startSessionWatcher_started w Hstarted). cbn [fst snd].
    rewrite (startSessionWatcher_started w Hstarted). done. }
  rewrite (startSessionWatcher_run w Hstarted). cbn [fst snd].
  destruct (afterStart_timed w) as (-> & Hfs & Hon & Htimer & Hdirs & Hdirty).
  set (timed := addCalls _ _) in *.
  destruct (watchAll_started (sessionDirsOf (w_fs w)) timed) as (Hs & Ht & Hd).
  assert (Hstarted' :
            sw_started (w_sessionWatcher (watchAll (sessionDirsOf (w_fs w)) timed))
            = true) by (by rewrite Hs).
  split; [reflexivity |]. split; [exact Hstarted' |].
  split; [exact (startSessionWatcher_started _ Hstarted') |].
  intros _. split; [by rewrite Ht |]. split; [by rewrite Hd |].
  intros dir.
  pose proof (watchAll_lookup (sessionDirsOf (w_fs w)) dir timed) as Hlook.
  cbv zeta in Hlook. rewrite Hfs, Hdirs in Hlook. exact Hlook.
Qed.

Lemma stopped_holds_nothing : sessionWatcherHandles stoppedSessionWatcher = ∅.
Proof. tidy.
  unfold sessionWatcherHandles, handleIds, stoppedSessionWatcher. world_simpl.
  rewrite map_to_list_empty. cbn [map list_to_set]. set_solver.
Qed.

Lemma watchAll_root (dirs : list string) (w : World) :
  sw_rootWatcher (w_sessionWatcher (watchAll dirs w)) = sw_rootWatcher (w_sessionWatcher w)
  /\ w_activeTimers (watchAll dirs w) = w_activeTimers w.
Proof.
  revert w. induction dirs as [| dir dirs IH]; intros w; [done |].
  unfold watchAll. cbn [fold_left]. fold (watchAll dirs (afterWatchDir dir w)).
  destruct (IH (afterWatchDir dir w)) as (-> & ->). unfold afterWatchDir.
  destruct (_ !! dir); [done |]. by destruct (fs_watchable _ _).
Qed.

(** The two parts of [startSessionWatcher], and the call as the one
    followed by the other. *)
Lemma startSessionWatcherNow_run (w : World) :
  sw_started (w_sessionWatcher w) = false ->
  startSessionWatcherNow w = (Returned true, afterStartNow w).
Proof.
  intros Hstopped. unfold startSessionWatcherNow, afterStartNow, afterSetTimer,
    afterWatchRoot, Fs.watch, setInterval.
  open_world w. subst. run.
  destruct (fs_watchable fs COPILOT_CLI_SESSION_STATE_PATH); run; world_unfold;
    reflexivity.
Qed.

Lemma watchListedSessionDirs_run (w : World) :
  watchListedSessionDirs w = (Returned tt, afterListing w).
Proof.
  unfold watchListedSessionDirs, afterListing. unfold bind at 1.
  rewrite getSessionDirs_run. apply forEach_watchSessionDir_run.
Qed.

Lemma afterStartNow_fs (w : World) : w_fs (afterStartNow w) = w_fs w.
Proof.
  unfold afterStartNow, afterSetTimer, afterWatchRoot.
  by destruct (fs_watchable _ _).
Qed.

Lemma startSessionWatcher_split (w : World) :
  startSessionWatcher w
  = (detached <- startSessionWatcherNow ;;
     if detached : bool then watchListedSessionDirs else ret tt) w.
Proof.
  destruct (sw_started (w_sessionWatcher w)) eqn:Hstarted.
  - rewrite (startSessionWatcher_started w Hstarted).
    unfold bind at 1, startSessionWatcherNow. unfold bind at 1, gets at 1.
    by rewrite Hstarted.
  - rewrite (startSessionWatcher_run w Hstarted).
    unfold bind at 1. rewrite (startSessionWatcherNow_run w Hstarted).
    rewrite watchListedSessionDirs_run. unfold afterListing.
    by rewrite afterStartNow_fs.
Qed.

(** A stopped watcher holds no handle. *)
Lemma stopped_holdsItsHandles (x : World) :
  w_sessionWatcher x = stoppedSessionWatcher ->
  holdsItsHandles (w_openWatchers x) (w_activeTimers x) (w_nextHandle x) x.
Proof.
  intros Hstopped. unfold holdsItsHandles. rewrite Hstopped, stopped_holds_nothing.
  change (sw_reconciliationTimer stoppedSessionWatcher) with (@None nat).
  unfold timerIds.
  split; [clear; set_solve |]. split; [clear; set_solve |]. split; [done |].
  intros n Hn. clear -Hn. exfalso. set_solve.
Qed.

(** [stopSessionWatcher] gives back what the watcher holds, and nothing
    of what others hold. *)
Lemma stopSessionWatcher_restores (open timers : gset nat) (bound : nat) (x : World) :
  holdsItsHandles open timers bound x ->
  (forall n, n ∈ open ∪ timers -> (n < bound)%nat) ->
  let x' := after stopSessionWatcher x in
  w_sessionWatcher x' = stoppedSessionWatcher
  /\ w_openWatchers x' = open
  /\ w_activeTimers x' = timers
  /\ w_nextHandle x' = w_nextHandle x
  /\ w_fs x' = w_fs x.
Proof.
  intros (Hopen & Htimers & _ & Hyoung) Hold. cbv zeta. unfold after.
  rewrite stopSessionWatcher_run. cbn [snd]. world_unfold.
  split; [reflexivity |]. split; [| split; [| done]].
  - rewrite Hopen. apply set_eq. intros n.
    rewrite elem_of_difference, !elem_of_union.
    split.
    + intros [[Hn | Hn] Hnot]; [exact Hn | done].
    + intros Hn. split; [by left |].
      intros Hin. specialize (Hyoung n (proj2 (elem_of_union _ _ _) (or_introl Hin))).
      specialize (Hold n (proj2 (elem_of_union _ _ _) (or_introl Hn))).
      destruct Hyoung as [Hle _]. exact (Nat.lt_irrefl _ (Nat.lt_le_trans _ _ _ Hold Hle)).
  - rewrite Htimers. apply set_eq. intros n.
    rewrite elem_of_difference, !elem_of_union.
    split.
    + intros [[Hn | Hn] Hnot]; [exact Hn | done].
    + intros Hn. split; [by left |].
      intros Hin. specialize (Hyoung n (proj2 (elem_of_union _ _ _) (or_intror Hin))).
      specialize (Hold n (proj2 (elem_of_union _ _ _) (or_intror Hn))).
      destruct Hyoung as [Hle _]. exact (Nat.lt_irrefl _ (Nat.lt_le_trans _ _ _ Hold Hle)).
Qed.

Lemma afterStartNow_holdsItsHandles (open timers : gset nat) (bound : nat) (w : World) :
  sw_rootWatcher (w_sessionWatcher w) = None ->
  sw_reconciliationTimer (w_sessionWatcher w) = None ->
  holdsItsHandles open timers bound w ->
  holdsItsHandles open timers bound (afterStartNow w).
Proof.
  intros Hroot Htimer Hw. unfold afterStartNow.
  apply holdsItsHandles_setTimer.
  { unfold afterWatchRoot. by destruct (fs_watchable _ _). }
  apply holdsItsHandles_watchRoot; done.
Qed.

Lemma afterListing_holdsItsHandles (open timers : gset nat) (bound : nat) (x : World) :
  holdsItsHandles open timers bound x ->
  holdsItsHandles open timers bound (afterListing x).
Proof.
  intros Hx. unfold afterListing.
  by apply holdsItsHandles_watchAll, holdsItsHandles_addCalls.
Qed.

(** X11. Starting the session watcher and stopping it again, from a
    stopped watcher in a world whose live handles are older than the next
    one. The call [startSessionWatcher] is its synchronous body followed
    by the listing of the session directories that the body leaves
    behind. When [stopSessionWatcher] runs after the listing, the watcher
    is stopped and exactly the watches and timers are open that were open
    before, whichever of the watches failed. When it runs before the
    listing, as in a start and a stop one after the other, the stop
    itself gives everything back, but the listing that runs afterwards
    opens a watch for every session directory that can be watched and
    records it in the watcher that is not started any more: these
    watches stay open, with no root watch and no timer, until
    [stopSessionWatcher] is called again, which closes them. *)
Theorem start_stop_round_trip (w : World) :
  w_sessionWatcher w = stoppedSessionWatcher ->
  (forall n, n ∈ w_openWatchers w ∪ w_activeTimers w -> (n < w_nextHandle w)%nat) ->
  let early := after stopSessionWatcher (after startSessionWatcherNow w) in
  let late := after watchListedSessionDirs early in
  let watchers x := sw_sessionDirWatchers (w_sessionWatcher x) in
  (startSessionWatcher w = (startSessionWatcherNow ;;; watchListedSessionDirs) w
   /\ restoredTo w (after stopSessionWatcher (after startSessionWatcher w)))
  /\ restoredTo w early
  /\ (sw_started (w_sessionWatcher late) = false
      /\ sw_rootWatcher (w_sessionWatcher late) = None
      /\ sw_reconciliationTimer (w_sessionWatcher late) = None
      /\ w_activeTimers late = w_activeTimers w)
  /\ (forall dir,
        is_Some (watchers late !! dir)
        <-> dir ∈ sessionDirsOf (w_fs w) /\ fs_watchable (w_fs w) dir = true)
  /\ (forall dir h,
        watchers late !! dir = Some h ->
        fw_id h ∈ w_openWatchers late /\ fw_id h ∉ w_openWatchers w)
  /\ w_openWatchers late
     = w_openWatchers w ∪ sessionWatcherHandles (w_sessionWatcher late)
  /\ restoredTo w (after stopSessionWatcher late).
Proof.
  intros Hstopped Hold. cbv zeta.
  assert (Hoff : sw_started (w_sessionWatcher w) = false) by (by rewrite Hstopped).
  assert (Hroot : sw_rootWatcher (w_sessionWatcher w) = None) by (by rewrite Hstopped).
  assert (Htimer : sw_reconciliationTimer (w_sessionWatcher w) = None)
    by (by rewrite Hstopped).
  pose proof (stopped_holdsItsHandles w Hstopped) as Hw.
  pose proof (afterStartNow_holdsItsHandles _ _ _ w Hroot Htimer Hw) as Hnow.
  pose proof (afterStartNow_fs w) as Hfs.
  (* the listing, then the stop *)
  assert (Hsplit : startSessionWatcher w
                   = (startSessionWatcherNow ;;; watchListedSessionDirs) w).
  { rewrite startSessionWatcher_split. unfold bind.
    by rewrite (startSessionWatcherNow_run w Hoff). }
  assert (Hwhole : after startSessionWatcher w = afterListing (afterStartNow w)).
  { unfold after. rewrite Hsplit. unfold bind.
    rewrite (startSessionWatcherNow_run w Hoff). by rewrite watchListedSessionDirs_run. }
  split.
  { split; [exact Hsplit |]. rewrite Hwhole.
    destruct (stopSessionWatcher_restores _ _ _ _
                (afterListing_holdsItsHandles _ _ _ _ Hnow) Hold)
      as (H1 & H2 & H3 & _).
    by split; [| split]. }
  (* the stop, then the listing *)
  assert (Hafter : after startSessionWatcherNow w = afterStartNow w)
    by (unfold after; by rewrite (startSessionWatcherNow_run w Hoff)).
  rewrite Hafter. clear Hafter Hwhole Hsplit.
  destruct (stopSessionWatcher_restores _ _ _ _ Hnow Hold)
    as (Hearly & Hopen & Htimers & Hnext & Hfs').
  destruct Hnow as (_ & _ & Hbound & _).
  rewrite Hfs in Hfs'.
  set (early := after stopSessionWatcher (afterStartNow w)) in *.
  rewrite <- Hnext in Hbound. clear Hnext. clearbody early.
  split; [by split; [| split] |].
  unfold after. rewrite watchListedSessionDirs_run. cbn [snd].
  pose proof (stopped_holdsItsHandles early Hearly) as Hheld.
  rewrite Hopen, Htimers in Hheld.
  apply afterListing_holdsItsHandles in Hheld.
  assert (Hold' : forall n, n ∈ w_openWatchers w ∪ w_activeTimers w ->
                            (n < w_nextHandle early)%nat).
  { intros n Hn. exact (Nat.lt_le_trans _ _ _ (Hold n Hn) Hbound). }
  destruct (stopSessionWatcher_restores _ _ _ _ Hheld Hold') as (H1 & H2 & H3 & _).
  destruct Hheld as (Hopen' & Htimers' & _ & Hyoung).
  unfold afterListing in *. rewrite Hfs' in *.
  set (asked := addCalls (sessionDirCalls (w_fs w)) early) in *.
  destruct (watchAll_started (sessionDirsOf (w_fs w)) asked) as (Hs & Ht & _).
  destruct (watchAll_root (sessionDirsOf (w_fs w)) asked) as (Hr & Hat).
  assert (Hasked : w_sessionWatcher asked = stoppedSessionWatcher) by exact Hearly.
  assert (Hfs2 : w_fs asked = w_fs w) by exact Hfs'.
  assert (Htimers2 : w_activeTimers asked = w_activeTimers w) by exact Htimers.
  clearbody asked.
  set (late := watchAll (sessionDirsOf (w_fs w)) asked) in *.
  split.
  { rewrite Hs, Hr, Ht, Hat, Hasked. by split; [| split; [| split]]. }
  split.
  { intros dir.
    destruct (watchAll_lookup (sessionDirsOf (w_fs w)) dir asked) as (Hiff & _).
    fold late in Hiff. rewrite Hiff, Hasked, Hfs2.
    change (sw_sessionDirWatchers stoppedSessionWatcher) with (∅ : gmap string FSWatcher).
    rewrite lookup_empty. split; [| by right].
    intros [Hnone | Hdir]; [by apply is_Some_None in Hnone | exact Hdir]. }
  split.
  { intros dir h Hh.
    pose proof (handleIds_dir _ (sw_rootWatcher (w_sessionWatcher late)) _ _ Hh) as Hid.
    fold (sessionWatcherHandles (w_sessionWatcher late)) in Hid.
    split; [rewrite Hopen'; apply elem_of_union; by right |].
    intros Hin.
    specialize (Hyoung _ (proj2 (elem_of_union _ _ _) (or_introl Hid))).
    specialize (Hold' _ (proj2 (elem_of_union _ _ _) (or_introl Hin))).
    destruct Hyoung as [Hle _].
    exact (Nat.lt_irrefl _ (Nat.lt_le_trans _ _ _ Hold' Hle)). }
  split; [exact Hopen' |].
  by split; [| split].
Qed.


(** ** The tail of [events.jsonl] when something fails *)

Lemma primeSessionOffset_run (sessionDirPath : string) (w : World) :
  primeSessionOffset sessionDirPath w = (Returned tt, afterPrime sessionDirPath w).
Proof.
  unfold primeSessionOffset, afterPrime. cbv zeta. open_world w.
  unfold Fs.stat. run. destruct (fs_stat fs _); run; world_unfold; reflexivity.
Qed.



(** X13. [primeSessionOffset] never throws. When the [events.jsonl] of
    the directory cannot be examined it records nothing. When it can, the
    size is recorded as the offset, so that the lines already in the file
    are never delivered: a notification for the unchanged file delivers
    nothing and keeps the offset, and once the file has grown a
    notification reads the bytes from the primed size on and delivers the
    deltas of their lines only. *)
Theorem primeSessionOffset_skips_history (sessionDirPath : string) (w : World) :
  let eventsPath := Path.join sessionDirPath "events.jsonl" in
  let delta := processEventsDelta eventsPath sessionDirPath in
  let primed := after (primeSessionOffset sessionDirPath) w in
  let offsets w' := aw_fileOffsets (w_activityWatcher w') in
  result (primeSessionOffset sessionDirPath) w = Returned tt
  /\ w_delivered primed = w_delivered w
  /\ (fs_stat (w_fs w) eventsPath = None ->
      primed = addCalls [CallStat eventsPath] w)
  /\ forall stat,
       fs_stat (w_fs w) eventsPath = Some stat ->
       offsets primed !! eventsPath = Some (st_size stat)
       /\ (offsets (after delta primed) !! eventsPath = Some (st_size stat)
           /\ w_delivered (after delta primed) = w_delivered w)
       /\ forall callback fs2 stat2 chunk,
            aw_callback (w_activityWatcher w) = Some callback ->
            fs_stat fs2 eventsPath = Some stat2 ->
            st_size stat < st_size stat2 ->
            fs_read fs2 eventsPath (st_size stat) (st_size stat2 - st_size stat)
            = Some chunk ->
            let w2 := after delta (set_fs fs2 primed) in
            w_calls w2
            = w_calls primed
              ++ [CallStat eventsPath;
                  CallRead eventsPath (st_size stat) (st_size stat2 - st_size stat);
                  CallReadFile (Path.join sessionDirPath "workspace.yaml")]
            /\ offsets w2 !! eventsPath = Some (st_size stat2)
            /\ w_delivered w2
               = w_delivered w
                 ++ map (pair callback)
                        (deltasOfLines (sessionIdOf fs2 sessionDirPath) (w_clock w)
                                       (w_ticks w) (Js.splitLines chunk)).
Proof.
  cbv zeta. unfold result, after. rewrite primeSessionOffset_run. cbn [fst snd].
  unfold afterPrime. cbv zeta.
  set (eventsPath := Path.join sessionDirPath "events.jsonl").
  open_world w.
  split; [reflexivity |]. split.
  { destruct (fs_stat fs eventsPath); world_unfold; reflexivity. }
  split.
  { intros Hstat. by rewrite Hstat. }
  intros stat Hstat. rewrite Hstat. world_unfold.
  split; [by rewrite lookup_insert_eq |]. split.
  - destruct callback as [callback |].
    + rewrite (processEventsDelta_nothing_new _ _ _ callback stat);
        [| reflexivity | exact Hstat |].
      * cbn [fst snd]. world_unfold. by rewrite lookup_insert_eq.
      * unfold startOffsetOf. cbv zeta. world_simpl. rewrite lookup_insert_eq.
        unfold Js.nullish. by rewrite Z.ltb_irrefl.
    + rewrite processEventsDelta_no_callback by reflexivity.
      cbn [fst snd]. world_unfold. by rewrite lookup_insert_eq.
  - intros callback' fs2 stat2 chunk Hcb Hstat2 Hgrown Hread. subst callback.
    match goal with
    | |- context [processEventsDelta _ _ ?grown] =>
        assert (Hstart : startOffsetOf (aw_fileOffsets (w_activityWatcher grown))
                                       eventsPath (st_size stat2) = st_size stat);
        [| rewrite (processEventsDelta_run eventsPath sessionDirPath grown callback'
                      stat2 chunk eq_refl Hstat2);
           [| rewrite Hstart; lia | rewrite Hstart; exact Hread] ]
    end.
    { unfold startOffsetOf. cbv zeta. world_simpl. rewrite lookup_insert_eq.
      unfold Js.nullish.
      destruct (Z.ltb_spec (st_size stat2) (st_size stat)); [lia | reflexivity]. }
    cbn [fst snd]. rewrite Hstart. clear Hstart.
    cbv beta iota zeta delta [afterChunk deliverAll]. world_unfold.
    rewrite lookup_insert_eq. done.
Qed.


(** ** The discovery loop *)

(** X14. One turn of the discovery loop never throws and records the
    [events.jsonl] of its directory as seen. It examines the file, with
    one [stat], exactly when the index has no entry for it or the entry is
    of the session asked for and the file is marked as changed or a full
    sweep is due; otherwise the index is left as it is. After a [stat] the
    entry of the file is gone when the [stat] failed, kept when its
    modification time is that of the file, and otherwise replaced by the
    new time with the name of the directory as session id. Entries of
    other files are never touched, and the directory is selected exactly
    when the entry the turn leaves is of the session asked for and not
    older than [since], with the id and time of that entry. *)
Theorem discoverSessionDir_turn (options : SessionParseOptions)
        (dirtyPaths : gset string) (needsFullStat : bool) (s : Discovery)
        (sessionDirPath : string) (w : World) :
  let eventsPath := Path.join sessionDirPath "events.jsonl" in
  let turn := discoverSessionDir options dirtyPaths needsFullStat s sessionDirPath in
  let watched := after (watchSessionDir sessionDirPath) w in
  let index := w_sessionMetadataIndex w in
  let index' := w_sessionMetadataIndex (after turn w) in
  exists s',
    result turn w = Returned s'
    /\ seenDirPaths s' = {[ eventsPath ]} ∪ seenDirPaths s
    /\ sessionDirs s'
       = sessionDirs s ++ selectedBy options sessionDirPath (index' !! eventsPath)
    /\ (forall other, other <> eventsPath -> index' !! other = index !! other)
    /\ (if turnStats options dirtyPaths needsFullStat index eventsPath
        then w_calls (after turn w) = w_calls watched ++ [CallStat eventsPath]
             /\ statCount s' = statCount s + 1
             /\ index' !! eventsPath
                = match fs_stat (w_fs w) eventsPath with
                  | None => None
                  | Some stat =>
                      match index !! eventsPath with
                      | Some md =>
                          if m_mtimeMs md =? st_mtimeMs stat then Some md
                          else Some (mkMeta (st_mtimeMs stat)
                                            (Path.basename sessionDirPath))
                      | None => Some (mkMeta (st_mtimeMs stat)
                                             (Path.basename sessionDirPath))
                      end
                  end
        else w_calls (after turn w) = w_calls watched
             /\ statCount s' = statCount s
             /\ index' = index).
Proof.
  cbv zeta. unfold result, after, turnStats. rewrite watchSessionDir_run. cbn [snd].
  destruct (discoverSessionDir options dirtyPaths needsFullStat s sessionDirPath w)
    as [outcome w'] eqn:Hturn.
  cbn [fst snd]. revert Hturn. unfold discoverSessionDir.
  unfold bind at 1. rewrite watchSessionDir_run. cbv beta iota.
  destruct (afterWatchDir_index sessionDirPath w) as (Hindex & _).
  pose proof (afterWatchDir_fs sessionDirPath w) as Hfs.
  rewrite <- Hindex, <- Hfs. clear Hindex Hfs.
  generalize (afterWatchDir sessionDirPath w). clear w. intros w.
  set (eventsPath := Path.join sessionDirPath "events.jsonl").
  open_world w. unfold Fs.stat. run.
  unfold selectedBy.
  assert (Hdeleted : forall other, other <> eventsPath ->
                       delete eventsPath index !! other = index !! other)
    by (by intros other Hne; rewrite lookup_delete_ne).
  assert (Hset : forall md other, other <> eventsPath ->
                   <[ eventsPath := md ]> index !! other = index !! other)
    by (by intros md other Hne; rewrite lookup_insert_ne).
  destruct (index !! eventsPath) as [md |] eqn:Hentry.
  - destruct (otherSession (o_sessionId options) (m_sessionId md)) eqn:Hother.
    { run. intros [= <- <-]. eexists. split; [reflexivity |]. world_simpl.
      cbn [seenDirPaths sessionDirs statCount].
      rewrite Hentry, Hother. cbn [negb andb]. rewrite app_nil_r. repeat split; first [done | auto]. }
    cbn [negb andb].
    destruct (bool_decide (eventsPath ∈ dirtyPaths)) eqn:Hdirty;
      destruct needsFullStat; cbn [negb andb orb]; run.
    4: { destruct (sinceAllows (o_since options) (m_mtimeMs md)) eqn:Hsince;
         run; intros [= <- <-]; (eexists; split; [reflexivity |]); world_simpl;
         cbn [seenDirPaths sessionDirs statCount pushSessionDir];
         rewrite Hentry, Hother, Hsince; cbn [negb andb]; rewrite ?app_nil_r; repeat split; first [done | auto]. }
    all: destruct (fs_stat fs eventsPath) as [stat |] eqn:Hstat; run.
    all: try (intros [= <- <-]; eexists; split; [reflexivity |]; world_simpl;
              cbn [seenDirPaths sessionDirs statCount];
              rewrite lookup_delete_eq, app_nil_r; repeat split; first [done | auto]).
    all: destruct (m_mtimeMs md =? st_mtimeMs stat) eqn:Hsame; run.
    all: try rewrite Hother; run.
    all: try (destruct (sinceAllows (o_since options) (m_mtimeMs md)) eqn:Hsince;
              run; intros [= <- <-]; (eexists; split; [reflexivity |]); world_simpl;
              cbn [seenDirPaths sessionDirs statCount pushSessionDir];
              rewrite Hentry, Hother, Hsince; cbn [negb andb]; rewrite ?app_nil_r;
              repeat split; first [done | auto]).
    all: destruct (otherSession (o_sessionId options) (Path.basename sessionDirPath))
           eqn:Hbase; run.
    all: try (destruct (sinceAllows (o_since options) (st_mtimeMs stat)) eqn:Hsince; run).
    all: intros [= <- <-]; eexists; (split; [reflexivity |]); world_simpl;
         cbn [seenDirPaths sessionDirs statCount pushSessionDir];
         rewrite lookup_insert_eq; cbn [m_sessionId m_mtimeMs];
         rewrite Hbase, ?Hsince; cbn [negb andb]; rewrite ?app_nil_r; repeat split; first [done | auto].
  - destruct (fs_stat fs eventsPath) as [stat |] eqn:Hstat; run.
    2: { intros [= <- <-]. eexists; split; [reflexivity |]. world_simpl.
         cbn [seenDirPaths sessionDirs statCount].
         rewrite lookup_delete_eq, app_nil_r. repeat split; first [done | auto]. }
    destruct (otherSession (o_sessionId options) (Path.basename sessionDirPath))
      eqn:Hbase; run.
    2: destruct (sinceAllows (o_since options) (st_mtimeMs stat)) eqn:Hsince; run.
    all: intros [= <- <-]; eexists; (split; [reflexivity |]); world_simpl;
         cbn [seenDirPaths sessionDirs statCount pushSessionDir];
         rewrite lookup_insert_eq; cbn [m_sessionId m_mtimeMs];
         rewrite Hbase, ?Hsince; cbn [negb andb]; rewrite ?app_nil_r; repeat split; first [done | auto].
Qed.


(** ** Queries as a whole *)

Lemma NeverRaises_Date_now : NeverRaises Date_now.
Proof. unfold Date_now. total. Qed.

Lemma NeverRaises_consumeForceFullReconciliation :
  NeverRaises consumeForceFullReconciliation.
Proof. unfold consumeForceFullReconciliation. total. Qed.

Lemma NeverRaises_readJsonlFile (p : string) : NeverRaises (readJsonlFile p).
Proof. unfold readJsonlFile. total. Qed.

Lemma NeverRaises_readWorkspaceYaml (p : string) : NeverRaises (readWorkspaceYaml p).
Proof. unfold readWorkspaceYaml. total. Qed.

Lemma NeverRaises_extractModelFromProcessLog (p : string) :
  NeverRaises (extractModelFromProcessLog p).
Proof. unfold extractModelFromProcessLog. total. Qed.

#[local] Hint Resolve NeverRaises_Date_now NeverRaises_consumeForceFullReconciliation
  NeverRaises_readJsonlFile NeverRaises_readWorkspaceYaml
  NeverRaises_extractModelFromProcessLog NeverRaises_startSessionWatcher : total_db.

Lemma NeverRaises_parseSessionDirRows (dirPath : string) (mtimeMs : Z)
      (defaultModel : string) :
  NeverRaises (parseSessionDirRows dirPath mtimeMs defaultModel).
Proof. unfold parseSessionDirRows. total. Qed.

Lemma NeverRaises_getDefaultModel : NeverRaises getDefaultModel.
Proof. unfold getDefaultModel, scanProcessLogs. total. Qed.

Lemma NeverRaises_discoverSessionDir (options : SessionParseOptions)
      (dirtyPaths : gset string) (needsFullStat : bool) (s : Discovery)
      (sessionDirPath : string) :
  NeverRaises (discoverSessionDir options dirtyPaths needsFullStat s sessionDirPath).
Proof. unfold discoverSessionDir, modifySessionWatcher. total. Qed.

#[local] Hint Resolve NeverRaises_parseSessionDirRows NeverRaises_getDefaultModel
  NeverRaises_discoverSessionDir : total_db.

Lemma NeverRaises_aggregateSessionDir (now : Z) (defaultModel : string)
      (a : Aggregation) (dir : ParsedSessionDir) :
  NeverRaises (aggregateSessionDir now defaultModel a dir).
Proof. unfold aggregateSessionDir. total. Qed.

#[local] Hint Resolve NeverRaises_aggregateSessionDir : total_db.

Lemma NeverRaises_reconcile (options : SessionParseOptions) (now : Z) :
  NeverRaises (reconcile options now).
Proof. unfold reconcile, modifySessionWatcher. total. Qed.

Lemma NeverRaises_storeResult (options : SessionParseOptions) (limit : Z)
      (sessions : list SessionUsageData) :
  NeverRaises (storeResult options limit sessions).
Proof. unfold storeResult. total. Qed.

#[local] Hint Resolve NeverRaises_reconcile NeverRaises_storeResult : total_db.



Ltac reconcile_side :=
  intros;
  first
    [ apply unchanged_refl
    | eapply unchanged_trans; eassumption
    | unfold unchanged, reconcileFrame; world_simpl; reflexivity ].

Lemma reconcileFrame_readdir (p : string) : Keeps (unchanged reconcileFrame) (Fs.readdir p).
Proof. apply frame_readdir; reconcile_side. Qed.

Lemma reconcileFrame_stat (p : string) : Keeps (unchanged reconcileFrame) (Fs.stat p).
Proof. apply frame_stat; reconcile_side. Qed.

Lemma reconcileFrame_access (p : string) : Keeps (unchanged reconcileFrame) (Fs.access p).
Proof. apply frame_access; reconcile_side. Qed.

Lemma reconcileFrame_readFile (p : string) : Keeps (unchanged reconcileFrame) (Fs.readFile p).
Proof. apply frame_readFile; reconcile_side. Qed.

Lemma reconcileFrame_getSessionDirs : Keeps (unchanged reconcileFrame) getSessionDirs.
Proof. apply frame_getSessionDirs; reconcile_side. Qed.

Lemma reconcileFrame_watchSessionDir (p : string) :
  Keeps (unchanged reconcileFrame) (watchSessionDir p).
Proof. apply frame_watchSessionDir; reconcile_side. Qed.

Lemma reconcileFrame_startSessionWatcher : Keeps (unchanged reconcileFrame) startSessionWatcher.
Proof. apply frame_startSessionWatcher; reconcile_side. Qed.

Lemma reconcileFrame_parseSessionDirRows (dirPath : string) (mtimeMs : Z)
      (defaultModel : string) :
  Keeps (unchanged reconcileFrame) (parseSessionDirRows dirPath mtimeMs defaultModel).
Proof. apply frame_parseSessionDirRows; reconcile_side. Qed.

#[local] Hint Resolve reconcileFrame_readdir reconcileFrame_stat reconcileFrame_access
  reconcileFrame_readFile reconcileFrame_getSessionDirs reconcileFrame_watchSessionDir
  reconcileFrame_startSessionWatcher reconcileFrame_parseSessionDirRows : keeps_db.

Lemma reconcileFrame_Date_now : Keeps (unchanged reconcileFrame) Date_now.
Proof. unfold Date_now. keeps. Qed.

#[local] Hint Resolve reconcileFrame_Date_now : keeps_db.

Lemma reconcileFrame_getDefaultModel : Keeps (unchanged reconcileFrame) getDefaultModel.
Proof.
  unfold getDefaultModel, scanProcessLogs, pushLogFile, extractModelFromProcessLog.
  keeps.
Qed.

Lemma reconcileFrame_discoverSessionDir (options : SessionParseOptions)
      (dirtyPaths : gset string) (needsFullStat : bool) (s : Discovery)
      (sessionDirPath : string) :
  Keeps (unchanged reconcileFrame)
        (discoverSessionDir options dirtyPaths needsFullStat s sessionDirPath).
Proof. unfold discoverSessionDir. keeps. Qed.

Lemma reconcileFrame_aggregateSessionDir (now : Z) (defaultModel : string)
      (a : Aggregation) (dir : ParsedSessionDir) :
  Keeps (unchanged reconcileFrame) (aggregateSessionDir now defaultModel a dir).
Proof. unfold aggregateSessionDir. keeps. Qed.

#[local] Hint Resolve reconcileFrame_getDefaultModel reconcileFrame_discoverSessionDir
  reconcileFrame_aggregateSessionDir : keeps_db.

Lemma reconcileFrame_reconcile (options : SessionParseOptions) (now : Z) :
  Keeps (unchanged reconcileFrame) (reconcile options now).
Proof.
  unfold reconcile, consumeForceFullReconciliation, modifySessionWatcher. keeps.
Qed.


(** The slow path: the reconciliation, then the result cache. *)
Lemma slowPath_run (options : SessionParseOptions) (limit now : Z) (w : World) :
  exists rows w2,
    reconcile options now w = (Returned rows, w2)
    /\ reconcileFrame w2 = reconcileFrame w
    /\ slowPath options limit now w
       = (Returned rows,
          if Js.truthyStr (o_sessionId options) then w2
          else set_sessionCache
                 {| lastCheck := w_clock w2 (w_ticks w2);
                    lastResult := rows;
                    lastLimit := Some limit;
                    lastSince := o_since options |}
                 (set_ticks (S (w_ticks w2)) w2)).
Proof.
  destruct (NeverRaises_reconcile options now w) as [rows Hrows].
  pose proof (reconcileFrame_reconcile options now w) as Hframe.
  unfold result, after, unchanged in *.
  destruct (reconcile options now w) as [outcome w2] eqn:Hrun.
  cbn [fst snd] in *. subst outcome. exists rows, w2.
  split; [reflexivity |]. split; [exact Hframe |].
  unfold slowPath, bind at 1. rewrite Hrun. cbv beta iota. unfold storeResult.
  destruct (Js.truthyStr (o_sessionId options)); cbn [negb]; cbv iota.
  - reflexivity.
  - unfold bind at 1. unfold bind at 1. rewrite Date_now_run. reflexivity.
Qed.



(** X16. The result cache round trip. A bulk query that ran the
    reconciliation leaves its rows in the result cache, with its limit,
    its [since] and the time of the store. A bulk query with the same
    limit and [since] that comes before the TTL has run out, the rows
    being not empty, is answered with these very rows as long as the
    session-state root is accessible, whatever else has happened to the
    files in between, and with the empty list when the root is gone. In
    both cases it does not refresh the cache: the TTL counts from the
    reconciliation. *)
Theorem result_cache_round_trip (options : SessionParseOptions) (w w1 : World)
        (rows : list SessionUsageData) :
  let limit := Js.nullish (o_limit options) 100 in
  fs_access (w_fs w) COPILOT_CLI_SESSION_STATE_PATH = true ->
  Js.truthyStr (o_sessionId options) = false ->
  resultCacheApplies options limit (w_clock w (w_ticks w)) (w_sessionCache w) = false ->
  parseSessionsFromDirs options w = (Returned rows, w1) ->
  w_sessionCache w1
  = {| lastCheck := w_clock w (Nat.pred (w_ticks w1));
       lastResult := rows;
       lastLimit := Some limit;
       lastSince := o_since options |}
  /\ forall (options2 : SessionParseOptions) (fs2 : FileSystem),
       Js.truthyStr (o_sessionId options2) = false ->
       Js.nullish (o_limit options2) 100 = limit ->
       o_since options2 = o_since options ->
       rows <> [] ->
       w_clock w (w_ticks w1) - w_clock w (Nat.pred (w_ticks w1)) < CACHE_TTL_MS ->
       let later := set_fs fs2 w1 in
       result (parseSessionsFromDirs options2) later
       = Returned (if fs_access fs2 COPILOT_CLI_SESSION_STATE_PATH then rows else [])
       /\ w_sessionCache (after (parseSessionsFromDirs options2) later)
          = w_sessionCache w1.
Proof.
  cbv zeta. intros Hroot Hbulk Hcold Hrun.
  rewrite (parseSessionsFromDirs_run _ _ Hroot) in Hrun. cbv zeta in Hrun.
  rewrite Hcold in Hrun.
  pose proof (reconcileFrame_startSessionWatcher
                (addCalls [CallAccess COPILOT_CLI_SESSION_STATE_PATH] w)) as Hstart.
  fold (afterStartup w) in Hstart. unfold unchanged in Hstart.
  change (reconcileFrame (addCalls [CallAccess COPILOT_CLI_SESSION_STATE_PATH] w))
    with (reconcileFrame w) in Hstart.
  revert Hrun. set (w0 := set_ticks (S (w_ticks w)) (afterStartup w)).
  assert (Hw0 : reconcileFrame w0 = reconcileFrame w) by exact Hstart.
  clearbody w0. clear Hstart. intros Hrun.
  destruct (slowPath_run options (Js.nullish (o_limit options) 100)
                         (w_clock w (w_ticks w)) w0) as (rows' & w2 & _ & Hw2 & Hslow).
  rewrite Hslow, Hbulk in Hrun. injection Hrun as -> <-. clear Hslow.
  rewrite Hw0 in Hw2. unfold reconcileFrame in Hw2.
  injection Hw2 as _ Hclock _ _. clear Hw0 w0 Hcold.
  set (w1 := set_sessionCache _ _).
  assert (Hcache :
            w_sessionCache w1
            = {| lastCheck := w_clock w (w_ticks w2);
                 lastResult := rows;
                 lastLimit := Some (Js.nullish (o_limit options) 100);
                 lastSince := o_since options |})
    by (subst w1; world_unfold; by rewrite Hclock).
  assert (Hticks : w_ticks w1 = S (w_ticks w2))
    by (subst w1; world_unfold; reflexivity).
  assert (Hclock1 : w_clock w1 = w_clock w)
    by (subst w1; world_unfold; exact Hclock).
  clearbody w1. revert Hcache Hticks. generalize (w_ticks w2) as stored.
  clear w2 Hclock. intros stored Hcache Hticks.
  rewrite Hticks. cbn [Nat.pred]. split; [exact Hcache |].
  intros options2 fs2 Hbulk2 Hlimit2 Hsince2 Hrows Hyoung.
  unfold result, after.
  destruct (fs_access fs2 COPILOT_CLI_SESSION_STATE_PATH) eqn:Hroot2.
  2: { rewrite (parseSessionsFromDirs_no_root options2 (set_fs fs2 w1) Hroot2).
       cbn [fst snd]. split; reflexivity. }
  rewrite (parseSessionsFromDirs_run options2 (set_fs fs2 w1) Hroot2). cbv zeta.
  destruct (startup_run (set_fs fs2 w1)) as [_ Hinputs].
  unfold fastPathInputs in Hinputs. injection Hinputs as _ _ Hcache2.
  change (w_sessionCache (set_fs fs2 w1)) with (w_sessionCache w1) in *.
  change (w_clock (set_fs fs2 w1)) with (w_clock w1).
  change (w_ticks (set_fs fs2 w1)) with (w_ticks w1).
  assert (Hfresh : resultCacheApplies options2 (Js.nullish (o_limit options2) 100)
                     (w_clock w1 (w_ticks w1)) (w_sessionCache w1) = true).
  { apply resultCacheApplies_fresh. unfold resultIsFresh.
    rewrite Hcache, Hclock1, Hticks, Hlimit2, Hsince2. cbn.
    split; [by apply truthyStr_false |]. done. }
  rewrite Hfresh. cbn [fst snd]. rewrite Hcache. cbn [lastResult].
  split; [reflexivity |].
  change (w_sessionCache (afterStartup (set_fs fs2 w1))
          = {| lastCheck := w_clock w stored;
               lastResult := rows;
               lastLimit := Some (Js.nullish (o_limit options) 100);
               lastSince := o_since options |}).
  by rewrite Hcache2.
Qed.


(** ** What the reconciliation leaves behind *)

Lemma sweepMarks_readdir (p : string) : Keeps (unchanged sweepMarks) (Fs.readdir p).
Proof. unfold Fs.readdir, logCall. keeps. Qed.

Lemma sweepMarks_stat (p : string) : Keeps (unchanged sweepMarks) (Fs.stat p).
Proof. unfold Fs.stat, logCall. keeps. Qed.

Lemma sweepMarks_readFile (p : string) : Keeps (unchanged sweepMarks) (Fs.readFile p).
Proof. unfold Fs.readFile, logCall. keeps. Qed.

Lemma sweepMarks_watch (p : string) (l : Listener) :
  Keeps (unchanged sweepMarks) (Fs.watch p l).
Proof. unfold Fs.watch, logCall. keeps. Qed.

Lemma sweepMarks_Date_now : Keeps (unchanged sweepMarks) Date_now.
Proof. unfold Date_now. keeps. Qed.

#[local] Hint Resolve sweepMarks_readdir sweepMarks_stat sweepMarks_readFile
  sweepMarks_watch sweepMarks_Date_now : keeps_db.

Lemma sweepMarks_watchSessionDir (p : string) :
  Keeps (unchanged sweepMarks) (watchSessionDir p).
Proof. unfold watchSessionDir, modifySessionWatcher. keeps. Qed.

Lemma sweepMarks_getDefaultModel : Keeps (unchanged sweepMarks) getDefaultModel.
Proof.
  unfold getDefaultModel, scanProcessLogs, pushLogFile, extractModelFromProcessLog.
  keeps.
Qed.

#[local] Hint Resolve sweepMarks_watchSessionDir sweepMarks_getDefaultModel : keeps_db.

Lemma sweepMarks_discoverSessionDir (options : SessionParseOptions)
      (dirtyPaths : gset string) (needsFullStat : bool) (s : Discovery)
      (sessionDirPath : string) :
  Keeps (unchanged sweepMarks)
        (discoverSessionDir options dirtyPaths needsFullStat s sessionDirPath).
Proof. unfold discoverSessionDir. keeps. Qed.

Lemma indexAndMarks_readFile (p : string) :
  Keeps (unchanged indexAndMarks) (Fs.readFile p).
Proof. unfold Fs.readFile, logCall. keeps. Qed.

#[local] Hint Resolve indexAndMarks_readFile : keeps_db.

Lemma indexAndMarks_aggregateSessionDir (now : Z) (defaultModel : string)
      (a : Aggregation) (dir : ParsedSessionDir) :
  Keeps (unchanged indexAndMarks) (aggregateSessionDir now defaultModel a dir).
Proof.
  unfold aggregateSessionDir, parseSessionDirRows, readJsonlFile, readWorkspaceYaml.
  keeps.
Qed.


Lemma discoverSessionDir_seen (options : SessionParseOptions)
      (dirtyPaths : gset string) (needsFullStat : bool) (s : Discovery)
      (sessionDirPath : string) (w : World) :
  exists s',
    result (discoverSessionDir options dirtyPaths needsFullStat s sessionDirPath) w
    = Returned s'
    /\ seenDirPaths s' = {[ Path.join sessionDirPath "events.jsonl" ]} ∪ seenDirPaths s.
Proof.
  unfold result, discoverSessionDir.
  unfold bind at 1. rewrite watchSessionDir_run. cbv beta iota.
  generalize (afterWatchDir sessionDirPath w). clear w. intros w.
  open_world w. unfold Fs.stat. run.
  repeat match goal with
         | |- context [match ?x with _ => _ end] =>
             lazymatch x with
             | context [match _ with _ => _ end] => fail
             | _ => destruct x; run
             end
         end;
    eexists; (split; [reflexivity |]); reflexivity.
Qed.

Lemma discovery_loop (options : SessionParseOptions) (dirtyPaths : gset string)
      (needsFullStat : bool) (dirs : list string) (s : Discovery) (w : World) :
  exists found w',
    foldM (discoverSessionDir options dirtyPaths needsFullStat) dirs s w
    = (Returned found, w')
    /\ seenDirPaths found = eventsPathsOf dirs ∪ seenDirPaths s
    /\ sweepMarks w' = sweepMarks w.
Proof.
  revert s w. induction dirs as [| dir dirs IH]; intros s w.
  { exists s, w. split; [reflexivity |]. split; [| reflexivity].
    unfold eventsPathsOf. cbn [map list_to_set]. clear. set_solve. }
  destruct (discoverSessionDir_seen options dirtyPaths needsFullStat s dir w)
    as (s1 & Hs1 & Hseen1).
  pose proof (sweepMarks_discoverSessionDir options dirtyPaths needsFullStat s dir w)
    as Hkeep1.
  unfold result, after, unchanged in *.
  cbn [foldM]. unfold bind at 1.
  destruct (discoverSessionDir options dirtyPaths needsFullStat s dir w)
    as [outcome w1].
  cbn [fst snd] in *. subst outcome.
  destruct (IH s1 w1) as (found & w' & -> & Hseen & Hkeep).
  exists found, w'. split; [reflexivity |]. split; [| congruence].
  rewrite Hseen, Hseen1. unfold eventsPathsOf. cbn [map list_to_set].
  clear. set_solve.
Qed.

Lemma consumeForceFullReconciliation_run (w : World) :
  consumeForceFullReconciliation w
  = (Returned (w_forceFullReconciliation w), set_forceFullReconciliation false w).
Proof.
  unfold consumeForceFullReconciliation. open_world w. run.
  destruct force; reflexivity.
Qed.

(** The reconciliation returns, with no mark left, no sweep due, and an
    index whose keys are among the files of the directories found. *)
Lemma reconcile_leaves (options : SessionParseOptions) (now : Z) (w : World) :
  exists rows w',
    reconcile options now w = (Returned rows, w')
    /\ sw_dirtyPaths (w_sessionWatcher w') = ∅
    /\ w_forceFullReconciliation w' = false
    /\ forall path,
         is_Some (w_sessionMetadataIndex w' !! path) ->
         path ∈ eventsPathsOf (sessionDirsOf (w_fs w)).
Proof.
  unfold reconcile. unfold bind at 1, gets at 1.
  unfold bind at 1, modifySessionWatcher at 1, modify at 1.
  unfold bind at 1. rewrite consumeForceFullReconciliation_run.
  unfold bind at 1. rewrite getSessionDirs_run.
  set (wC := addCalls _ _).
  assert (HC : sweepMarks wC = (∅, false, w_fs w))
    by (subst wC; open_world w; world_unfold; reflexivity).
  assert (Hdirs : sessionDirsOf (w_fs (set_forceFullReconciliation false
                     (set_sessionWatcher (sw_set_dirtyPaths ∅ (w_sessionWatcher w)) w)))
                  = sessionDirsOf (w_fs w)) by reflexivity.
  rewrite Hdirs. clear Hdirs. clearbody wC.
  generalize (sw_dirtyPaths (w_sessionWatcher w)) as dirtyPaths.
  generalize (w_forceFullReconciliation
                (set_sessionWatcher (sw_set_dirtyPaths ∅ (w_sessionWatcher w)) w))
    as needsFullStat.
  intros needsFullStat dirtyPaths.
  destruct (NeverRaises_getDefaultModel wC) as [defaultModel Hmodel].
  pose proof (sweepMarks_getDefaultModel wC) as HD.
  unfold result, after, unchanged in Hmodel, HD.
  unfold bind at 1. destruct (getDefaultModel wC) as [outcome wD].
  cbn [fst snd] in *. subst outcome. rewrite HC in HD. clear HC wC.
  destruct (discovery_loop options dirtyPaths needsFullStat (sessionDirsOf (w_fs w))
                           (mkDiscovery [] ∅ 0 0 0) wD)
    as (found & wE & Hloop & Hseen & HE).
  unfold bind at 1. rewrite Hloop. clear Hloop. rewrite HD in HE. clear HD wD.
  unfold bind at 1, modify at 1.
  set (wF := set_sessionMetadataIndex _ wE).
  assert (HF : sweepMarks wF = (∅, false, w_fs w)) by (subst wF; exact HE).
  assert (Hindex : forall path,
             is_Some (w_sessionMetadataIndex wF !! path) ->
             path ∈ eventsPathsOf (sessionDirsOf (w_fs w))).
  { intros path [md Hmd]. subst wF. world_unfold.
    apply map_lookup_filter_Some in Hmd as [_ Hin]. cbn [fst] in Hin.
    rewrite Hseen in Hin. clear -Hin. set_solve. }
  set (sorted := sortBy _ _). clearbody sorted wF. clear HE Hseen wE found.
  destruct (NeverRaises_foldM (aggregateSessionDir now defaultModel) sorted
              (mkAggregation [] 0 0)
              (NeverRaises_aggregateSessionDir now defaultModel) wF)
    as [aggregated Hagg].
  pose proof (Keeps_foldM (unchanged indexAndMarks)
                (unchanged_refl indexAndMarks)
                (unchanged_trans indexAndMarks)
                (aggregateSessionDir now defaultModel) sorted (mkAggregation [] 0 0)
                (indexAndMarks_aggregateSessionDir now defaultModel) wF) as HG.
  unfold result, after, unchanged in Hagg, HG.
  unfold bind at 1.
  destruct (foldM (aggregateSessionDir now defaultModel) sorted (mkAggregation [] 0 0) wF)
    as [outcome wG].
  cbn [fst snd] in *. subst outcome.
  unfold indexAndMarks in HG.
  pose proof (f_equal fst HG) as Hidx. pose proof (f_equal snd HG) as Hmarks.
  cbn [fst snd] in Hidx, Hmarks. clear HG.
  rewrite HF in Hmarks. unfold sweepMarks in Hmarks. injection Hmarks as Hdirty Hforce _.
  unfold bind at 1, modify at 1. unfold ret.
  eexists _, _. split; [reflexivity |]. world_unfold.
  split; [exact Hdirty |]. split; [exact Hforce |].
  intros path Hpath. apply Hindex. by rewrite <- Hidx.
Qed.


(** X17. A query that runs the reconciliation consumes what the watcher
    has gathered and prunes the index: afterwards no file is marked as
    changed, no full sweep is due, and the metadata index has entries
    only for the [events.jsonl] of session directories that the root
    holds now; entries of sessions that are gone do not survive. *)
Theorem reconciliation_consumes_and_prunes (options : SessionParseOptions) (w : World) :
  fs_access (w_fs w) COPILOT_CLI_SESSION_STATE_PATH = true ->
  resultCacheApplies options (Js.nullish (o_limit options) 100)
                     (w_clock w (w_ticks w)) (w_sessionCache w) = false ->
  let w' := after (parseSessionsFromDirs options) w in
  sw_dirtyPaths (w_sessionWatcher w') = ∅
  /\ w_forceFullReconciliation w' = false
  /\ forall path,
       is_Some (w_sessionMetadataIndex w' !! path) ->
       exists dir,
         dir ∈ sessionDirsOf (w_fs w) /\ path = Path.join dir "events.jsonl".
Proof.
  intros Hroot Hcold. cbv zeta. unfold after.
  rewrite (parseSessionsFromDirs_run _ _ Hroot). cbv zeta. rewrite Hcold.
  pose proof (reconcileFrame_startSessionWatcher
                (addCalls [CallAccess COPILOT_CLI_SESSION_STATE_PATH] w)) as Hstart.
  fold (afterStartup w) in Hstart. unfold unchanged in Hstart.
  change (reconcileFrame (addCalls [CallAccess COPILOT_CLI_SESSION_STATE_PATH] w))
    with (reconcileFrame w) in Hstart.
  set (w0 := set_ticks (S (w_ticks w)) (afterStartup w)).
  assert (Hfs : w_fs w0 = w_fs w).
  { change (w_fs (afterStartup w) = w_fs w).
    unfold reconcileFrame in Hstart. by injection Hstart. }
  clearbody w0. clear Hstart Hcold.
  destruct (slowPath_run options (Js.nullish (o_limit options) 100)
                         (w_clock w (w_ticks w)) w0) as (rows & w2 & Hrun & _ & ->).
  destruct (reconcile_leaves options (w_clock w (w_ticks w)) w0)
    as (rows' & w2' & Hrun' & Hdirty & Hforce & Hindex).
  rewrite Hrun in Hrun'. injection Hrun' as <- <-. clear Hrun.
  rewrite Hfs in Hindex. cbn [snd].
  assert (Hdirs : forall path,
             is_Some (w_sessionMetadataIndex w2 !! path) ->
             exists dir,
               dir ∈ sessionDirsOf (w_fs w) /\ path = Path.join dir "events.jsonl").
  { intros path Hpath. apply Hindex in Hpath. unfold eventsPathsOf in Hpath.
    apply elem_of_list_to_set, list_elem_of_fmap in Hpath as (dir & -> & Hdir).
    by exists dir. }
  destruct (Js.truthyStr (o_sessionId options)); [done |].
  world_unfold. done.
Qed.


(** ** Starting the activity watcher *)

Lemma watchSessionDirForActivity_run (sessionDirPath : string) (w : World) :
  watchSessionDirForActivity sessionDirPath w
  = (Returned tt, afterWatchActivityDir sessionDirPath w).
Proof.
  unfold watchSessionDirForActivity, afterWatchActivityDir. open_world w. subst.
  unfold Fs.watch. run.
  destruct (awDirs !! sessionDirPath); [reflexivity |]. run.
  destruct (fs_watchable fs sessionDirPath); run; world_unfold; reflexivity.
Qed.

Lemma forEach_tailStart_run (dirs : list string) (w : World) :
  forEach dirs (fun dirPath =>
                  watchSessionDirForActivity dirPath ;;; primeSessionOffset dirPath) w
  = (Returned tt, fold_left afterTailStart dirs w).
Proof.
  revert w. induction dirs as [| dir dirs IH]; intros w; [reflexivity |].
  cbn [forEach fold_left]. unfold bind at 1. unfold bind at 1.
  rewrite watchSessionDirForActivity_run. cbv beta iota.
  rewrite primeSessionOffset_run. cbv beta iota. apply IH.
Qed.

(** One directory: what is kept, the offset that is primed, and the
    watch that is opened. *)
Lemma afterTailStart_step (sessionDirPath : string) (w : World) :
  let eventsPath := Path.join sessionDirPath "events.jsonl" in
  let w' := afterTailStart w sessionDirPath in
  let offsets x := aw_fileOffsets (w_activityWatcher x) in
  let watchers x := aw_sessionDirWatchers (w_activityWatcher x) in
  tailFrame w' = tailFrame w
  /\ offsets w' !! eventsPath
     = match fs_stat (w_fs w) eventsPath with
       | Some stat => Some (st_size stat)
       | None => offsets w !! eventsPath
       end
  /\ (forall other, other <> eventsPath -> offsets w' !! other = offsets w !! other)
  /\ (is_Some (watchers w' !! sessionDirPath)
      <-> is_Some (watchers w !! sessionDirPath)
          \/ fs_watchable (w_fs w) sessionDirPath = true)
  /\ (forall other, other <> sessionDirPath ->
                    watchers w' !! other = watchers w !! other)
  /\ (forall other h, watchers w !! other = Some h -> watchers w' !! other = Some h).
Proof. tidy.
  cbv zeta. unfold afterTailStart, afterPrime, afterWatchActivityDir. cbv zeta.
  set (eventsPath := Path.join sessionDirPath "events.jsonl").
  open_world w.
  destruct (awDirs !! sessionDirPath) as [h |] eqn:Hdir; world_simpl.
  - destruct (fs_stat fs eventsPath) as [stat |]; world_unfold.
    + rewrite lookup_insert_eq, Hdir.
      repeat split; try done; try (by left); try (by eexists).
      intros other Hother. by rewrite lookup_insert_ne.
    + rewrite Hdir. repeat split; try done; try (by left); by eexists.
  - destruct (fs_watchable fs sessionDirPath) eqn:Hwatch; world_unfold.
    all: destruct (fs_stat fs eventsPath) as [stat |]; world_unfold.
    all: rewrite ?lookup_insert_eq, ?Hdir.
    all: repeat split; try done; try (by right); try (by eexists).
    all: try (intros other Hother; by rewrite lookup_insert_ne).
    all: try (intros [[? ?] | ?]; done).
    all: try (intros other h' Hh; rewrite lookup_insert_ne; [done | congruence]).
Qed.


Lemma tailStart_loop (dirs : list string) (w : World) :
  let w' := fold_left afterTailStart dirs w in
  let offsets x := aw_fileOffsets (w_activityWatcher x) in
  let watchers x := aw_sessionDirWatchers (w_activityWatcher x) in
  tailFrame w' = tailFrame w
  /\ (forall path stat,
        path ∈ eventsPathsOf dirs ->
        fs_stat (w_fs w) path = Some stat ->
        offsets w' !! path = Some (st_size stat))
  /\ (forall path, path ∉ eventsPathsOf dirs -> offsets w' !! path = offsets w !! path)
  /\ (forall dir,
        dir ∈ dirs -> fs_watchable (w_fs w) dir = true -> is_Some (watchers w' !! dir))
  /\ (forall other h, watchers w !! other = Some h -> watchers w' !! other = Some h).
Proof. tidy.
  cbv zeta. revert w. induction dirs as [| dir dirs IH]; intros w.
  { cbn [fold_left]. unfold eventsPathsOf. cbn [map list_to_set].
    split; [done |]. split; [intros path stat Hin; by apply elem_of_empty in Hin |].
    split; [done |]. split; [intros d Hin; by apply elem_of_nil in Hin | done]. }
  cbn [fold_left].
  destruct (afterTailStart_step dir w) as (Hframe & Hprimed & Hothers & Hwatch & _ & Hkept).
  destruct (IH (afterTailStart w dir)) as (Hframe' & Hin' & Hout' & Hwatch' & Hkept').
  assert (Hfs : w_fs (afterTailStart w dir) = w_fs w)
    by (unfold tailFrame in Hframe; by injection Hframe).
  rewrite Hfs in *. clear IH.
  assert (Hpaths : eventsPathsOf (dir :: dirs)
                   = {[ Path.join dir "events.jsonl" ]} ∪ eventsPathsOf dirs)
    by reflexivity.
  rewrite Hpaths. clear Hpaths.
  split; [congruence |]. split; [| split; [| split]].
  - intros path stat Hpath Hstat.
    destruct (decide (path ∈ eventsPathsOf dirs)) as [Hin | Hout]; [by apply Hin' |].
    assert (path = Path.join dir "events.jsonl") as -> by (clear -Hpath Hout; set_solver).
    rewrite (Hout' _ Hout), Hprimed, Hstat. reflexivity.
  - intros path Hpath.
    apply not_elem_of_union in Hpath as [Hne Hout].
    rewrite (Hout' _ Hout). apply Hothers. clear -Hne. set_solver.
  - intros d Hd Hwatchable. apply elem_of_cons in Hd as [-> | Hd]; [| by apply Hwatch'].
    assert (Hsome : is_Some (aw_sessionDirWatchers
                               (w_activityWatcher (afterTailStart w dir)) !! dir))
      by (apply Hwatch; by right).
    destruct Hsome as [h Hh]. exists h. by apply Hkept'.
  - intros other h Hh. by apply Hkept', Hkept.
Qed.

Lemma startActivityWatch_run (callback : nat) (w : World) :
  aw_started (w_activityWatcher w) = false ->
  exists w0,
    startActivityWatch callback w
    = (Returned tt, fold_left afterTailStart (sessionDirsOf (w_fs w)) w0)
    /\ tailFrame w0 = (w_fs w, w_delivered w, Some callback, true)
    /\ aw_fileOffsets (w_activityWatcher w0) = aw_fileOffsets (w_activityWatcher w)
    /\ aw_sessionDirWatchers (w_activityWatcher w0)
       = aw_sessionDirWatchers (w_activityWatcher w).
Proof.
  intros Hstopped. unfold startActivityWatch.
  unfold bind at 1, modifyActivityWatcher at 1, modify at 1.
  unfold bind at 1, gets at 1.
  assert (Hstarted :
            aw_started
              (w_activityWatcher
                 (set_activityWatcher
                    (aw_set_callback (Some callback) (w_activityWatcher w)) w))
            = false) by exact Hstopped.
  rewrite Hstarted. cbv iota. clear Hstarted.
  unfold bind at 1, modifyActivityWatcher at 1, modify at 1.
  set (marked := set_activityWatcher (aw_set_started true _) _).
  assert (Hroot :
            exists w1,
              tryCatch
                (watcher <- Fs.watch COPILOT_CLI_SESSION_STATE_PATH ActivityRootListener ;;
                 modifyActivityWatcher (aw_set_rootWatcher (Some watcher)))
                (ret tt) marked
              = (Returned tt, w1)
              /\ tailFrame w1 = (w_fs w, w_delivered w, Some callback, true)
              /\ aw_fileOffsets (w_activityWatcher w1)
                 = aw_fileOffsets (w_activityWatcher w)
              /\ aw_sessionDirWatchers (w_activityWatcher w1)
                 = aw_sessionDirWatchers (w_activityWatcher w)).
  { subst marked. open_world w. unfold Fs.watch. run.
    destruct (fs_watchable fs COPILOT_CLI_SESSION_STATE_PATH); run;
      eexists; (split; [reflexivity |]); world_unfold; done. }
  destruct Hroot as (w1 & Hrun & Hframe & Hoffsets & Hdirs).
  clearbody marked. unfold bind at 1. rewrite Hrun. cbv beta iota.
  unfold bind at 1. rewrite getSessionDirs_run. cbv beta iota.
  rewrite forEach_tailStart_run.
  assert (Hfs : w_fs w1 = w_fs w) by (unfold tailFrame in Hframe; by injection Hframe).
  rewrite Hfs. eexists. split; [reflexivity |].
  split; [exact Hframe |]. split; [exact Hoffsets | exact Hdirs].
Qed.

(** X18. [startActivityWatch] never throws, registers the callback and
    hands it nothing: what is in the files when the watch starts is not
    delivered. On a watcher that is started the call replaces the
    callback and does nothing else. Otherwise, for every session
    directory of the root, the size of its [events.jsonl] is recorded as
    the offset when the file can be examined, the directory is watched
    when it can be, and the watches there were are kept. *)
Theorem startActivityWatch_primes (callback : nat) (w : World) :
  let w' := after (startActivityWatch callback) w in
  let offsets x := aw_fileOffsets (w_activityWatcher x) in
  let watchers x := aw_sessionDirWatchers (w_activityWatcher x) in
  result (startActivityWatch callback) w = Returned tt
  /\ aw_callback (w_activityWatcher w') = Some callback
  /\ aw_started (w_activityWatcher w') = true
  /\ w_delivered w' = w_delivered w
  /\ (aw_started (w_activityWatcher w) = true ->
      w' = set_activityWatcher
             (aw_set_callback (Some callback) (w_activityWatcher w)) w)
  /\ (aw_started (w_activityWatcher w) = false ->
      forall dir,
        dir ∈ sessionDirsOf (w_fs w) ->
        (forall stat,
            fs_stat (w_fs w) (Path.join dir "events.jsonl") = Some stat ->
            offsets w' !! Path.join dir "events.jsonl" = Some (st_size stat))
        /\ (fs_watchable (w_fs w) dir = true -> is_Some (watchers w' !! dir)))
  /\ (forall other h, watchers w !! other = Some h -> watchers w' !! other = Some h).
Proof.
  cbv zeta. unfold result, after.
  destruct (aw_started (w_activityWatcher w)) eqn:Hstarted.
  { assert (Hrun : startActivityWatch callback w
                   = (Returned tt,
                      set_activityWatcher
                        (aw_set_callback (Some callback) (w_activityWatcher w)) w)).
    { unfold startActivityWatch.
      unfold bind at 1, modifyActivityWatcher at 1, modify at 1.
      unfold bind at 1, gets at 1.
      change (aw_started
                (w_activityWatcher
                   (set_activityWatcher
                      (aw_set_callback (Some callback) (w_activityWatcher w)) w)))
        with (aw_started (w_activityWatcher w)).
      by rewrite Hstarted. }
    rewrite Hrun. cbn [fst snd]. world_unfold. done. }
  destruct (startActivityWatch_run callback w Hstarted)
    as (w0 & -> & Hframe0 & Hoffsets0 & Hdirs0).
  cbn [fst snd].
  destruct (tailStart_loop (sessionDirsOf (w_fs w)) w0)
    as (Hframe & Hin & _ & Hwatch & Hkept).
  rewrite Hframe0 in Hframe.
  assert (Hfs0 : w_fs w0 = w_fs w) by (unfold tailFrame in Hframe0; by injection Hframe0).
  rewrite Hfs0 in *. rewrite Hdirs0 in Hkept.
  set (w' := fold_left afterTailStart (sessionDirsOf (w_fs w)) w0) in *.
  clearbody w'. unfold tailFrame in Hframe. injection Hframe as _ Hdelivered Hcb Hon.
  split; [reflexivity |]. split; [exact Hcb |]. split; [exact Hon |].
  split; [exact Hdelivered |]. split; [done |]. split; [| exact Hkept].
  intros _ dir Hdir. split.
  - intros stat Hstat. apply Hin; [| exact Hstat].
    unfold eventsPathsOf. apply elem_of_list_to_set, list_elem_of_fmap. by exists dir.
  - intros Hwatchable. by apply Hwatch.
Qed.


(** ** The listener of the session-state root *)

(** X19. The listener that the session watcher puts on the session-state
    root never throws. It ignores every notification that is not a
    [rename] with a file name. For a [rename] it asks once whether the
    [events.jsonl] of the named directory exists: a directory that has no
    [events.jsonl] yet is not watched, and one that has it is watched
    when it can be. No other directory gains or loses a watch, and no
    file is marked as changed. *)
Theorem root_listener_watches_new_sessions (eventType : string)
        (filename : option string) (w : World) :
  let listen := runListener DirtyRootListener eventType filename in
  let watchers x := sw_sessionDirWatchers (w_sessionWatcher x) in
  result listen w = Returned tt
  /\ sw_dirtyPaths (w_sessionWatcher (after listen w)) = sw_dirtyPaths (w_sessionWatcher w)
  /\ (eventType <> "rename" \/ Js.truthyStr filename = false ->
      listen w = (Returned tt, w))
  /\ forall name,
       eventType = "rename" -> filename = Some name -> name <> EmptyString ->
       let dir := Path.join COPILOT_CLI_SESSION_STATE_PATH name in
       let eventsPath := Path.join dir "events.jsonl" in
       (exists calls,
           w_calls (after listen w) = w_calls w ++ CallExistsSync eventsPath :: calls)
       /\ (fs_existsSync (w_fs w) eventsPath = false ->
           w_sessionWatcher (after listen w) = w_sessionWatcher w
           /\ w_openWatchers (after listen w) = w_openWatchers w)
       /\ (is_Some (watchers (after listen w) !! dir)
           <-> is_Some (watchers w !! dir)
               \/ (fs_existsSync (w_fs w) eventsPath = true
                   /\ fs_watchable (w_fs w) dir = true))
       /\ forall other, other <> dir ->
                        watchers (after listen w) !! other = watchers w !! other.
Proof. tidy.
  cbv zeta. unfold result, after, runListener.
  destruct (negb (String.eqb eventType "rename") || negb (Js.truthyStr filename))
    eqn:Hignore.
  { cbn [fst snd]. split; [done |]. split; [done |]. split; [done |].
    intros name -> -> Hname. exfalso. cbn in Hignore.
    destruct name; [done | discriminate]. }
  apply orb_false_iff in Hignore as [Hrename Htruthy].
  apply negb_false_iff in Hrename, Htruthy. apply String.eqb_eq in Hrename.
  subst eventType.
  assert (Hrun :
            forall name,
              tryWatchNewSessionDir name watchSessionDir w
              = (Returned tt,
                 let eventsPath :=
                   Path.join (Path.join COPILOT_CLI_SESSION_STATE_PATH name)
                             "events.jsonl" in
                 if fs_existsSync (w_fs w) eventsPath
                 then afterWatchDir (Path.join COPILOT_CLI_SESSION_STATE_PATH name)
                                    (addCalls [CallExistsSync eventsPath] w)
                 else addCalls [CallExistsSync eventsPath] w)).
  { intros name. unfold tryWatchNewSessionDir. cbv zeta.
    unfold tryCatch, bind at 1. unfold Fs.existsSync.
    unfold bind at 1, logCall at 1, modify at 1. unfold gets at 1. cbv beta iota.
    change (w_fs (set_calls _ w)) with (w_fs w).
    destruct (fs_existsSync (w_fs w) _); [| reflexivity].
    by rewrite watchSessionDir_run. }
  rewrite Hrun. cbn [fst snd]. cbv zeta.
  destruct filename as [name |]; [| discriminate]. cbn [Js.nullish].
  set (dir := Path.join COPILOT_CLI_SESSION_STATE_PATH name).
  set (eventsPath := Path.join dir "events.jsonl").
  set (asked := addCalls [CallExistsSync eventsPath] w).
  assert (Hcalls : exists calls,
             w_calls (afterWatchDir dir asked)
             = w_calls w ++ CallExistsSync eventsPath :: calls).
  { unfold afterWatchDir.
    destruct (_ !! dir); [by exists [] |].
    destruct (fs_watchable _ _); exists [CallWatch dir];
      unfold asked; world_unfold; by rewrite <- app_assoc. }
  destruct (afterWatchDir_lookup dir dir asked) as (Hsome & _).
  destruct (watchAll_started [dir] asked) as (_ & _ & Hdirty).
  unfold watchAll in Hdirty. cbn [fold_left] in Hdirty.
  split; [reflexivity |]. split.
  { destruct (fs_existsSync (w_fs w) eventsPath); [exact Hdirty | reflexivity]. }
  split; [intros [Hne | Hfalse]; [done | congruence] |].
  intros name' _ [= <-] _. fold dir eventsPath.
  destruct (fs_existsSync (w_fs w) eventsPath) eqn:Hexists.
  - split; [exact Hcalls |]. split; [done |]. split.
    + rewrite Hsome. subst asked. world_unfold. clear. naive_solver.
    + intros other Hother.
      destruct (afterWatchDir_lookup dir other asked) as (Hiff & Hkeep & _).
      destruct (sw_sessionDirWatchers (w_sessionWatcher w) !! other) as [h |] eqn:Hh.
      * by apply Hkeep.
      * apply eq_None_not_Some. intros Hnow. apply Hiff in Hnow as [[h Hold] | [-> _]].
        -- subst asked. revert Hold. world_unfold. congruence.
        -- done.
  - split; [by exists [] |]. split; [done |]. split; [| done].
    subst asked. world_unfold. clear. naive_solver.
Qed.


(** X20. The listener that the activity watcher puts on the
    session-state root never throws and ignores every notification that
    is not a [rename] with a file name. For a [rename] it does not ask
    whether the directory has an [events.jsonl]: the directory is watched
    when it can be, and the size of its [events.jsonl], when the file can
    be examined, is recorded as the offset, so that what the file holds
    by then is not delivered. Nothing is handed to the callback, and the
    watches and offsets of other directories are kept. *)
Theorem activity_root_listener_primes (eventType : string) (filename : option string)
        (w : World) :
  let listen := runListener ActivityRootListener eventType filename in
  let offsets x := aw_fileOffsets (w_activityWatcher x) in
  let watchers x := aw_sessionDirWatchers (w_activityWatcher x) in
  result listen w = Returned tt
  /\ w_delivered (after listen w) = w_delivered w
  /\ (eventType <> "rename" \/ Js.truthyStr filename = false ->
      listen w = (Returned tt, w))
  /\ forall name,
       eventType = "rename" -> filename = Some name -> name <> EmptyString ->
       let dir := Path.join COPILOT_CLI_SESSION_STATE_PATH name in
       let eventsPath := Path.join dir "events.jsonl" in
       (is_Some (watchers (after listen w) !! dir)
        <-> is_Some (watchers w !! dir) \/ fs_watchable (w_fs w) dir = true)
       /\ offsets (after listen w) !! eventsPath
          = match fs_stat (w_fs w) eventsPath with
            | Some stat => Some (st_size stat)
            | None => offsets w !! eventsPath
            end
       /\ (forall other, other <> dir ->
                         watchers (after listen w) !! other = watchers w !! other)
       /\ (forall other, other <> eventsPath ->
                         offsets (after listen w) !! other = offsets w !! other).
Proof. tidy.
  cbv zeta. unfold result, after, runListener.
  destruct (negb (String.eqb eventType "rename") || negb (Js.truthyStr filename))
    eqn:Hignore.
  { cbn [fst snd]. split; [done |]. split; [done |]. split; [done |].
    intros name -> -> Hname. exfalso. cbn in Hignore.
    destruct name; [done | discriminate]. }
  apply orb_false_iff in Hignore as [Hrename Htruthy].
  apply negb_false_iff in Hrename, Htruthy. apply String.eqb_eq in Hrename.
  subst eventType. cbv zeta.
  unfold bind. rewrite watchSessionDirForActivity_run. cbv beta iota.
  rewrite primeSessionOffset_run. cbn [fst snd].
  destruct filename as [name |]; [| discriminate]. cbn [Js.nullish].
  set (dir := Path.join COPILOT_CLI_SESSION_STATE_PATH name).
  fold (afterTailStart w dir).
  destruct (afterTailStart_step dir w)
    as (Hframe & Hprimed & Hoffsets & Hwatched & Hwatchers & _).
  unfold tailFrame in Hframe. injection Hframe as _ Hdelivered _ _.
  split; [reflexivity |]. split; [exact Hdelivered |].
  split; [intros [Hne | Hfalse]; [done | congruence] |].
  intros name' _ [= <-] _. fold dir.
  split; [exact Hwatched |]. split; [exact Hprimed |].
  split; [exact Hwatchers | exact Hoffsets].
Qed.


End Plugin.
(* ===================================================================== *)
(** * The claims at concrete inputs *)
(* ===================================================================== *)

(** The claim C1 at a message with vendor usage: the figures of the vendor
    are taken, by the parser and by the tailing watcher. *)
Lemma C1_token_figures_witness :
  let ctx := mkContext "s1" None None 700 "default" [] in
  let row := usageRow Fixture.Date_parse ctx Fixture.vendorMessage in
  (t_input (r_tokens row) = 1500 /\ r_isEstimated row = false)
  /\ t_input (deltaTokens Fixture.vendorMessage) = 1500
  /\ t_cacheRead (deltaTokens Fixture.vendorMessage) = Some 1200.
Proof.
  intros ctx row.
  assert (Hvendor : vendorPrompt Fixture.vendorMessage 1500).
  { exists Fixture.vendorUsage. split; [reflexivity |]. split; [reflexivity | lia]. }
  destruct (C1_token_figures Fixture.Date_parse ctx Fixture.vendorMessage)
    as [[[Hrow _] [Hflag _]] [Hdelta _]].
  destruct (Hdelta 1500 Hvendor) as (Hinput & _ & Hread & _).
  split; [split |].
  - exact (proj1 (Hrow 1500 Hvendor)).
  - exact (Hflag 1500 Hvendor).
  - split; [exact Hinput |]. apply Hread. split; [reflexivity | lia].
Defined.

(** C1 as stated fails for the tailing watcher: a message whose usage
    block has a cache count and no [prompt_tokens] is estimated, and its
    delta carries the cache count all the same. *)
Lemma C1_watcher_attaches_cache_counterexample :
  (forall p, ~ vendorPrompt Fixture.cacheOnlyMessage p)
  /\ t_cacheRead (deltaTokens Fixture.cacheOnlyMessage) = Some 7
  /\ ~ tokensAsSpecified Fixture.cacheOnlyMessage
                         (deltaTokens Fixture.cacheOnlyMessage).
Proof.
  assert (Hnone : forall p, ~ vendorPrompt Fixture.cacheOnlyMessage p).
  { intros p (u & Hu & Hp & _). injection Hu as <-. discriminate Hp. }
  split; [exact Hnone |]. split; [reflexivity |].
  intros [_ Hestimated]. destruct (Hestimated Hnone) as (_ & _ & Hread & _).
  discriminate Hread.
Qed.

(** The claim C2 at the log of [s1], whose model changes to X at time 0
    and to Y at time 4: a message of time 1 is given X, and a message with
    a model of its own keeps it. *)
Lemma C2_model_resolution_witness :
  let ctx := contextOf Fixture.JSON_parse Fixture.Date_parse Fixture.twoSessions
                       Fixture.s1 700 "default" in
  let timeline :=
    sortedModelChanges Fixture.Date_parse
      (eventsOf Fixture.JSON_parse Fixture.twoSessions
                (Path.join Fixture.s1 "events.jsonl")) in
  (timeline = [{| mc_timestamp := 0; mc_model := "X" |}; {| mc_timestamp := 4; mc_model := "Y" |}]
   /\ latestChangeAt timeline 1 "default"
                     (r_modelId (usageRow Fixture.Date_parse ctx Fixture.plainMessage)))
  /\ r_modelId (usageRow Fixture.Date_parse ctx Fixture.plainMessage) = "X"
  /\ r_modelId (usageRow Fixture.Date_parse ctx Fixture.vendorMessage) = "Y".
Proof.
  intros ctx timeline. split; [split |].
  - vm_compute. reflexivity.
  - exact (proj2 (proj2 (C2_model_resolution Fixture.JSON_parse Fixture.Date_parse
                           Fixture.twoSessions Fixture.s1 700 "default"
                           Fixture.plainMessage))).
  - split; vm_compute; reflexivity.
Defined.

(** The claim C3 at the log of [s1], in which [msg_1] occurs before and
    after [msg_2]: two rows, [msg_1] first, with the figures of its second
    occurrence. *)
Lemma C3_one_row_per_message_witness :
  let deduped := dedupedOf Fixture.JSON_parse Fixture.Date_parse Fixture.twoSessions
                           Fixture.s1 700 "default" in
  result (parseSessionDirRows Fixture.JSON_parse Fixture.Date_parse Fixture.s1 700 "default")
         (Fixture.freshWorld Fixture.twoSessions)
  = Returned (mapValues deduped)
  /\ mapKeys deduped = ["msg_1"; "msg_2"]
  /\ map (fun row => t_output (r_tokens row)) (mapValues deduped) = [10; 250].
Proof.
  intros deduped.
  destruct (C3_one_row_per_message Fixture.JSON_parse Fixture.Date_parse Fixture.s1 700
              "default" (Fixture.freshWorld Fixture.twoSessions))
    as (Hrows & Hkeys & _).
  split; [exact Hrows |]. split; [| vm_compute; reflexivity].
  etransitivity; [exact Hkeys | vm_compute; reflexivity].
Defined.

(** The claim C4 at a session whose cached entry has the mtime of the
    session, at the same session once its mtime has moved, and at a pass
    over two sessions of which the first is parsed and the second comes
    from the cache. *)
Lemma C4_aggregate_cache_validity_witness :
  let start := mkAggregation [] 0 0 in
  let turn := aggregateSessionDir Fixture.JSON_parse Fixture.Date_parse 1000 "default" in
  let selected := [mkDir "s2" Fixture.s2 800; mkDir "s1" Fixture.s1 700] in
  (fst (turn start (mkDir "s1" Fixture.s1 700) Fixture.aggregatedWorld)
   = Returned (mkAggregation [Fixture.someRow] 1 0)
   /\ w_calls (snd (turn start (mkDir "s1" Fixture.s1 700) Fixture.aggregatedWorld)) = [])
  /\ (exists rows,
        fst (turn start (mkDir "s1" Fixture.s1 701) Fixture.aggregatedWorld)
        = Returned (mkAggregation rows 0 1)
        /\ List.length rows = 2%nat)
  /\ (exists a',
        fst (foldM turn selected start Fixture.aggregatedWorld) = Returned a'
        /\ map r_sessionId (sessions a') = ["s2"; "s1"]).
Proof.
  intros start turn selected.
  assert (Hvalid : validEntry (w_sessionAggregateCache Fixture.aggregatedWorld)
                              (mkDir "s1" Fixture.s1 700)).
  { exists (mkEntry 700 [Fixture.someRow] 900). split; [vm_compute |]; reflexivity. }
  assert (Hinvalid : ~ validEntry (w_sessionAggregateCache Fixture.aggregatedWorld)
                                  (mkDir "s1" Fixture.s1 701)).
  { intros (cached & Hcached & Hmtime). vm_compute in Hcached.
    injection Hcached as <-. discriminate Hmtime. }
  assert (Hdistinct : NoDup (map p_sessionId selected)).
  { apply (bool_decide_unpack _). vm_compute. exact I. }
  split; [| split].
  - destruct (C4_aggregate_cache_validity Fixture.JSON_parse Fixture.Date_parse 1000
                "default" start (mkDir "s1" Fixture.s1 700) Fixture.aggregatedWorld)
      as (Hhit & _ & Hcalls & _).
    destruct (Hhit Hvalid) as (cached & Hcached & Hrun).
    vm_compute in Hcached. injection Hcached as <-.
    split; [| exact (proj2 Hcalls Hvalid)].
    unfold turn. rewrite Hrun. reflexivity.
  - destruct (C4_aggregate_cache_validity Fixture.JSON_parse Fixture.Date_parse 1000
                "default" start (mkDir "s1" Fixture.s1 701) Fixture.aggregatedWorld)
      as (_ & Hmiss & _).
    destruct (Hmiss Hinvalid) as (rows & calls & Hrows & Hrun).
    exists rows. split; [unfold turn; rewrite Hrun; reflexivity |].
    vm_compute in Hrows. injection Hrows as <-. reflexivity.
  - destruct (C4_aggregate_cache_validity Fixture.JSON_parse Fixture.Date_parse 1000
                "default" start (mkDir "s1" Fixture.s1 700) Fixture.aggregatedWorld)
      as (_ & _ & _ & Hpass & _).
    destruct (Hpass selected Hdistinct) as (a' & cache' & Hrun & Hsessions & _).
    exists a'. split; [unfold turn; rewrite Hrun; reflexivity |].
    rewrite Hsessions. vm_compute. reflexivity.
Defined.

(** C4 as stated fails: the log of [s1] was modified at time 950, the
    watcher has marked nothing, and the index and the aggregate cache hold
    the session as it was at time 700. The query examines no file and
    reads none: it takes the time 700 from the index, finds the entry of
    that time and returns its rows. *)
Lemma C4_stale_index_counterexample :
  let w := Fixture.staleIndexWorld in
  let query := parseSessionsFromDirs Fixture.JSON_parse Fixture.Date_parse Fixture.homedir
                 Fixture.CACHE_TTL_MS Fixture.evict Fixture.anyQuery in
  currentMtime (w_fs w) Fixture.s1 = Some 950
  /\ w_sessionAggregateCache w !! "s1" = Some (mkEntry 700 [Fixture.someRow] 900)
  /\ fst (query w) = Returned [Fixture.someRow]
  /\ w_calls (snd (query w))
     = [CallAccess Fixture.root; CallReaddir Fixture.root; CallAccess Fixture.s1Events;
        CallReaddir Fixture.logs; CallWatch Fixture.s1]
  /\ option_map updatedAt (w_sessionAggregateCache (snd (query w)) !! "s1") = Some 700.
Proof. repeat split; vm_compute; reflexivity. Qed.

(** The claim C5 with a fresh result cache and the watcher running: with
    the root in place the cached rows come back after the one check of the
    root; without it the empty list does. *)
Lemma C5_fast_path_witness :
  let query := parseSessionsFromDirs Fixture.JSON_parse Fixture.Date_parse Fixture.homedir
                 Fixture.CACHE_TTL_MS Fixture.evict Fixture.anyQuery in
  (fst (query (Fixture.cachedWorld Fixture.twoSessions true)) = Returned [Fixture.someRow]
   /\ w_calls (snd (query (Fixture.cachedWorld Fixture.twoSessions true)))
      = [CallAccess Fixture.root])
  /\ fst (query (Fixture.cachedWorld Fixture.noRoot true)) = Returned [].
Proof.
  intros query.
  assert (Hfresh : forall fs,
             resultIsFresh Fixture.CACHE_TTL_MS Fixture.anyQuery 1000
                           (w_sessionCache (Fixture.cachedWorld fs true))).
  { intros fs. split; [by left |]. split; [reflexivity |]. split; [reflexivity |].
    split; [discriminate | vm_compute; reflexivity]. }
  split.
  - destruct (C5_fast_path Fixture.JSON_parse Fixture.Date_parse Fixture.homedir
                Fixture.CACHE_TTL_MS Fixture.evict Fixture.anyQuery
                (Fixture.cachedWorld Fixture.twoSessions true))
      as [_ [Hroot Hstarted]].
    destruct (Hroot eq_refl) as [Hfast [_ Hcalls]].
    split.
    + unfold query. rewrite (Hfast (Hfresh Fixture.twoSessions)). reflexivity.
    + unfold query. rewrite (proj2 Hcalls (Hfresh Fixture.twoSessions)).
      rewrite (Hstarted eq_refl). reflexivity.
  - destruct (C5_fast_path Fixture.JSON_parse Fixture.Date_parse Fixture.homedir
                Fixture.CACHE_TTL_MS Fixture.evict Fixture.anyQuery
                (Fixture.cachedWorld Fixture.noRoot true))
      as [Hnone _].
    unfold query. rewrite (Hnone eq_refl). reflexivity.
Defined.

(** C5 as stated fails in both directions of its equivalence. With every
    condition of the fast path met, a query over a missing root returns
    the empty list and not the cached rows; and with the root in place the
    cached rows come back after a call to the file system. *)
Lemma C5_root_check_counterexample :
  let query := parseSessionsFromDirs Fixture.JSON_parse Fixture.Date_parse Fixture.homedir
                 Fixture.CACHE_TTL_MS Fixture.evict Fixture.anyQuery in
  let missing := Fixture.cachedWorld Fixture.noRoot true in
  let present := Fixture.cachedWorld Fixture.twoSessions true in
  (resultIsFresh Fixture.CACHE_TTL_MS Fixture.anyQuery 1000 (w_sessionCache missing)
   /\ fst (query missing) <> Returned (lastResult (w_sessionCache missing)))
  /\ (resultIsFresh Fixture.CACHE_TTL_MS Fixture.anyQuery 1000 (w_sessionCache present)
      /\ fst (query present) = Returned (lastResult (w_sessionCache present))
      /\ w_calls (snd (query present)) <> w_calls present).
Proof.
  intros query missing present.
  assert (Hfresh : forall fs,
             resultIsFresh Fixture.CACHE_TTL_MS Fixture.anyQuery 1000
                           (w_sessionCache (Fixture.cachedWorld fs true))).
  { intros fs. split; [by left |]. split; [reflexivity |]. split; [reflexivity |].
    split; [discriminate | vm_compute; reflexivity]. }
  split; (split; [apply Hfresh |]).
  - vm_compute. discriminate.
  - split; [vm_compute; reflexivity | vm_compute; discriminate].
Qed.


(** The claim C7 at two appends to a log of 10 bytes, each read once, and
    at its failing input: offset 10 recorded, the log emptied, and then 14
    bytes written, of which the second notification reads the last 4
    only. *)
Lemma C7_tail_reads_from_recorded_offset_witness :
  let delta := processEventsDelta Fixture.JSON_parse Fixture.Date_parse
                                  Fixture.s1Events Fixture.s1 in
  let messageIds (w : World) := map (fun d => u_messageId (snd d)) (w_delivered w) in
  (let w := Fixture.tailingWorld Fixture.primed 10 in
   let w1 := after delta (set_fs Fixture.appendedOnce w) in
   let w2 := after delta (set_fs Fixture.appendedTwice w1) in
   w_calls w2
   = [CallStat Fixture.s1Events;
      CallRead Fixture.s1Events 10 3;
      CallReadFile (Path.join Fixture.s1 "workspace.yaml");
      CallStat Fixture.s1Events;
      CallRead Fixture.s1Events 13 6;
      CallReadFile (Path.join Fixture.s1 "workspace.yaml")]
   /\ messageIds w2 = ["msg_1"; "msg_2"; "msg_3"])
  /\ (let w := Fixture.tailingWorld Fixture.truncated 10 in
      let w1 := after delta w in
      let w2 := after delta (set_fs Fixture.regrown w1) in
      aw_fileOffsets (w_activityWatcher w1) !! Fixture.s1Events = Some 10
      /\ w_calls w2
         = [CallStat Fixture.s1Events;
            CallStat Fixture.s1Events;
            CallRead Fixture.s1Events 10 4;
            CallReadFile (Path.join Fixture.s1 "workspace.yaml")]
      /\ messageIds w2 = ["msg_1"]).
Proof.
  intros delta messageIds. split.
  - intros w w1 w2.
    destruct (C7_tail_reads_from_recorded_offset
                Fixture.JSON_parse Fixture.Date_parse Fixture.s1Events Fixture.s1
                w 0%nat eq_refl)
      as (_ & Happends & _).
    destruct (Happends Fixture.appendedOnce Fixture.appendedTwice
                (mkStats 901 13) (mkStats 902 19)
                (Fixture.unlines ["A1"]) (Fixture.unlines ["A2"; "A3"]))
      as (Hcalls & Hdelivered & _).
    + vm_compute. reflexivity.
    + vm_compute. reflexivity.
    + vm_compute. reflexivity.
    + vm_compute. reflexivity.
    + vm_compute. reflexivity.
    + vm_compute. reflexivity.
    + split; [exact Hcalls |].
      unfold messageIds, w2, w1, delta. rewrite Hdelivered. vm_compute. reflexivity.
  - intros w w1 w2.
    destruct (C7_tail_reads_from_recorded_offset
                Fixture.JSON_parse Fixture.Date_parse Fixture.s1Events Fixture.s1
                w 0%nat eq_refl)
      as (_ & _ & Hemptied).
    destruct (Hemptied (mkStats 903 0)) as [[Hoffset _] Hnext].
    + vm_compute. reflexivity.
    + reflexivity.
    + vm_compute. reflexivity.
    + destruct (Hnext Fixture.regrown (mkStats 904 14)
                      (String Js.LF (Fixture.unlines ["A1"])))
        as (Hcalls & _ & Hdelivered).
      * vm_compute. reflexivity.
      * vm_compute. reflexivity.
      * vm_compute. reflexivity.
      * split; [exact Hoffset |]. split; [exact Hcalls |].
        unfold messageIds, w2, w1, delta. rewrite Hdelivered. vm_compute. reflexivity.
Defined.

(** The claim C8 with nothing cached: the model of the last tagged line of
    the newest process log is returned and cached with the time of the
    call. *)
Lemma C8_default_model_witness :
  let run := getDefaultModel Fixture.homedir (Fixture.freshWorld Fixture.twoSessions) in
  fst run = Returned "gpt-5"
  /\ w_cachedModel (snd run) = Some "gpt-5"
  /\ w_modelCacheTime (snd run) = 1000.
Proof.
  intros run.
  assert (Hstale : forall model,
             ~ modelIsCached (Fixture.freshWorld Fixture.twoSessions) 1000 model).
  { intros model [Hcached _]. discriminate Hcached. }
  pose proof (proj1 (proj2 (proj2
                (C8_default_model Fixture.homedir
                                  (Fixture.freshWorld Fixture.twoSessions)))) Hstale)
    as Hscan.
  vm_compute in Hscan. destruct Hscan as (Hmodel & _ & Hcache & Htime).
  vm_compute. split; [exact Hmodel |]. split; [exact Hcache | exact Htime].
Defined.

(** C8 as stated fails: a line that holds ["Using default model: "]
    without the [[INFO]] tag is a match for the marker of the claim, and
    [getDefaultModel] does not take its model. *)
Lemma C8_untagged_line_counterexample :
  scannedModelOf Fixture.homedir QUOTED_MARKER Fixture.untaggedLog = Some "gpt-5"
  /\ fst (getDefaultModel Fixture.homedir (Fixture.freshWorld Fixture.untaggedLog))
     = Returned "unknown"
  /\ scannedModelOf Fixture.homedir QUOTED_MARKER Fixture.twoSessions = Some "zzz"
  /\ fst (getDefaultModel Fixture.homedir (Fixture.freshWorld Fixture.twoSessions))
     = Returned "gpt-5".
Proof. repeat split; vm_compute; reflexivity. Qed.

(** The claim C9 at two queries over two sessions with three rows, one
    with the limit 1 and one with the limit 500: the same three rows. *)
Lemma C9_limit_does_not_truncate_witness :
  let query limit :=
    result (parseSessionsFromDirs Fixture.JSON_parse Fixture.Date_parse Fixture.homedir
              Fixture.CACHE_TTL_MS Fixture.evict (mkOptions (Some limit) None None))
           (Fixture.freshWorld Fixture.twoSessions) in
  query 1 = query 500
  /\ exists rows, query 1 = Returned rows /\ List.length rows = 3%nat.
Proof.
  intros query. split.
  - apply (proj1 (proj2
             (C9_limit_does_not_truncate Fixture.JSON_parse Fixture.Date_parse
                Fixture.homedir Fixture.CACHE_TTL_MS Fixture.evict
                (Some 1) (Some 500) None None (Fixture.freshWorld Fixture.twoSessions)))).
    split; intros (_ & Hlimit & _); discriminate Hlimit.
  - vm_compute. eexists. split; reflexivity.
Defined.

(** The claim C10 at a world in which both watchers run: the watches of
    the session watcher are closed by [stopActivityWatch], its timer is
    cleared and its dirty path is gone; the watch of somebody else stays
    open. *)
Lemma C10_stopActivityWatch_stops_both_witness :
  let w' := after stopActivityWatch Fixture.watchingWorld in
  ((1%nat ∉ w_openWatchers w') /\ (0%nat ∉ w_openWatchers w')
   /\ (3%nat ∉ w_openWatchers w') /\ (2%nat ∉ w_openWatchers w'))
  /\ (5%nat ∉ w_activeTimers w')
  /\ sw_dirtyPaths (w_sessionWatcher w') = ∅
  /\ w_openWatchers w' = {[ 9%nat ]}.
Proof.
  intros w'.
  destruct (C10_stopActivityWatch_stops_both Fixture.watchingWorld)
    as (_ & _ & (_ & _ & Hdirty & _) & _ & Hdir & Hroot & Hadir & Haroot & Htimer & _).
  split; [split; [| split; [| split]] |].
  - apply (Hdir Fixture.s1 (mkWatcher 1 (DirtyDirListener Fixture.s1))).
    vm_compute. reflexivity.
  - apply (Hroot (mkWatcher 0 DirtyRootListener)). reflexivity.
  - apply (Hadir Fixture.s1 (mkWatcher 3 (ActivityDirListener Fixture.s1))).
    vm_compute. reflexivity.
  - apply (Haroot (mkWatcher 2 ActivityRootListener)). reflexivity.
  - split; [apply (Htimer 5%nat); reflexivity |].
    split; [exact Hdirty |]. vm_compute. reflexivity.
Defined.

(* ===================================================================== *)
(** * The further properties at concrete inputs *)
(* ===================================================================== *)

(** X1 at a text of five characters and a text of nine: two tokens and
    three. *)
Lemma estimateTokens_bounds_witness :
  Js.length "abcde" <= Js.length "abcdefghi"
  /\ estimateTokens "abcde" <= estimateTokens "abcdefghi"
  /\ estimateTokens "abcde" = 2.
Proof.
  assert (H : Js.length "abcde" <= Js.length "abcdefghi")
    by (apply Z.leb_le; vm_compute; reflexivity).
  split; [exact H |]. split; [| reflexivity].
  exact (proj2 (proj2 (proj2 (estimateTokens_bounds "abcde" "abcdefghi"))) H).
Defined.

(** X2 at an assistant message. *)
Lemma type_guards_exclusive_witness :
  let event := Fixture.assistant "msg_1" "hi" None None None in
  isAssistantMessage event = true
  /\ isSessionStart event = false
  /\ isModelChange event = false.
Proof.
  intros event. split; [reflexivity |].
  exact (proj1 (proj2 (type_guards_exclusive event)) eq_refl).
Defined.

(** X3 at the session [s1] with its [workspace.yaml]: the rows carry the
    id, the directory and the summary of the file. *)
Lemma parseSessionDirRows_session_fields_witness :
  let w := Fixture.freshWorld Fixture.namedSession in
  let run := parseSessionDirRows Fixture.JSON_parse Fixture.Date_parse Fixture.s1 700
                                 "default" in
  let rows := match result run w with Returned rows => rows | Raised => [] end in
  result run w = Returned rows
  /\ List.length rows = 2%nat
  /\ Forall (fun row =>
               r_sessionId row = "custom-session-id"
               /\ r_sessionUpdatedAt row = 700
               /\ r_projectPath row = Some "/home/u/project"
               /\ r_sessionName row = Some "fix login bug")
            rows.
Proof.
  intros w run rows.
  assert (Hrows : result run w = Returned rows) by (vm_compute; reflexivity).
  split; [exact Hrows |]. split; [vm_compute; reflexivity |].
  eapply Forall_impl;
    [exact (parseSessionDirRows_session_fields Fixture.JSON_parse Fixture.Date_parse
              Fixture.s1 700 "default" w rows Hrows) |].
  intros row (Hid & _ & Hupdated & Hpath & Hname & _).
  split; [rewrite Hid; vm_compute; reflexivity |]. split; [exact Hupdated |].
  split; [rewrite Hpath | rewrite Hname]; vm_compute; reflexivity.
Defined.

(** X4 at the log of [s1]: three assistant messages, two of them with
    the same id, give two rows. *)
Lemma parseSessionDirRows_row_count_witness :
  let w := Fixture.freshWorld Fixture.twoSessions in
  let run := parseSessionDirRows Fixture.JSON_parse Fixture.Date_parse Fixture.s1 700
                                 "default" in
  let rows := match result run w with Returned rows => rows | Raised => [] end in
  let msgs := assistantMessages
                (eventsOf Fixture.JSON_parse (w_fs w) (Path.join Fixture.s1 "events.jsonl")) in
  result run w = Returned rows
  /\ List.length msgs = 3%nat
  /\ (List.length rows <= List.length msgs)%nat
  /\ rows <> [].
Proof.
  intros w run rows msgs.
  assert (Hrows : result run w = Returned rows) by (vm_compute; reflexivity).
  destruct (parseSessionDirRows_row_count Fixture.JSON_parse Fixture.Date_parse
              Fixture.s1 700 "default" w rows Hrows) as (Hempty & Hcount & _).
  split; [exact Hrows |]. split; [vm_compute; reflexivity |].
  split; [exact Hcount |].
  intros Hnone. apply Hempty in Hnone. vm_compute in Hnone. discriminate Hnone.
Defined.

(** X5 at a message without usage: the row is estimated, carries no
    cache count, and its input is at most its output. *)
Lemma usageRow_token_bounds_witness :
  let ctx := mkContext "s1" None None 700 "default" [] in
  let row := usageRow Fixture.Date_parse ctx Fixture.plainMessage in
  r_isEstimated row = true
  /\ t_cacheRead (r_tokens row) = None
  /\ t_cacheWrite (r_tokens row) = None
  /\ 0 <= t_input (r_tokens row) <= t_output (r_tokens row)
  /\ t_output (r_tokens row) <= Js.length (am_content Fixture.plainMessage).
Proof.
  intros ctx row. split; [reflexivity |].
  exact (proj1 (proj2 (proj2 (proj2
           (usageRow_token_bounds Fixture.Date_parse ctx Fixture.plainMessage))))
           eq_refl).
Defined.

(** X6 at a key with a padded value and at a comment. *)
Lemma yamlLine_key_value_witness :
  isPlainKey "id" = true
  /\ yamlLine ∅ "id: custom " = <[ "id" := "custom" ]> ∅
  /\ Js.startsWith "#" (Js.trim " # id: x") = true
  /\ yamlLine ∅ " # id: x" = ∅.
Proof.
  destruct (yamlLine_key_value ∅ "id" " custom " " # id: x") as [Hkey Hskip].
  split; [reflexivity |]. split; [exact (Hkey eq_refl) |].
  split; [reflexivity |]. apply Hskip. right. left. reflexivity.
Defined.

(** X7 at the [workspace.yaml] of [s1]. *)
Lemma readWorkspaceYaml_id_witness :
  let w := Fixture.freshWorld Fixture.namedSession in
  exists ws,
    result (readWorkspaceYaml Fixture.s1Workspace) w = Returned (Some ws)
    /\ ws_id ws = "custom-session-id"
    /\ ws_cwd ws = "/home/u/project"
    /\ Js.trim (ws_id ws) = ws_id ws
    /\ result (readWorkspaceYaml Fixture.s1Events) (Fixture.freshWorld Fixture.noRoot)
       = Returned None.
Proof.
  intros w.
  destruct (readWorkspaceYaml_id Fixture.s1Workspace w) as (Hrun & _ & Hws).
  destruct (readWorkspaceYaml_id Fixture.s1Events (Fixture.freshWorld Fixture.noRoot))
    as (Hrun' & Hnone & _).
  destruct (workspaceOf (w_fs w) Fixture.s1Workspace) as [ws |] eqn:Hfound;
    [| vm_compute in Hfound; discriminate Hfound].
  exists ws. unfold result. rewrite Hrun, Hrun', (Hnone eq_refl).
  split; [reflexivity |].
  destruct (Hws ws eq_refl) as (_ & Htrimmed & _).
  vm_compute in Hfound. injection Hfound as <-.
  split; [reflexivity |]. split; [reflexivity |]. split; [exact Htrimmed | reflexivity].
Defined.

(** X8 at the root with the directories [s1] and [s2] and a file. *)
Lemma getSessionDirs_selects_witness :
  let w := Fixture.freshWorld Fixture.twoSessions in
  result (getSessionDirs Fixture.homedir) w = Returned [Fixture.s1; Fixture.s2]
  /\ result (getSessionDirs Fixture.homedir) (Fixture.freshWorld Fixture.noRoot)
     = Returned [].
Proof.
  intros w. unfold result.
  destruct (getSessionDirs_selects Fixture.homedir w) as (-> & _).
  destruct (getSessionDirs_selects Fixture.homedir (Fixture.freshWorld Fixture.noRoot))
    as (-> & Hnone & _).
  split; [vm_compute; reflexivity |]. cbn [fst]. by rewrite (Hnone eq_refl).
Defined.

(** X9 at two process logs: the one modified last. *)
Lemma getLatestProcessLog_latest_witness :
  let w := Fixture.freshWorld Fixture.twoSessions in
  result (getLatestProcessLog Fixture.homedir) w
  = Returned (Some "/home/u/.copilot/logs/process-2.log")
  /\ result (getLatestProcessLog Fixture.homedir) (Fixture.freshWorld Fixture.noRoot)
     = Returned None.
Proof.
  intros w. unfold result.
  destruct (getLatestProcessLog_latest Fixture.homedir w) as ((calls & ->) & _).
  destruct (getLatestProcessLog_latest Fixture.homedir (Fixture.freshWorld Fixture.noRoot))
    as ((calls' & ->) & _ & Hnone & _).
  split; [vm_compute; reflexivity |]. cbn [fst]. by rewrite (Hnone eq_refl).
Defined.

(** X10 on a fresh process: the watcher is started, its timer is set,
    [s1] is watched, and a second call changes nothing. *)
Lemma startSessionWatcher_watches_sessions_witness :
  let w := Fixture.freshWorld Fixture.twoSessions in
  let w' := after (startSessionWatcher Fixture.homedir) w in
  sw_started (w_sessionWatcher w) = false
  /\ sw_started (w_sessionWatcher w') = true
  /\ sw_reconciliationTimer (w_sessionWatcher w') <> None
  /\ is_Some (sw_sessionDirWatchers (w_sessionWatcher w') !! Fixture.s1)
  /\ startSessionWatcher Fixture.homedir w' = (Returned tt, w').
Proof.
  intros w w'.
  destruct (startSessionWatcher_watches_sessions Fixture.homedir w)
    as (_ & Hstarted & Hagain & Hfresh).
  destruct (Hfresh eq_refl) as (Htimer & _ & Hdirs).
  destruct (Hdirs Fixture.s1) as (Hwatched & _).
  split; [reflexivity |]. split; [exact Hstarted |]. split; [exact Htimer |].
  split; [| exact Hagain].
  apply Hwatched. right. split; [| reflexivity].
  apply (bool_decide_unpack _). vm_compute. exact I.
Defined.

(** X11 in a process where somebody else holds the watch 9. After a
    start, the listing and a stop, that watch is the only one open. After
    a start and a stop at once it is so too, but the listing that runs
    then leaves a watch on [s1] open in a watcher that is not started; a
    second stop closes it. *)
Lemma start_stop_round_trip_witness :
  let w := Fixture.sharedWorld in
  let waited := after stopSessionWatcher (after (startSessionWatcher Fixture.homedir) w) in
  let early := after stopSessionWatcher
                     (after (startSessionWatcherNow Fixture.homedir) w) in
  let late := after (watchListedSessionDirs Fixture.homedir) early in
  w_sessionWatcher w = stoppedSessionWatcher
  /\ w_openWatchers waited = {[ 9%nat ]}
  /\ w_openWatchers early = {[ 9%nat ]}
  /\ sw_started (w_sessionWatcher late) = false
  /\ (exists h,
        sw_sessionDirWatchers (w_sessionWatcher late) !! Fixture.s1 = Some h
        /\ fw_id h ∈ w_openWatchers late
        /\ fw_id h ∉ w_openWatchers w)
  /\ w_openWatchers (after stopSessionWatcher late) = {[ 9%nat ]}.
Proof.
  intros w waited early late.
  assert (Hold : forall n, n ∈ w_openWatchers w ∪ w_activeTimers w ->
                           (n < w_nextHandle w)%nat).
  { intros n Hn. change (n ∈ ({[ 9%nat ]} : gset nat) ∪ ∅) in Hn.
    change (n < 10)%nat.
    apply elem_of_union in Hn as [Hn | Hn].
    - apply elem_of_singleton in Hn as ->. lia.
    - by apply elem_of_empty in Hn. }
  destruct (start_stop_round_trip Fixture.homedir w eq_refl Hold)
    as ((_ & _ & Hwaited & _) & (_ & Hearly & _) & (Hoff & _) & Hwatched & Hleft & _
        & (_ & Hagain & _)).
  split; [reflexivity |]. split; [exact Hwaited |]. split; [exact Hearly |].
  split; [exact Hoff |]. split; [| exact Hagain].
  assert (Hs1 : is_Some (sw_sessionDirWatchers (w_sessionWatcher late) !! Fixture.s1)).
  { apply Hwatched. split; [| reflexivity].
    apply (bool_decide_unpack _). vm_compute. exact I. }
  destruct Hs1 as [h Hh]. exists h. split; [exact Hh |]. exact (Hleft _ _ Hh).
Defined.


(** X13 at a log of 10 bytes to which one message is appended: the
    offset is primed at 10 and the appended message is the only one
    delivered. *)
Lemma primeSessionOffset_skips_history_witness :
  let w := Fixture.tailingWorld Fixture.primed 0 in
  let primed := after (primeSessionOffset Fixture.s1) w in
  let delta := processEventsDelta Fixture.JSON_parse Fixture.Date_parse
                                  Fixture.s1Events Fixture.s1 in
  let w2 := after delta (set_fs Fixture.appendedOnce primed) in
  aw_fileOffsets (w_activityWatcher primed) !! Fixture.s1Events = Some 10
  /\ w_delivered (after delta primed) = []
  /\ aw_fileOffsets (w_activityWatcher w2) !! Fixture.s1Events = Some 13
  /\ map (fun d => u_messageId (snd d)) (w_delivered w2) = ["msg_1"].
Proof.
  intros w primed delta w2.
  destruct (primeSessionOffset_skips_history Fixture.JSON_parse Fixture.Date_parse
              Fixture.s1 w) as (_ & _ & _ & Hprimed).
  destruct (Hprimed (mkStats 900 10) eq_refl) as (Hoffset & (_ & Hquiet) & Hgrown).
  destruct (Hgrown 0%nat Fixture.appendedOnce (mkStats 901 13) (Fixture.unlines ["A1"])
                   eq_refl eq_refl ltac:(vm_compute; reflexivity) eq_refl)
    as (_ & Hoffset2 & Hdelivered).
  split; [exact Hoffset |]. split; [exact Hquiet |]. split; [exact Hoffset2 |].
  etransitivity;
    [exact (f_equal (map (fun d => u_messageId (snd d))) Hdelivered) |].
  vm_compute. reflexivity.
Defined.

(** X14 on a fresh process: the turn for [s1] examines the file, enters
    it in the index and selects the directory. *)
Lemma discoverSessionDir_turn_witness :
  let w := Fixture.freshWorld Fixture.twoSessions in
  let turn := discoverSessionDir Fixture.anyQuery ∅ false (mkDiscovery [] ∅ 0 0 0)
                                 Fixture.s1 in
  exists s',
    result turn w = Returned s'
    /\ sessionDirs s' = [mkDir "s1" Fixture.s1 700]
    /\ statCount s' = 1
    /\ w_sessionMetadataIndex (after turn w) !! Fixture.s1Events = Some (mkMeta 700 "s1").
Proof.
  intros w turn.
  destruct (discoverSessionDir_turn Fixture.anyQuery ∅ false (mkDiscovery [] ∅ 0 0 0)
              Fixture.s1 w) as (s' & Hres & _ & Hdirs & _ & Hstat).
  exists s'. split; [exact Hres |].
  assert (Hexamined :
            turnStats Fixture.anyQuery ∅ false (w_sessionMetadataIndex w)
                      (Path.join Fixture.s1 "events.jsonl") = true) by reflexivity.
  rewrite Hexamined in Hstat. destruct Hstat as (_ & Hcount & Hentry).
  assert (Hnow : w_sessionMetadataIndex (after turn w) !! Fixture.s1Events
                 = Some (mkMeta 700 "s1"))
    by (etransitivity; [exact Hentry | vm_compute; reflexivity]).
  split; [| split; [exact Hcount | exact Hnow]].
  etransitivity; [exact Hdirs |].
  change (Path.join Fixture.s1 "events.jsonl") with Fixture.s1Events.
  unfold turn in Hnow. rewrite Hnow. reflexivity.
Defined.


(** X16 on a fresh process: the rows of a first bulk query come back
    from a second one a tick later, although the files are others by
    then; once the root is gone the second query returns nothing. *)
Lemma result_cache_round_trip_witness :
  let w := Fixture.freshWorld Fixture.twoSessions in
  let query := parseSessionsFromDirs Fixture.JSON_parse Fixture.Date_parse
                 Fixture.homedir Fixture.CACHE_TTL_MS Fixture.evict Fixture.anyQuery in
  let rows := match result query w with Returned rows => rows | Raised => [] end in
  let w1 := after query w in
  query w = (Returned rows, w1)
  /\ List.length rows = 3%nat
  /\ lastResult (w_sessionCache w1) = rows
  /\ result query (set_fs Fixture.primed w1) = Returned rows
  /\ result query (set_fs Fixture.noRoot w1) = Returned [].
Proof.
  intros w query rows w1.
  assert (Hrows : result query w = Returned rows) by (vm_compute; reflexivity).
  assert (Hrun : query w = (Returned rows, w1)).
  { rewrite (surjective_pairing (query w)). unfold result in Hrows.
    by rewrite Hrows. }
  assert (Hsome : rows <> []) by (vm_compute; discriminate).
  destruct (result_cache_round_trip Fixture.JSON_parse Fixture.Date_parse
              Fixture.homedir Fixture.CACHE_TTL_MS Fixture.evict Fixture.anyQuery
              w w1 rows ltac:(vm_compute; reflexivity) eq_refl
              ltac:(vm_compute; reflexivity) Hrun) as (Hcache & Hagain).
  assert (Hyoung : w_clock w (w_ticks w1) - w_clock w (Nat.pred (w_ticks w1))
                   < Fixture.CACHE_TTL_MS) by (vm_compute; reflexivity).
  destruct (Hagain Fixture.anyQuery Fixture.primed eq_refl eq_refl eq_refl Hsome Hyoung)
    as (Hsame & _).
  destruct (Hagain Fixture.anyQuery Fixture.noRoot eq_refl eq_refl eq_refl Hsome Hyoung)
    as (Hgone & _).
  split; [exact Hrun |]. split; [vm_compute; reflexivity |].
  split; [by rewrite Hcache |]. split; [exact Hsame | exact Hgone].
Defined.

(** X17 in a process whose watcher has marked the log of [s1]: a query
    that runs the reconciliation leaves no mark and no sweep due. *)
Lemma reconciliation_consumes_and_prunes_witness :
  let w := Fixture.watchingWorld in
  let query := parseSessionsFromDirs Fixture.JSON_parse Fixture.Date_parse
                 Fixture.homedir Fixture.CACHE_TTL_MS Fixture.evict
                 (mkOptions (Some 5) None None) in
  sw_dirtyPaths (w_sessionWatcher w) = {[ Fixture.s1Events ]}
  /\ sw_dirtyPaths (w_sessionWatcher (after query w)) = ∅
  /\ w_forceFullReconciliation (after query w) = false.
Proof.
  intros w query.
  destruct (reconciliation_consumes_and_prunes Fixture.JSON_parse Fixture.Date_parse
              Fixture.homedir Fixture.CACHE_TTL_MS Fixture.evict
              (mkOptions (Some 5) None None) w
              ltac:(vm_compute; reflexivity) ltac:(vm_compute; reflexivity))
    as (Hdirty & Hforce & _).
  split; [reflexivity |]. split; [exact Hdirty | exact Hforce].
Defined.

(** X18 on a fresh process: the callback is registered, the offset of
    the log of [s1] is its size, [s1] is watched and nothing is
    delivered. *)
Lemma startActivityWatch_primes_witness :
  let w := Fixture.freshWorld Fixture.twoSessions in
  let w' := after (startActivityWatch Fixture.homedir 7) w in
  aw_started (w_activityWatcher w) = false
  /\ aw_callback (w_activityWatcher w') = Some 7%nat
  /\ aw_fileOffsets (w_activityWatcher w') !! Fixture.s1Events
     = Some (Z.of_nat (String.length Fixture.s1Log))
  /\ is_Some (aw_sessionDirWatchers (w_activityWatcher w') !! Fixture.s1)
  /\ w_delivered w' = [].
Proof.
  intros w w'.
  destruct (startActivityWatch_primes Fixture.homedir 7 w)
    as (_ & Hcb & _ & Hdelivered & _ & Hfresh & _).
  assert (Hdir : Fixture.s1 ∈ sessionDirsOf Fixture.homedir (w_fs w))
    by (apply (bool_decide_unpack _); vm_compute; exact I).
  destruct (Hfresh eq_refl Fixture.s1 Hdir) as (Hoffset & Hwatched).
  split; [reflexivity |]. split; [exact Hcb |].
  split; [exact (Hoffset (mkStats 700 (Z.of_nat (String.length Fixture.s1Log))) eq_refl) |].
  split; [exact (Hwatched eq_refl) | exact Hdelivered].
Defined.

(** X19 on a fresh process: a [rename] of [s1], whose [events.jsonl]
    exists, has [s1] watched; a [rename] of a directory without
    [events.jsonl] opens no watch; a [change] is ignored. *)
Lemma root_listener_watches_new_sessions_witness :
  let w := Fixture.freshWorld Fixture.twoSessions in
  let listen eventType name :=
    runListener Fixture.JSON_parse Fixture.Date_parse Fixture.homedir
                DirtyRootListener eventType (Some name) in
  is_Some (sw_sessionDirWatchers (w_sessionWatcher (after (listen "rename" "s1") w))
             !! Fixture.s1)
  /\ w_openWatchers (after (listen "rename" "s3") w) = w_openWatchers w
  /\ listen "change" "s1" w = (Returned tt, w).
Proof.
  intros w listen.
  destruct (root_listener_watches_new_sessions Fixture.JSON_parse Fixture.Date_parse
              Fixture.homedir "rename" (Some "s1") w) as (_ & _ & _ & Hs1).
  destruct (Hs1 "s1" eq_refl eq_refl ltac:(discriminate)) as (_ & _ & Hwatched & _).
  destruct (root_listener_watches_new_sessions Fixture.JSON_parse Fixture.Date_parse
              Fixture.homedir "rename" (Some "s3") w) as (_ & _ & _ & Hs3).
  destruct (Hs3 "s3" eq_refl eq_refl ltac:(discriminate)) as (_ & Habsent & _).
  destruct (root_listener_watches_new_sessions Fixture.JSON_parse Fixture.Date_parse
              Fixture.homedir "change" (Some "s1") w) as (_ & _ & Hignored & _).
  split; [| split].
  - apply Hwatched. right. split; [vm_compute; reflexivity | reflexivity].
  - exact (proj2 (Habsent ltac:(vm_compute; reflexivity))).
  - apply Hignored. left. discriminate.
Defined.

(** X20 on a fresh process: a [rename] of a directory without
    [events.jsonl] has the directory watched and no offset recorded; a
    [rename] of [s1] records the size of its log. *)
Lemma activity_root_listener_primes_witness :
  let w := Fixture.freshWorld Fixture.twoSessions in
  let listen name :=
    runListener Fixture.JSON_parse Fixture.Date_parse Fixture.homedir
                ActivityRootListener "rename" (Some name) in
  is_Some (aw_sessionDirWatchers (w_activityWatcher (after (listen "s3") w))
             !! "/home/u/.copilot/session-state/s3")
  /\ aw_fileOffsets (w_activityWatcher (after (listen "s3") w))
       !! "/home/u/.copilot/session-state/s3/events.jsonl" = None
  /\ aw_fileOffsets (w_activityWatcher (after (listen "s1") w)) !! Fixture.s1Events
     = Some (Z.of_nat (String.length Fixture.s1Log)).
Proof.
  intros w listen.
  destruct (activity_root_listener_primes Fixture.JSON_parse Fixture.Date_parse
              Fixture.homedir "rename" (Some "s3") w) as (_ & _ & _ & Hs3).
  destruct (Hs3 "s3" eq_refl eq_refl ltac:(discriminate)) as (Hwatched & Hoffset & _).
  destruct (activity_root_listener_primes Fixture.JSON_parse Fixture.Date_parse
              Fixture.homedir "rename" (Some "s1") w) as (_ & _ & _ & Hs1).
  destruct (Hs1 "s1" eq_refl eq_refl ltac:(discriminate)) as (_ & Hprimed & _).
  split; [| split].
  - apply Hwatched. right. reflexivity.
  - exact Hoffset.
  - exact Hprimed.
Defined.
